(* ===== verification/_CoqProject ===== *)
-Q . S2P
Prelude.v
Kernel.v
SockUtil.v
SockProps.v
Packet.v
UsbDesc.v
Base64.v
DList.v
Fdevent.v
Epoll.v
Trace.v
World.v
Transport.v
Listing.v
Sockets.v
Jdwp.v
ListingProps.v
Adb.v
Daemon.v
Flow.v
SocketTable.v
Closing.v
Teardown.v
Streams.v
TransportProps.v
Pipeline.v
UsbLock.v
JdwpProps.v
JdwpInv.v
JdwpTrack.v
Protocol.v
AuthClient.v
FileSync.v
FileSyncProps.v
OneShot.v
Services.v
Host.v
HostProps.v
HostMain.v
Handshake.v
ServicesProps.v
Mounts.v
Zip.v
ZipProps.v
ZipHeap.v
Utils.v
FsConfig.v
Init.v
