(* ===== verification/Prelude.v ===== *)
(** * adbd for the STM32F429: a verification development

    The program under [adbd/] is the device side of the Android Debug Bridge,
    ported to a microcontroller without MMU.  This library translates it to
    computations on an explicit state and proves what makes it correct.

    ** The program

    The main thread runs an event loop ([fdevent.c]) over descriptors.  A
    connection to a host is a transport ([transport.c], [transport_local.c],
    [transport_usb.c], [usb_linux_client.c]) with two threads that move packets
    between the link and a pipe to the main thread.  A packet that arrives is
    given to the protocol engine ([adb.c]), which authenticates the host
    ([adb_auth_client.c], [base64.c]) and opens, feeds and closes streams.  A
    stream is a pair of sockets ([sockets.c]): a local one that owns the
    descriptors of a service and a remote one that stands for the host's end.
    Services ([services.c], [file_sync_service.c] and the single-shot services)
    run in threads or processes of their own, on the other ends of pipes.  The
    JDWP service ([jdwp_service.c]) keeps the processes that can be debugged and
    hands them connections.  The same sources hold the server of the host side
    (ADB_HOST), and [init/init.c] is the first program of the system.

    ** The files

    - [Prelude]: faults, results, the state monad [M], weakest preconditions,
      invariants as preserved relations ([keeps]), machine integers.
    - [Kernel]: strings and printf conversions; the operating system as a script
      (below); [readx], [writex], [sendfailmsg].
    - [SockUtil], [SockProps]: [socket_*.c].
    - [Packet]: [amessage], [apacket], their checks, the TCP and the USB links
      behind the interface [RemoteLink] with its laws [RemoteLinkOk].
    - [UsbDesc]: the descriptors of [usb_linux_client.c] and [functionfs.h]; a reader
      of the documented format recovers the function ([functionfs_announces_adb]).
    - [Base64]: [base64.c].
    - [DList]: [list.c] and the other intrusive lists at the level of pointers.
    - [Fdevent], [Epoll]: [fdevent.c], the select back end with its invariant, and
      the epoll back end.
    - [Trace]: the trace mask, the dump functions and [qemu_pipe.h]; the mask is
      the one of the words ([adb_trace_init_mask]), the arrays are large enough
      ([dump_hex_text], [dump_all_fds_complete]).
    - [World]: the heap objects and static variables of the daemon; the event
      loop's state and the kernel are components of it.
    - [Transport], [Sockets], [Adb], [Daemon]: [transport*.c] with the USB handle,
      [sockets.c], [adb.c] and the threads, the main loop and the start-up.  The
      sockets of the JDWP service and the device trackers of [transport.c] are in
      [Sockets], since all socket functions call each other through pointers;
      [Listing] has the texts they send.
      Function pointers are constructors; the calls through them are recursion
      with a bound.  [Services] (a class of [Sockets]) is what the sockets need
      of the services, [Auth] (of [Adb]) what the engine needs of authentication.
    - [Jdwp]: the rest of [jdwp_service.c] (processes, control socket, hand-over) and
      the branches of [sockets.c] and [services.c] that reach it.
    - [AuthClient]: [adb_auth_client.c], an instance of [Auth]; [RSA_verify] is a
      parameter.
    - [FileSync]: [file_sync_service.c].
    - [OneShot]: [remount_service.c], [android_reboot.c], [log_service.c],
      [framebuffer_service.c], [backup_service.c].
    - [Services]: [services.c], an instance of the class of the same name.
    - [Host]: the code under ADB_HOST of [transport_local.c], [transport.c], [adb.c],
      [services.c] and [sockets.c], on the world of the device extended by the
      table of emulators; the USB driver of the host is the class [HostUsb].
    - [HostMain]: the engine, the threads and the start-up of the host; its keys and
      its command line are the classes [HostAuth] and [HostStart].
    - [Zip]: [centraldir.c], [zipfile.c]; [inflate] is a parameter.  [ZipHeap] has
      [init_zipfile] and [release_zipfile] on a heap of linked entries.
    - [UsbLock]: the lock and the condition variable of the USB handle, as
      interleaved steps of the opening thread, the kicks, the readers and writers.
    - [FsConfig]: [android_filesystem_config.h]; fs_config applies the first rule that
      covers a path ([fs_config_first_rule]).
    - [Init]: [init/init.c].
    - [Utils]: [utils.c], [load_file.c], [abort_socket.c], which the daemon does not
      use; appending to a bounded buffer equals a reference definition
      ([buff_append]), a cancelled call does not touch its socket
      ([asocket_cancelled]).
    - Theorems: [Flow] (order of bytes in a socket), [SocketTable] (the table of
      sockets refines a finite map), [Closing] and [Teardown] (closing streams and
      connections), [Streams] (what each protocol packet does to a stream),
      [TransportProps] (connection threads, release, choice of a transport),
      [Pipeline] (the output thread against a reference parser, and two threads
      at the ends of a link), [Handshake] (a host and a device that authenticate),
      [Protocol] (authentication over any run of the main loop), [JdwpProps]
      (handshake and hand-over), [JdwpInv] (the invariant of the JDWP service),
      [JdwpTrack] (trackers), [ListingProps], [HostProps], [FileSyncProps],
      [ServicesProps], [Mounts] (mount tables), [ZipProps]; the theorems of
      the other files are in these files.

    ** State, system calls, memory

    A C function is a computation of type [M state result]: it returns, leaves the
    process, or commits a fault (NULL or freed memory, uninitialised memory, an
    index out of bounds, a lock taken twice).  Objects live in finite maps from
    addresses; a static variable is a field of the state.  The kernel ([kern])
    is a script: for every descriptor the events that reads and writes meet
    (data in pieces of any size, short writes, errors, end of file), for the
    other calls a list of answers, for malloc which calls fail.  Theorems
    quantify over the script, so they hold for every behaviour of the system that
    a finite run can meet.  All calls are recorded in a trace.  Threads interleave
    only through descriptors and locks: a step of a thread is one iteration of its
    loop, and taking a held lock is a fault; [UsbLock] has the finer steps of the
    handle that threads share without a pipe.  Integers are Z with the wrap-around
    of their width written out ([u8], [u16], [u32], [s32]).

    ** Bounds

    Loops that are not structural carry a bound.  Loops over input are bounded by
    the size of the script of the descriptor ([read_fuel], [2 + length]), since
    every iteration takes an event or a byte; loops over lists by their length;
    parsers by the length of their text; the mutual calls of the close functions
    by the bounds of [Sockets].  That the bounds are enough is proved: the fault
    [OutOfFuel] is excluded by the theorems on each loop ([readx_spec],
    [writex_spec], [drain_queue_fifo], [closing_terminates],
    [file_sync_service_ends], [services_end_closed], [reload_keys_wf] and so on).
    The one loop that really does not end is the waiter of a shell
    ([waiter_notifies]).

    ** What the theorems show

    - Authentication: no transport goes online without a signature that a trusted
      key verifies (C1, C2); a host and a device that exchange packets end as a
      reference function says (C3); offline transports reach nothing (C4).
    - Streams: what OPEN, WRTE, OKAY and CLSE do, flow control in both directions,
      order and completeness of the data (C5 to C10); closing frees both halves,
      tells the host once and leaves no reference (C11 to C14); identifiers are a
      finite map (C15).
    - Connections: nothing passes before the SYNC packet of the connection, and a
      transport is released once (C16, C17); the USB handle is opened and closed in
      turns in every interleaving and never deadlocks (C18, C19).
    - Event loop: its invariant in every reachable state, what a round delivers,
      and the equivalence of the two back ends (C20 to C22).
    - Links: the output thread hands over what a reference parser finds in the bytes
      (C23), packets cross a link in order and unchanged (C24), and whatever arrives
      is checked (C25).
    - File transfer: contents written and sent, round trip, termination (C26 to C28).
    - Services: termination and descriptors (C29, C30).
    - JDWP: the objects stay well formed in every reachable state (C31); the
      handshake, requests and hand-over of connections (C32 to C34); what the
      trackers are sent (C35) and the list they read ([jdwp_list_fits]).
    - Host side: the table of emulators ([emulator_registered_once]); requests with a
      serial are taken apart as they were put together ([host_serial_roundtrip]).
    - Addresses, archives, keys and lists (C36 to C39); base64 ([pton_spec]); the
      memory of an archive ([zip_memory]).
    - The first program: its calls for every behaviour of the kernel (C40).

    Flaws that the proofs showed are theorems too ([fdevent_set_drops_wanted],
    [link_target_needs_nul], [log_missing_file], [failed_fork_waits],
    [backup_keeps_dummy], [central_dir_overread], [lookup_zipentry_finds_prefix],
    [torn_down_tracker_dangles], [negative_pid_spins], [handed_over_closed_twice],
    [refused_process_leaks], [long_listing_overruns], [long_host_unterminated],
    [missing_port_uninitialised], [failed_exec_reports_success], [dont_close_exits],
    [trace_adb_traces_all], [big_endian_descriptors_rejected], [shadowed_rules],
    [messages_truncated], [refused_archive_leaks], [late_reader_uses_next_session]).

    ** Configurations

    The board builds the device side with ADBD_NO_PTY and the select back end.
    Flags of [adb_main] choose whether it listens and whether the JDWP service is
    compiled in; the host side has its own definitions in [Host] and [HostMain],
    named after the functions of the device with the prefix [host_] where both
    exist.

    ** Not modelled

    - The Windows parts of [sysdeps.h] and [launch_server].
    - The keys, the USB access and the command line of the host, whose sources are
      not in the repository: they are classes with the calls the code makes.
    - Where traces are printed.
    - [arpa_nameser.h] and [arpa_nameser_compat.h], constants nothing uses. *)

From Stdlib Require Export ZArith Lia.
From stdpp Require Export base gmap list strings numbers.

Open Scope Z_scope.

(** ** Faults and results

    A C function is a computation on an explicit state.  It returns a value,
    leaves the process (exit, abort in fatal), or commits a fault: an access
    the C standard leaves undefined, or a lock taken twice by one thread. *)

Inductive fault :=
| NullDeref        (* a NULL pointer is dereferenced *)
| UseAfterFree     (* the object is not (or no longer) allocated *)
| Uninitialised    (* a variable or an array element is read before being written *)
| OutOfBounds      (* an array access outside of its bounds *)
| Deadlock         (* a non-recursive mutex is locked again by its owner *)
| OutOfFuel.       (* the bound of a modelled loop was too small *)

#[export] Instance fault_eq_dec : EqDecision fault.
Proof. solve_decision. Defined.

Inductive res (S A : Type) :=
| Ok (a : A) (s : S)
| Exit (code : Z) (s : S)
| Fault (f : fault) (s : S).
Arguments Ok {S A} a s.
Arguments Exit {S A} code s.
Arguments Fault {S A} f s.

Definition M (S A : Type) := S → res S A.

Definition ret {S A} (a : A) : M S A := λ s, Ok a s.
Definition bind {S A B} (m : M S A) (k : A → M S B) : M S B := λ s,
  match m s with
  | Ok a s' => k a s'
  | Exit c s' => Exit c s'
  | Fault f s' => Fault f s'
  end.
Definition when {S} (c : bool) (m : M S unit) : M S unit := if c then m else ret tt.

Definition get {S} : M S S := λ s, Ok s s.
Definition gets {S A} (f : S → A) : M S A := λ s, Ok (f s) s.
Definition modify {S} (f : S → S) : M S unit := λ s, Ok tt (f s).
Definition fail {S A} (f : fault) : M S A := λ s, Fault f s.
Definition exit {S A} (code : Z) : M S A := λ s, Exit code s.

(** Dereference: an absent object is a fault. *)
Definition deref {S A} (f : fault) (o : S → option A) : M S A := λ s,
  match o s with Some a => Ok a s | None => Fault f s end.

Declare Scope adb_scope.
Delimit Scope adb_scope with adb.
Notation "'do' x <- m ; k" := (bind m (λ x, k))
  (at level 10, x name, m at level 100, k at level 200) : adb_scope.
Notation "'do' ' p <- m ; k" := (bind m (λ x, match x with p => k end))
  (at level 10, p pattern, m at level 100, k at level 200) : adb_scope.
Notation "m ;;; k" := (bind m (λ _, k))
  (at level 100, k at level 200, right associativity) : adb_scope.
Open Scope adb_scope.

(** Run a computation on a component of the state. *)
Definition zoom {S T A} (prj : T → S) (upd : S → T → T) (m : M S A) : M T A := λ t,
  match m (prj t) with
  | Ok a s => Ok a (upd s t)
  | Exit c s => Exit c (upd s t)
  | Fault f s => Fault f (upd s t)
  end.

(** ** Weakest preconditions

    [wp m Q E s]: from [s], [m] commits no fault; it returns with [Q] or
    leaves the process with [E]. *)

Definition wp {S A} (m : M S A) (Q : A → S → Prop) (E : Z → S → Prop) (s : S) : Prop :=
  match m s with
  | Ok a s' => Q a s'
  | Exit c s' => E c s'
  | Fault _ _ => False
  end.

(** Any way of leaving the process is acceptable. *)
Definition may_exit {S} : Z → S → Prop := λ _ _, True.

Section wp.
Context {S : Type}.
Implicit Types s : S.

Lemma wp_mono {A} (m : M S A) (Q Q' : A → S → Prop) (E E' : Z → S → Prop) s :
  wp m Q E s → (∀ a s', Q a s' → Q' a s') → (∀ c s', E c s' → E' c s') → wp m Q' E' s.
Proof. unfold wp. destruct (m s); eauto. Qed.

Lemma wp_bind {A B} (m : M S A) (k : A → M S B) Q E s :
  wp m (λ a, wp (k a) Q E) E s → wp (bind m k) Q E s.
Proof. unfold wp, bind. by destruct (m s). Qed.

Lemma wp_ret {A} (a : A) (Q : A → S → Prop) E s : Q a s → wp (ret a) Q E s.
Proof. done. Qed.

Lemma wp_get (Q : S → S → Prop) E s : Q s s → wp get Q E s.
Proof. done. Qed.

Lemma wp_gets {A} (f : S → A) (Q : A → S → Prop) E s : Q (f s) s → wp (gets f) Q E s.
Proof. done. Qed.

Lemma wp_modify (f : S → S) (Q : unit → S → Prop) E s :
  Q tt (f s) → wp (modify f) Q E s.
Proof. done. Qed.

Lemma wp_exit {A} c (Q : A → S → Prop) (E : Z → S → Prop) s : E c s → wp (exit c) Q E s.
Proof. done. Qed.

Lemma wp_deref {A} f (o : S → option A) (Q : A → S → Prop) E s a :
  o s = Some a → Q a s → wp (deref f o) Q E s.
Proof. intros H HQ. unfold wp, deref. by rewrite H. Qed.

Lemma wp_if {A} (b : bool) (m1 m2 : M S A) Q E s :
  (b = true → wp m1 Q E s) → (b = false → wp m2 Q E s) → wp (if b then m1 else m2) Q E s.
Proof. destruct b; auto. Qed.

(** The value of a computation that does not exit. *)
Lemma wp_ok {A} (m : M S A) Q E s a s' : m s = Ok a s' → wp m Q E s ↔ Q a s'.
Proof. intros H. unfold wp. by rewrite H. Qed.

Lemma bind_ok {A B} (m : M S A) (k : A → M S B) s a s' :
  m s = Ok a s' → (bind m k) s = k a s'.
Proof. intros H. unfold bind. by rewrite H. Qed.

Lemma bind_assoc {A B C} (m : M S A) (k : A → M S B) (l : B → M S C) s :
  (bind (bind m k) l) s = bind m (λ a, bind (k a) l) s.
Proof. unfold bind. by destruct (m s). Qed.
Lemma bind_same {A B} (m m' : M S A) (f : A → M S B) s s' : m s = m' s' → bind m f s = bind m' f s'.
Proof. unfold bind. by intros ->. Qed.
End wp.

(** [run H] rewrites a computation with the equation of its first step *)
Ltac run H := rewrite (bind_ok _ _ _ _ _ H).

Lemma wp_zoom {S T A} (prj : T → S) (upd : S → T → T) (m : M S A) Q E t :
  wp m (λ a s, Q a (upd s t)) (λ c s, E c (upd s t)) (prj t) →
  wp (zoom prj upd m) Q E t.
Proof. unfold wp, zoom. by destruct (m (prj t)). Qed.

Create HintDb adb.
Create Rewrite HintDb adb.

(** [wp_step] advances over the primitive computations. *)
Ltac wp_step :=
  match goal with
  | |- wp (bind _ _) _ _ _ => apply wp_bind
  | |- wp (ret _) _ _ _ => apply wp_ret
  | |- wp get _ _ _ => apply wp_get
  | |- wp (gets _) _ _ _ => apply wp_gets
  | |- wp (modify _) _ _ _ => apply wp_modify
  | |- wp (exit _) _ _ _ => apply wp_exit; try done
  | |- wp (deref _ _) _ _ _ => eapply wp_deref; [eassumption || done |]
  end; cbn beta.
Ltac wp_steps := repeat wp_step.

(** ** Relations kept by computations

    [keeps R m]: however [m] ends, its final state is related to the initial
    one.  For a preorder [R] this is compositional, so a frame property of a
    whole component is proved by its structure ([keeps_tac]). *)

Definition final {S A} (r : res S A) : S :=
  match r with Ok _ s | Exit _ s | Fault _ s => s end.
Definition keeps {S A} (R : S → S → Prop) (m : M S A) : Prop := ∀ s, R s (final (m s)).

Section keeps.
Context {S : Type} (R : S → S → Prop) `{!PreOrder R}.

Lemma keeps_ret {A} (a : A) : keeps R (ret a).
Proof. intros s. reflexivity. Qed.
Lemma keeps_bind {A B} (m : M S A) (k : A → M S B) :
  keeps R m → (∀ a, keeps R (k a)) → keeps R (bind m k).
Proof.
  intros Hm Hk s. specialize (Hm s). unfold bind. destruct (m s) as [a s'| |]; cbn in *; [|done..].
  etrans; [done|apply Hk].
Qed.
Lemma keeps_get : keeps R get.
Proof. intros s. cbn. reflexivity. Qed.
Lemma keeps_gets {A} (f : S → A) : keeps R (gets f).
Proof. intros s. cbn. reflexivity. Qed.
Lemma keeps_fail {A} f : keeps R (fail f : M S A).
Proof. intros s. cbn. reflexivity. Qed.
Lemma keeps_exit {A} c : keeps R (exit c : M S A).
Proof. intros s. cbn. reflexivity. Qed.
Lemma keeps_deref {A} f (o : S → option A) : keeps R (deref f o).
Proof. intros s. unfold deref. destruct (o s); cbn; reflexivity. Qed.
Lemma keeps_when b m : keeps R m → keeps R (when b m).
Proof. intros H. destruct b; [done|apply keeps_ret]. Qed.
Lemma keeps_modify f : (∀ s, R s (f s)) → keeps R (modify f).
Proof. intros H s. cbn. apply H. Qed.
End keeps.

Lemma keeps_zoom {S T A} (RS : S → S → Prop) (RT : T → T → Prop) prj upd (m : M S A) :
  keeps RS m → (∀ t s, RS (prj t) s → RT t (upd s t)) → keeps RT (zoom prj upd m).
Proof. intros Hm H t. specialize (Hm (prj t)). unfold zoom. destruct (m (prj t)); cbn in *; auto. Qed.

(** one structural step; [db] has the lemmas of the operations called *)
Ltac keeps_step :=
  lazymatch goal with
  | |- keeps _ (bind _ _) => apply keeps_bind; [apply _| |intros ?]
  | |- keeps _ (ret _) => apply keeps_ret; apply _
  | |- keeps _ get => apply keeps_get; apply _
  | |- keeps _ (gets _) => apply keeps_gets; apply _
  | |- keeps _ (fail _) => apply keeps_fail; apply _
  | |- keeps _ (exit _) => apply keeps_exit; apply _
  | |- keeps _ (deref _ _) => apply keeps_deref; apply _
  | |- keeps _ (when _ _) => apply keeps_when; [apply _|]
  | |- keeps _ (match ?x with _ => _ end) => destruct x
  | |- keeps _ (let _ := _ in _) => cbv zeta
  end.

(** ** Machine integers *)

Definition u32 (x : Z) : Z := x mod 2 ^ 32.
Definition u16 (x : Z) : Z := x mod 2 ^ 16.
Definition u8 (x : Z) : Z := x mod 2 ^ 8.
(** the value of an int read back from 32 bits *)
Definition s32 (x : Z) : Z := (x + 2 ^ 31) mod 2 ^ 32 - 2 ^ 31.

Lemma u32_range x : 0 ≤ u32 x < 2 ^ 32.
Proof. apply Z.mod_pos_bound; lia. Qed.
Lemma u16_range x : 0 ≤ u16 x < 2 ^ 16.
Proof. apply Z.mod_pos_bound; lia. Qed.
Lemma u8_range x : 0 ≤ u8 x < 2 ^ 8.
Proof. apply Z.mod_pos_bound; lia. Qed.
Lemma u32_id x : 0 ≤ x < 2 ^ 32 → u32 x = x.
Proof. apply Z.mod_small. Qed.
Lemma u16_id x : 0 ≤ x < 2 ^ 16 → u16 x = x.
Proof. apply Z.mod_small. Qed.
Lemma u8_id x : 0 ≤ x < 2 ^ 8 → u8 x = x.
Proof. apply Z.mod_small. Qed.
Lemma u32_idem x : u32 (u32 x) = u32 x.
Proof. apply u32_id, u32_range. Qed.
#[export] Hint Resolve u32_range u16_range u8_range : adb.

Definition is_byte (b : Z) : Prop := 0 ≤ b < 256.
#[export] Instance is_byte_dec b : Decision (is_byte b).
Proof. unfold is_byte. apply _. Defined.

(** ** Lists *)

Lemma take_app_exact {A} (l k : list A) : take (length l) (l ++ k) = l.
Proof. by rewrite take_app_length. Qed.

Lemma drop_app_exact {A} (l k : list A) : drop (length l) (l ++ k) = k.
Proof. by rewrite drop_app_length. Qed.

Lemma take_drop_split {A} (n m : nat) (l : list A) :
  (n ≤ m)%nat → take m l = take n l ++ take (m - n) (drop n l).
Proof.
  intros H. rewrite take_take_drop. f_equal. lia.
Qed.

(** ** Finite sets *)

Lemma size_remove (s : gset Z) (i : Z) : i ∈ s → size s = S (size (s ∖ {[i]})).
Proof.
  intros H. assert (Hs : s = {[i]} ∪ s ∖ {[i]}) by (apply union_difference_L; set_solver).
  rewrite Hs at 1. rewrite (size_union {[i]}) by set_solver. by rewrite size_singleton.
Qed.

Lemma size_add (s : gset Z) (i : Z) : i ∉ s → size ({[i]} ∪ s) = S (size s).
Proof. intros H. rewrite (size_union {[i]}) by set_solver. by rewrite size_singleton. Qed.
