(* ===== verification/Kernel.v ===== *)
(** * The kernel seen by the daemon

    System calls are answered by scripts: for every descriptor the pending
    behaviours of read and write, and one script for all other calls.  Any
    finite run of the daemon against any kernel is a run against suitable
    scripts, so a theorem that quantifies over the scripts holds for every
    kernel.  What the daemon does is recorded: the bytes accepted by each
    descriptor ([k_out]) and the other calls in order ([k_trace]).

    An exhausted read script is end of file; an exhausted write script fails
    with EPIPE; an exhausted call script fails with ENOSYS.

    Then the input and output helpers of adbd/include/sysdeps.h and
    adbd/src/transport.c (adb_read, adb_write, readx, writex), the C string
    functions and printf conversions the daemon uses, and sendfailmsg. *)

From S2P Require Import Prelude.

(** ** Errno values (Linux) *)
Definition ENOENT : Z := 2.
Definition EINTR : Z := 4.
Definition EBADF : Z := 9.
Definition EAGAIN : Z := 11.
Definition EEXIST : Z := 17.
Definition EPIPE : Z := 32.
Definition ENOSYS : Z := 38.

(** ** C strings: lists of nonzero bytes, the terminating NUL left out *)

Definition str (s : string) : list Z :=
  (λ c, Z.of_N (Ascii.N_of_ascii c)) <$> String.list_ascii_of_string s.

(** The string at the start of an array: None when no NUL is in it. *)
Fixpoint cstring (buf : list Z) : option (list Z) :=
  match buf with
  | [] => None
  | c :: buf' => if c =? 0 then Some [] else (c ::.) <$> cstring buf'
  end.

Fixpoint strcmp_eq (a b : list Z) : bool :=
  match a, b with
  | [], [] => true
  | x :: a', y :: b' => (x =? y) && strcmp_eq a' b'
  | _, _ => false
  end.

(** [strncmp_eq a b n]: strncmp(a, b, n) == 0 *)
Fixpoint strncmp_eq (a b : list Z) (n : nat) : bool :=
  match n with
  | O => true
  | S n' =>
      match a, b with
      | [], [] => true
      | x :: a', y :: b' => (x =? y) && strncmp_eq a' b' n'
      | _, _ => false
      end
  end.

(** [strchr s c]: the suffix that starts at the first [c] (c not NUL) *)
Fixpoint strchr (s : list Z) (c : Z) : option (list Z) :=
  match s with
  | [] => None
  | x :: s' => if x =? c then Some s else strchr s' c
  end.

(** the part before the first [c]; the whole string when there is none *)
Fixpoint before (s : list Z) (c : Z) : list Z :=
  match s with
  | [] => []
  | x :: s' => if x =? c then [] else x :: before s' c
  end.

Lemma strcmp_eq_spec a b : strcmp_eq a b = true ↔ a = b.
Proof.
  revert b. induction a as [|x a IH]; intros [|y b]; simpl; try done.
  rewrite andb_true_iff, Z.eqb_eq, IH. split; [intros [-> ->]; done | intros [= -> ->]; done].
Qed.

Lemma strncmp_eq_prefix a b :
  strncmp_eq a b (length b) = true ↔ b `prefix_of` a.
Proof.
  revert a. induction b as [|y b IH]; intros a; simpl.
  - split; intros _; [apply prefix_nil | by destruct a].
  - destruct a as [|x a]; simpl.
    + split; [done | intros H; by apply prefix_nil_not in H].
    + rewrite andb_true_iff, Z.eqb_eq, IH. split.
      * intros [-> H]. by apply prefix_cons.
      * intros H. split; [by apply prefix_cons_inv_1 in H | by apply prefix_cons_inv_2 in H].
Qed.

Lemma strchr_split s c r : strchr s c = Some r → ∃ r', r = c :: r' ∧ s = before s c ++ r.
Proof.
  induction s as [|x s IH]; simpl; [done|].
  destruct (Z.eqb_spec x c) as [->|]; [intros [= <-]; eauto |].
  intros H. destruct (IH H) as (r' & -> & Hs). eexists; split; [done|]. cbn. by rewrite <- Hs.
Qed.

Lemma before_not_in s c : c ∉ before s c.
Proof.
  induction s as [|x s IH]; simpl; [set_solver|].
  destruct (Z.eqb_spec x c); set_solver.
Qed.

Lemma cstring_app s buf : 0 ∉ s → cstring (s ++ 0 :: buf) = Some s.
Proof.
  induction s as [|x s IH]; simpl; [done|]. intros Hs.
  destruct (Z.eqb_spec x 0); [set_solver|]. rewrite IH by set_solver. done.
Qed.

Lemma cstring_no_nul buf s : cstring buf = Some s → 0 ∉ s.
Proof.
  revert s. induction buf as [|x buf IH]; simpl; [done|]. intros s.
  destruct (Z.eqb_spec x 0); [intros [= <-]; set_solver|].
  destruct (cstring buf) as [r|]; cbn; [|done]. intros [= <-]. specialize (IH r eq_refl). set_solver.
Qed.

(** ** printf conversions *)

Definition digit (d : Z) : Z := if d <? 10 then 48 + d else 87 + d.

(** the digits of [n >= 0] in [base], most significant first *)
Fixpoint digits (fuel : nat) (base n : Z) (acc : list Z) : list Z :=
  match fuel with
  | O => acc
  | S f =>
      let acc' := digit (n mod base) :: acc in
      if n / base =? 0 then acc' else digits f base (n / base) acc'
  end.

(** %d of an int; 11 characters are enough for 32 bits *)
Definition fmt_d (n : Z) : list Z :=
  if n <? 0 then 45 :: digits 10 10 (- n) [] else digits 10 10 n [].
(** %x of an unsigned *)
Definition fmt_x (n : Z) : list Z := digits 8 16 n [].
(** %04x *)
Definition fmt_04x (n : Z) : list Z :=
  let d := fmt_x n in replicate (4 - length d) 48 ++ d.

(** atoi / strtol in base 10: blanks, a sign, digits; no digits give 0 *)
Definition isspace (c : Z) : bool := (c =? 32) || ((9 <=? c) && (c <=? 13)).
Definition isdigit (c : Z) : bool := (48 <=? c) && (c <=? 57).
Fixpoint skip_spaces (s : list Z) : list Z :=
  match s with
  | c :: s' => if isspace c then skip_spaces s' else s
  | [] => []
  end.
Fixpoint atoi_digits (s : list Z) (acc : Z) : Z :=
  match s with
  | c :: s' => if isdigit c then atoi_digits s' (acc * 10 + (c - 48)) else acc
  | [] => acc
  end.
Definition atoi (s : list Z) : Z :=
  match skip_spaces s with
  | 45 :: s' => s32 (- atoi_digits s' 0)
  | 43 :: s' => s32 (atoi_digits s' 0)
  | s' => s32 (atoi_digits s' 0)
  end.

(** ** Kernel state *)

Inductive rd_ev :=
| RdData (bs : list Z)     (* these bytes are available; none: end of file *)
| RdErr (e : Z).           (* read fails with errno e *)
Inductive wr_ev :=
| WrOk (n : nat)           (* n more bytes are accepted; none: write returns 0 *)
| WrErr (e : Z).

(** The other system calls and library calls that reach outside. *)
Inductive sysarg := AZ (z : Z) | AS (s : list Z).
#[export] Instance sysarg_eq_dec : EqDecision sysarg.
Proof. solve_decision. Defined.
Record syscall := Sys { sys_name : string; sys_args : list sysarg }.
Record sysres := SysRes { sr_ret : Z; sr_errno : Z; sr_out : list Z }.

Record kern := mkKern {
  k_errno : Z;
  k_rd : gmap Z (list rd_ev);
  k_wr : gmap Z (list wr_ev);
  k_out : gmap Z (list Z);
  k_sys : list sysres;
  k_trace : list syscall;
  k_oom : list bool;    (* which of the next allocations fail; then none does *)
}.

Definition rd_of (fd : Z) (k : kern) : list rd_ev := default [] (k_rd k !! fd).
Definition wr_of (fd : Z) (k : kern) : list wr_ev := default [] (k_wr k !! fd).
Definition out_of (fd : Z) (k : kern) : list Z := default [] (k_out k !! fd).

Definition set_errno (e : Z) (k : kern) : kern :=
  mkKern e (k_rd k) (k_wr k) (k_out k) (k_sys k) (k_trace k) (k_oom k).
Definition set_rd (fd : Z) (s : list rd_ev) (k : kern) : kern :=
  mkKern (k_errno k) (<[fd := s]> (k_rd k)) (k_wr k) (k_out k) (k_sys k) (k_trace k) (k_oom k).
Definition set_wr (fd : Z) (s : list wr_ev) (k : kern) : kern :=
  mkKern (k_errno k) (k_rd k) (<[fd := s]> (k_wr k)) (k_out k) (k_sys k) (k_trace k) (k_oom k).
Definition add_out (fd : Z) (bs : list Z) (k : kern) : kern :=
  mkKern (k_errno k) (k_rd k) (k_wr k) (<[fd := out_of fd k ++ bs]> (k_out k))
    (k_sys k) (k_trace k) (k_oom k).
Definition set_sys (l : list sysres) (k : kern) : kern :=
  mkKern (k_errno k) (k_rd k) (k_wr k) (k_out k) l (k_trace k) (k_oom k).
Definition add_trace (c : syscall) (k : kern) : kern :=
  mkKern (k_errno k) (k_rd k) (k_wr k) (k_out k) (k_sys k) (k_trace k ++ [c]) (k_oom k).

(** One call answered by the script; its extra results are returned too. *)
Definition sys (name : string) (args : list sysarg) : M kern (Z * list Z) := λ k,
  let k1 := add_trace (Sys name args) k in
  match k_sys k with
  | [] => Ok (-1, []) (set_errno ENOSYS k1)
  | r :: rest =>
      let k2 := set_sys rest k1 in
      Ok (sr_ret r, sr_out r) (if sr_ret r <? 0 then set_errno (sr_errno r) k2 else k2)
  end.
Definition sys_ (name : string) (args : list sysarg) : M kern Z :=
  do '(r, _) <- sys name args; ret r.

(** A call whose result the code ignores and that has no other effect the
    model follows: only recorded. *)
Definition note (name : string) (args : list sysarg) : M kern unit :=
  modify (add_trace (Sys name args)).

(** malloc and the like: false when the allocation fails *)
Definition malloc_ok : M kern bool := λ k,
  match k_oom k with
  | [] => Ok true k
  | b :: rest => Ok (negb b) (mkKern (k_errno k) (k_rd k) (k_wr k) (k_out k) (k_sys k) (k_trace k) rest)
  end.

Definition adb_close (fd : Z) : M kern unit := note "close" [AZ fd].
Definition adb_sleep_ms (mseconds : Z) : M kern unit := note "usleep" [AZ (mseconds * 1000)].
Definition disable_tcp_nagle (fd : Z) : M kern unit :=
  note "setsockopt" [AZ fd; AS (str "IPPROTO_TCP"); AS (str "TCP_NODELAY"); AZ 1].
Definition adb_socket_setbufsize (fd bufsize : Z) : M kern unit :=
  note "setsockopt" [AZ fd; AS (str "SOL_SOCKET"); AS (str "SO_RCVBUF"); AZ bufsize].
Definition close_on_exec (fd : Z) : M kern unit := note "cloexec" [AZ fd].

(** sysdeps.h: open and accept set the close-on-exec flag, a socket pair is a
    pipe.  A call interrupted by a signal is repeated, so the script has its
    final answer. *)
Definition adb_open (path : list Z) : M kern Z :=
  do d <- sys_ "open" [AS path];
  if d <? 0 then ret (-1) else close_on_exec d;;; ret d.
Definition adb_socket_accept (serverfd : Z) : M kern Z :=
  do d <- sys_ "accept" [AZ serverfd];
  when (0 <=? d) (close_on_exec d);;;
  ret d.
Definition adb_socketpair : M kern (Z * list Z) :=
  do '(rc, sv) <- sys "pipe" [];
  if rc <? 0 then ret (-1, sv)
  else
    close_on_exec (default 0 (sv !! 0%nat));;;
    close_on_exec (default 0 (sv !! 1%nat));;;
    ret (0, sv).

(** ** read and write on scripts *)

(** TEMP_FAILURE_RETRY(read(fd, buf, len)): [inl bs] the bytes read (none at
    end of file), [inr e] the call failed with errno [e]. *)
Fixpoint read_script (s : list rd_ev) (len : nat) : (list Z + Z) * list rd_ev :=
  match s with
  | [] => (inl [], [])
  | RdErr e :: s' => if e =? EINTR then read_script s' len else (inr e, s')
  | RdData bs :: s' =>
      if decide (length bs ≤ len)%nat then (inl bs, s')
      else (inl (take len bs), RdData (drop len bs) :: s')
  end.

(** TEMP_FAILURE_RETRY(write(fd, buf, len)): [inl n] bytes accepted. *)
Fixpoint write_script (s : list wr_ev) (len : nat) : (nat + Z) * list wr_ev :=
  match s with
  | [] => (inr EPIPE, [])
  | WrErr e :: s' => if e =? EINTR then write_script s' len else (inr e, s')
  | WrOk n :: s' =>
      if decide (n ≤ len)%nat then (inl n, s') else (inl len, WrOk (n - len) :: s')
  end.

Definition adb_read (fd : Z) (len : nat) : M kern (list Z + Z) := λ k,
  let '(r, s') := read_script (rd_of fd k) len in
  match r with
  | inl bs => Ok (inl bs) (set_rd fd s' k)
  | inr e => Ok (inr e) (set_errno e (set_rd fd s' k))
  end.

Definition adb_write (fd : Z) (bs : list Z) : M kern (nat + Z) := λ k,
  let '(r, s') := write_script (wr_of fd k) (length bs) in
  match r with
  | inl n => Ok (inl n) (add_out fd (take n bs) (set_wr fd s' k))
  | inr e => Ok (inr e) (set_errno e (set_wr fd s' k))
  end.

(** ** readx and writex (transport.c)

    [readx] returns the bytes on success (C result 0) and None on error or
    end of file (C result -1).  Every iteration that goes on consumes an
    event of the script, so one more iteration than events is enough. *)

Fixpoint readx_loop (fuel : nat) (fd : Z) (len : nat) (acc : list Z) : M kern (option (list Z)) :=
  match fuel with
  | O => fail OutOfFuel
  | S fuel' =>
      if decide (len = 0)%nat then ret (Some acc)
      else
        do r <- adb_read fd len;
        match r with
        | inl [] => ret None
        | inl bs => readx_loop fuel' fd (len - length bs) (acc ++ bs)
        | inr e => if e =? EINTR then readx_loop fuel' fd len acc else ret None
        end
  end.

Definition readx (fd : Z) (len : nat) : M kern (option (list Z)) := λ k,
  readx_loop (2 + length (rd_of fd k)) fd len [] k.

(** [writex]: true when everything was written (C result 0). *)
Fixpoint writex_loop (fuel : nat) (fd : Z) (bs : list Z) : M kern bool :=
  match fuel with
  | O => fail OutOfFuel
  | S fuel' =>
      match bs with
      | [] => ret true
      | _ =>
          do r <- adb_write fd bs;
          match r with
          | inl O => ret false
          | inl n => writex_loop fuel' fd (drop n bs)
          | inr e => if e =? EINTR then writex_loop fuel' fd bs else ret false
          end
      end
  end.

Definition writex (fd : Z) (bs : list Z) : M kern bool := λ k,
  writex_loop (2 + length (wr_of fd k)) fd bs k.

(** sendfailmsg (sockets.c): "FAIL", the length in four hex digits, the reason *)
Definition sendfailmsg (fd : Z) (reason : list Z) : M kern bool :=
  let len := Z.min (Z.of_nat (length reason)) 0xffff in
  do ok <- writex fd (take 8 (str "FAIL" ++ fmt_04x len));
  if ok then writex fd (take (Z.to_nat len) reason) else ret false.

(** ** Streams

    What a sequence of successful reads can obtain from a script: the data
    up to the first end of file or error other than EINTR, whatever the
    chunks it arrives in.  [wcap] is the same for writes: the number of bytes
    accepted before the first failure. *)

Fixpoint stream (s : list rd_ev) : list Z :=
  match s with
  | [] => []
  | RdErr e :: s' => if e =? EINTR then stream s' else []
  | RdData [] :: _ => []
  | RdData bs :: s' => bs ++ stream s'
  end.

Fixpoint wcap (s : list wr_ev) : nat :=
  match s with
  | [] => 0
  | WrErr e :: s' => if e =? EINTR then wcap s' else 0
  | WrOk O :: _ => 0
  | WrOk n :: s' => n + wcap s'
  end.

(** what reads can still take from a script: its bytes and its events *)
Fixpoint script_size (s : list rd_ev) : nat :=
  match s with
  | [] => 0
  | RdErr _ :: s' => S (script_size s')
  | RdData bs :: s' => S (length bs + script_size s')
  end.

(** What an input call on [fd] leaves alone, and an output call. *)
Record same_but_rd (fd : Z) (k k' : kern) : Prop := {
  sbr_wr : k_wr k' = k_wr k; sbr_out : k_out k' = k_out k;
  sbr_sys : k_sys k' = k_sys k; sbr_trace : k_trace k' = k_trace k; sbr_oom : k_oom k' = k_oom k;
  sbr_rd fd' : fd' ≠ fd → rd_of fd' k' = rd_of fd' k }.
Record same_but_wr (fd : Z) (k k' : kern) : Prop := {
  sbw_rd : k_rd k' = k_rd k; sbw_sys : k_sys k' = k_sys k;
  sbw_trace : k_trace k' = k_trace k; sbw_oom : k_oom k' = k_oom k;
  sbw_wr fd' : fd' ≠ fd → wr_of fd' k' = wr_of fd' k;
  sbw_out fd' : fd' ≠ fd → out_of fd' k' = out_of fd' k }.

#[export] Instance same_but_rd_preorder fd : PreOrder (same_but_rd fd).
Proof.
  split; [by constructor|].
  intros k1 k2 k3 H1 H2.
  split; intros; (etrans; [by apply H2 | by apply H1]).
Qed.
#[export] Instance same_but_wr_preorder fd : PreOrder (same_but_wr fd).
Proof.
  split; [by constructor|].
  intros k1 k2 k3 H1 H2.
  split; intros; (etrans; [by apply H2 | by apply H1]).
Qed.

Lemma rd_of_set_rd fd s k : rd_of fd (set_rd fd s k) = s.
Proof. unfold rd_of, set_rd; simpl. by rewrite lookup_insert_eq. Qed.
Lemma wr_of_set_wr fd s k : wr_of fd (set_wr fd s k) = s.
Proof. unfold wr_of, set_wr; simpl. by rewrite lookup_insert_eq. Qed.
Lemma out_of_add_out fd bs k : out_of fd (add_out fd bs k) = out_of fd k ++ bs.
Proof. unfold out_of at 1, add_out; simpl. by rewrite lookup_insert_eq. Qed.
Lemma out_of_add_out_ne fd fd' bs k : fd' ≠ fd → out_of fd' (add_out fd bs k) = out_of fd' k.
Proof. intros H. unfold out_of at 1, add_out; simpl. by rewrite lookup_insert_ne. Qed.
#[export] Hint Rewrite rd_of_set_rd wr_of_set_wr out_of_add_out : adb.

Lemma same_but_rd_set_rd fd s k : same_but_rd fd k (set_rd fd s k).
Proof.
  split; try done. intros fd' H. unfold rd_of, set_rd; simpl. by rewrite lookup_insert_ne.
Qed.
Lemma same_but_wr_set_wr fd s k : same_but_wr fd k (set_wr fd s k).
Proof.
  split; try done. intros fd' H. unfold wr_of, set_wr; simpl. by rewrite lookup_insert_ne.
Qed.
Lemma same_but_wr_add_out fd bs k : same_but_wr fd k (add_out fd bs k).
Proof. split; try done. intros fd' H. by apply out_of_add_out_ne. Qed.

Lemma same_but_rd_errno fd e k : same_but_rd fd k (set_errno e k).
Proof. by split. Qed.
Lemma same_but_wr_errno fd e k : same_but_wr fd k (set_errno e k).
Proof. by split. Qed.

Inductive read_script_view (s : list rd_ev) (len : nat) : (list Z + Z) * list rd_ev → Prop :=
| rsv_err e s' : e ≠ EINTR → stream s = [] → read_script_view s len (inr e, s')
| rsv_eof s' : stream s = [] → read_script_view s len (inl [], s')
| rsv_part bs s' : bs ≠ [] → stream s = bs ++ stream s' → (length bs ≤ len)%nat →
    (length s' ≤ length s)%nat → (length bs = len ∨ length s' < length s)%nat →
    read_script_view s len (inl bs, s').

Lemma read_script_spec s len : (0 < len)%nat → read_script_view s len (read_script s len).
Proof.
  intros Hlen. induction s as [|[bs|e] s IH]; simpl.
  - by apply rsv_eof.
  - case_decide as Hle.
    + destruct bs as [|b bs]; [by apply rsv_eof|].
      apply rsv_part; simpl in *; try done; lia.
    + apply rsv_part.
      * destruct bs; simpl in *; [lia|]. by destruct len; [lia|].
      * simpl. destruct (drop len bs) eqn:Hd.
        { apply (f_equal length) in Hd. rewrite length_drop in Hd. simpl in Hd. lia. }
        rewrite <- Hd. destruct bs; [simpl in *; lia|]. by rewrite app_assoc, take_drop.
      * rewrite length_take. lia.
      * simpl. lia.
      * left. rewrite length_take. lia.
  - destruct (Z.eqb_spec e EINTR) as [->|He].
    + destruct IH; try (by constructor).
      apply rsv_part; simpl; try done; lia.
    + apply rsv_err; [done|]. simpl. apply Z.eqb_neq in He. by rewrite He.
Qed.

(** a read takes what it returns, and never adds *)
Lemma read_script_size s len :
  let '(r, s') := read_script s len in
  match r with
  | inl bs => script_size s' + length bs ≤ script_size s
  | inr _ => script_size s' ≤ script_size s
  end%nat.
Proof.
  induction s as [|[bs|e] s IH]; simpl; [lia| |].
  - case_decide; simpl; [lia|]. rewrite length_take, length_drop. lia.
  - destruct (e =? EINTR); [|lia]. destruct (read_script s len) as [[?|?] ?]; lia.
Qed.

Inductive write_script_view (s : list wr_ev) (len : nat) : (nat + Z) * list wr_ev → Prop :=
| wsv_err e s' : e ≠ EINTR → wcap s = 0%nat → write_script_view s len (inr e, s')
| wsv_zero s' : wcap s = 0%nat → write_script_view s len (inl 0%nat, s')
| wsv_part n s' : (0 < n)%nat → (n ≤ len)%nat → wcap s = (n + wcap s')%nat →
    (length s' ≤ length s)%nat → (n = len ∨ length s' < length s)%nat →
    write_script_view s len (inl n, s').

Lemma write_script_spec s len : (0 < len)%nat → write_script_view s len (write_script s len).
Proof.
  intros Hlen. induction s as [|[n|e] s IH]; simpl.
  - by apply wsv_err.
  - destruct n as [|n]; [by apply wsv_zero|].
    destruct (decide _); apply wsv_part; simpl; try lia.
    destruct (S n - len)%nat eqn:?; lia.
  - destruct (Z.eqb_spec e EINTR) as [->|He].
    + destruct IH; constructor; simpl; try done; lia.
    + apply wsv_err; [done|]. simpl. apply Z.eqb_neq in He. by rewrite He.
Qed.

(** The loops of readx and writex on streams. *)
Lemma readx_loop_spec fuel fd len acc k :
  (length (rd_of fd k) + (if decide (len = 0%nat) then 1 else 2) ≤ fuel)%nat →
  ∃ k', same_but_rd fd k k' ∧
    let st := stream (rd_of fd k) in
    if decide (len ≤ length st)%nat
    then readx_loop fuel fd len acc k = Ok (Some (acc ++ take len st)) k' ∧
         stream (rd_of fd k') = drop len st
    else readx_loop fuel fd len acc k = Ok None k'.
Proof.
  revert len acc k. induction fuel as [|fuel IH]; intros len acc k Hf.
  { case_decide; lia. }
  simpl readx_loop. case_decide as Hlen.
  { subst len. exists k. split; [done|]. cbv zeta. rewrite decide_True by lia.
    rewrite take_0, app_nil_r, drop_0. done. }
  unfold bind, adb_read. pose proof (read_script_spec (rd_of fd k) len ltac:(lia)) as Hv.
  destruct (read_script (rd_of fd k) len) as [r s'] eqn:Hr.
  inversion Hv as [e s'' He Hs|s'' Hs|bs s'' Hbs Hs Hle Hl Hd]; subst; clear Hv.
  - apply Z.eqb_neq in He. rewrite He.
    exists (set_errno e (set_rd fd s' k)).
    split; [etrans; [apply same_but_rd_set_rd | apply same_but_rd_errno]|].
    cbv zeta. rewrite Hs. simpl. case_decide; [lia|done].
  - exists (set_rd fd s' k). split; [apply same_but_rd_set_rd|].
    cbv zeta. rewrite Hs. simpl. case_decide; [lia|done].
  - destruct bs as [|b bs']; [done|]. set (bs := b :: bs') in *.
    destruct (IH (len - length bs)%nat (acc ++ bs) (set_rd fd s' k)) as (k' & Hk & Hres).
    { autorewrite with adb. case_decide; lia. }
    exists k'. split; [etrans; [apply same_but_rd_set_rd | done]|].
    cbv zeta in Hres |- *. autorewrite with adb in Hres. rewrite Hs.
    rewrite length_app.
    destruct (decide (len - length bs ≤ length (stream s'))%nat) as [Hc|Hc];
      destruct (decide (len ≤ length bs + length (stream s'))%nat); try lia; [|done].
    destruct Hres as [-> ->]. rewrite take_app_ge, drop_app_ge by lia.
    by rewrite <- app_assoc.
Qed.

Lemma readx_spec fd len k :
  ∃ k', same_but_rd fd k k' ∧
    let st := stream (rd_of fd k) in
    if decide (len ≤ length st)%nat
    then readx fd len k = Ok (Some (take len st)) k' ∧ stream (rd_of fd k') = drop len st
    else readx fd len k = Ok None k'.
Proof.
  unfold readx. apply (readx_loop_spec _ fd len [] k). case_decide; lia.
Qed.

Lemma writex_loop_spec fuel fd bs k :
  (length (wr_of fd k) + (if decide (bs = []) then 1 else 2) ≤ fuel)%nat →
  ∃ k', same_but_wr fd k k' ∧
    let c := wcap (wr_of fd k) in
    writex_loop fuel fd bs k = Ok (bool_decide (length bs ≤ c)%nat) k' ∧
    out_of fd k' = out_of fd k ++ take c bs ∧
    (length bs ≤ c → wcap (wr_of fd k') = c - length bs)%nat.
Proof.
  revert bs k. induction fuel as [|fuel IH]; intros bs k Hf; [case_decide; lia|].
  destruct bs as [|b bs'].
  { exists k. split; [done|]. simpl. rewrite take_nil, app_nil_r. split_and!; auto; lia. }
  set (bs := b :: bs') in *. assert (0 < length bs)%nat by (simpl; lia).
  rewrite decide_False in Hf by done.
  simpl writex_loop. fold bs. unfold bind, adb_write.
  pose proof (write_script_spec (wr_of fd k) (length bs) ltac:(lia)) as Hv.
  destruct (write_script (wr_of fd k) (length bs)) as [r s'] eqn:Hr.
  inversion Hv as [e s'' He Hs|s'' Hs|n s'' Hn Hle Hd Hle' Hl]; subst; clear Hv.
  - apply Z.eqb_neq in He. rewrite He.
    exists (set_errno e (set_wr fd s' k)).
    split; [etrans; [apply same_but_wr_set_wr | apply same_but_wr_errno]|].
    cbv zeta. rewrite Hs, take_0, app_nil_r.
    rewrite bool_decide_eq_false_2 by lia. split_and!; [done..|lia].
  - exists (add_out fd [] (set_wr fd s' k)).
    split; [etrans; [apply same_but_wr_set_wr | apply same_but_wr_add_out]|].
    cbv zeta. rewrite Hs, take_0. autorewrite with adb.
    rewrite bool_decide_eq_false_2 by lia. split_and!; [done..|lia].
  - destruct n as [|n']; [lia|]. set (n := S n') in *.
    set (k1 := add_out fd (take n bs) (set_wr fd s' k)).
    assert (Hwr : wr_of fd k1 = s') by apply wr_of_set_wr.
    destruct (IH (drop n bs) k1) as (k' & Hk & Hres & Hout & Hrem).
    { rewrite Hwr. case_decide as Hnil; [lia|]. destruct Hl as [Hl|]; [|lia].
      destruct Hnil. apply drop_ge. lia. }
    exists k'. split.
    { etrans; [|done]. etrans; [apply same_but_wr_set_wr | apply same_but_wr_add_out]. }
    cbv zeta in *. rewrite Hwr, length_drop in *. rewrite Hres, Hout, Hd.
    unfold k1. autorewrite with adb.
    split; [|split].
    + f_equal. apply bool_decide_ext. lia.
    + rewrite <- app_assoc. f_equal. by rewrite take_take_drop.
    + intros Hb. rewrite Hrem; lia.
Qed.

Lemma writex_spec fd bs k :
  ∃ k', same_but_wr fd k k' ∧
    let c := wcap (wr_of fd k) in
    writex fd bs k = Ok (bool_decide (length bs ≤ c)%nat) k' ∧
    out_of fd k' = out_of fd k ++ take c bs ∧
    (length bs ≤ c → wcap (wr_of fd k') = c - length bs)%nat.
Proof. unfold writex. apply writex_loop_spec. case_decide; lia. Qed.

(** when the stream has the bytes, or the descriptor takes them *)
Lemma readx_exact d k bs rest : stream (rd_of d k) = bs ++ rest →
  ∃ k', readx d (length bs) k = Ok (Some bs) k' ∧ stream (rd_of d k') = rest ∧ same_but_rd d k k'.
Proof.
  intros Hs. destruct (readx_spec d (length bs) k) as (k' & Hk & Hr). cbv zeta in Hr.
  rewrite Hs, decide_True in Hr by (rewrite length_app; lia).
  rewrite take_app_exact, drop_app_exact in Hr. exists k'. tauto.
Qed.
Lemma writex_exact d bs k : (length bs ≤ wcap (wr_of d k))%nat →
  ∃ k', writex d bs k = Ok true k' ∧ out_of d k' = out_of d k ++ bs
    ∧ wcap (wr_of d k') = (wcap (wr_of d k) - length bs)%nat ∧ same_but_wr d k k'.
Proof.
  intros Hc. destruct (writex_spec d bs k) as (k' & Hk & Hr & Ho & Hw). cbv zeta in *.
  rewrite bool_decide_eq_true_2 in Hr by done. rewrite take_ge in Ho by done.
  exists k'. split_and!; auto.
Qed.
