(* ===== verification/SockUtil.v ===== *)
(** * Opening sockets (adbd/src/socket_*.c)

    The helpers that turn a port or a name into a connected or listening
    descriptor.  Addresses are the bytes handed to the kernel (on the board:
    little-endian family, port and address in network order).  The build does
    not define HAVE_LINUX_LOCAL_SOCKET_NAMESPACE, so that a name of the abstract
    namespace is a path under /tmp. *)

From S2P Require Import Prelude Kernel.

Definition AF_LOCAL : Z := 1.
Definition AF_INET : Z := 2.
Definition SOCK_STREAM : Z := 1.
Definition SOCK_DGRAM : Z := 2.
Definition INADDR_ANY : Z := 0.
Definition INADDR_LOOPBACK : Z := 0x7f000001.
Definition LISTEN_BACKLOG : Z := 4.

Definition sockaddr_in (port ip : Z) : list Z :=
  [AF_INET; 0; u8 (Z.shiftr port 8); u8 port;
   u8 (Z.shiftr ip 24); u8 (Z.shiftr ip 16); u8 (Z.shiftr ip 8); u8 ip] ++ replicate 8 0.

(** ** Internet sockets *)

(** bind, then listen on a stream socket; the descriptor is closed on failure *)
Definition start_listening (s : Z) (type : Z) : M kern Z :=
  if type =? SOCK_STREAM then
    do r <- sys_ "listen" [AZ s; AZ LISTEN_BACKLOG];
    if r <? 0 then adb_close s;;; ret (-1) else ret s
  else ret s.

Definition inet_server (ip port type : Z) : M kern Z :=
  do s <- sys_ "socket" [AZ AF_INET; AZ type];
  if s <? 0 then ret (-1)
  else
    note "setsockopt:SO_REUSEADDR" [AZ s];;;
    do r <- sys_ "bind" [AZ s; AS (sockaddr_in port ip)];
    if r <? 0 then adb_close s;;; ret (-1) else start_listening s type.

Definition socket_inaddr_any_server (port type : Z) : M kern Z := inet_server INADDR_ANY port type.
Definition socket_loopback_server (port type : Z) : M kern Z := inet_server INADDR_LOOPBACK port type.

Definition socket_loopback_client (port type : Z) : M kern Z :=
  do s <- sys_ "socket" [AZ AF_INET; AZ type];
  if s <? 0 then ret (-1)
  else
    do r <- sys_ "connect" [AZ s; AS (sockaddr_in port INADDR_LOOPBACK)];
    if r <? 0 then adb_close s;;; ret (-1) else ret s.

(** gethostbyname answers with the type and the bytes of the address; they are
    copied over the address of the sockaddr_in, whatever their number *)
Definition socket_network_client (host : list Z) (port type : Z) : M kern Z :=
  do '(addrtype, h_addr) <- sys "gethostbyname" [AS host];
  if addrtype <? 0 then ret (-1)
  else if decide (12 < length h_addr)%nat then fail OutOfBounds
  else
    let addr := [u8 addrtype; u8 (Z.shiftr addrtype 8); u8 (Z.shiftr port 8); u8 port]
                ++ h_addr ++ replicate (12 - length h_addr) 0 in
    do s <- sys_ "socket" [AZ addrtype; AZ type];
    if s <? 0 then ret (-1)
    else
      do r <- sys_ "connect" [AZ s; AS addr];
      if r <? 0 then adb_close s;;; ret (-1) else ret s.

(** ** Local sockets *)

Definition ANDROID_SOCKET_NAMESPACE_ABSTRACT : Z := 0.
Definition ANDROID_SOCKET_NAMESPACE_RESERVED : Z := 1.
Definition ANDROID_SOCKET_NAMESPACE_FILESYSTEM : Z := 2.
Definition FILESYSTEM_SOCKET_PREFIX : list Z := str "/tmp/".
Definition ANDROID_RESERVED_SOCKET_PREFIX : list Z := str "/dev/socket/".

(** sizeof(sun_path) and offsetof(struct sockaddr_un, sun_path) *)
Definition SUN_PATH : nat := 108.
Definition SUN_OFFSET : nat := 2.

Definition namespace_prefix (namespaceId : Z) : option (list Z) :=
  if namespaceId =? ANDROID_SOCKET_NAMESPACE_ABSTRACT then Some FILESYSTEM_SOCKET_PREFIX
  else if namespaceId =? ANDROID_SOCKET_NAMESPACE_RESERVED then Some ANDROID_RESERVED_SOCKET_PREFIX
  else if namespaceId =? ANDROID_SOCKET_NAMESPACE_FILESYSTEM then Some []
  else None.

(** strcpy and strcat into an array of zeros; writing behind it is a fault *)
Definition strcpy_zero (size : nat) (s : list Z) : M kern (list Z) :=
  if decide (S (length s) ≤ size)%nat then ret (s ++ replicate (size - length s) 0) else fail OutOfBounds.

(** sun_path and the length of the address; None: -1 *)
Definition socket_make_sockaddr_un (name : list Z) (namespaceId : Z) : M kern (option (list Z * nat)) :=
  match namespace_prefix namespaceId with
  | None => ret None
  | Some prefix =>
      let namelen := (length name + length prefix)%nat in
      if decide (SUN_OFFSET + SUN_PATH - SUN_OFFSET - 1 < namelen)%nat then ret None
      else
        do sun_path <- strcpy_zero SUN_PATH (prefix ++ name);
        ret (Some (sun_path, namelen + SUN_OFFSET + 1)%nat)
  end.

(** the address handed to the kernel: its first [alen] bytes *)
Definition sockaddr_un (addr : list Z * nat) : list Z := take (snd addr) ([AF_LOCAL; 0] ++ fst addr).

Definition socket_local_client_connect (fd : Z) (name : list Z) (namespaceId type : Z) : M kern Z :=
  do a <- socket_make_sockaddr_un name namespaceId;
  match a with
  | None => ret (-1)
  | Some addr =>
      do r <- sys_ "connect" [AZ fd; AS (sockaddr_un addr)];
      ret (if r <? 0 then -1 else fd)
  end.

Definition socket_local_client (name : list Z) (namespaceId type : Z) : M kern Z :=
  do s <- sys_ "socket" [AZ AF_LOCAL; AZ type];
  if s <? 0 then ret (-1)
  else
    do r <- socket_local_client_connect s name namespaceId type;
    if r <? 0 then adb_close s;;; ret (-1) else ret s.

Definition socket_local_server_bind (s : Z) (name : list Z) (namespaceId : Z) : M kern Z :=
  do a <- socket_make_sockaddr_un name namespaceId;
  match a with
  | None => ret (-1)
  | Some addr =>
      note "unlink" [AS (default [] (cstring (fst addr)))];;;
      note "setsockopt:SO_REUSEADDR" [AZ s];;;
      do r <- sys_ "bind" [AZ s; AS (sockaddr_un addr)];
      ret (if r <? 0 then -1 else s)
  end.

Definition socket_local_server (name : list Z) (namespaceId type : Z) : M kern Z :=
  do s <- sys_ "socket" [AZ AF_LOCAL; AZ type];
  if s <? 0 then ret (-1)
  else
    do r <- socket_local_server_bind s name namespaceId;
    if r <? 0 then adb_close s;;; ret (-1) else start_listening s type.
