(* ===== verification/SockProps.v ===== *)
(** * Properties of the socket helpers *)

From S2P Require Import Prelude Kernel SockUtil.

(** ** Addresses *)

Lemma namespace_prefix_length ns p : namespace_prefix ns = Some p → (length p ≤ 12)%nat.
Proof. unfold namespace_prefix. repeat case_match; intros [= <-]; cbn; lia. Qed.

Lemma make_sockaddr_run name ns k :
  socket_make_sockaddr_un name ns k = Ok (match namespace_prefix ns with
    | Some p => if decide (length p + length name ≤ 107)%nat
                then Some ((p ++ name) ++ replicate (SUN_PATH - length (p ++ name)) 0%Z, length p + length name + 3)%nat
                else None
    | None => None
    end) k.
Proof.
  unfold socket_make_sockaddr_un, SUN_OFFSET, SUN_PATH. destruct (namespace_prefix ns) as [p|]; [|done].
  change (2 + 108 - 2 - 1)%nat with 107%nat. case_decide; case_decide; try lia; [done|].
  unfold strcpy_zero. rewrite length_app. unfold bind. rewrite decide_True by lia. unfold ret.
  do 3 f_equal; lia.
Qed.

(** C36 Addresses of local sockets: for every name and namespace the function
    returns and stays inside of sun_path; it refuses exactly the unknown
    namespaces and the names that do not fit; an accepted name is terminated
    inside of the array, the length given to the kernel is within the structure,
    and different names of a namespace have different addresses. *)
Theorem sockaddr_un_bounds name ns k :
  ∃ r, socket_make_sockaddr_un name ns k = Ok r k
    ∧ (is_Some r ↔ ∃ p, namespace_prefix ns = Some p ∧ (length p + length name < SUN_PATH)%nat)
    ∧ ∀ sun_path alen, r = Some (sun_path, alen) →
        length sun_path = SUN_PATH ∧ (alen ≤ SUN_OFFSET + SUN_PATH)%nat
        ∧ (0 ∉ name → cstring sun_path = (.++ name) <$> namespace_prefix ns)
        ∧ ∀ name' r', socket_make_sockaddr_un name' ns k = Ok (Some r') k →
            sockaddr_un r' = sockaddr_un (sun_path, alen) → name' = name.
Proof.
  rewrite make_sockaddr_run. eexists. split; [done|].
  destruct (namespace_prefix ns) as [p|] eqn:Hns; [|by split; [split; [intros []|intros (? & ? & _)]|]].
  unfold SUN_PATH, SUN_OFFSET. case_decide as Hfit.
  2:{ split; [|done]. split; [by intros []|]. intros (p' & [= <-] & H). lia. }
  split; [split; [intros _; exists p; split; [done|lia]|by eexists]|].
  intros sp al [= <- <-]. split_and!.
  - rewrite !length_app, length_replicate. lia.
  - lia.
  - intros Hn. cbn. assert (H0 : 0 ∉ p).
    { unfold namespace_prefix in Hns. clear -Hns. repeat case_match; simplify_eq;
        apply (bool_decide_eq_true_1 _); vm_compute; reflexivity. }
    replace (108 - length (p ++ name))%nat with (S (107 - length (p ++ name))) by (rewrite length_app; lia).
    cbn [replicate]. apply cstring_app. rewrite elem_of_app. tauto.
  - intros name' r'. rewrite make_sockaddr_run, Hns. case_decide as Hfit'; [|done]. intros [= <-].
    unfold sockaddr_un. cbn [fst snd app].
    replace (length p + length name' + 3)%nat with (S (S (length (p ++ name') + 1))) by (rewrite length_app; lia).
    replace (length p + length name + 3)%nat with (S (S (length (p ++ name) + 1))) by (rewrite length_app; lia).
    cbn [take]. intros [= He]. unfold SUN_PATH in He.
    rewrite !take_app_ge, !take_replicate in He by lia. rewrite !length_app in He.
    rewrite !Nat.min_l in He by lia.
    replace (length p + length name' + 1 - (length p + length name'))%nat with 1%nat in He by lia.
    replace (length p + length name + 1 - (length p + length name))%nat with 1%nat in He by lia.
    apply app_inj_2 in He as [He _]; [|done]. by apply app_inv_head in He.
Qed.

(** ** Descriptors *)

(** the descriptors a part of the trace closes *)
Definition closes (tr : list syscall) : list Z :=
  omap (λ c, if decide (sys_name c = "close"%string)
             then match sys_args c with [AZ fd] => Some fd | _ => None end else None) tr.

(** the next answer of the script *)
Definition answer (k : kern) : Z := match k_sys k with [] => -1 | r :: _ => sr_ret r end.

Lemma sys_run name args k : ∃ k' out, sys name args k = Ok (answer k, out) k'
  ∧ k_trace k' = k_trace k ++ [Sys name args].
Proof.
  unfold sys, answer. destruct (k_sys k) as [|r l]; [by eexists _, _|].
  eexists _, _. split; [done|]. by case_match.
Qed.
Lemma sys__run name args k : ∃ k', sys_ name args k = Ok (answer k) k'
  ∧ k_trace k' = k_trace k ++ [Sys name args].
Proof.
  destruct (sys_run name args k) as (k' & out & E & Ht). exists k'. split; [|done].
  unfold sys_. by run E.
Qed.

(** the call opens a descriptor first, and returns it open or closes it *)
Definition hands_over (h : M kern Z) : Prop := ∀ k, ∃ r k' tr,
  h k = Ok r k' ∧ k_trace k' = k_trace k ++ tr
  ∧ ((answer k < 0 ∧ r = -1 ∧ closes tr = [])
     ∨ (0 ≤ answer k ∧ r = answer k ∧ closes tr = [])
     ∨ (0 ≤ answer k ∧ r = -1 ∧ closes tr = [answer k])).

(** what follows the opening: the descriptor or -1, closed exactly with -1 *)
Definition settles (s : Z) (m : M kern Z) : Prop := ∀ k, ∃ r k' tr,
  m k = Ok r k' ∧ k_trace k' = k_trace k ++ tr
  ∧ ((r = s ∧ closes tr = []) ∨ (r = -1 ∧ closes tr = [s])).

Lemma hands_over_socket args (f : Z → M kern Z) : (∀ s, 0 ≤ s → settles s (f s)) →
  hands_over (do s <- sys_ "socket" args; if s <? 0 then ret (-1) else f s).
Proof.
  intros Hf k. destruct (sys__run "socket" args k) as (k1 & E1 & T1).
  rewrite (bind_ok _ _ _ _ _ E1). destruct (Z.ltb_spec (answer k) 0) as [Hs|Hs].
  - exists (-1), k1, [Sys "socket" args]. split_and!; [done|done|]. left. done.
  - destruct (Hf _ Hs k1) as (r & k' & tr & E & T & H). exists r, k', (Sys "socket" args :: tr).
    split_and!; [done|rewrite T, T1; by rewrite <- app_assoc|]. right. cbn. naive_solver.
Qed.
Lemma settles_close s : settles s (adb_close s;;; ret (-1)).
Proof. intros k. exists (-1), (add_trace (Sys "close" [AZ s]) k), [Sys "close" [AZ s]]. split_and!; [done|done|]. by right. Qed.
Lemma settles_ret s : settles s (ret s).
Proof. intros k. exists s, k, []. rewrite app_nil_r. split_and!; [done|done|]. by left. Qed.
Lemma settles_note s name args (m : M kern Z) : name ≠ "close"%string → settles s m →
  settles s (note name args;;; m).
Proof.
  intros Hn Hm k. destruct (Hm (add_trace (Sys name args) k)) as (r & k' & tr & E & T & H).
  exists r, k', (Sys name args :: tr). split_and!; [exact E|rewrite T; cbn; by rewrite <- app_assoc|].
  assert (Hc : closes (Sys name args :: tr) = closes tr) by (cbn; by rewrite decide_False).
  by rewrite Hc.
Qed.
Lemma settles_sys s name args (f : Z → M kern Z) : name ≠ "close"%string → (∀ r, settles s (f r)) →
  settles s (do r <- sys_ name args; f r).
Proof.
  intros Hn Hf k. destruct (sys__run name args k) as (k1 & E1 & T1). rewrite (bind_ok _ _ _ _ _ E1).
  destruct (Hf (answer k) k1) as (r & k' & tr & E & T & H). exists r, k', (Sys name args :: tr).
  split_and!; [exact E|rewrite T, T1; by rewrite <- app_assoc|].
  assert (Hc : closes (Sys name args :: tr) = closes tr) by (cbn; by rewrite decide_False).
  by rewrite Hc.
Qed.
Lemma settles_if s (b : bool) (m1 m2 : M kern Z) : settles s m1 → settles s m2 → settles s (if b then m1 else m2).
Proof. by destruct b. Qed.
Lemma settles_ext s (m m' : M kern Z) : (∀ k, m k = m' k) → settles s m' → settles s m.
Proof. intros He Hm k. rewrite He. apply Hm. Qed.
Create HintDb settles.
#[local] Hint Resolve settles_close settles_ret settles_note settles_sys settles_if : settles.
#[local] Hint Extern 1 (_ ≠ _) => discriminate : settles.

Lemma settles_listening s type : settles s (start_listening s type).
Proof. unfold start_listening. auto with settles. Qed.
#[local] Hint Resolve settles_listening : settles.

Lemma settles_local s (m : M kern Z) name ns (f : list Z * nat → M kern Z) :
  0 ≤ s → settles s m → (∀ a, settles s (do r <- f a; if r <? 0 then adb_close s;;; ret (-1) else m)) →
  settles s (do r <- (do a <- socket_make_sockaddr_un name ns;
                      match a with None => ret (-1) | Some addr => f addr end);
             if r <? 0 then adb_close s;;; ret (-1) else m).
Proof.
  intros Hs Hm Hf k. rewrite bind_assoc, (bind_ok _ _ _ _ _ (make_sockaddr_run name ns k)).
  destruct (namespace_prefix ns) as [p|]; [case_decide|]; [apply Hf|apply settles_close..].
Qed.
Lemma settles_answer s name args (m : M kern Z) : 0 ≤ s → name ≠ "close"%string → settles s m →
  settles s (do r <- (do r <- sys_ name args; ret (if r <? 0 then -1 else s));
             if r <? 0 then adb_close s;;; ret (-1) else m).
Proof.
  intros Hs Hn Hm. eapply settles_ext; [intros k; apply bind_assoc|]. apply settles_sys; [done|].
  intros r. unfold bind at 1, ret at 1. destruct (r <? 0); [apply settles_close|].
  destruct (Z.ltb_spec s 0); [lia|exact Hm].
Qed.

(** Opening sockets: every helper returns; it gives back the descriptor of
    the socket open, or -1 with the socket closed exactly once (or never opened). *)
Theorem socket_helpers_hand_over port name ns type :
  hands_over (socket_inaddr_any_server port type) ∧ hands_over (socket_loopback_server port type)
  ∧ hands_over (socket_loopback_client port type) ∧ hands_over (socket_local_client name ns type)
  ∧ hands_over (socket_local_server name ns type).
Proof.
  unfold socket_inaddr_any_server, socket_loopback_server, inet_server.
  split_and!; apply hands_over_socket; intros s Hs; [auto 7 with settles..| |].
  - apply settles_local; [done|auto with settles|]. intros a. by apply settles_answer; auto with settles.
  - unfold socket_local_server_bind. apply settles_local; [done|auto with settles|]. intros a.
    eapply settles_ext; [intros k; apply bind_assoc|]. apply settles_note; [done|].
    eapply settles_ext; [intros k; apply bind_assoc|]. apply settles_note; [done|].
    by apply settles_answer; auto with settles.
Qed.

Lemma sockaddr_un_bounds_witness : ∃ r,
  socket_make_sockaddr_un (str "adbd") ANDROID_SOCKET_NAMESPACE_RESERVED (mkKern 0 ∅ ∅ ∅ [] [] [])
  = Ok r (mkKern 0 ∅ ∅ ∅ [] [] []) ∧ is_Some r.
Proof.
  destruct (sockaddr_un_bounds (str "adbd") ANDROID_SOCKET_NAMESPACE_RESERVED (mkKern 0 ∅ ∅ ∅ [] [] []))
    as (r & E & Hr & _).
  exists r. split; [exact E|]. apply Hr. eexists. split; [reflexivity|]. apply Nat.ltb_lt. reflexivity.
Defined.
