(* ===== verification/Packet.v ===== *)
(** * Packets: the ADB message format, its checks and its two links

    The header and packet structures of adbd/include/adb.h, the header fields
    that send_packet fills in (transport.c), check_header and check_data
    (transport.c), the descriptor I/O of the USB client
    (usb_linux_client.c), and the two implementations of
    read_from_remote / write_to_remote: over a socket (transport_local.c) and
    over USB (transport_usb.c).  The two links satisfy one interface,
    [RemoteLink], against which the pump threads are verified. *)

From S2P Require Import Prelude Kernel.

Definition MAX_PAYLOAD : Z := 4096.
Definition A_SYNC : Z := 0x434e5953.
Definition A_CNXN : Z := 0x4e584e43.
Definition A_OPEN : Z := 0x4e45504f.
Definition A_OKAY : Z := 0x59414b4f.
Definition A_CLSE : Z := 0x45534c43.
Definition A_WRTE : Z := 0x45545257.
Definition A_AUTH : Z := 0x48545541.
Definition A_VERSION : Z := 0x01000000.

Record amessage := mkMsg {
  command : Z;
  arg0 : Z;
  arg1 : Z;
  data_length : Z;
  data_check : Z;
  magic : Z;
}.

(** [p_data]: the bytes of the data array written so far (the array comes
    from malloc and is not cleared); [p_ptr]: the offset of [ptr] in it;
    [p_len]: the field [len]. *)
Record apacket := mkPacket {
  p_len : Z;
  p_ptr : nat;
  p_msg : amessage;
  p_data : list Z;
}.

#[export] Instance amessage_eq_dec : EqDecision amessage.
Proof. solve_decision. Defined.
#[export] Instance apacket_eq_dec : EqDecision apacket.
Proof. solve_decision. Defined.

(** get_apacket clears everything but the data *)
Definition zero_msg : amessage := mkMsg 0 0 0 0 0 0.
Definition zero_packet : apacket := mkPacket 0 0 zero_msg [].

Definition with_msg (p : apacket) (m : amessage) : apacket :=
  mkPacket (p_len p) (p_ptr p) m (p_data p).
Definition with_data (p : apacket) (d : list Z) : apacket :=
  mkPacket (p_len p) (p_ptr p) (p_msg p) d.
Definition with_len (p : apacket) (n : Z) : apacket :=
  mkPacket n (p_ptr p) (p_msg p) (p_data p).

(** The first [n] bytes of the data array, when they have been written. *)
Definition payload (p : apacket) (n : Z) : option (list Z) :=
  if decide (0 ≤ n ≤ Z.of_nat (length (p_data p))) then Some (take (Z.to_nat n) (p_data p))
  else None.

(** sum += *x++ over an unsigned *)
Definition sum32 (bs : list Z) : Z := foldl (λ acc b, u32 (acc + b)) 0 bs.

(** the part of send_packet that completes the header *)
Definition fill_header (p : apacket) (body : list Z) : apacket :=
  let m := p_msg p in
  with_msg p (mkMsg (command m) (arg0 m) (arg1 m) (data_length m) (sum32 body)
                (Z.lxor (command m) 0xffffffff)).

Definition check_header (p : apacket) : bool :=
  let m := p_msg p in
  if negb (magic m =? Z.lxor (command m) 0xffffffff) then false
  else if data_length m >? MAX_PAYLOAD then false
  else true.

(** [None]: bytes that were never written are summed up *)
Definition check_data (p : apacket) : option bool :=
  body ← payload p (data_length (p_msg p));
  Some (sum32 body =? data_check (p_msg p)).

(** ** Wire format: six little-endian words and the payload *)

Definition le32 (n : Z) : list Z :=
  [u8 n; u8 (Z.shiftr n 8); u8 (Z.shiftr n 16); u8 (Z.shiftr n 24)].
Definition get32 (bs : list Z) : Z :=
  match bs with
  | b0 :: b1 :: b2 :: b3 :: _ => b0 + b1 * 2 ^ 8 + b2 * 2 ^ 16 + b3 * 2 ^ 24
  | _ => 0
  end.

Definition msg_bytes (m : amessage) : list Z :=
  le32 (command m) ++ le32 (arg0 m) ++ le32 (arg1 m) ++
  le32 (data_length m) ++ le32 (data_check m) ++ le32 (magic m).
Definition msg_of_bytes (bs : list Z) : amessage :=
  mkMsg (get32 bs) (get32 (drop 4 bs)) (get32 (drop 8 bs))
    (get32 (drop 12 bs)) (get32 (drop 16 bs)) (get32 (drop 20 bs)).
#[global] Arguments le32 : simpl never.
#[global] Arguments msg_bytes : simpl never.
Definition sizeof_amessage : nat := 24.

Definition msg_ok (m : amessage) : Prop :=
  0 ≤ command m < 2 ^ 32 ∧ 0 ≤ arg0 m < 2 ^ 32 ∧ 0 ≤ arg1 m < 2 ^ 32 ∧
  0 ≤ data_length m < 2 ^ 32 ∧ 0 ≤ data_check m < 2 ^ 32 ∧ 0 ≤ magic m < 2 ^ 32.

(** What the receiver may rely on: magic, size and checksum agree. *)
Definition packet_ok (p : apacket) : Prop :=
  magic (p_msg p) = Z.lxor (command (p_msg p)) 0xffffffff ∧
  data_length (p_msg p) ≤ MAX_PAYLOAD ∧
  payload p (data_length (p_msg p)) = Some (p_data p) ∧
  sum32 (p_data p) = data_check (p_msg p).

(** ** The USB client's descriptor I/O (usb_linux_client.c) *)

Module Usb.
Inductive usb_impl := usb_adb | usb_ffs.
Record usb_handle := mkUsb {
  impl : usb_impl;     (* which write/read/kick functions are installed *)
  fd : Z;              (* legacy f_adb *)
  control : Z;         (* FunctionFS *)
  bulk_out : Z;
  bulk_in : Z;
}.
End Usb.

Definition usb_adb_write (h : Usb.usb_handle) (data : list Z) : M kern bool :=
  do r <- adb_write (Usb.fd h) data;
  ret (match r with inl n => bool_decide (n = length data) | inr _ => false end).

Definition usb_adb_read (h : Usb.usb_handle) (len : nat) : M kern (option (list Z)) :=
  do r <- adb_read (Usb.fd h) len;
  ret (match r with
       | inl bs => if decide (length bs = len) then Some bs else None
       | inr _ => None
       end).

(** do { write } while(count < length): the C result is [count], or a
    negative number ([None]).  A write that accepts nothing is repeated. *)
Fixpoint bulk_write (fuel : nat) (fd : Z) (buf : list Z) : M kern (option nat) :=
  match fuel with
  | O => fail OutOfFuel
  | S fuel' =>
      do r <- adb_write fd buf;
      match r with
      | inr e =>
          if negb (e =? EINTR) then ret None
          else if decide (0 < length buf)%nat then bulk_write fuel' fd buf else ret (Some 0%nat)
      | inl n =>
          if decide (n < length buf)%nat
          then do c <- bulk_write fuel' fd (drop n buf); ret ((λ c, (n + c)%nat) <$> c)
          else ret (Some n)
      end
  end.

Definition usb_ffs_write (h : Usb.usb_handle) (data : list Z) : M kern bool := λ k,
  (do n <- bulk_write (2 + length (wr_of (Usb.bulk_in h) k)) (Usb.bulk_in h) data;
   ret (bool_decide (n = Some (length data)))) k.

Fixpoint bulk_read (fuel : nat) (fd : Z) (len : nat) (acc : list Z) : M kern (option (list Z)) :=
  match fuel with
  | O => fail OutOfFuel
  | S fuel' =>
      do r <- adb_read fd (len - length acc);
      match r with
      | inr e =>
          if negb (e =? EINTR) then ret None
          else if decide (length acc < len)%nat then bulk_read fuel' fd len acc
          else ret (Some acc)
      | inl bs =>
          if decide (length (acc ++ bs) < len)%nat then bulk_read fuel' fd len (acc ++ bs)
          else ret (Some (acc ++ bs))
      end
  end.

Definition usb_ffs_read (h : Usb.usb_handle) (len : nat) : M kern (option (list Z)) := λ k,
  (do r <- bulk_read (2 + length (rd_of (Usb.bulk_out h) k)) (Usb.bulk_out h) len [];
   ret (match r with
        | Some bs => if decide (length bs = len) then Some bs else None
        | None => None
        end)) k.

(** the indirect calls of usb_write and usb_read *)
Definition usb_write (h : Usb.usb_handle) (data : list Z) : M kern bool :=
  match Usb.impl h with
  | Usb.usb_adb => usb_adb_write h data
  | Usb.usb_ffs => usb_ffs_write h data
  end.
Definition usb_read (h : Usb.usb_handle) (len : nat) : M kern (option (list Z)) :=
  match Usb.impl h with
  | Usb.usb_adb => usb_adb_read h len
  | Usb.usb_ffs => usb_ffs_read h len
  end.

(** ** Links: read_from_remote and write_to_remote *)

Class RemoteLink (L : Type) := {
  read_from_remote : L → M kern (option apacket);   (* None: C result -1 *)
  write_to_remote : L → apacket → M kern bool;
}.

(** The payload is received into the packet; [check_data] then decides. *)
Definition accept_data (p : apacket) : M kern (option apacket) :=
  match check_data p with
  | Some true => ret (Some p)
  | Some false => ret None
  | None => fail Uninitialised
  end.

Module TransportLocal.
Record link := { sfd : Z }.

Definition remote_read (t : link) : M kern (option apacket) :=
  do h <- readx (sfd t) sizeof_amessage;
  match h with
  | None => ret None
  | Some bs =>
      let p := with_msg zero_packet (msg_of_bytes bs) in
      if negb (check_header p) then ret None
      else
        do d <- readx (sfd t) (Z.to_nat (data_length (p_msg p)));
        match d with
        | None => ret None
        | Some body => accept_data (with_data p body)
        end
  end.

(** one write of the header and the data that follows it in memory *)
Definition remote_write (t : link) (p : apacket) : M kern bool :=
  match payload p (data_length (p_msg p)) with
  | None => fail Uninitialised
  | Some body => writex (sfd t) (msg_bytes (p_msg p) ++ body)
  end.

#[global] Instance socket_link : RemoteLink link :=
  { read_from_remote := remote_read; write_to_remote := remote_write }.
End TransportLocal.

Module TransportUsb.
Definition remote_read (t : Usb.usb_handle) : M kern (option apacket) :=
  do h <- usb_read t sizeof_amessage;
  match h with
  | None => ret None
  | Some bs =>
      let p := with_msg zero_packet (msg_of_bytes bs) in
      if negb (check_header p) then ret None
      else if negb (data_length (p_msg p) =? 0) then
        do d <- usb_read t (Z.to_nat (data_length (p_msg p)));
        match d with
        | None => ret None
        | Some body => accept_data (with_data p body)
        end
      else accept_data p
  end.

Definition remote_write (t : Usb.usb_handle) (p : apacket) : M kern bool :=
  do ok <- usb_write t (msg_bytes (p_msg p));
  if negb ok then ret false
  else if data_length (p_msg p) =? 0 then ret true
  else
    match payload p (data_length (p_msg p)) with
    | None => fail Uninitialised
    | Some body => usb_write t body
    end.

#[global] Instance usb_link : RemoteLink Usb.usb_handle :=
  { read_from_remote := remote_read; write_to_remote := remote_write }.
End TransportUsb.

(** ** Lemmas on the wire format *)

Lemma length_le32 n : length (le32 n) = 4%nat.
Proof. done. Qed.
Lemma length_msg_bytes m : length (msg_bytes m) = sizeof_amessage.
Proof. done. Qed.

Lemma get32_le32 n r : get32 (le32 n ++ r) = u32 n.
Proof.
  unfold le32; simpl. unfold u8, u32. rewrite !Z.shiftr_div_pow2 by lia.
  change (2 ^ 8) with 256. change (2 ^ 16) with (256 * 256).
  change (2 ^ 24) with (256 * 256 * 256). change (2 ^ 32) with (256 * 256 * 256 * 256).
  Z.to_euclidean_division_equations. lia.
Qed.

Lemma msg_of_msg_bytes m r : msg_ok m → msg_of_bytes (msg_bytes m ++ r) = m.
Proof.
  intros (?&?&?&?&?&?). unfold msg_of_bytes, msg_bytes. rewrite <- !app_assoc.
  destruct m as [c a0 a1 l ch mg]; simpl command in *; simpl arg0 in *; simpl arg1 in *;
    simpl data_length in *; simpl data_check in *; simpl magic in *.
  f_equal; (etrans; [apply get32_le32 | by apply u32_id]).
Qed.

Lemma get32_range bs : Forall is_byte bs → 0 ≤ get32 bs < 2 ^ 32.
Proof.
  intros H. destruct bs as [|b0 [|b1 [|b2 [|b3 bs]]]]; simpl; try lia.
  decompose_Forall_hyps. unfold is_byte in *. lia.
Qed.

Lemma sum32_range bs : 0 ≤ sum32 bs < 2 ^ 32.
Proof.
  unfold sum32. assert (∀ a, 0 ≤ a < 2 ^ 32 →
    0 ≤ foldl (λ acc b, u32 (acc + b)) a bs < 2 ^ 32) as H; [|apply H; lia].
  induction bs as [|b bs IH]; intros a Ha; simpl; [done|]. apply IH, u32_range.
Qed.
#[export] Hint Resolve sum32_range : adb.

Lemma lxor_mask_range x : 0 ≤ x < 2 ^ 32 → 0 ≤ Z.lxor x 0xffffffff < 2 ^ 32.
Proof.
  intros Hx. split; [apply Z.lxor_nonneg; lia|].
  destruct (decide (Z.lxor x 0xffffffff = 0)) as [->|]; [lia|].
  apply Z.log2_lt_pow2; [assert (0 ≤ Z.lxor x 0xffffffff) by (apply Z.lxor_nonneg; lia); lia|].
  eapply Z.le_lt_trans; [apply Z.log2_lxor; lia|].
  apply Z.max_lub_lt; [|by vm_compute].
  destruct (decide (x = 0)) as [->|]; [by vm_compute|].
  apply Z.log2_lt_pow2; lia.
Qed.
#[export] Hint Resolve lxor_mask_range : adb.

(** The payload of a packet whose declared length is the whole array. *)
Lemma payload_full p : payload p (Z.of_nat (length (p_data p))) = Some (p_data p).
Proof. unfold payload. rewrite decide_True by lia. by rewrite Nat2Z.id, firstn_all. Qed.

Lemma payload_length p n body : payload p n = Some body → Z.of_nat (length body) = n.
Proof.
  unfold payload. case_decide; [|done]. intros [= <-]. rewrite length_take. lia.
Qed.

(** A header completed by send_packet passes both checks. *)
Lemma fill_header_ok p body :
  payload p (data_length (p_msg p)) = Some body → data_length (p_msg p) ≤ MAX_PAYLOAD →
  packet_ok (with_data (fill_header p body) body).
Proof.
  intros Hp Hl. apply payload_length in Hp.
  split_and!; simpl; try done. rewrite <- Hp. unfold payload; simpl.
  rewrite decide_True by lia. by rewrite Nat2Z.id, firstn_all.
Qed.

Lemma fill_header_msg_ok p body : msg_ok (p_msg p) → msg_ok (p_msg (fill_header p body)).
Proof.
  unfold msg_ok; simpl. intros (Hc & H).
  pose proof (sum32_range body). pose proof (lxor_mask_range _ Hc). intuition lia.
Qed.

Lemma check_header_spec p :
  check_header p = true ↔
  magic (p_msg p) = Z.lxor (command (p_msg p)) 0xffffffff ∧ data_length (p_msg p) ≤ MAX_PAYLOAD.
Proof.
  unfold check_header. destruct (Z.eqb_spec (magic (p_msg p)) (Z.lxor (command (p_msg p)) 0xffffffff));
    simpl; [|naive_solver].
  destruct (Z.gtb_spec (data_length (p_msg p)) MAX_PAYLOAD); naive_solver lia.
Qed.

Lemma check_data_spec p :
  check_data p = Some true ↔
  ∃ body, payload p (data_length (p_msg p)) = Some body ∧ sum32 body = data_check (p_msg p).
Proof.
  unfold check_data. destruct (payload p _) as [body|]; simpl; [|naive_solver].
  split.
  - intros [= H%Z.eqb_eq]. eauto.
  - intros (b & [= <-] & H). f_equal. by apply Z.eqb_eq.
Qed.

(** The common end of both receivers. *)
Lemma accept_data_ok m body k :
  check_header (with_msg zero_packet m) = true →
  0 ≤ data_length m → Z.to_nat (data_length m) = length body →
  ∃ r, accept_data (with_data (with_msg zero_packet m) body) k = Ok r k ∧
    (r = None ∨ r = Some (mkPacket 0 0 m body) ∧ packet_ok (mkPacket 0 0 m body)) ∧
    (sum32 body = data_check m → r = Some (mkPacket 0 0 m body)).
Proof.
  intros [Hm Hl]%check_header_spec H0 Hlen. unfold accept_data, check_data. simpl in *.
  assert (Hp : payload (mkPacket 0 0 m body) (data_length m) = Some body).
  { rewrite <- (Z2Nat.id (data_length m)), Hlen by done. apply payload_full. }
  unfold with_data; simpl. rewrite Hp. simpl.
  destruct (Z.eqb_spec (sum32 body) (data_check m)); simpl.
  - eexists. split_and!; [done| |done]. right. split; [done|]. by split_and!.
  - eexists. split_and!; [done|by left|done].
Qed.

(** ** The socket link *)

Lemma local_remote_read_spec t m body rest k :
  msg_ok m → Z.of_nat (length body) = data_length m →
  packet_ok (mkPacket 0 0 m body) →
  stream (rd_of (TransportLocal.sfd t) k) = msg_bytes m ++ body ++ rest →
  ∃ k', TransportLocal.remote_read t k = Ok (Some (mkPacket 0 0 m body)) k' ∧
    same_but_rd (TransportLocal.sfd t) k k' ∧
    stream (rd_of (TransportLocal.sfd t) k') = rest.
Proof.
  intros Hm Hlen (Hmag & Hmax & _ & Hsum) Hst. simpl in Hmag, Hmax, Hsum. unfold TransportLocal.remote_read.
  destruct (readx_spec (TransportLocal.sfd t) sizeof_amessage k) as (k1 & Hs1 & Hr).
  cbv zeta in Hr. rewrite Hst in Hr. rewrite decide_True in Hr by (rewrite length_app, length_msg_bytes; lia).
  destruct Hr as [Hr1 Hst1]. rewrite (bind_ok _ _ _ _ _ Hr1).
  rewrite <- (length_msg_bytes m) in Hst1 |- *. rewrite take_app_exact. rewrite drop_app_exact in Hst1.
  rewrite <- (app_nil_r (msg_bytes m)), msg_of_msg_bytes by done. cbv zeta.
  assert (Hch : check_header (with_msg zero_packet m) = true) by (by apply check_header_spec).
  rewrite Hch. cbn [negb with_msg p_msg].
  destruct (readx_spec (TransportLocal.sfd t) (Z.to_nat (data_length m)) k1) as (k2 & Hs2 & Hr).
  cbv zeta in Hr. rewrite Hst1 in Hr. rewrite <- Hlen, Nat2Z.id in Hr |- *.
  rewrite decide_True in Hr by (rewrite length_app; lia). destruct Hr as [Hr2 Hst2].
  rewrite (bind_ok _ _ _ _ _ Hr2), take_app_exact. rewrite drop_app_exact in Hst2.
  destruct (accept_data_ok m body k2) as (r & -> & _ & Hok); [done|lia|lia|].
  rewrite Hok by done. exists k2. split_and!; [done| by etrans |done].
Qed.

Lemma local_remote_write_spec t p body k :
  payload p (data_length (p_msg p)) = Some body →
  ∃ k', let c := wcap (wr_of (TransportLocal.sfd t) k) in
    TransportLocal.remote_write t p k =
      Ok (bool_decide (sizeof_amessage + length body ≤ c)%nat) k' ∧
    same_but_wr (TransportLocal.sfd t) k k' ∧
    out_of (TransportLocal.sfd t) k' =
      out_of (TransportLocal.sfd t) k ++ take c (msg_bytes (p_msg p) ++ body).
Proof.
  intros Hp. unfold TransportLocal.remote_write. rewrite Hp.
  destruct (writex_spec (TransportLocal.sfd t) (msg_bytes (p_msg p) ++ body) k)
    as (k' & Hf & Hw & Ho & _).
  exists k'. cbv zeta in *. rewrite Hw, Ho. rewrite length_app, length_msg_bytes. done.
Qed.

(** ** The FunctionFS link *)

Lemma bulk_read_spec fuel fd len acc k :
  (length acc < len)%nat → (len - length acc ≤ length (stream (rd_of fd k)))%nat →
  (length (rd_of fd k) < fuel)%nat →
  ∃ k', bulk_read fuel fd len acc k =
      Ok (Some (acc ++ take (len - length acc) (stream (rd_of fd k)))) k' ∧
    same_but_rd fd k k' ∧ stream (rd_of fd k') = drop (len - length acc) (stream (rd_of fd k)).
Proof.
  revert acc k. induction fuel as [|fuel IH]; intros acc k Hlt Hst Hf; [lia|].
  simpl bulk_read. unfold bind, adb_read.
  pose proof (read_script_spec (rd_of fd k) (len - length acc) ltac:(lia)) as Hv.
  destruct (read_script (rd_of fd k) _) as [r s'] eqn:Hr.
  inversion Hv as [e s'' He Hs|s'' Hs|bs s'' Hbs Hs Hle Hl Hd]; subst; clear Hv.
  - rewrite Hs in Hst. simpl in Hst. lia.
  - rewrite Hs in Hst. simpl in Hst. lia.
  - rewrite Hs in Hst |- *. rewrite length_app in Hst |- *. set (n := (len - length acc)%nat) in *.
    case_decide as Hc.
    + destruct (IH (acc ++ bs) (set_rd fd s' k)) as (k' & Hb & Hk & Hs');
        rewrite ?length_app; autorewrite with adb; [lia|lia|lia|].
      rewrite length_app in Hb, Hs'. autorewrite with adb in Hb, Hs'.
      exists k'. split_and!.
      * rewrite Hb, <- app_assoc. do 3 f_equal.
        rewrite take_app_ge by lia. do 2 f_equal. lia.
      * etrans; [apply same_but_rd_set_rd | done].
      * rewrite Hs', drop_app_ge by lia. f_equal. lia.
    + exists (set_rd fd s' k). assert (n = length bs) as -> by lia.
      rewrite take_app_exact, drop_app_exact. autorewrite with adb.
      split_and!; [done|apply same_but_rd_set_rd|done].
Qed.

Lemma usb_ffs_read_spec h len k :
  (0 < len)%nat → (len ≤ length (stream (rd_of (Usb.bulk_out h) k)))%nat →
  ∃ k', usb_ffs_read h len k = Ok (Some (take len (stream (rd_of (Usb.bulk_out h) k)))) k' ∧
    same_but_rd (Usb.bulk_out h) k k' ∧
    stream (rd_of (Usb.bulk_out h) k') = drop len (stream (rd_of (Usb.bulk_out h) k)).
Proof.
  intros H0 Hlen. unfold usb_ffs_read.
  destruct (bulk_read_spec (2 + length (rd_of (Usb.bulk_out h) k)) (Usb.bulk_out h) len [] k)
    as (k' & Hb & Hk & Hs); simpl length; rewrite ?Nat.sub_0_r in *; try lia.
  simpl length in *. rewrite (bind_ok _ _ _ _ _ Hb). exists k'.
  split_and!; [|done..]. rewrite app_nil_l. rewrite decide_True by (rewrite length_take; lia). done.
Qed.

Lemma bulk_write_spec fuel fd buf k :
  (0 < length buf)%nat → (length buf ≤ wcap (wr_of fd k))%nat →
  (length (wr_of fd k) < fuel)%nat →
  ∃ k', bulk_write fuel fd buf k = Ok (Some (length buf)) k' ∧ same_but_wr fd k k' ∧
    out_of fd k' = out_of fd k ++ buf ∧
    wcap (wr_of fd k') = (wcap (wr_of fd k) - length buf)%nat.
Proof.
  revert buf k. induction fuel as [|fuel IH]; intros buf k H0 Hc Hf; [lia|].
  simpl bulk_write. unfold bind at 1, adb_write.
  pose proof (write_script_spec (wr_of fd k) (length buf) ltac:(lia)) as Hv.
  destruct (write_script (wr_of fd k) _) as [r s'] eqn:Hr.
  inversion Hv as [e s'' He Hs|s'' Hs|n s'' Hn Hle Hd Hle' Hl]; subst; clear Hv; [lia|lia|].
  set (k1 := add_out fd (take n buf) (set_wr fd s' k)).
  assert (Hwr : wr_of fd k1 = s') by apply wr_of_set_wr.
  assert (Hk1 : same_but_wr fd k k1).
  { etrans; [apply same_but_wr_set_wr | apply same_but_wr_add_out]. }
  assert (Ho1 : out_of fd k1 = out_of fd k ++ take n buf).
  { unfold k1. by autorewrite with adb. }
  case_decide.
  - destruct (IH (drop n buf) k1) as (k' & Hb & Hk & Ho & Hw);
      rewrite ?length_drop, ?Hwr in *; try lia.
    rewrite (bind_ok _ _ _ _ _ Hb). exists k'. split_and!.
    + simpl. do 2 f_equal. lia.
    + by etrans.
    + by rewrite Ho, Ho1, <- app_assoc, take_drop.
    + lia.
  - exists k1. assert (n = length buf) as -> by lia.
    rewrite Ho1, firstn_all, Hwr. split_and!; [done..|lia].
Qed.

Lemma usb_ffs_write_spec h data k :
  (0 < length data)%nat → (length data ≤ wcap (wr_of (Usb.bulk_in h) k))%nat →
  ∃ k', usb_ffs_write h data k = Ok true k' ∧ same_but_wr (Usb.bulk_in h) k k' ∧
    out_of (Usb.bulk_in h) k' = out_of (Usb.bulk_in h) k ++ data ∧
    wcap (wr_of (Usb.bulk_in h) k') = (wcap (wr_of (Usb.bulk_in h) k) - length data)%nat.
Proof.
  intros H0 Hc. unfold usb_ffs_write.
  destruct (bulk_write_spec (2 + length (wr_of (Usb.bulk_in h) k)) (Usb.bulk_in h) data k)
    as (k' & Hb & Hr); [lia..|].
  exists k'. rewrite (bind_ok _ _ _ _ _ Hb). split; [|done].
  unfold ret. by rewrite bool_decide_eq_true_2.
Qed.

Lemma ffs_remote_read_spec h m body rest k :
  Usb.impl h = Usb.usb_ffs → msg_ok m → Z.of_nat (length body) = data_length m →
  packet_ok (mkPacket 0 0 m body) →
  stream (rd_of (Usb.bulk_out h) k) = msg_bytes m ++ body ++ rest →
  ∃ k', TransportUsb.remote_read h k = Ok (Some (mkPacket 0 0 m body)) k' ∧
    same_but_rd (Usb.bulk_out h) k k' ∧ stream (rd_of (Usb.bulk_out h) k') = rest.
Proof.
  intros Hi Hm Hlen (Hmag & Hmax & _ & Hsum) Hst. simpl in Hmag, Hmax, Hsum.
  unfold TransportUsb.remote_read, usb_read. rewrite Hi.
  destruct (usb_ffs_read_spec h sizeof_amessage k) as (k1 & Hr1 & Hs1 & Hst1);
    [unfold sizeof_amessage; lia | rewrite Hst, length_app, length_msg_bytes; lia |].
  rewrite Hst in Hr1, Hst1. rewrite <- (length_msg_bytes m) in Hr1, Hst1.
  rewrite take_app_exact in Hr1. rewrite drop_app_exact in Hst1. rewrite length_msg_bytes in Hr1.
  rewrite (bind_ok _ _ _ _ _ Hr1). rewrite <- (app_nil_r (msg_bytes m)), msg_of_msg_bytes by done.
  cbv zeta. assert (Hch : check_header (with_msg zero_packet m) = true) by (by apply check_header_spec).
  rewrite Hch. cbn [negb with_msg p_msg]. destruct (Z.eqb_spec (data_length m) 0) as [Hz|Hz]; cbn [negb].
  - destruct body; [|simpl in *; lia].
    destruct (accept_data_ok m [] k1) as (r & Hacc & _ & Hok); [done|lia|simpl in *; lia|].
    unfold with_data in Hacc. simpl in Hacc. unfold with_msg in Hacc |- *. simpl in Hacc |- *.
    rewrite Hacc, Hok by done. exists k1. by split_and!.
  - destruct (usb_ffs_read_spec h (Z.to_nat (data_length m)) k1) as (k2 & Hr2 & Hs2 & Hst2);
      [lia | rewrite Hst1, length_app; lia |].
    rewrite Hst1 in Hr2, Hst2. rewrite <- Hlen, Nat2Z.id in Hr2, Hst2 |- *.
    rewrite take_app_exact in Hr2. rewrite drop_app_exact in Hst2. rewrite (bind_ok _ _ _ _ _ Hr2).
    destruct (accept_data_ok m body k2) as (r & -> & _ & Hok); [done|lia|lia|].
    rewrite Hok by done. exists k2. split_and!; [done| by etrans |done].
Qed.

Lemma ffs_remote_write_spec h p body k :
  Usb.impl h = Usb.usb_ffs → payload p (data_length (p_msg p)) = Some body →
  (sizeof_amessage + length body ≤ wcap (wr_of (Usb.bulk_in h) k))%nat →
  ∃ k', TransportUsb.remote_write h p k = Ok true k' ∧ same_but_wr (Usb.bulk_in h) k k' ∧
    out_of (Usb.bulk_in h) k' = out_of (Usb.bulk_in h) k ++ msg_bytes (p_msg p) ++ body ∧
    wcap (wr_of (Usb.bulk_in h) k')
      = (wcap (wr_of (Usb.bulk_in h) k) - (sizeof_amessage + length body))%nat.
Proof.
  intros Hi Hp Hc. unfold TransportUsb.remote_write, usb_write. rewrite Hi.
  destruct (usb_ffs_write_spec h (msg_bytes (p_msg p)) k) as (k1 & Hw1 & Hk1 & Ho1 & Hc1);
    rewrite ?length_msg_bytes in *; [unfold sizeof_amessage in *; lia..|].
  rewrite (bind_ok _ _ _ _ _ Hw1). cbn [negb]. pose proof (payload_length _ _ _ Hp) as Hlen.
  destruct (Z.eqb_spec (data_length (p_msg p)) 0).
  - destruct body; [|simpl in *; lia]. exists k1. rewrite app_nil_r, Nat.add_0_r. by split_and!.
  - rewrite Hp. destruct (usb_ffs_write_spec h body k1) as (k2 & Hw2 & Hk2 & Ho2 & Hc2); [lia..|].
    exists k2. split_and!; [done|by etrans|by rewrite Ho2, Ho1, <- app_assoc|lia].
Qed.

(** ** The interface law: only checked packets are delivered *)

Class RemoteLinkOk (L : Type) `{RemoteLink L} := {
  link_read_checked l k p k' : read_from_remote l k = Ok (Some p) k' → packet_ok p;
}.

Lemma accept_data_checked m body k p k' :
  check_header (with_msg zero_packet m) = true → Z.to_nat (data_length m) = length body →
  accept_data (with_data (with_msg zero_packet m) body) k = Ok (Some p) k' → packet_ok p.
Proof.
  intros Hh Hlen. destruct (decide (0 ≤ data_length m)) as [H0|H0].
  - destruct (accept_data_ok m body k Hh H0 Hlen) as (r & -> & [->|[-> Hok]] & _); [done|].
    by intros [= <- <-].
  - unfold accept_data, check_data, payload. simpl. rewrite decide_False by lia. done.
Qed.

Lemma readx_length fd len k bs k' : readx fd len k = Ok (Some bs) k' → length bs = len.
Proof.
  intros H. destruct (readx_spec fd len k) as (k1 & _ & Hr). cbv zeta in Hr. case_decide.
  - destruct Hr as [Hr _]. rewrite H in Hr. injection Hr as -> _. rewrite length_take. lia.
  - by rewrite H in Hr.
Qed.

Lemma usb_read_length h len k bs k' : usb_read h len k = Ok (Some bs) k' → length bs = len.
Proof.
  unfold usb_read, usb_adb_read, usb_ffs_read, bind, ret. destruct (Usb.impl h).
  - destruct (adb_read _ _ _) as [[cs|]| |]; try done. case_decide; naive_solver.
  - destruct (bulk_read _ _ _ _ _) as [[cs|]| |]; try done. case_decide; naive_solver.
Qed.

Section read_checked.
Import TransportLocal.

#[global] Instance socket_link_ok : RemoteLinkOk link.
Proof.
  split. intros t k p k'. simpl. unfold remote_read, bind.
  destruct (readx (sfd t) _ k) as [[bs|] k1| |]; try done.
  destruct (check_header _) eqn:Hh; cbv beta iota delta [negb]; [|done].
  cbn [with_msg p_msg].
  destruct (readx (sfd t) _ k1) as [[body|] k2| |] eqn:Hr; try done.
  apply readx_length in Hr. by apply accept_data_checked.
Qed.

#[global] Instance usb_link_ok : RemoteLinkOk Usb.usb_handle.
Proof.
  split. intros t k p k'. simpl. unfold TransportUsb.remote_read, bind.
  destruct (usb_read t _ k) as [[bs|] k1| |]; try done.
  destruct (check_header _) eqn:Hh; cbv beta iota delta [negb]; [|done].
  cbn [with_msg p_msg]. destruct (Z.eqb_spec (data_length (msg_of_bytes bs)) 0) as [Hz|Hz]; cbv beta iota delta [negb].
  - apply (accept_data_checked (msg_of_bytes bs) []); [done|]. by rewrite Hz.
  - destruct (usb_read t _ k1) as [[body|] k2| |] eqn:Hr; try done.
    apply usb_read_length in Hr. by apply accept_data_checked.
Qed.
End read_checked.

(** round trip over the socket link.  Let [p] be a packet whose header
    send_packet completed.  When the peer accepts the bytes, remote_write puts
    exactly one frame on the socket; a receiver whose input stream carries
    these bytes, in chunks of any size and with any number of interrupted
    reads, obtains from remote_read the same message and payload, and its
    input goes on right after the frame. *)
Theorem local_link_roundtrip (t t' : TransportLocal.link) (q : apacket) (body rest : list Z)
    (k k' : kern) :
  msg_ok (p_msg q) →
  payload q (data_length (p_msg q)) = Some body →
  data_length (p_msg q) ≤ MAX_PAYLOAD →
  (sizeof_amessage + length body ≤ wcap (wr_of (TransportLocal.sfd t) k))%nat →
  let p := fill_header q body in
  ∃ k1 frame,
    TransportLocal.remote_write t p k = Ok true k1 ∧
    out_of (TransportLocal.sfd t) k1 = out_of (TransportLocal.sfd t) k ++ frame ∧
    (stream (rd_of (TransportLocal.sfd t') k') = frame ++ rest →
     ∃ k2, TransportLocal.remote_read t' k' = Ok (Some (mkPacket 0 0 (p_msg p) body)) k2 ∧
       stream (rd_of (TransportLocal.sfd t') k2) = rest).
Proof.
  intros Hm Hp Hmax Hc p. exists (match TransportLocal.remote_write t p k with
    Ok _ s => s | Exit _ s => s | Fault _ s => s end), (msg_bytes (p_msg p) ++ body).
  destruct (local_remote_write_spec t p body k) as (k1 & Hw & _ & Ho); [done|]. cbv zeta in *.
  rewrite Hw. rewrite bool_decide_eq_true_2 by done. rewrite Ho, take_ge
    by (rewrite length_app, length_msg_bytes; done).
  split_and!; [done..|]. rewrite <- app_assoc. intros Hst.
  destruct (local_remote_read_spec t' (p_msg p) body rest k') as (k2 & Hr & _ & Hs).
  - by apply fill_header_msg_ok.
  - by apply payload_length in Hp.
  - exact (fill_header_ok q body Hp Hmax).
  - done.
  - eauto.
Qed.

(** the same round trip over the FunctionFS endpoints of the USB client
    (bulk_write and bulk_read loop over short and interrupted transfers). *)
Theorem ffs_link_roundtrip (h h' : Usb.usb_handle) (q : apacket) (body rest : list Z)
    (k k' : kern) :
  Usb.impl h = Usb.usb_ffs → Usb.impl h' = Usb.usb_ffs →
  msg_ok (p_msg q) →
  payload q (data_length (p_msg q)) = Some body →
  data_length (p_msg q) ≤ MAX_PAYLOAD →
  (sizeof_amessage + length body ≤ wcap (wr_of (Usb.bulk_in h) k))%nat →
  let p := fill_header q body in
  ∃ k1 frame,
    TransportUsb.remote_write h p k = Ok true k1 ∧
    out_of (Usb.bulk_in h) k1 = out_of (Usb.bulk_in h) k ++ frame ∧
    (stream (rd_of (Usb.bulk_out h') k') = frame ++ rest →
     ∃ k2, TransportUsb.remote_read h' k' = Ok (Some (mkPacket 0 0 (p_msg p) body)) k2 ∧
       stream (rd_of (Usb.bulk_out h') k2) = rest).
Proof.
  intros Hi Hi' Hm Hp Hmax Hc p.
  destruct (ffs_remote_write_spec h p body k) as (k1 & Hw & _ & Ho & _); [done..|].
  exists k1, (msg_bytes (p_msg p) ++ body). split_and!; [done..|].
  rewrite <- app_assoc. intros Hst.
  destruct (ffs_remote_read_spec h' (p_msg p) body rest k') as (k2 & Hr & _ & Hs).
  - done.
  - by apply fill_header_msg_ok.
  - by apply payload_length in Hp.
  - exact (fill_header_ok q body Hp Hmax).
  - done.
  - eauto.
Qed.

(** C25: nothing but checked packets comes in.  Whatever bytes a socket or a
    USB endpoint delivers, a packet handed to the daemon has the magic of its
    command, at most MAX_PAYLOAD bytes of payload, all of them received, and
    the checksum of its payload. *)
Theorem remote_read_checked :
  (∀ t k p k', TransportLocal.remote_read t k = Ok (Some p) k' → packet_ok p) ∧
  (∀ h k p k', TransportUsb.remote_read h k = Ok (Some p) k' → packet_ok p).
Proof. split; intros l k p k' H; exact (link_read_checked l k p k' H). Qed.

Module Witness.
(** an OKAY packet in a stream of odd chunks and an interruption *)
Definition okay : apacket := mkPacket 0 0 (mkMsg A_OKAY 1 2 3 0 0) [65; 66; 67; 9].
Definition frame : list Z := msg_bytes (p_msg (fill_header okay [65; 66; 67])) ++ [65; 66; 67].
Definition k_send : kern := mkKern 0 ∅ {[ 5 := [WrOk 3; WrErr EINTR; WrOk 40] ]} ∅ [] [] [].
Definition k_recv : kern :=
  mkKern 0 {[ 7 := [RdData (take 5 frame); RdErr EINTR; RdData (drop 5 frame ++ [1])] ]}
    ∅ ∅ [] [] [].
Definition ffs : Usb.usb_handle := Usb.mkUsb Usb.usb_ffs (-1) 3 7 5.
End Witness.

Lemma local_link_roundtrip_witness :
  ∃ k2, TransportLocal.remote_read {| TransportLocal.sfd := 7 |} Witness.k_recv =
    Ok (Some (mkPacket 0 0 (p_msg (fill_header Witness.okay [65; 66; 67])) [65; 66; 67])) k2.
Proof.
  destruct (local_link_roundtrip {| TransportLocal.sfd := 5 |} {| TransportLocal.sfd := 7 |}
    Witness.okay [65; 66; 67] [1] Witness.k_send Witness.k_recv) as (k1 & fr & Hw & Ho & Hr).
  - vm_compute. intuition congruence.
  - reflexivity.
  - vm_compute. congruence.
  - vm_compute. lia.
  - assert (fr = Witness.frame) as ->.
    { vm_compute in Hw. injection Hw as <-. vm_compute in Ho. symmetry. exact Ho. }
    destruct Hr as (k2 & Hr & _); [vm_compute; reflexivity|]. exists k2. exact Hr.
Defined.

Lemma ffs_link_roundtrip_witness :
  ∃ k2, TransportUsb.remote_read Witness.ffs Witness.k_recv =
    Ok (Some (mkPacket 0 0 (p_msg (fill_header Witness.okay [65; 66; 67])) [65; 66; 67])) k2.
Proof.
  destruct (ffs_link_roundtrip Witness.ffs Witness.ffs
    Witness.okay [65; 66; 67] [1] Witness.k_send Witness.k_recv) as (k1 & fr & Hw & Ho & Hr).
  - reflexivity.
  - reflexivity.
  - vm_compute. intuition congruence.
  - reflexivity.
  - vm_compute. congruence.
  - vm_compute. lia.
  - assert (fr = Witness.frame) as ->.
    { vm_compute in Hw. injection Hw as <-. vm_compute in Ho. symmetry. exact Ho. }
    destruct Hr as (k2 & Hr & _); [vm_compute; reflexivity|]. exists k2. exact Hr.
Defined.

Lemma remote_read_checked_witness :
  packet_ok (mkPacket 0 0 (p_msg (fill_header Witness.okay [65; 66; 67])) [65; 66; 67]).
Proof.
  destruct (TransportLocal.remote_read {| TransportLocal.sfd := 7 |} Witness.k_recv)
    as [[p|] k|c k|f k] eqn:E; vm_compute in E; try discriminate.
  injection E as <- <-.
  exact (proj1 remote_read_checked {| TransportLocal.sfd := 7 |} Witness.k_recv _ _ eq_refl).
Defined.
