(* ===== verification/UsbDesc.v ===== *)
(** * The USB function (adbd/src/usb_linux_client.c, adbd/include/functionfs.h)

    The descriptors and strings written to the control file of FunctionFS when
    the USB link is opened, byte by byte.  cpu_to_le16 and cpu_to_le32 depend on
    the byte order of the processor; [little] says which it is.

    Theorems: a reader of the format documented in functionfs.h recovers
    exactly the interface with a bulk endpoint in each direction, at both
    speeds, and its name; on a big-endian machine, where some fields are not
    converted, it does not. *)

From S2P Require Import Prelude Kernel Packet.

Definition FUNCTIONFS_DESCRIPTORS_MAGIC : Z := 1.
Definition FUNCTIONFS_STRINGS_MAGIC : Z := 2.
Definition MAX_PACKET_SIZE_FS : Z := 64.
Definition MAX_PACKET_SIZE_HS : Z := 512.
Definition ADB_CLASS : Z := 0xff.
Definition ADB_SUBCLASS : Z := 0x42.
Definition ADB_PROTOCOL : Z := 0x1.
(** linux/usb/ch9.h *)
Definition USB_DT_INTERFACE : Z := 4.
Definition USB_DT_ENDPOINT : Z := 5.
Definition USB_DIR_OUT : Z := 0.
Definition USB_DIR_IN : Z := 0x80.
Definition USB_ENDPOINT_XFER_BULK : Z := 2.

Record usb_interface_descriptor := mkIntf {
  i_bLength : Z; i_bDescriptorType : Z; bInterfaceNumber : Z; bAlternateSetting : Z; bNumEndpoints : Z;
  bInterfaceClass : Z; bInterfaceSubClass : Z; bInterfaceProtocol : Z; iInterface : Z }.
Record usb_endpoint_descriptor_no_audio := mkEp {
  e_bLength : Z; e_bDescriptorType : Z; bEndpointAddress : Z; bmAttributes : Z; wMaxPacketSize : Z; bInterval : Z }.
Record usb_functionfs_descs_head := mkDescsHead { d_magic : Z; d_length : Z; fs_count : Z; hs_count : Z }.
Record usb_functionfs_strings_head := mkStringsHead { st_magic : Z; st_length : Z; str_count : Z; lang_count : Z }.
(** the three descriptors of one speed *)
Record speed_descs := mkSpeed {
  intf : usb_interface_descriptor;
  source : usb_endpoint_descriptor_no_audio;
  sink : usb_endpoint_descriptor_no_audio }.
Record ffs_descriptors := mkDescriptors { header : usb_functionfs_descs_head; fs_descs : speed_descs; hs_descs : speed_descs }.
Record ffs_strings := mkStrings { s_header : usb_functionfs_strings_head; code : Z; str1 : list Z }.

(** sizeof of the packed structures *)
Definition sizeof_intf : Z := 9.
Definition sizeof_ep : Z := 7.
Definition sizeof_descriptors : Z := 16 + 2 * (sizeof_intf + sizeof_ep + sizeof_ep).
Definition STR_INTERFACE_ : list Z := str "ADB Interface".
Definition sizeof_strings : Z := 16 + 2 + Z.of_nat (length STR_INTERFACE_ + 1).

Section byte_order.
Context (little : bool).

Definition cpu_to_le16 (x : Z) : Z :=
  if little then x else Z.lor (Z.land (Z.shiftr x 8) 0xff) (Z.shiftl (Z.land x 0xff) 8).
Definition cpu_to_le32 (x : Z) : Z :=
  if little then x
  else Z.lor (Z.lor (Z.lor (Z.shiftr (Z.land x 0xff000000) 24) (Z.shiftr (Z.land x 0x00ff0000) 8))
                    (Z.shiftl (Z.land x 0x0000ff00) 8)) (Z.shiftl (Z.land x 0x000000ff) 24).

Definition intf_desc : usb_interface_descriptor :=
  mkIntf sizeof_intf USB_DT_INTERFACE 0 0 2 ADB_CLASS ADB_SUBCLASS ADB_PROTOCOL 1.
Definition source_desc (size : Z) : usb_endpoint_descriptor_no_audio :=
  mkEp sizeof_ep USB_DT_ENDPOINT (Z.lor 1 USB_DIR_OUT) USB_ENDPOINT_XFER_BULK size 0.
Definition sink_desc (size : Z) : usb_endpoint_descriptor_no_audio :=
  mkEp sizeof_ep USB_DT_ENDPOINT (Z.lor 2 USB_DIR_IN) USB_ENDPOINT_XFER_BULK size 0.
Definition speed_desc (size : Z) : speed_descs := mkSpeed intf_desc (source_desc size) (sink_desc size).

Definition descriptors : ffs_descriptors :=
  mkDescriptors
    (mkDescsHead (cpu_to_le32 FUNCTIONFS_DESCRIPTORS_MAGIC) (cpu_to_le32 sizeof_descriptors) 3 3)
    (speed_desc MAX_PACKET_SIZE_FS) (speed_desc MAX_PACKET_SIZE_HS).
Definition strings : ffs_strings :=
  mkStrings
    (mkStringsHead (cpu_to_le32 FUNCTIONFS_STRINGS_MAGIC) (cpu_to_le32 sizeof_strings)
       (cpu_to_le32 1) (cpu_to_le32 1))
    (cpu_to_le16 0x0409) (STR_INTERFACE_ ++ [0]).

(** ** The bytes in memory *)

Definition le16 (n : Z) : list Z := [u8 n; u8 (Z.shiftr n 8)].
Definition mem16 (n : Z) : list Z := if little then le16 n else reverse (le16 n).
Definition mem32 (n : Z) : list Z := if little then le32 n else reverse (le32 n).

Definition intf_bytes (d : usb_interface_descriptor) : list Z :=
  u8 <$> [i_bLength d; i_bDescriptorType d; bInterfaceNumber d; bAlternateSetting d; bNumEndpoints d;
          bInterfaceClass d; bInterfaceSubClass d; bInterfaceProtocol d; iInterface d].
Definition ep_bytes (d : usb_endpoint_descriptor_no_audio) : list Z :=
  (u8 <$> [e_bLength d; e_bDescriptorType d; bEndpointAddress d; bmAttributes d])
  ++ mem16 (wMaxPacketSize d) ++ [u8 (bInterval d)].
Definition speed_bytes (d : speed_descs) : list Z :=
  intf_bytes (intf d) ++ ep_bytes (source d) ++ ep_bytes (sink d).
Definition descriptors_bytes : list Z :=
  let h := header descriptors in
  mem32 (d_magic h) ++ mem32 (d_length h) ++ mem32 (fs_count h) ++ mem32 (hs_count h)
  ++ speed_bytes (fs_descs descriptors) ++ speed_bytes (hs_descs descriptors).
Definition strings_bytes : list Z :=
  let h := s_header strings in
  mem32 (st_magic h) ++ mem32 (st_length h) ++ mem32 (str_count h) ++ mem32 (lang_count h)
  ++ mem16 (code strings) ++ str1 strings.
End byte_order.

(** ** is_adb_interface (transport_usb.c, ADB_HOST); the table of vendors is
    not part of the sources *)
Fixpoint is_adb_interface (vendorIds : list Z) (vid usb_class usb_subclass usb_protocol : Z) : bool :=
  match vendorIds with
  | [] => false
  | v :: l =>
      if vid =? v then
        (usb_class =? ADB_CLASS) && (usb_subclass =? ADB_SUBCLASS) && (usb_protocol =? ADB_PROTOCOL)
      else is_adb_interface l vid usb_class usb_subclass usb_protocol
  end.

(** ** The format FunctionFS reads, from the tables in functionfs.h *)

(** [n] descriptors, each with its length in its first byte, and the rest *)
Fixpoint parse_list (n : nat) (bs : list Z) : option (list (list Z) * list Z) :=
  match n with
  | O => Some ([], bs)
  | S n' =>
      match bs with
      | len :: _ :: _ =>
          let len := Z.to_nat len in
          if decide (2 ≤ len ≤ length bs)%nat then
            '(ds, rest) ← parse_list n' (drop len bs); Some (take len bs :: ds, rest)
          else None
      | _ => None
      end
  end.
(** the length covers the whole chunk and nothing is left over *)
Definition parse_descs (bs : list Z) : option (list (list Z) * list (list Z)) :=
  if decide ((16 ≤ length bs)%nat ∧ get32 bs = FUNCTIONFS_DESCRIPTORS_MAGIC
             ∧ get32 (drop 4 bs) = Z.of_nat (length bs)) then
    '(fs, rest) ← parse_list (Z.to_nat (get32 (drop 8 bs))) (drop 16 bs);
    '(hs, rest) ← parse_list (Z.to_nat (get32 (drop 12 bs))) rest;
    match rest with [] => Some (fs, hs) | _ => None end
  else None.

Definition get16 (bs : list Z) : Z := match bs with b0 :: b1 :: _ => b0 + b1 * 256 | _ => 0 end.
Fixpoint parse_texts (n : nat) (bs : list Z) : option (list (list Z) * list Z) :=
  match n with
  | O => Some ([], bs)
  | S n' =>
      s ← cstring bs;
      '(l, rest) ← parse_texts n' (drop (S (length s)) bs); Some (s :: l, rest)
  end.
Fixpoint parse_langs (n strs : nat) (bs : list Z) : option (list (Z * list (list Z)) * list Z) :=
  match n with
  | O => Some ([], bs)
  | S n' =>
      if decide (2 ≤ length bs)%nat then
        '(l, rest) ← parse_texts strs (drop 2 bs);
        '(ls, rest) ← parse_langs n' strs rest; Some ((get16 bs, l) :: ls, rest)
      else None
  end.
Definition parse_strings (bs : list Z) : option (list (Z * list (list Z))) :=
  if decide ((16 ≤ length bs)%nat ∧ get32 bs = FUNCTIONFS_STRINGS_MAGIC
             ∧ get32 (drop 4 bs) = Z.of_nat (length bs)) then
    '(ls, rest) ← parse_langs (Z.to_nat (get32 (drop 12 bs))) (Z.to_nat (get32 (drop 8 bs))) (drop 16 bs);
    match rest with [] => Some ls | _ => None end
  else None.

(** what a host learns from a descriptor *)
Inductive usb_item :=
| Interface (class subclass protocol endpoints text : Z)
| Endpoint (number : Z) (to_device : bool) (attributes max_packet : Z).
Definition item_of (d : list Z) : option usb_item :=
  match d with
  | [9; 4; _; _; n; c; s; p; t] => Some (Interface c s p n t)
  | [7; 5; a; at_; lo; hi; _] => Some (Endpoint (Z.land a 0x0f) (negb (Z.testbit a 7)) at_ (lo + hi * 256))
  | _ => None
  end.

(** Lists of descriptors of their stated lengths are read back one by one. *)
Lemma parse_list_app ds rest : Forall (λ d, (2 ≤ length d < 256)%nat ∧ head d = Some (Z.of_nat (length d))) ds →
  parse_list (length ds) (mjoin ds ++ rest) = Some (ds, rest).
Proof.
  induction ds as [|d ds IH]; cbn; [done|]. intros [[Hlen Hh] Hds]%list.Forall_cons.
  destruct d as [|len [|t d]]; cbn in Hlen; [lia..|]. cbn in Hh. injection Hh as ->.
  rewrite <- app_assoc. cbn [app]. rewrite Nat2Z.id.
  rewrite decide_True by (cbn; rewrite length_app; lia).
  change (Z.of_nat (S (S (length d))) :: t :: d ++ mjoin ds ++ rest)
    with ((Z.of_nat (S (S (length d))) :: t :: d) ++ (mjoin ds ++ rest)).
  rewrite drop_app_length', take_app_length', IH by done. done.
Qed.

Lemma parse_list_length n bs ds rest : parse_list n bs = Some (ds, rest) → (n ≤ length bs)%nat.
Proof.
  revert bs ds rest. induction n as [|n IH]; intros bs ds rest; cbn; [lia|].
  destruct bs as [|len [|t bs]]; [done..|]. case_decide as Hd; [|done].
  destruct (parse_list n _) as [[ds' rest']|] eqn:Hp; [|done]. intros _. apply IH in Hp.
  rewrite length_drop in Hp. lia.
Qed.

(** The chunk in the documented format for any such lists. *)
Definition render_descs (fs hs : list (list Z)) : list Z :=
  le32 FUNCTIONFS_DESCRIPTORS_MAGIC ++ le32 (Z.of_nat (16 + length (mjoin fs ++ mjoin hs)))
  ++ le32 (Z.of_nat (length fs)) ++ le32 (Z.of_nat (length hs)) ++ mjoin fs ++ mjoin hs.
Definition desc_ok (d : list Z) : Prop := (2 ≤ length d < 256)%nat ∧ head d = Some (Z.of_nat (length d)).
Lemma parse_render fs hs : Forall desc_ok fs → Forall desc_ok hs →
  Z.of_nat (16 + length (mjoin fs ++ mjoin hs)) < 2 ^ 32 →
  Z.of_nat (length fs) < 2 ^ 32 → Z.of_nat (length hs) < 2 ^ 32 →
  parse_descs (render_descs fs hs) = Some (fs, hs).
Proof.
  intros Hfs Hhs Hl Hf Hh. unfold parse_descs.
  assert (Hlen : length (render_descs fs hs) = (16 + length (mjoin fs ++ mjoin hs))%nat) by done.
  rewrite decide_True.
  2:{ rewrite Hlen. split_and!; [lia|by unfold render_descs; rewrite get32_le32|].
      change (drop 4 (render_descs fs hs)) with
        (le32 (Z.of_nat (16 + length (mjoin fs ++ mjoin hs))) ++ le32 (Z.of_nat (length fs))
         ++ le32 (Z.of_nat (length hs)) ++ mjoin fs ++ mjoin hs).
      rewrite get32_le32. apply u32_id. lia. }
  change (drop 8 (render_descs fs hs)) with
    (le32 (Z.of_nat (length fs)) ++ le32 (Z.of_nat (length hs)) ++ mjoin fs ++ mjoin hs).
  change (drop 12 (render_descs fs hs)) with (le32 (Z.of_nat (length hs)) ++ mjoin fs ++ mjoin hs).
  change (drop 16 (render_descs fs hs)) with (mjoin fs ++ mjoin hs).
  rewrite !get32_le32, !u32_id, !Nat2Z.id, parse_list_app by (done || lia). cbn.
  rewrite <- (app_nil_r (mjoin hs)), parse_list_app by done. done.
Qed.

(** What the daemon writes to FunctionFS is a chunk of the documented
    format: the lengths and counts in the headers are right, nothing is left
    over, and the function announced at each speed is one ADB interface with two
    bulk endpoints, number 1 towards the device and number 2 towards the host
    (the order in which their files are opened), with the packet sizes of the
    speed, and one English name. *)
Theorem functionfs_announces_adb :
  let speed size := [Some (Interface ADB_CLASS ADB_SUBCLASS ADB_PROTOCOL 2 1);
                     Some (Endpoint 1 true USB_ENDPOINT_XFER_BULK size);
                     Some (Endpoint 2 false USB_ENDPOINT_XFER_BULK size)] in
  (∃ fs hs, parse_descs (descriptors_bytes true) = Some (fs, hs)
    ∧ descriptors_bytes true = render_descs fs hs
    ∧ item_of <$> fs = speed MAX_PACKET_SIZE_FS ∧ item_of <$> hs = speed MAX_PACKET_SIZE_HS)
  ∧ parse_strings (strings_bytes true) = Some [(0x0409, [str "ADB Interface"])].
Proof.
  split; [|reflexivity]. do 2 eexists. split_and!; [vm_compute; reflexivity|reflexivity..].
Qed.

(** With the other byte order the counts of the header, which are not
    converted, are not the counts of the descriptors. *)
Theorem big_endian_descriptors_rejected : parse_descs (descriptors_bytes false) = None
  ∧ get32 (drop 8 (descriptors_bytes false)) = 3 * 2 ^ 24
  ∧ parse_strings (strings_bytes false) = Some [(0x0409, [str "ADB Interface"])].
Proof.
  split_and!; [|reflexivity..]. unfold parse_descs. case_decide; [|done].
  replace (get32 (drop 8 (descriptors_bytes false))) with (3 * 2 ^ 24) by reflexivity.
  destruct (parse_list _ _) as [[ds rest]|] eqn:Hp; [|done].
  apply parse_list_length in Hp. change (length (drop 16 (descriptors_bytes false))) with 46%nat in Hp. lia.
Qed.
