(* ===== verification/Base64.v ===== *)
(** * Base64 (adbd/src/base64.c)

    adb_b64_ntop and adb_b64_pton as computations on the target buffer, every
    array access checked.  The theorems: no access leaves the buffer and no
    assertion fails; encoding then decoding gives the bytes back; decoding
    accepts a text exactly when it is, white space apart, the encoding of the
    bytes it returns. *)

From S2P Require Import Prelude Kernel.

Definition Base64 : list Z :=
  str "ABCDEFGHIJKLMNOPQRSTUVWXYZabcdefghijklmnopqrstuvwxyz0123456789+/".
Definition Pad64 : Z := 61.

(** accesses to the target array *)
Definition load (i : nat) : M (list Z) Z := deref OutOfBounds (λ t, t !! i).
Definition store (i : nat) (v : Z) : M (list Z) unit := λ t,
  if decide (i < length t)%nat then Ok tt (<[i := u8 v]> t) else Fault OutOfBounds t.
(** a failed assertion aborts the process *)
Definition assert_lt (x y : Z) : M (list Z) unit := if x <? y then ret tt else exit 134.
(** an index into the alphabet; reading past its end would be a fault *)
Definition b64_char (i : Z) : M (list Z) Z := deref OutOfBounds (λ _, Base64 !! Z.to_nat i).

(** ** Encoding *)

(** the four output values of a group of three input bytes *)
Definition out0 (i0 : Z) : Z := Z.shiftr i0 2.
Definition out1 (i0 i1 : Z) : Z := Z.shiftl (Z.land i0 0x03) 4 + Z.shiftr i1 4.
Definition out2 (i1 i2 : Z) : Z := Z.shiftl (Z.land i1 0x0f) 2 + Z.shiftr i2 6.
Definition out3 (i2 : Z) : Z := Z.land i2 0x3f.

Definition put_char (datalength : nat) (c : Z) : M (list Z) nat :=
  store datalength c;;; ret (S datalength).

(** while(2 < srclength): the bytes left over and datalength; None: return -1 *)
Fixpoint ntop_loop (src : list Z) (datalength targsize : nat)
  : M (list Z) (option (list Z * nat)) :=
  match src with
  | i0 :: i1 :: i2 :: src' =>
      assert_lt (out0 i0) 64;;; assert_lt (out1 i0 i1) 64;;;
      assert_lt (out2 i1 i2) 64;;; assert_lt (out3 i2) 64;;;
      if decide (targsize < datalength + 4)%nat then ret None
      else
        do c0 <- b64_char (out0 i0); do d1 <- put_char datalength c0;
        do c1 <- b64_char (out1 i0 i1); do d2 <- put_char d1 c1;
        do c2 <- b64_char (out2 i1 i2); do d3 <- put_char d2 c2;
        do c3 <- b64_char (out3 i2); do d4 <- put_char d3 c3;
        ntop_loop src' d4 targsize
  | _ => ret (Some (src, datalength))
  end.

(** the one or two bytes left: padding *)
Definition ntop_tail (src : list Z) (datalength targsize : nat) : M (list Z) (option nat) :=
  match src with
  | [] => ret (Some datalength)
  | i0 :: src' =>
      let i1 := default 0 (head src') in
      let i2 := 0 in
      assert_lt (out0 i0) 64;;; assert_lt (out1 i0 i1) 64;;; assert_lt (out2 i1 i2) 64;;;
      if decide (targsize < datalength + 4)%nat then ret None
      else
        do c0 <- b64_char (out0 i0); do d1 <- put_char datalength c0;
        do c1 <- b64_char (out1 i0 i1); do d2 <- put_char d1 c1;
        do c2 <- (if decide (length src = 1)%nat then ret Pad64 else b64_char (out2 i1 i2));
        do d3 <- put_char d2 c2;
        do d4 <- put_char d3 Pad64;
        ret (Some d4)
  end.

Definition adb_b64_ntop (src : list Z) (targsize : nat) : M (list Z) Z :=
  do r <- ntop_loop src 0 targsize;
  match r with
  | None => ret (-1)
  | Some (rest, datalength) =>
      do r <- ntop_tail rest datalength targsize;
      match r with
      | None => ret (-1)
      | Some datalength =>
          if decide (targsize ≤ datalength)%nat then ret (-1)
          else store datalength 0;;; ret (Z.of_nat datalength)
      end
  end.

(** ** Decoding *)

(** strchr(Base64, ch) - Base64 *)
Fixpoint index_from (l : list Z) (i : Z) (ch : Z) : option Z :=
  match l with
  | [] => None
  | c :: l' => if c =? ch then Some i else index_from l' (i + 1) ch
  end.
Definition b64_index (ch : Z) : option Z := index_from Base64 0 ch.

Record pton_st := mkPton { state : Z; tarindex : nat }.

(** one character with value [v]; None: return -1 *)
Definition pton_char (targsize : nat) (st : pton_st) (v : Z) : M (list Z) (option pton_st) :=
  let i := tarindex st in
  if state st =? 0 then
    if decide (targsize ≤ i)%nat then ret None
    else store i (Z.shiftl v 2);;; ret (Some (mkPton 1 i))
  else if state st =? 1 then
    if decide (targsize ≤ i + 1)%nat then ret None
    else
      do t <- load i; store i (Z.lor t (Z.shiftr v 4));;;
      store (i + 1) (Z.shiftl (Z.land v 0x0f) 4);;; ret (Some (mkPton 2 (i + 1)))
  else if state st =? 2 then
    if decide (targsize ≤ i + 1)%nat then ret None
    else
      do t <- load i; store i (Z.lor t (Z.shiftr v 2));;;
      store (i + 1) (Z.shiftl (Z.land v 0x03) 6);;; ret (Some (mkPton 3 (i + 1)))
  else
    if decide (targsize ≤ i)%nat then ret None
    else
      do t <- load i; store i (Z.lor t v);;; ret (Some (mkPton 0 (i + 1))).

(** the main loop: the character that ended it (0: end of the string), the
    rest of the string and the state *)
Fixpoint pton_loop (src : list Z) (targsize : nat) (st : pton_st)
  : M (list Z) (option (Z * list Z * pton_st)) :=
  match src with
  | [] => ret (Some (0, [], st))
  | ch :: src' =>
      if ch =? 0 then ret (Some (ch, src', st))
      else if isspace ch then pton_loop src' targsize st
      else if ch =? Pad64 then ret (Some (ch, src', st))
      else
        match b64_index ch with
        | None => ret None
        | Some v =>
            do r <- pton_char targsize st v;
            match r with
            | None => ret None
            | Some st' => pton_loop src' targsize st'
            end
        end
  end.

(** ch = *src++ *)
Definition next (src : list Z) : Z * list Z :=
  match src with [] => (0, []) | c :: src' => (c, src') end.
(** for(; ch != 0; ch = *src++) if(!isspace(ch)) break; *)
Fixpoint skip_ws (ch : Z) (src : list Z) : Z * list Z :=
  match src with
  | [] => if isspace ch then (0, []) else (ch, [])
  | c :: src' => if isspace ch then skip_ws c src' else (ch, src)
  end.
(** the same loop, false when it returns -1 *)
Fixpoint only_ws (ch : Z) (src : list Z) : bool :=
  if ch =? 0 then true
  else if isspace ch then match src with [] => true | c :: src' => only_ws c src' end
  else false.

(** trailing characters, and the bits that slopped past the last full byte *)
Definition pton_end (ch : Z) (src : list Z) (st : pton_st) : M (list Z) Z :=
  if only_ws ch src then
    do t <- load (tarindex st);
    ret (if negb (t =? 0) then -1 else Z.of_nat (tarindex st))
  else ret (-1).

Definition adb_b64_pton (src : list Z) (targsize : nat) : M (list Z) Z :=
  do r <- pton_loop src targsize (mkPton 0 0);
  match r with
  | None => ret (-1)
  | Some (ch, src, st) =>
      if ch =? Pad64 then
        let '(ch, src) := next src in
        if (state st =? 0) || (state st =? 1) then ret (-1)
        else if state st =? 2 then
          let '(ch, src) := skip_ws ch src in
          if negb (ch =? Pad64) then ret (-1)
          else let '(ch, src) := next src in pton_end ch src st
        else pton_end ch src st
      else if negb (state st =? 0) then ret (-1)
      else ret (Z.of_nat (tarindex st))
  end.

Example ntop_ex : adb_b64_ntop [77; 97; 110; 77; 97] 9 (replicate 9 7) =
  Ok 8 (str "TWFuTWE=" ++ [0]).
Proof. reflexivity. Qed.
Example pton_ex : adb_b64_pton (str "TWFu TWE=") 6 (replicate 6 7) =
  Ok 5 [77; 97; 110; 77; 97; 0].
Proof. reflexivity. Qed.

(** ** Reference definitions *)

Definition b64 (v : Z) : Z := default 0 (Base64 !! Z.to_nat v).

(** RFC 1521: groups of three bytes, the last one padded *)
Fixpoint encode (bs : list Z) : list Z :=
  match bs with
  | i0 :: i1 :: i2 :: bs' =>
      b64 (out0 i0) :: b64 (out1 i0 i1) :: b64 (out2 i1 i2) :: b64 (out3 i2) :: encode bs'
  | [i0; i1] => [b64 (out0 i0); b64 (out1 i0 i1); b64 (out2 i1 0); Pad64]
  | [i0] => [b64 (out0 i0); b64 (out1 i0 0); Pad64; Pad64]
  | [] => []
  end.

(** what a sequence of six-bit values leaves in the target, the byte under
    construction included *)
Fixpoint dec (vs : list Z) : list Z :=
  match vs with
  | a :: b :: c :: d :: vs' =>
      (4 * a + b / 16) :: (16 * (b mod 16) + c / 4) :: (64 * (c mod 4) + d) :: dec vs'
  | [a; b; c] => [4 * a + b / 16; 16 * (b mod 16) + c / 4; 64 * (c mod 4)]
  | [a; b] => [4 * a + b / 16; 16 * (b mod 16)]
  | [a] => [4 * a]
  | [] => []
  end.

Definition strip (s : list Z) : list Z := filter (λ c, isspace c = false) s.
Definition sextet (v : Z) : Prop := 0 ≤ v < 64.

(** ** Bits *)

Lemma out0_eq i0 : out0 i0 = i0 / 4.
Proof. unfold out0. by rewrite Z.shiftr_div_pow2. Qed.
Lemma out1_eq i0 i1 : out1 i0 i1 = 16 * (i0 mod 4) + i1 / 16.
Proof.
  unfold out1. change 3 with (Z.ones 2). rewrite Z.land_ones, Z.shiftl_mul_pow2, Z.shiftr_div_pow2 by lia.
  change (2 ^ 2) with 4; change (2 ^ 4) with 16; change (2 ^ 6) with 64. lia.
Qed.
Lemma out2_eq i1 i2 : out2 i1 i2 = 4 * (i1 mod 16) + i2 / 64.
Proof.
  unfold out2. change 15 with (Z.ones 4). rewrite Z.land_ones, Z.shiftl_mul_pow2, Z.shiftr_div_pow2 by lia.
  change (2 ^ 2) with 4; change (2 ^ 4) with 16; change (2 ^ 6) with 64. lia.
Qed.
Lemma out3_eq i2 : out3 i2 = i2 mod 64.
Proof. unfold out3. change 63 with (Z.ones 6). by rewrite Z.land_ones by lia. Qed.
Create Rewrite HintDb b64.
#[export] Hint Rewrite out0_eq out1_eq out2_eq out3_eq : b64.

Ltac b64_lia :=
  unfold is_byte, sextet, u8 in *; autorewrite with b64; Z.to_euclidean_division_equations; lia.

(** or-ing into free low bits is addition *)
Lemma lor_add (k a b : Z) : 0 ≤ k → 0 ≤ b < 2 ^ k → Z.lor (a * 2 ^ k) b = a * 2 ^ k + b.
Proof.
  intros Hk Hb. rewrite <- Z.shiftl_mul_pow2 by done. symmetry.
  rewrite <- Z.add_lor_land.
  enough (Z.land (Z.shiftl a k) b = 0) as -> by apply Z.add_0_r.
  apply Z.bits_inj'. intros n Hn. rewrite Z.land_spec, Z.bits_0, Z.shiftl_spec by done.
  destruct (decide (n < k)).
  - by rewrite Z.testbit_neg_r by lia.
  - destruct (decide (b = 0)) as [->|]; [by rewrite Z.bits_0, andb_false_r|].
    rewrite (Z.bits_above_log2 b n); [by rewrite andb_false_r | lia |].
    apply Z.lt_le_trans with k; [|lia]. apply Z.log2_lt_pow2; lia.
Qed.

(** ** The alphabet *)

Lemma b64_char_ok v t : sextet v → b64_char v t = Ok (b64 v) t.
Proof.
  intros Hv. unfold b64_char, deref, b64.
  destruct (Base64 !! Z.to_nat v) eqn:H; [done|].
  apply lookup_ge_None in H. unfold sextet in Hv. change (length Base64) with 64%nat in H. lia.
Qed.

Lemma index_from_Some l i ch v :
  index_from l i ch = Some v → i ≤ v ∧ l !! Z.to_nat (v - i) = Some ch.
Proof.
  revert i. induction l as [|c l IH]; simpl; [done|]. intros i.
  destruct (Z.eqb_spec c ch) as [->|].
  - intros [= ->]. split; [lia|]. by replace (Z.to_nat (v - v)) with 0%nat by lia.
  - intros H. apply IH in H as [Hle H]. split; [lia|].
    by replace (Z.to_nat (v - i)) with (S (Z.to_nat (v - (i + 1)))) by lia.
Qed.

Lemma b64_index_Some ch v : b64_index ch = Some v → sextet v ∧ b64 v = ch.
Proof.
  intros H. apply index_from_Some in H as [H0 H]. rewrite Z.sub_0_r in H.
  pose proof (lookup_lt_Some _ _ _ H) as Hlt. change (length Base64) with 64%nat in Hlt.
  unfold sextet, b64. rewrite H. simpl. lia.
Qed.

(** a property of the 64 values, checked on each *)
Lemma sextet_forallb (P : Z → bool) :
  forallb P (Z.of_nat <$> seq 0 64) = true → ∀ v, sextet v → P v = true.
Proof.
  intros H v Hv. rewrite forallb_forall in H. apply H.
  apply list_elem_of_In, list_elem_of_fmap. exists (Z.to_nat v). unfold sextet in Hv.
  split; [lia|]. apply elem_of_seq. lia.
Qed.

Definition b64_ok (v : Z) : bool :=
  bool_decide (b64_index (b64 v) = Some v) && negb (isspace (b64 v))
  && negb (b64 v =? Pad64) && negb (b64 v =? 0) && (u8 (b64 v) =? b64 v).

Lemma b64_facts v : sextet v →
  b64_index (b64 v) = Some v ∧ isspace (b64 v) = false ∧ (b64 v =? Pad64) = false
  ∧ (b64 v =? 0) = false ∧ u8 (b64 v) = b64 v.
Proof.
  intros Hv. assert (H : b64_ok v = true) by (by apply (sextet_forallb b64_ok)).
  unfold b64_ok in H.
  rewrite !andb_true_iff, !negb_true_iff, Z.eqb_eq, bool_decide_eq_true in H. tauto.
Qed.

Lemma b64_inj v w : sextet v → sextet w → b64 v = b64 w → v = w.
Proof.
  intros Hv Hw H. destruct (b64_facts v Hv) as [H1 _], (b64_facts w Hw) as [H2 _]. congruence.
Qed.

(** ** Memory *)

Lemma store_app pre x post v :
  store (length pre) v (pre ++ x :: post) = Ok tt (pre ++ u8 v :: post).
Proof.
  unfold store. rewrite decide_True by (rewrite length_app; simpl; lia).
  f_equal. by rewrite insert_app_r_alt, Nat.sub_diag by lia.
Qed.

Lemma load_app pre x post : load (length pre) (pre ++ x :: post) = Ok x (pre ++ x :: post).
Proof. unfold load, deref. by rewrite lookup_app_r, Nat.sub_diag by lia. Qed.

Lemma put_char_app pre x post c :
  put_char (length pre) c (pre ++ x :: post) = Ok (length (pre ++ [u8 c])) ((pre ++ [u8 c]) ++ post).
Proof.
  unfold put_char, bind. rewrite store_app. unfold ret. rewrite length_app. simpl.
  rewrite <- app_assoc. f_equal. lia.
Qed.

Lemma assert_lt_ok x y t : x < y → assert_lt x y t = Ok tt t.
Proof. intros H. unfold assert_lt. by apply Z.ltb_lt in H as ->. Qed.

Lemma u8_b64 v : sextet v → u8 (b64 v) = b64 v.
Proof. intros H. by apply b64_facts. Qed.

(** one step of a straight-line stretch of the encoder *)
Ltac ntop_step :=
  erewrite bind_ok;
    [|first [apply assert_lt_ok; b64_lia | apply b64_char_ok; b64_lia | apply put_char_app
            | apply (eq_refl : ret Pad64 _ = _)]];
  cbn beta.

(** ** adb_b64_ntop *)

Definition ntop_loop_post (src pre post : list Z) (targsize : nat) (r : option (list Z * nat))
    (t' : list Z) : Prop :=
  length t' = length (pre ++ post) ∧
  match r with
  | None => (targsize < length (pre ++ encode src))%nat
  | Some (rest, d) => (length rest ≤ 2)%nat ∧ Forall is_byte rest ∧
      ∃ g, encode src = g ++ encode rest ∧ d = length (pre ++ g)
        ∧ t' = (pre ++ g) ++ drop (length g) post ∧ (d ≤ targsize)%nat
  end.

Lemma ntop_loop_spec src pre post targsize :
  Forall is_byte src → (length pre ≤ targsize)%nat → (targsize ≤ length (pre ++ post))%nat →
  ∃ r t', ntop_loop src (length pre) targsize (pre ++ post) = Ok r t'
    ∧ ntop_loop_post src pre post targsize r t'.
Proof.
  remember (length src) as n eqn:Hn. revert src pre post Hn.
  induction (lt_wf n) as [n _ IH]; intros src pre post -> Hb Hp Ht.
  destruct src as [|i0 [|i1 [|i2 src]]].
  1-3: eexists _, _; split; [reflexivity|]; split; [done|]; simpl;
    split; [lia|]; split; [done|]; exists []; rewrite !app_nil_r;
    split_and!; try done; simpl in *; lia.
  decompose_Forall_hyps. cbn [ntop_loop]. do 4 ntop_step.
  case_decide as Hd.
  { eexists _, _; split; [reflexivity|]. split; [done|]. rewrite length_app. simpl. lia. }
  rewrite length_app in Ht.
  destruct post as [|x0 [|x1 [|x2 [|x3 post]]]]; simpl in Ht; try lia.
  do 8 ntop_step. rewrite !u8_b64 by b64_lia.
  set (pre' := (((pre ++ _) ++ _) ++ _) ++ _).
  destruct (IH (length src) ltac:(simpl; lia) src pre' post) as (r & t' & Heq & Hl & Hr);
    [done..|unfold pre'; rewrite ?length_app; simpl; lia|unfold pre'; rewrite ?length_app; simpl; lia|].
  exists r, t'. split; [done|]. split.
  { rewrite Hl. unfold pre'. rewrite !length_app. simpl. lia. }
  destruct r as [[rest d]|].
  - destruct Hr as (? & ? & g & Hg & Hd' & -> & Hle). split_and!; [done..|].
    exists (b64 (out0 i0) :: b64 (out1 i0 i1) :: b64 (out2 i1 i2) :: b64 (out3 i2) :: g).
    simpl. rewrite Hg, Hd' in *. unfold pre' in *. rewrite <- !app_assoc in *. done.
  - unfold pre' in Hr. rewrite <- !app_assoc in Hr. done.
Qed.

Lemma ntop_tail_spec src pre post targsize :
  (length src ≤ 2)%nat → Forall is_byte src → (targsize ≤ length (pre ++ post))%nat →
  (length pre ≤ targsize)%nat →
  ntop_tail src (length pre) targsize (pre ++ post) =
    if decide (length (pre ++ encode src) ≤ targsize)%nat
    then Ok (Some (length (pre ++ encode src))) ((pre ++ encode src) ++ drop (length (encode src)) post)
    else Ok None (pre ++ post).
Proof.
  intros Hl Hb Ht Hp. rewrite length_app in Ht.
  destruct src as [|i0 [|i1 [|? ?]]]; simpl in Hl; [..|lia];
    cbn [ntop_tail encode head default]; cbv zeta; rewrite length_app.
  { rewrite decide_True by (simpl; lia). unfold ret. f_equal; [|by rewrite app_nil_r].
    f_equal. simpl. lia. }
  all: decompose_Forall_hyps; do 3 ntop_step; simpl length;
    case_decide; [rewrite decide_False by lia; done|]; rewrite decide_True by lia;
    destruct post as [|x0 [|x1 [|x2 [|x3 post]]]]; simpl in Ht; try lia;
    repeat ntop_step.
  all: rewrite !u8_b64 by b64_lia; unfold ret; change (u8 Pad64) with Pad64;
    rewrite <- !app_assoc, !length_app; simpl; done.
Qed.

(** adb_b64_ntop, for any bytes and any target array of at least targsize
    bytes: no access leaves the array, no assertion fails, and the function
    returns.  When the RFC 1521 encoding and its NUL fit, the target holds
    them, the bytes after them are untouched and the length is returned;
    otherwise the result is -1. *)
Theorem ntop_spec src targsize t :
  Forall is_byte src → (targsize ≤ length t)%nat →
  ∃ r t', adb_b64_ntop src targsize t = Ok r t' ∧ length t' = length t ∧
    if decide (length (encode src) < targsize)%nat
    then r = Z.of_nat (length (encode src)) ∧
         t' = encode src ++ 0 :: drop (S (length (encode src))) t
    else r = -1.
Proof.
  intros Hb Ht. unfold adb_b64_ntop.
  destruct (ntop_loop_spec src [] t targsize) as (r & t' & Heq & Hl & Hr); [done|simpl; lia|done|].
  simpl in Heq. rewrite (bind_ok _ _ _ _ _ Heq). destruct r as [[rest d]|]; cbn in Hl, Hr.
  2:{ exists (-1), t'. split_and!; [done..|]. case_decide; [lia|done]. }
  destruct Hr as (Hrest & Hbr & g & Hg & -> & -> & Hgt).
  assert (Hlen : length (encode src) = length (g ++ encode rest)) by by rewrite Hg.
  unfold bind at 1. rewrite ntop_tail_spec by (done || rewrite ?Hl; done). clear Heq.
  rewrite <- Hg. case_decide as Hle.
  2:{ exists (-1), (g ++ drop (length g) t). split_and!; [done..|]. case_decide; [lia|done]. }
  set (n := length (encode src)) in *.
  assert (Htl : length (encode src ++ drop (length (encode rest)) (drop (length g) t)) = length t).
  { rewrite length_app, !length_drop in *. lia. }
  simpl in *. case_decide as Hlt.
  { exists (-1). eexists. split; [reflexivity|]. split; [done|]. case_decide; [lia|done]. }
  rewrite length_app in Hlen. rewrite drop_drop in *.
  replace (length g + length (encode rest))%nat with n in * by lia.
  destruct (drop n t) as [|x post] eqn:Hpost.
  { rewrite app_nil_r in Htl. lia. }
  unfold n at 1. erewrite bind_ok; [|apply store_app]. eexists _, _. split; [reflexivity|].
  split; [by rewrite <- Htl, !length_app|]. rewrite decide_True by lia. split; [done|].
  f_equal. rewrite <- Nat.add_1_r, <- drop_drop, Hpost. done.
Qed.

(** ** Six-bit values and the state of the decoder *)

(** the state after the values [vs] *)
Definition pst (vs : list Z) : pton_st :=
  mkPton (Z.of_nat (length vs) mod 4) (3 * length vs / 4)%nat.

Lemma length_dec vs : length (dec vs) = ((3 * length vs + 3) / 4)%nat.
Proof.
  remember (length vs) as n eqn:Hn. revert vs Hn.
  induction (lt_wf n) as [n _ IH]; intros vs ->.
  destruct vs as [|a [|b [|c [|d vs]]]]; try done.
  simpl dec. cbn [length]. rewrite (IH (length vs)) by (done || simpl; lia).
  replace (3 * S (S (S (S (length vs)))) + 3)%nat with (3 * length vs + 3 + 3 * 4)%nat by lia.
  rewrite Nat.div_add by done. lia.
Qed.

(** induction over complete groups *)
Lemma group_ind (n : nat) (P : list Z → Prop) :
  (0 < n)%nat → P [] → (∀ p l, length p = n → P l → P (p ++ l)) →
  ∀ k l, length l = (n * k)%nat → P l.
Proof.
  intros Hn H0 Hs k. induction k as [|k IH]; intros l Hl.
  - destruct l; [done|simpl in Hl; lia].
  - rewrite <- (take_drop n l). apply Hs; [rewrite length_take; lia|].
    apply IH. rewrite length_drop. lia.
Qed.

Lemma groups (vs : list Z) : ∃ k g p, vs = g ++ p ∧ length g = (4 * k)%nat ∧ (length p < 4)%nat.
Proof.
  pose proof (Nat.div_mod_eq (length vs) 4). pose proof (Nat.mod_upper_bound (length vs) 4).
  exists (length vs / 4)%nat, (take (4 * (length vs / 4)) vs), (drop (4 * (length vs / 4)) vs).
  rewrite take_drop, length_take, length_drop. split; [done|lia].
Qed.

Lemma dec_app k g p : length g = (4 * k)%nat → dec (g ++ p) = dec g ++ dec p.
Proof.
  revert g. apply (group_ind 4 (λ g, dec (g ++ p) = dec g ++ dec p)); [lia|done|].
  intros [|a [|b [|c [|d [|]]]]] g Hq IH; try done. simpl in *. by rewrite IH.
Qed.

Lemma pst_app k g p : length g = (4 * k)%nat →
  pst (g ++ p) = mkPton (Z.of_nat (length p) mod 4) (length (dec g) + 3 * length p / 4)%nat.
Proof.
  intros Hg. unfold pst. rewrite length_app, length_dec, Hg. f_equal.
  - Z.to_euclidean_division_equations; lia.
  - replace (3 * (4 * k) + 3)%nat with (3 + (3 * k) * 4)%nat by lia.
    replace (3 * (4 * k + length p))%nat with (3 * length p + (3 * k) * 4)%nat by lia.
    rewrite !Nat.div_add by done. simpl (3 / 4)%nat. lia.
Qed.

Lemma u8_lor_sext k a b : 0 ≤ k → 0 ≤ b < 2 ^ k → is_byte (a * 2 ^ k + b) →
  u8 (Z.lor (a * 2 ^ k) b) = a * 2 ^ k + b.
Proof. intros. rewrite lor_add by done. by apply u8_id. Qed.

Lemma bits_0 v : sextet v → u8 (Z.shiftl v 2) = 4 * v.
Proof. intros H. rewrite Z.shiftl_mul_pow2 by lia. change (2 ^ 2) with 4. b64_lia. Qed.
Lemma bits_1 a v : sextet a → sextet v →
  u8 (Z.lor (4 * a) (Z.shiftr v 4)) = 4 * a + v / 16.
Proof.
  intros Ha Hv. rewrite Z.shiftr_div_pow2 by lia. rewrite (Z.mul_comm 4).
  apply (u8_lor_sext 2); [lia| |]; change (2 ^ 2) with 4; change (2 ^ 4) with 16; b64_lia.
Qed.
Lemma bits_1' v : sextet v → u8 (Z.shiftl (Z.land v 15) 4) = 16 * (v mod 16).
Proof.
  intros H. change 15 with (Z.ones 4). rewrite Z.land_ones, Z.shiftl_mul_pow2 by lia.
  change (2 ^ 4) with 16. b64_lia.
Qed.
Lemma bits_2 b v : sextet b → sextet v →
  u8 (Z.lor (16 * (b mod 16)) (Z.shiftr v 2)) = 16 * (b mod 16) + v / 4.
Proof.
  intros Ha Hv. rewrite Z.shiftr_div_pow2 by lia. rewrite (Z.mul_comm 16).
  apply (u8_lor_sext 4); [lia| |]; change (2 ^ 2) with 4; change (2 ^ 4) with 16; b64_lia.
Qed.
Lemma bits_2' v : sextet v → u8 (Z.shiftl (Z.land v 3) 6) = 64 * (v mod 4).
Proof.
  intros H. change 3 with (Z.ones 2). rewrite Z.land_ones, Z.shiftl_mul_pow2 by lia.
  change (2 ^ 6) with 64; change (2 ^ 2) with 4. b64_lia.
Qed.
Lemma bits_3 c v : sextet c → sextet v → u8 (Z.lor (64 * (c mod 4)) v) = 64 * (c mod 4) + v.
Proof.
  intros Ha Hv. rewrite (Z.mul_comm 64).
  apply (u8_lor_sext 6); [lia| |]; change (2 ^ 6) with 64; b64_lia.
Qed.

(** one character, at any position in its group *)
Ltac pton_step :=
  erewrite bind_ok; [|first [apply load_app | apply store_app]]; cbn beta.

Ltac pton_done n :=
  unfold ret; rewrite <- ?app_assoc, ?length_app; cbn [length app];
  match goal with |- context [drop ?m _] => replace m with n by lia end;
  cbn [drop]; do 3 f_equal; lia.

Lemma len_snoc (D : list Z) x : (length D + 1)%nat = length (D ++ [x]).
Proof. by rewrite length_app. Qed.
Lemma len_snoc2 (D : list Z) x y : (length D + 2)%nat = length (D ++ [x; y]).
Proof. by rewrite length_app. Qed.
Lemma app_snoc (D l : list Z) x : D ++ x :: l = (D ++ [x]) ++ l.
Proof. by rewrite <- app_assoc. Qed.

Lemma pton_char_spec vs v post targsize :
  Forall sextet vs → sextet v → (length (dec vs) ≤ targsize ≤ length (dec vs ++ post))%nat →
  let n := length (dec (vs ++ [v])) in
  pton_char targsize (pst vs) v (dec vs ++ post) =
    if decide (n ≤ targsize)%nat
    then Ok (Some (pst (vs ++ [v]))) (dec (vs ++ [v]) ++ drop (n - length (dec vs)) post)
    else Ok None (dec vs ++ post).
Proof.
  intros Hvs Hv Ht n. unfold n; clear n.
  destruct (groups vs) as (k & g & p & -> & Hg & Hp).
  rewrite <- !app_assoc, (pst_app k), (pst_app k), !(dec_app k) by done.
  rewrite (dec_app k) in Ht by done. apply Forall_app in Hvs as [_ Hp'].
  rewrite !length_app in *. unfold pton_char. cbn [state tarindex].
  set (D := dec g) in *. rewrite <- !app_assoc.
  destruct p as [|a [|b [|c [|]]]]; cbn [length app dec] in *; [..|lia]; clear Hp;
    decompose_Forall_hyps;
    change (Z.of_nat 0 mod 4) with 0; change (Z.of_nat 1 mod 4) with 1;
    change (Z.of_nat 2 mod 4) with 2; change (Z.of_nat 3 mod 4) with 3; change (Z.of_nat 4 mod 4) with 0;
    change (3 * 0 / 4)%nat with 0%nat; change (3 * 1 / 4)%nat with 0%nat;
    change (3 * 2 / 4)%nat with 1%nat; change (3 * 3 / 4)%nat with 2%nat;
    change (3 * 4 / 4)%nat with 3%nat; cbn [Z.eqb Pos.eqb app];
    rewrite ?Nat.add_0_r.
  - case_decide; [rewrite decide_False by lia; done|]. rewrite decide_True by lia.
    destruct post as [|x post]; [simpl in *; lia|]. pton_step.
    rewrite bits_0 by done. pton_done 1%nat.
  - case_decide; [rewrite decide_False by lia; done|]. rewrite decide_True by lia.
    destruct post as [|x post]; [simpl in *; lia|]. pton_step. pton_step.
    rewrite (app_snoc D (x :: post)), (len_snoc D (u8 (Z.lor (4 * a) (Z.shiftr v 4)))).
    pton_step. rewrite bits_1, bits_1' by done. pton_done 1%nat.
  - case_decide; [rewrite decide_False by lia; done|]. rewrite decide_True by lia.
    destruct post as [|x post]; [simpl in *; lia|].
    rewrite (app_snoc D), (len_snoc D (4 * a + b / 16)). pton_step. pton_step.
    rewrite (app_snoc _ (x :: post)).
    rewrite (len_snoc _ (u8 (Z.lor (16 * (b mod 16)) (Z.shiftr v 2)))).
    pton_step. rewrite bits_2, bits_2' by done. pton_done 1%nat.
  - rewrite decide_False by lia. rewrite decide_True by lia.
    rewrite (app_snoc D), (app_snoc _ (_ :: post)), <- (app_assoc D). simpl.
    rewrite (len_snoc2 D (4 * a + b / 16) (16 * (b mod 16) + c / 4)). pton_step. pton_step.
    rewrite bits_3 by done. pton_done 0%nat.
Qed.

(** ** adb_b64_pton *)

Lemma dec_length_mono vs ws : (length (dec vs) ≤ length (dec (vs ++ ws)))%nat.
Proof.
  rewrite !length_dec, length_app. apply Nat.Div0.div_le_mono. lia.
Qed.

Lemma strip_cons c s : strip (c :: s) = if isspace c then strip s else c :: strip s.
Proof.
  unfold strip. destruct (isspace c) eqn:H.
  - by rewrite filter_cons_False by by rewrite H.
  - by rewrite filter_cons_True by done.
Qed.

(** the end of the alphabet characters: nothing, or padding *)
Definition pad_tail (tl : list Z) : Prop := tl = [] ∨ head tl = Some Pad64.

Lemma b64_split vs ws t u : Forall sextet vs → Forall sextet ws → pad_tail t → pad_tail u →
  (b64 <$> vs) ++ t = (b64 <$> ws) ++ u → vs = ws ∧ t = u.
Proof.
  assert (Hno : ∀ v tl l, sextet v → pad_tail tl → tl = b64 v :: l → False).
  { intros v tl l Hv [->|Hp] Heq; [done|]. subst tl. injection Hp as Hp.
    apply b64_facts in Hv as (_ & _ & Hpad & _). rewrite Hp, Z.eqb_refl in Hpad. done. }
  intros Hvs Hws Ht Hu. revert ws Hws. induction Hvs as [|v vs Hv Hvs IH];
    intros [|w ws] Hws Heq; try (apply Forall_cons_1 in Hws); simpl in Heq.
  - done.
  - destruct (Hno w t _ (proj1 Hws) Ht Heq).
  - destruct (Hno v u _ Hv Hu (eq_sym Heq)).
  - destruct Hws as [Hw Hws]. injection Heq as Hvw Heq.
    apply b64_inj in Hvw as ->; [|done..]. by destruct (IH ws Hws Heq) as [-> ->].
Qed.

Definition pton_loop_post (src vs : list Z) (targsize n : nat)
    (r : option (Z * list Z * pton_st)) (t' : list Z) : Prop :=
  length t' = n ∧
  match r with
  | Some (ch, src', st) => ∃ ws post, Forall sextet ws ∧ st = pst (vs ++ ws)
      ∧ t' = dec (vs ++ ws) ++ post ∧ (length (dec (vs ++ ws)) ≤ targsize)%nat
      ∧ (ch = 0 ∧ strip src = b64 <$> ws
         ∨ ch = Pad64 ∧ strip src = (b64 <$> ws) ++ Pad64 :: strip src' ∧ 0 ∉ src')
  | None => ∀ ws tl, Forall sextet ws → pad_tail tl → strip src = (b64 <$> ws) ++ tl →
      (targsize < length (dec (vs ++ ws)))%nat
  end.

Lemma pton_loop_spec src vs post targsize :
  0 ∉ src → Forall sextet vs →
  (length (dec vs) ≤ targsize ≤ length (dec vs ++ post))%nat →
  ∃ r t', pton_loop src targsize (pst vs) (dec vs ++ post) = Ok r t'
    ∧ pton_loop_post src vs targsize (length (dec vs ++ post)) r t'.
Proof.
  revert vs post. induction src as [|ch src IH]; intros vs post H0 Hvs Ht.
  { eexists _, _. split; [reflexivity|]. split; [done|]. exists [], post.
    rewrite app_nil_r. split_and!; try done; [lia|]. by left. }
  apply not_elem_of_cons in H0 as [Hch H0]. cbn [pton_loop].
  rewrite (proj2 (Z.eqb_neq ch 0)) by done. unfold pton_loop_post. rewrite strip_cons.
  destruct (isspace ch) eqn:Hsp; [by apply IH|].
  destruct (Z.eqb_spec ch Pad64) as [->|Hpad].
  { eexists _, _. split; [reflexivity|]. split; [done|]. exists [], post.
    rewrite app_nil_r. split_and!; try done; [lia|]. by right. }
  destruct (b64_index ch) as [v|] eqn:Hi.
  2:{ eexists _, _. split; [reflexivity|]. split; [done|]. intros ws tl Hws Htl Heq.
      destruct ws as [|w ws]; simpl in Heq.
      - destruct Htl as [->|Htl]; [done|]. rewrite <- Heq in Htl. by injection Htl.
      - injection Heq as -> _. apply Forall_cons_1 in Hws as [Hw _].
        by rewrite (proj1 (b64_facts w Hw)) in Hi. }
  apply b64_index_Some in Hi as [Hv <-]. unfold bind. rewrite pton_char_spec by done.
  case_decide as Hc.
  2:{ eexists _, _. split; [reflexivity|]. split; [done|]. intros ws tl Hws Htl Heq.
      destruct ws as [|w ws]; simpl in Heq.
      - destruct Htl as [->|Htl]; [done|]. rewrite <- Heq in Htl. by injection Htl.
      - injection Heq as Hvw _. apply Forall_cons_1 in Hws as [Hw Hws].
        apply b64_inj in Hvw as <-; [|done..].
        pose proof (dec_length_mono (vs ++ [v]) ws) as Hm. rewrite <- app_assoc in Hm.
        simpl in Hm. lia. }
  set (post' := drop _ post).
  assert (Hl : length (dec (vs ++ [v]) ++ post') = length (dec vs ++ post)).
  { pose proof (dec_length_mono vs [v]). unfold post'.
    rewrite !length_app, length_drop in *. lia. }
  destruct (IH (vs ++ [v]) post') as (r & t' & Heq & Hlen & Hr);
    [done|by apply Forall_app; auto|lia|].
  exists r, t'. split; [done|]. split; [lia|].
  destruct r as [[[ch' src'] st]|].
  - destruct Hr as (ws & post'' & Hws & Hst & Ht' & Hle & Hend).
    exists (v :: ws), post''. rewrite <- app_assoc in *. simpl in *.
    split_and!; try done; [by apply Forall_cons|].
    destruct Hend as [[-> ->]|(-> & -> & ?)]; [by left|by right].
  - intros ws tl Hws Htl Hs. destruct ws as [|w ws]; simpl in Hs.
    + destruct Htl as [->|Htl]; [done|]. rewrite <- Hs in Htl. by injection Htl.
    + injection Hs as Hvw Hs. apply Forall_cons_1 in Hws as [Hw Hws].
      apply b64_inj in Hvw as <-; [|done..].
      specialize (Hr ws tl Hws Htl Hs). rewrite <- app_assoc in Hr. done.
Qed.

(** the six-bit values of an encoding and its padding *)
Fixpoint enc6 (bs : list Z) : list Z :=
  match bs with
  | i0 :: i1 :: i2 :: bs' => out0 i0 :: out1 i0 i1 :: out2 i1 i2 :: out3 i2 :: enc6 bs'
  | [i0; i1] => [out0 i0; out1 i0 i1; out2 i1 0]
  | [i0] => [out0 i0; out1 i0 0]
  | [] => []
  end.
Fixpoint pads (bs : list Z) : list Z :=
  match bs with
  | _ :: _ :: _ :: bs' => pads bs'
  | [_; _] => [Pad64]
  | [_] => [Pad64; Pad64]
  | [] => []
  end.

(** induction in steps of three *)
Lemma three_ind (P : list Z → Prop) :
  P [] → (∀ a, P [a]) → (∀ a b, P [a; b]) → (∀ a b c l, P l → P (a :: b :: c :: l)) → ∀ l, P l.
Proof.
  intros H0 H1 H2 H3 l. remember (length l) as n eqn:Hn. revert l Hn.
  induction (lt_wf n) as [n _ IH]; intros [|a [|b [|c l]]] ->; auto.
  apply H3, (IH (length l)); simpl; auto with lia.
Qed.

Lemma encode_enc6 bs : encode bs = (b64 <$> enc6 bs) ++ pads bs.
Proof. induction bs as [| | |a b c l IH] using three_ind; try done. simpl. by rewrite IH. Qed.

Lemma enc6_sextet bs : Forall is_byte bs → Forall sextet (enc6 bs).
Proof.
  induction bs as [| | |a b c l IH] using three_ind; intros Hb; decompose_Forall_hyps;
    repeat (apply Forall_cons_2); try apply Forall_nil; auto; b64_lia.
Qed.

Lemma pads_tail bs : pad_tail (pads bs).
Proof. induction bs as [| | |a b c l IH] using three_ind; [by left|by right..|done]. Qed.

Lemma dec_enc6 bs : Forall is_byte bs →
  dec (enc6 bs) = bs ++ (if decide (pads bs = []) then [] else [0]).
Proof.
  induction bs as [| | |a b c l IH] using three_ind; intros Hb; decompose_Forall_hyps; simpl.
  4: rewrite IH by done. 
  all: repeat (f_equal; try b64_lia).
Qed.

Lemma enc6_length bs : (3 * length (enc6 bs) / 4)%nat = length bs ∧
  Z.of_nat (length (enc6 bs)) mod 4 = if decide (pads bs = []) then 0 else 4 - Z.of_nat (length (pads bs)).
Proof.
  induction bs as [| | |a b c l IH] using three_ind; try done. simpl pads. destruct IH as [IH1 IH2].
  rewrite <- IH2. cbn [enc6 length]. split.
  - rewrite <- IH1. replace (3 * S (S (S (S (length (enc6 l))))))%nat
      with (3 * length (enc6 l) + 3 * 4)%nat by lia. rewrite Nat.div_add by done. lia.
  - Z.to_euclidean_division_equations; lia.
Qed.

Lemma encode_inj bs bs' : Forall is_byte bs → Forall is_byte bs' → encode bs = encode bs' → bs = bs'.
Proof.
  intros Hb Hb' H. rewrite !encode_enc6 in H.
  apply b64_split in H as [H6 Hp]; auto using enc6_sextet, pads_tail.
  pose proof (dec_enc6 bs Hb) as H1. rewrite H6, dec_enc6, Hp in H1 by done.
  by apply app_inv_tail in H1.
Qed.

(** decoded values, encoded again *)
Lemma encode_dec k g q : length g = (4 * k)%nat → Forall sextet g →
  encode (dec g ++ q) = (b64 <$> g) ++ encode q.
Proof.
  intros Hk. revert Hk. revert g.
  apply (group_ind 4 (λ g, Forall sextet g → encode (dec g ++ q) = (b64 <$> g) ++ encode q)); [lia|done|].
  intros [|a [|b [|c [|d [|]]]]] g Hl IH Hg; try done. simpl in *. decompose_Forall_hyps.
  rewrite IH by done. repeat (f_equal; try b64_lia).
Qed.

Lemma dec_bytes vs : Forall sextet vs → Forall is_byte (dec vs).
Proof.
  remember (length vs) as n eqn:Hn. revert vs Hn.
  induction (lt_wf n) as [n _ IH]; intros vs -> Hvs.
  destruct vs as [|a [|b [|c [|d vs]]]]; decompose_Forall_hyps;
    repeat apply Forall_cons_2; try b64_lia; try apply Forall_nil.
  apply (IH (length vs)); simpl; auto with lia.
Qed.

(** ** White space *)

Lemma only_ws_spec s : 0 ∉ s → only_ws (next s).1 (next s).2 = bool_decide (strip s = []).
Proof.
  induction s as [|c s IH]; intros H0; [done|]. apply not_elem_of_cons in H0 as [Hc H0].
  rewrite strip_cons. simpl. destruct (Z.eqb_spec c 0); [done|].
  destruct s as [|c' s]; simpl in *; rewrite ?(proj2 (Z.eqb_neq c 0)) by done;
    destruct (isspace c) eqn:Hs; try done. by apply IH.
Qed.

Lemma skip_ws_spec s : 0 ∉ s →
  match strip s with
  | [] => (skip_ws (next s).1 (next s).2).1 = 0
  | c :: l => ∃ s', skip_ws (next s).1 (next s).2 = (c, s') ∧ strip s' = l ∧ 0 ∉ s'
  end.
Proof.
  induction s as [|c s IH]; intros H0; [done|]. apply not_elem_of_cons in H0 as [Hc H0].
  rewrite strip_cons. specialize (IH H0). simpl.
  destruct s as [|c' s]; simpl in *; destruct (isspace c) eqn:Hs; try done.
  - by exists [].
  - by exists (c' :: s).
Qed.

Lemma take_dec_prefix g q post n : length (dec g ++ q) = n →
  take n ((dec g ++ q) ++ post) = dec g ++ q.
Proof. intros <-. apply take_app_exact. Qed.

(** the checks after the loop, given the values [vs] decoded so far *)
Definition pton_accepts (src : list Z) (targsize : nat) (r : Z) (t' : list Z) : Prop :=
  (r = -1 ∨ ∃ n, r = Z.of_nat n ∧ (n ≤ length t')%nat ∧ Forall is_byte (take n t')
            ∧ strip src = encode (take n t')) ∧
  ∀ bs, Forall is_byte bs → strip src = encode bs → (length bs < targsize)%nat →
    r = Z.of_nat (length bs) ∧ take (length bs) t' = bs.

(** acceptance: [n] bytes, [q] the complete bytes of the last group *)
Lemma accepts_intro src targsize k g q post n :
  length g = (4 * k)%nat → Forall sextet g → Forall is_byte q →
  strip src = (b64 <$> g) ++ encode q → n = length (dec g ++ q) →
  pton_accepts src targsize (Z.of_nat n) ((dec g ++ q) ++ post).
Proof.
  intros Hk Hg Hq Hs ->. rewrite <- (encode_dec k) in Hs by done.
  assert (Hby : Forall is_byte (dec g ++ q)) by (apply Forall_app; auto using dec_bytes).
  split.
  - right. eexists. rewrite take_app_exact, (length_app (dec g ++ q)). split_and!; auto; lia.
  - intros bs Hb Heq _. rewrite Hs in Heq. apply encode_inj in Heq as <-; [|done..].
    by rewrite take_app_exact.
Qed.

(** rejection: no byte sequence that fits is encoded by the text *)
Lemma rejects_intro src targsize t' :
  (∀ bs, Forall is_byte bs → strip src = encode bs → (length bs < targsize)%nat → False) →
  pton_accepts src targsize (-1) t'.
Proof. intros H. split; [by left|]. intros bs ???. by destruct (H bs). Qed.

Lemma pads_cases bs : pads bs = [] ∨ pads bs = [Pad64] ∨ pads bs = [Pad64; Pad64].
Proof. induction bs as [| | |a b c l IH] using three_ind; auto. Qed.

(** what a text that ends the loop with [vs] can be the encoding of *)
Lemma encode_determined vs tl bs : Forall sextet vs → pad_tail tl → Forall is_byte bs →
  (b64 <$> vs) ++ tl = encode bs →
  tl = pads bs ∧ dec vs = bs ++ (if decide (tl = []) then [] else [0]) ∧
  Z.of_nat (length vs) mod 4 = if decide (tl = []) then 0 else 4 - Z.of_nat (length tl).
Proof.
  intros Hvs Htl Hb H. rewrite encode_enc6 in H.
  apply b64_split in H as [-> ->]; auto using enc6_sextet, pads_tail.
  split; [done|]. split; [by apply dec_enc6|apply enc6_length].
Qed.

(** the last group of a padded text: its complete bytes and the rest bits *)
Lemma last_group vs : Forall sextet vs →
  Z.of_nat (length vs) mod 4 = 2 ∨ Z.of_nat (length vs) mod 4 = 3 →
  ∃ k g q x, length g = (4 * k)%nat ∧ Forall sextet g ∧ Forall is_byte q
    ∧ dec vs = dec g ++ q ++ [x] ∧ tarindex (pst vs) = length (dec g ++ q)
    ∧ (x = 0 → (b64 <$> vs) ++ replicate (4 - Z.to_nat (Z.of_nat (length vs) mod 4)) Pad64
               = (b64 <$> g) ++ encode q).
Proof.
  intros Hvs Hm. destruct (groups vs) as (k & g & p & -> & Hg & Hp).
  apply Forall_app in Hvs as [Hgs Hps].
  assert (Hmod : Z.of_nat (length (g ++ p)) mod 4 = Z.of_nat (length p)).
  { rewrite length_app, Hg. Z.to_euclidean_division_equations; lia. }
  rewrite Hmod in *. rewrite (pst_app k), (dec_app k), fmap_app, <- app_assoc by done.
  destruct p as [|a [|b [|c [|]]]]; simpl in *; try lia; clear Hm Hp; decompose_Forall_hyps.
  - exists k, g, [4 * a + b / 16], (16 * (b mod 16)). rewrite length_app.
    split_and!; try done; [apply Forall_singleton; b64_lia|].
    intros Hx. f_equal. simpl. repeat (f_equal; try b64_lia).
  - exists k, g, [4 * a + b / 16; 16 * (b mod 16) + c / 4], (64 * (c mod 4)). rewrite length_app.
    split_and!; try done; [repeat apply Forall_cons_2; try apply Forall_nil; b64_lia|].
    intros Hx. f_equal. simpl. repeat (f_equal; try b64_lia).
Qed.

Lemma pton_end_spec src s vs post targsize :
  Forall sextet vs → 0 ∉ s →
  Z.of_nat (length vs) mod 4 = 2 ∨ Z.of_nat (length vs) mod 4 = 3 →
  strip src = ((b64 <$> vs) ++ replicate (4 - Z.to_nat (Z.of_nat (length vs) mod 4)) Pad64) ++ strip s →
  ∃ r, pton_end (next s).1 (next s).2 (pst vs) (dec vs ++ post) = Ok r (dec vs ++ post)
    ∧ pton_accepts src targsize r (dec vs ++ post).
Proof.
  intros Hvs H0 Hm Hs. unfold pton_end. rewrite only_ws_spec by done.
  assert (Htl : ∀ l, pad_tail (replicate (4 - Z.to_nat (Z.of_nat (length vs) mod 4)) Pad64 ++ l)).
  { intros l. right. by destruct Hm as [-> | ->]. }
  case_bool_decide as Hst.
  2:{ eexists; split; [reflexivity|]. apply rejects_intro. intros bs Hb Heq Hl.
      rewrite Hs, <- app_assoc in Heq. apply encode_determined in Heq as (Hp & _ & Hmod); auto.
      destruct (strip s) as [|c l]; [done|].
      rewrite Hp in Hmod. destruct Hm as [Hm|Hm]; rewrite Hm in Hp, Hmod; cbn in Hp;
        destruct (pads_cases bs) as [E|[E|E]]; rewrite E in Hp, Hmod; done. }
  destruct (last_group vs Hvs Hm) as (k & g & q & x & Hk & Hg & Hq & Hd & Ht & Hx).
  rewrite Hst, app_nil_r in Hs. assert (Hbuf : dec vs ++ post = (dec g ++ q) ++ x :: post).
  { by rewrite Hd, <- !app_assoc. }
  rewrite Ht, Hbuf.
  erewrite bind_ok; [|apply load_app]. eexists; split; [reflexivity|].
  destruct (Z.eqb_spec x 0) as [Hx0|Hx0]; simpl.
  - apply (accepts_intro src targsize k g q (x :: post)); auto. by rewrite Hs, Hx.
  - apply rejects_intro. intros bs Hb Heq Hl.
    rewrite Hs in Heq. apply encode_determined in Heq as (_ & Hdec & _); auto.
    2:{ specialize (Htl []). by rewrite app_nil_r in Htl. }
    rewrite Hd, app_assoc in Hdec. case_decide as Hc.
    { by destruct Hm as [Hm|Hm]; rewrite Hm in Hc. }
    apply app_inj_tail in Hdec as [_ ?]. done.
Qed.

(** padding where it cannot be *)
Lemma pad_rejected src src' ws targsize t' : Forall sextet ws →
  strip src = (b64 <$> ws) ++ Pad64 :: strip src' →
  ∀ m, Z.of_nat (length ws) mod 4 = m →
  (m = 0 ∨ m = 1 ∨ m = 2 ∧ strip src' ≠ [Pad64]) → pton_accepts src targsize (-1) t'.
Proof.
  intros Hws Hs m Hm Hc. apply rejects_intro. intros bs Hb Hbs Hlt. rewrite Hs in Hbs.
  apply encode_determined in Hbs as (Hp & _ & Hmod); [|by auto|by right|done].
  rewrite Hm, decide_False in Hmod by done.
  destruct (pads_cases bs) as [E|[E|E]]; rewrite E in Hp; simplify_eq; cbn in Hmod;
    rewrite ?Hp in *; cbn in *; destruct Hc as [?|[?|[? ?]]]; try lia; simplify_eq.
Qed.

(** the end of the text on a complete group *)
Lemma pton_full src targsize ws post : Forall sextet ws → strip src = b64 <$> ws →
  Z.of_nat (length ws) mod 4 = 0 →
  pton_accepts src targsize (Z.of_nat (tarindex (pst ws))) (dec ws ++ post).
Proof.
  intros Hws Hs Hm. destruct (groups ws) as (k & g & p & -> & Hg & Hp).
  assert (p = []) as ->.
  { rewrite length_app, Hg in Hm. destruct p; [done|]. simpl in *.
    Z.to_euclidean_division_equations; lia. }
  rewrite app_nil_r in *. rewrite <- (app_nil_r (dec g)).
  apply (accepts_intro src targsize k g [] post); auto; [by rewrite app_nil_r|].
  rewrite app_nil_r, length_dec. cbn [tarindex pst]. rewrite Hg.
  replace (3 * (4 * k) + 3)%nat with (3 + (3 * k) * 4)%nat by lia.
  replace (3 * (4 * k))%nat with (0 + (3 * k) * 4)%nat by lia.
  by rewrite !Nat.div_add by done.
Qed.

(** the specification of adb_b64_pton *)
Lemma pton_correct src targsize t :
  0 ∉ src → (targsize ≤ length t)%nat →
  ∃ r t', adb_b64_pton src targsize t = Ok r t' ∧ length t' = length t ∧
    pton_accepts src targsize r t'.
Proof.
  intros H0 Ht. unfold adb_b64_pton.
  destruct (pton_loop_spec src [] t targsize) as (r & t' & Heq & Hl & Hr);
    [done|done|simpl; lia|]. cbn in Hl, Hr.
  change (pst []) with (mkPton 0 0) in Heq. simpl in Heq. rewrite (bind_ok _ _ _ _ _ Heq).
  clear Heq. destruct r as [[[ch src'] st]|].
  2:{ exists (-1), t'. split_and!; [done..|]. apply rejects_intro. intros bs Hb Hs Hlt.
      pose proof Hs as Hs'. rewrite encode_enc6 in Hs'.
      specialize (Hr (enc6 bs) (pads bs) (enc6_sextet bs Hb) (pads_tail bs) Hs').
      rewrite dec_enc6, length_app in Hr by done. destruct (decide (pads bs = [])); simpl in Hr; lia. }
  destruct Hr as (ws & post & Hws & -> & -> & Hle & [[-> Hs]|(-> & Hs & H0')]).
  - cbn [Z.eqb Pad64]. cbn [state pst].
    destruct (Z.eqb_spec (Z.of_nat (length ws) mod 4) 0) as [Hm|Hm]; cbn [negb].
    + eexists _, _. split; [reflexivity|]. split; [done|].
      by apply pton_full.
    + eexists _, _. split; [reflexivity|]. split; [done|].
      apply rejects_intro. intros bs Hb Heq Hlt.
      rewrite Hs, <- (app_nil_r (b64 <$> ws)) in Heq.
      apply encode_determined in Heq as (_ & _ & Hmod); auto. by left.
  - cbn [Z.eqb Pos.eqb Pad64]. destruct (next src') as [ch2 src2] eqn:Hn. cbn [state pst].
    assert (Hn1 : (next src').1 = ch2 ∧ (next src').2 = src2) by by rewrite Hn.
    destruct Hn1 as [Hn1 Hn2].
    pose proof (pad_rejected src src' ws targsize (dec ws ++ post) Hws Hs) as Hrej.
    destruct (Z.eqb_spec (Z.of_nat (length ws) mod 4) 0) as [Hm|Hm0]; cbn [orb];
      [eexists _, _; split; [reflexivity|]; split; [done|]; eapply Hrej; eauto|].
    destruct (Z.eqb_spec (Z.of_nat (length ws) mod 4) 1) as [Hm|Hm1];
      [eexists _, _; split; [reflexivity|]; split; [done|]; eapply Hrej; eauto|].
    destruct (Z.eqb_spec (Z.of_nat (length ws) mod 4) 2) as [Hm|Hm2].
    + pose proof (skip_ws_spec src' H0') as Hsk. rewrite Hn in Hsk. cbn [fst snd] in Hsk.
      destruct (skip_ws ch2 src2) as [ch3 src3]. cbn [fst] in Hsk.
      destruct (strip src') as [|c l] eqn:Hsrc'.
      { subst ch3. cbn. eexists _, _. split; [reflexivity|]. split; [done|]. eapply Hrej; eauto. }
      destruct Hsk as (s3 & [= -> ->] & <- & H03).
      destruct (Z.eqb_spec c Pad64) as [->|Hc]; cbn [negb].
      2:{ eexists _, _. split; [reflexivity|]. split; [done|]. eapply Hrej; [done|].
          right; right. split; [done|]. congruence. }
      destruct (pton_end_spec src s3 ws post targsize) as (r & Hr & Ha); auto.
      { rewrite Hm, Hs. simpl. by rewrite <- app_assoc. }
      destruct (next s3) as [ch4 src4]. cbn [fst snd] in Hr. eexists r, _. done.
    + destruct (pton_end_spec src src' ws post targsize) as (r & Hr & Ha); auto.
      { right. Z.to_euclidean_division_equations; lia. }
      { assert (Z.of_nat (length ws) mod 4 = 3) as -> by (Z.to_euclidean_division_equations; lia).
        rewrite Hs. simpl. by rewrite <- app_assoc. }
      rewrite Hn1, Hn2 in Hr. eexists r, _. done.
Qed.

(** adb_b64_pton, for any C string and any target of at least targsize
    bytes: no access leaves the target and the function returns -1 or a
    length.  It is sound: when it returns n, the text with its white space
    removed is exactly the encoding of the n bytes in the target (so no
    rest bits, no wrong padding and no trailing characters are accepted).  It
    is complete: the text of any bytes that fit, with white space anywhere,
    is decoded to these bytes. *)
Theorem pton_spec src targsize t :
  0 ∉ src → (targsize ≤ length t)%nat →
  ∃ r t', adb_b64_pton src targsize t = Ok r t' ∧ length t' = length t ∧
    pton_accepts src targsize r t'.
Proof. apply pton_correct. Qed.

Lemma ntop_spec_witness : ∃ r t', adb_b64_ntop [77; 97; 110; 77] 10 (replicate 12 7) = Ok r t' ∧
  length t' = 12%nat ∧ r = 8.
Proof.
  destruct (ntop_spec [77; 97; 110; 77] 10 (replicate 12 7)) as (r & t' & H & Hl & Hr).
  - repeat constructor; vm_compute; congruence.
  - vm_compute. lia.
  - exists r, t'. rewrite decide_True in Hr by (vm_compute; lia).
    split; [exact H|]. split; [exact Hl|exact (proj1 Hr)].
Defined.

Lemma pton_spec_witness : ∃ r t', adb_b64_pton (str "TWFu TQ==") 6 (replicate 6 7) = Ok r t' ∧
  pton_accepts (str "TWFu TQ==") 6 r t'.
Proof.
  destruct (pton_spec (str "TWFu TQ==") 6 (replicate 6 7)) as (r & t' & H & Hl & Hr).
  - vm_compute. intros HH. repeat (inversion HH as [|? ? ? HH']; clear HH; rename HH' into HH).
  - vm_compute. lia.
  - exists r, t'. split; [exact H|exact Hr].
Defined.
