(* ===== verification/DList.v ===== *)
(** * Intrusive doubly linked lists

    The daemon keeps its sockets, listeners, transports, disconnect callbacks
    and pending events in circular doubly linked lists whose links are fields
    of the elements and whose head is a static sentinel.  Here the link
    operations are given on memory, one store at a time as in the source, and
    proved to implement appending and removing on a sequence of addresses.
    The other files keep these lists as sequences. *)

From S2P Require Import Prelude.

Abbreviation loc := Z (only parsing).
Record node := mkNode { next : loc; prev : loc }.
Abbreviation mem := (gmap Z node) (only parsing).

(** node->next, node->prev and the stores to them; NULL is not in memory *)
Definition get_next (a : loc) : M mem loc := deref NullDeref (λ m, next <$> m !! a).
Definition get_prev (a : loc) : M mem loc := deref NullDeref (λ m, prev <$> m !! a).
Definition set_next (a v : loc) : M mem unit := λ m,
  match m !! a with
  | Some n => Ok tt (<[a := mkNode v (prev n)]> m)
  | None => Fault NullDeref m
  end.
Definition set_prev (a v : loc) : M mem unit := λ m,
  match m !! a with
  | Some n => Ok tt (<[a := mkNode (next n) v]> m)
  | None => Fault NullDeref m
  end.

(** ** The operations *)

(** list.c *)
Definition list_init (n : loc) : M mem unit := set_next n n;;; set_prev n n.
Definition list_add_tail (head item : loc) : M mem unit :=
  set_next item head;;;
  do p <- get_prev head; set_prev item p;;;
  do p <- get_prev head; set_next p item;;;
  set_prev head item.
Definition list_remove (item : loc) : M mem unit :=
  do n <- get_next item; do p <- get_prev item; set_prev n p;;;
  do p <- get_prev item; do n <- get_next item; set_next p n.

(** fdevent.c, the list [list_pending] at address [lst] *)
Definition fdevent_plist_enqueue (lst n : loc) : M mem unit :=
  set_next n lst;;;
  do p <- get_prev lst; set_prev n p;;;
  do p <- get_prev n; set_next p n;;;
  set_prev lst n.
Definition fdevent_plist_remove (n : loc) : M mem unit :=
  do p <- get_prev n; do x <- get_next n; set_next p x;;;
  do x <- get_next n; do p <- get_prev n; set_prev x p;;;
  set_next n 0;;; set_prev n 0.
Definition fdevent_plist_dequeue (lst : loc) : M mem loc :=
  do n <- get_next lst;
  if n =? lst then ret 0
  else
    do x <- get_next n; set_next lst x;;;
    do x <- get_next lst; set_prev x lst;;;
    set_next n 0;;; set_prev n 0;;;
    ret n.

(** the links of insert_local_socket (sockets.c), install_listener (adb.c),
    transport_registration_func and add_transport_disconnect (transport.c) *)
Definition link_before (s lst : loc) : M mem unit :=
  set_next s lst;;;
  do n <- get_next s; do p <- get_prev n; set_prev s p;;;
  do p <- get_prev s; set_next p s;;;
  do n <- get_next s; set_prev n s.

(** remove_socket: the test of the links included *)
Definition unlink_socket (s : loc) : M mem unit :=
  do p <- get_prev s; do n <- get_next s;
  if negb (p =? 0) && negb (n =? 0) then
    set_next p n;;; set_prev n p;;;
    set_next s 0;;; set_prev s 0
  else ret tt.

(** ** Abstraction: the sequence of addresses between head and head *)

Definition nxt (m : mem) (a : loc) : option loc := next <$> m !! a.
Definition prv (m : mem) (a : loc) : option loc := prev <$> m !! a.

(** consecutive addresses are linked both ways *)
Fixpoint links (m : mem) (l : list loc) : Prop :=
  match l with
  | a :: ((b :: _) as r) => nxt m a = Some b ∧ prv m b = Some a ∧ links m r
  | _ => True
  end.

Definition dll (m : mem) (h : loc) (l : list loc) : Prop :=
  NoDup (h :: l) ∧ links m (h :: l ++ [h]).

(** ** Links *)

Lemma links_app m a x b : links m (a ++ x :: b) ↔ links m (a ++ [x]) ∧ links m (x :: b).
Proof.
  induction a as [|y a IH]; [simpl; tauto|].
  destruct a as [|z a]; cbn [app links] in *; tauto.
Qed.

(** [links m l] reads next of all but the last and prev of all but the first *)
Lemma links_ext m m' x l y :
  (∀ a, a ∈ x :: l → nxt m' a = nxt m a) → (∀ b, b ∈ l ++ [y] → prv m' b = prv m b) →
  links m (x :: l ++ [y]) → links m' (x :: l ++ [y]).
Proof.
  revert x. induction l as [|z l IH]; intros x Hn Hp; cbn.
  - rewrite Hn, Hp by set_solver. done.
  - rewrite Hn, Hp by set_solver. intros (? & ? & ?). split_and!; [done..|].
    apply IH; [set_solver..|done].
Qed.

Lemma links_ends m h l : links m (h :: l ++ [h]) →
  ∃ f b, nxt m h = Some f ∧ prv m h = Some b
    ∧ (l = [] ∧ f = h ∧ b = h ∨ ∃ l1 l2, l = f :: l1 ∧ l = l2 ++ [b]).
Proof.
  intros H. destruct l as [|f l1]; [destruct H as (? & ? & _); naive_solver|].
  destruct (exists_last (l := f :: l1) ltac:(done)) as (l2 & b & Hl).
  pose proof H as H'. rewrite Hl, <- app_assoc, app_comm_cons in H'.
  apply links_app in H' as [_ (_ & Hb & _)]. destruct H as (Hf & _). eauto 10.
Qed.

(** ** Effects of the stores *)

Lemma get_next_ok m a b : nxt m a = Some b → get_next a m = Ok b m.
Proof. unfold get_next, deref, nxt. by intros ->. Qed.
Lemma get_prev_ok m a b : prv m a = Some b → get_prev a m = Ok b m.
Proof. unfold get_prev, deref, prv. by intros ->. Qed.

Lemma set_next_ok m a v : is_Some (nxt m a) → ∃ m', set_next a v m = Ok tt m'
  ∧ (∀ b, nxt m' b = if decide (b = a) then Some v else nxt m b) ∧ (∀ b, prv m' b = prv m b).
Proof.
  unfold nxt, prv, set_next. intros [x Hx]. destruct (m !! a) as [n|] eqn:Ha; [|done].
  eexists. split; [done|]. split; intros b; (destruct (decide (b = a)) as [->|Hb];
    [rewrite lookup_insert_eq, ?Ha | rewrite lookup_insert_ne by auto]); done.
Qed.
Lemma set_prev_ok m a v : is_Some (nxt m a) → ∃ m', set_prev a v m = Ok tt m'
  ∧ (∀ b, prv m' b = if decide (b = a) then Some v else prv m b) ∧ (∀ b, nxt m' b = nxt m b).
Proof.
  unfold nxt, prv, set_prev. intros [x Hx]. destruct (m !! a) as [n|] eqn:Ha; [|done].
  eexists. split; [done|]. split; intros b; (destruct (decide (b = a)) as [->|Hb];
    [rewrite lookup_insert_eq, ?Ha | rewrite lookup_insert_ne by auto]); done.
Qed.
Lemma prv_nxt m a b : prv m a = Some b → is_Some (nxt m a).
Proof. unfold prv, nxt. destruct (m !! a); eauto. Qed.

(** evaluate a link after a number of stores *)
Ltac links_eval :=
  repeat match goal with
  | H : ∀ b, nxt ?m b = _ |- context [nxt ?m _] => rewrite H
  | H : ∀ b, prv ?m b = _ |- context [prv ?m _] => rewrite H
  end; repeat case_decide; try (exfalso; congruence); subst; try done;
  try (eexists; reflexivity); eauto.
Ltac ptr_step :=
  unfold bind at 1;
  match goal with
  | |- context [get_next ?a ?m] => erewrite (get_next_ok m a) by (links_eval; reflexivity)
  | |- context [get_prev ?a ?m] => erewrite (get_prev_ok m a) by (links_eval; reflexivity)
  | |- context [set_next ?a ?v ?m] =>
      let m' := fresh "m" in destruct (set_next_ok m a v) as (m' & -> & ? & ?); [links_eval|]
  | |- context [set_prev ?a ?v ?m] =>
      let m' := fresh "m" in destruct (set_prev_ok m a v) as (m' & -> & ? & ?); [links_eval|]
  end; cbn beta iota.

(** ** Appending *)

(** the links after [n] was put between the last element [p] and the head *)
Definition added (m m' : mem) (h p n : loc) : Prop :=
  (∀ a, nxt m' a = if decide (a = n) then Some h else if decide (a = p) then Some n else nxt m a) ∧
  (∀ a, prv m' a = if decide (a = n) then Some p else if decide (a = h) then Some n else prv m a).

Lemma added_dll m m' h p n l : dll m h l → prv m h = Some p → n ∉ h :: l → added m m' h p n →
  dll m' h (l ++ [n]).
Proof.
  intros [Hnd Hl] Hp Hn [Hnx Hpr]. split.
  { change (NoDup ((h :: l) ++ [n])). apply list.NoDup_app. split_and!; [done| |apply NoDup_singleton].
    set_solver. }
  destruct (links_ends m h l Hl) as (f & b & _ & Hb & Hend).
  rewrite Hp in Hb. injection Hb as <-.
  assert (links m' [p; n; h]).
  { assert (p ∈ h :: l) by (destruct Hend as [(-> & -> & ->)|(? & l2 & ? & ->)]; set_solver).
    assert (p ≠ n) by set_solver. assert (h ≠ n) by set_solver.
    cbn. rewrite !Hnx, !Hpr. repeat case_decide; split_and!; congruence || done. }
  destruct Hend as [(-> & -> & ->)|(l1 & l2 & Hl1 & ->)]; [done|]. clear Hl1.
  rewrite <- !app_assoc. apply (links_app m' (h :: l2) p [n; h]). split; [|done].
  rewrite <- app_assoc in Hl. apply (links_app m (h :: l2) p [h]) in Hl as [Hl _].
  revert Hl. apply links_ext.
  all: intros a Ha; rewrite ?Hnx, ?Hpr; apply list.NoDup_cons in Hnd as [Hh Hnd];
    apply list.NoDup_app in Hnd as (_ & Hx & _).
  - rewrite !decide_False; [done| |]; intros ->; set_solver.
  - rewrite !decide_False; [done| |]; intros ->; set_solver.
Qed.

(** [m'] is [m] with [n] appended to the list at [h] *)
Definition appends (op : M mem unit) (h n : loc) : Prop := ∀ m l,
  dll m h l → n ∉ h :: l → is_Some (m !! n) →
  ∃ m', op m = Ok tt m' ∧ dll m' h (l ++ [n]) ∧ (∀ a, is_Some (m' !! a) ↔ is_Some (m !! a)).

Lemma nxt_is_Some m a : is_Some (nxt m a) ↔ is_Some (m !! a).
Proof. unfold nxt. by rewrite fmap_is_Some. Qed.

(** an operation with the effect [added] appends *)
Lemma appends_intro op h n :
  (∀ m p, is_Some (nxt m n) → is_Some (nxt m h) → is_Some (nxt m p) → prv m h = Some p →
     n ≠ h → n ≠ p → ∃ m', op m = Ok tt m' ∧ added m m' h p n) →
  appends op h n.
Proof.
  intros H m l Hd Hn Hs. destruct (links_ends m h l (proj2 Hd)) as (f & p & Hf & Hp & Hend).
  assert (Hpl : p ∈ h :: l).
  { destruct Hend as [(-> & -> & ->)|(? & l2 & ? & ->)]; set_solver. }
  assert (Hps : is_Some (nxt m p)).
  { destruct Hend as [(-> & -> & ->)|(l1 & l2 & _ & ->)]; [eauto|].
    destruct Hd as [_ Hl]. rewrite <- app_assoc, app_comm_cons in Hl.
    apply links_app in Hl as [_ (Hx & _)]. eauto. }
  destruct (H m p) as (m' & Hop & Ha);
    [by apply nxt_is_Some|eauto|done|done|set_solver|set_solver|].
  exists m'. split; [done|]. split; [by eapply added_dll|].
  intros a. rewrite <- !nxt_is_Some. destruct Ha as [Ha _]. rewrite Ha.
  apply nxt_is_Some in Hs. repeat case_decide; subst; naive_solver.
Qed.

Ltac appends_tac :=
  apply appends_intro; intros m p Hn Hh Hp Hph Hnh Hnp;
  repeat ptr_step;
  match goal with |- context [set_prev ?a ?v ?m] =>
    let m' := fresh "m" in destruct (set_prev_ok m a v) as (m' & -> & ? & ?); [links_eval|] end;
  eexists; split; [reflexivity|]; split; intros a; links_eval; congruence.

Lemma list_add_tail_appends h n : appends (list_add_tail h n) h n.
Proof. unfold list_add_tail. appends_tac. Qed.
Lemma fdevent_plist_enqueue_appends h n : appends (fdevent_plist_enqueue h n) h n.
Proof. unfold fdevent_plist_enqueue. appends_tac. Qed.
Lemma link_before_appends h n : appends (link_before n h) h n.
Proof. unfold link_before. appends_tac. Qed.

(** ** Removing *)

(** the links after the element between [p] and [s] was taken out *)
Definition removed (m m' : mem) (p n s : loc) : Prop :=
  (∀ a, a ≠ n → nxt m' a = if decide (a = p) then Some s else nxt m a) ∧
  (∀ a, a ≠ n → prv m' a = if decide (a = s) then Some p else prv m a).

(** the neighbours of an element *)
Lemma dll_split m h l1 n l2 : dll m h (l1 ++ n :: l2) →
  ∃ a p s b, h :: l1 = a ++ [p] ∧ l2 ++ [h] = s :: b ∧ nxt m n = Some s ∧ prv m n = Some p
    ∧ is_Some (nxt m p) ∧ is_Some (nxt m s).
Proof.
  intros [_ Hl].
  destruct (exists_last (l := h :: l1) ltac:(done)) as (a & p & Ha).
  destruct (l2 ++ [h]) as [|s b] eqn:Hb; [by destruct l2|].
  exists a, p, s, b. split; [done|]. split; [done|].
  rewrite <- app_assoc in Hl. cbn [app] in Hl. rewrite Hb in Hl.
  change (links m ((h :: l1) ++ n :: s :: b)) in Hl. rewrite Ha, <- app_assoc in Hl.
  apply links_app in Hl as [_ (Hp & Hn & Hs & Hps & _)]. eauto using prv_nxt.
Qed.

Lemma removed_dll m m' h l1 n l2 p s :
  dll m h (l1 ++ n :: l2) → nxt m n = Some s → prv m n = Some p → removed m m' p n s →
  dll m' h (l1 ++ l2).
Proof.
  intros Hd Hs Hp [Hnx Hpr]. destruct (dll_split m h l1 n l2 Hd) as (a & p' & s' & b & Ha & Hb & Hs' & Hp' & _).
  simplify_eq. destruct Hd as [Hnd Hl].
  assert (Hnd' : NoDup ((a ++ [p]) ++ n :: l2)) by by rewrite <- Ha.
  assert (Hh : h ∉ l2 ∧ h ≠ n) by (apply list.NoDup_cons in Hnd as [? _]; set_solver).
  apply list.NoDup_app in Hnd' as (Hnd1 & Hdis & Hnd2).
  apply list.NoDup_cons in Hnd2 as [Hn2 Hnd2]. apply list.NoDup_app in Hnd1 as (Hnda & Hpa & _).
  assert (Hn1 : n ∉ a ++ [p]) by set_solver.
  split.
  { change (NoDup ((h :: l1) ++ l2)). rewrite Ha. apply list.NoDup_app.
    split_and!; [|set_solver|done];
    apply list.NoDup_app; split_and!; auto using NoDup_singleton. }
  rewrite <- app_assoc in *. cbn [app] in Hl. rewrite Hb in *.
  change (links m ((h :: l1) ++ n :: s :: b)) in Hl. change (links m' ((h :: l1) ++ s :: b)).
  rewrite Ha, <- app_assoc in *. cbn [app] in *.
  apply links_app in Hl as [Hl1 (_ & _ & Hl2)]. destruct Hl2 as (_ & _ & Hl2).
  assert (Hsl : s ∈ l2 ++ [h]) by (rewrite Hb; set_solver).
  assert (Hsn : s ≠ n) by (intros ->; set_solver).
  assert (Hpn : p ≠ n) by (intros ->; set_solver).
  apply links_app. change (links m' (p :: s :: b)) with
    (nxt m' p = Some s ∧ prv m' s = Some p ∧ links m' (s :: b)).
  rewrite Hnx, Hpr, !decide_True by done. split_and!; [|done..|].
  - destruct a as [|x a]; [done|]. injection Ha as <- Hl1'. revert Hl1. cbn [app].
    apply links_ext; intros y Hy.
    + rewrite Hnx, decide_False; [done|..]; intros ->; set_solver.
    + apply list.NoDup_cons in Hnd as [Hnd _].
      rewrite Hpr, decide_False; [done|..]; intros ->; set_solver.
  - destruct l2 as [|z l2]; injection Hb as <- <-; [done|].
    apply list.NoDup_cons in Hnd2 as [Hz _].
    revert Hl2. apply links_ext; intros y Hy.
    + rewrite Hnx, decide_False; [done|..]; intros ->; set_solver.
    + rewrite Hpr, decide_False; [done|..]; intros ->; set_solver.
Qed.

(** [op] takes [n] out of the list and leaves every address allocated *)
Definition unlinks (op : M mem unit) (n : loc) : Prop := ∀ m h l1 l2,
  dll m h (l1 ++ n :: l2) → h ≠ 0 → 0 ∉ l1 ++ n :: l2 →
  ∃ m', op m = Ok tt m' ∧ dll m' h (l1 ++ l2) ∧ (∀ a, is_Some (m' !! a) ↔ is_Some (m !! a)).

Lemma unlinks_intro op n :
  (∀ m p s, nxt m n = Some s → prv m n = Some p → is_Some (nxt m p) → is_Some (nxt m s) →
     p ≠ n → s ≠ n → p ≠ 0 → s ≠ 0 →
     ∃ m', op m = Ok tt m' ∧ removed m m' p n s ∧ is_Some (nxt m' n)) →
  unlinks op n.
Proof.
  intros H m h l1 l2 Hd Hh0 H0.
  destruct (dll_split m h l1 n l2 Hd) as (a & p & s & b & Ha & Hb & Hs & Hp & Hps & Hss).
  assert (Hpl : p ∈ h :: l1) by (rewrite Ha; set_solver).
  assert (Hsl : s ∈ l2 ++ [h]) by (rewrite Hb; set_solver).
  assert (Hn : n ∉ h :: l1 ∧ n ∉ l2 ++ [h]).
  { destruct Hd as [Hnd _]. apply list.NoDup_cons in Hnd as [Hh Hnd].
    apply list.NoDup_app in Hnd as (_ & Hx & Hnd). apply list.NoDup_cons in Hnd as [? _].
    split; intros Hn; set_solver. }
  destruct (H m p s) as (m' & Hop & Hr & Hn'); try done; try (intros ->; set_solver).
  exists m'. split; [done|]. split; [by eapply removed_dll|].
  intros x. rewrite <- !nxt_is_Some. destruct (decide (x = n)) as [->|Hx]; [naive_solver|].
  destruct Hr as [Hr _]. rewrite (Hr x Hx). case_decide; subst; naive_solver.
Qed.

Ltac ptr_last :=
  match goal with
  | |- context [set_prev ?a ?v ?m] =>
      let m' := fresh "m" in destruct (set_prev_ok m a v) as (m' & -> & ? & ?); [links_eval|]
  | |- context [set_next ?a ?v ?m] =>
      let m' := fresh "m" in destruct (set_next_ok m a v) as (m' & -> & ? & ?); [links_eval|]
  end.
Ltac unlinks_tac :=
  apply unlinks_intro; intros m p s Hs Hp Hps Hss Hpn Hsn Hp0 Hs0;
  repeat ptr_step; ptr_last;
  eexists; split; [reflexivity|]; split; [split; intros a Ha|]; links_eval; congruence.

Lemma list_remove_unlinks n : unlinks (list_remove n) n.
Proof. unfold list_remove. unlinks_tac. Qed.
Lemma fdevent_plist_remove_unlinks n : unlinks (fdevent_plist_remove n) n.
Proof. unfold fdevent_plist_remove. unlinks_tac. Qed.
Lemma unlink_socket_unlinks n : unlinks (unlink_socket n) n.
Proof.
  unfold unlink_socket. apply unlinks_intro; intros m p s Hs Hp Hps Hss Hpn Hsn Hp0 Hs0.
  repeat ptr_step. rewrite (proj2 (Z.eqb_neq p 0)), (proj2 (Z.eqb_neq s 0)) by done. cbn.
  repeat ptr_step. ptr_last.
  eexists; split; [reflexivity|]; split; [split; intros a Ha|]; links_eval; congruence.
Qed.

(** the queue of pending events: first in, first out *)
Lemma fdevent_plist_dequeue_pops m lst l : dll m lst l → lst ≠ 0 → 0 ∉ l →
  ∃ m', fdevent_plist_dequeue lst m = Ok (default 0 (head l)) m' ∧ dll m' lst (tail l).
Proof.
  intros Hd Hh0 H0. unfold fdevent_plist_dequeue. destruct l as [|n l].
  - pose proof Hd as [_ (Hn & _)]. ptr_step. rewrite Z.eqb_refl. by exists m.
  - destruct (dll_split m lst [] n l Hd) as (a & p & s & b & Ha & Hb & Hs & Hp & Hps & Hss).
    assert (p = lst) as ->. { destruct a as [|? [|]]; simpl in Ha; congruence. }
    assert (Hsl : s ∈ l ++ [lst]) by (rewrite Hb; set_solver).
    assert (Hnl : n ∉ l ∧ n ≠ lst).
    { destruct Hd as [Hnd _]. apply list.NoDup_cons in Hnd as [? Hnd].
      apply list.NoDup_cons in Hnd as [? _]. set_solver. }
    assert (Hsn : s ≠ n) by (intros ->; set_solver).
    destruct Hnl as [Hnl Hnlst]. pose proof Hd as [_ (Hn & _)]. ptr_step.
    rewrite (proj2 (Z.eqb_neq n lst)) by done. repeat ptr_step.
    eexists. split; [reflexivity|]. eapply (removed_dll m _ lst [] n l lst s); try done.
    split; intros a' Ha'; links_eval; congruence.
Qed.

(** C39 The list operations of list.c and fdevent.c and the links set by
    insert_local_socket, remove_socket, install_listener, the registration of
    a transport and add_transport_disconnect, store by store on memory,
    implement sequences: list_add_tail, fdevent_plist_enqueue and the
    insertion before the head append; list_remove, fdevent_plist_remove and
    the unlinking of a socket take out exactly the element, wherever it is;
    fdevent_plist_dequeue returns the first element, or NULL on an empty list;
    list_init makes the empty list.  No operation follows a NULL link. *)
Theorem list_operations_refine :
  (∀ h n, appends (list_add_tail h n) h n ∧ appends (fdevent_plist_enqueue h n) h n
          ∧ appends (link_before n h) h n) ∧
  (∀ n, unlinks (list_remove n) n ∧ unlinks (fdevent_plist_remove n) n
        ∧ unlinks (unlink_socket n) n) ∧
  (∀ m lst l, dll m lst l → lst ≠ 0 → 0 ∉ l →
     ∃ m', fdevent_plist_dequeue lst m = Ok (default 0 (head l)) m' ∧ dll m' lst (tail l)) ∧
  (∀ m h, is_Some (m !! h) → ∃ m', list_init h m = Ok tt m' ∧ dll m' h []).
Proof.
  split_and!; eauto using list_add_tail_appends, fdevent_plist_enqueue_appends,
    link_before_appends, list_remove_unlinks, fdevent_plist_remove_unlinks,
    unlink_socket_unlinks, fdevent_plist_dequeue_pops.
  intros m h Hh. apply nxt_is_Some in Hh. unfold list_init. ptr_step. ptr_last.
  eexists. split; [done|]. split; [apply NoDup_singleton|].
  split_and!; [links_eval..|done].
Qed.

(** three elements linked, the middle one taken out, the first one dequeued *)
Lemma list_operations_refine_witness :
  ∃ m', fdevent_plist_dequeue 9 (list_to_map [(9, mkNode 1 1); (1, mkNode 9 9)]) = Ok 1 m'
    ∧ dll m' 9 [].
Proof.
  apply (proj1 (proj2 (proj2 list_operations_refine)) _ 9 [1]).
  - split; [|vm_compute; tauto]. by apply (bool_decide_unpack _).
  - lia.
  - by apply (bool_decide_unpack _).
Defined.
