(* ===== verification/Fdevent.v ===== *)
(** * The event loop (adbd/src/fdevent.c, the select implementation)

    fdevent objects watch descriptors.  The table fd_table maps a descriptor
    to its object, three fd_sets and select_n are the arguments of select,
    list_pending queues the objects with undelivered events.  The objects
    live in a heap indexed by their address: most are fields of sockets,
    listeners and transports.

    Theorems: an invariant ties the table, the sets, the states and the queue
    together, every operation keeps it without a fault, and fdevent_process
    delivers exactly the events select reports. *)

From S2P Require Import Prelude Kernel Packet DList.

Definition FDE_READ : Z := 0x0001.
Definition FDE_WRITE : Z := 0x0002.
Definition FDE_ERROR : Z := 0x0004.
Definition FDE_TIMEOUT : Z := 0x0008.
Definition FDE_DONT_CLOSE : Z := 0x0080.
Definition FDE_EVENTMASK : Z := 0x00ff.
Definition FDE_STATEMASK : Z := 0xff00.
Definition FDE_ACTIVE : Z := 0x0100.
Definition FDE_PENDING : Z := 0x0200.
Definition FDE_CREATED : Z := 0x0400.
Definition FD_SETSIZE : Z := 1024.

(** the functions stored in fdevent objects *)
Inductive fd_func :=
| fdevent_subproc_event_func_
| local_socket_event_func_
| ss_listener_event_func_
| listener_event_func_
| transport_socket_events_
| transport_registration_func_
| adb_auth_event_
| adb_auth_listener_
| jdwp_process_event_
| jdwp_control_event_.
#[export] Instance fd_func_eq_dec : EqDecision fd_func.
Proof. solve_decision. Defined.

Record fdevent := mkFde {
  fd : Z;
  force_eof : bool;
  state : Z;       (* unsigned short *)
  events : Z;      (* unsigned short *)
  func : fd_func;
  arg : Z;
}.

Definition set_force_eof (v : bool) (f : fdevent) : fdevent :=
  mkFde (fd f) v (state f) (events f) (func f) (arg f).
Definition set_state (v : Z) (f : fdevent) : fdevent :=
  mkFde (fd f) (force_eof f) v (events f) (func f) (arg f).
Definition set_events (v : Z) (f : fdevent) : fdevent :=
  mkFde (fd f) (force_eof f) (state f) v (func f) (arg f).

(** x & mask != 0 *)
Definition has (x mask : Z) : bool := negb (Z.land x mask =? 0).

Record fdw := mkFdw {
  w_kern : kern;
  fdes : gmap Z fdevent;       (* the objects by address *)
  fd_table : list Z;           (* of addresses, 0 for NULL *)
  read_fds : gset Z;
  write_fds : gset Z;
  error_fds : gset Z;
  select_n : Z;
  list_pending : list Z;       (* the addresses queued, oldest first *)
  SHELL_EXIT_NOTIFY_FD : Z;
  next_loc : Z;                (* addresses from here on are not in use *)
}.

(** fd_table_max is the length of the table *)
Definition fd_table_max (w : fdw) : Z := Z.of_nat (length (fd_table w)).

Definition upd_kern (k : kern) (w : fdw) : fdw :=
  mkFdw k (fdes w) (fd_table w) (read_fds w) (write_fds w) (error_fds w) (select_n w)
    (list_pending w) (SHELL_EXIT_NOTIFY_FD w) (next_loc w).
Definition upd_fdes (f : gmap Z fdevent → gmap Z fdevent) (w : fdw) : fdw :=
  mkFdw (w_kern w) (f (fdes w)) (fd_table w) (read_fds w) (write_fds w) (error_fds w) (select_n w)
    (list_pending w) (SHELL_EXIT_NOTIFY_FD w) (next_loc w).
Definition upd_table (t : list Z) (w : fdw) : fdw :=
  mkFdw (w_kern w) (fdes w) t (read_fds w) (write_fds w) (error_fds w) (select_n w)
    (list_pending w) (SHELL_EXIT_NOTIFY_FD w) (next_loc w).
Definition upd_sets (r wr e : gset Z) (w : fdw) : fdw :=
  mkFdw (w_kern w) (fdes w) (fd_table w) r wr e (select_n w)
    (list_pending w) (SHELL_EXIT_NOTIFY_FD w) (next_loc w).
Definition upd_select_n (n : Z) (w : fdw) : fdw :=
  mkFdw (w_kern w) (fdes w) (fd_table w) (read_fds w) (write_fds w) (error_fds w) n
    (list_pending w) (SHELL_EXIT_NOTIFY_FD w) (next_loc w).
Definition upd_pending (l : list Z) (w : fdw) : fdw :=
  mkFdw (w_kern w) (fdes w) (fd_table w) (read_fds w) (write_fds w) (error_fds w) (select_n w)
    l (SHELL_EXIT_NOTIFY_FD w) (next_loc w).
Definition upd_notify (n : Z) (w : fdw) : fdw :=
  mkFdw (w_kern w) (fdes w) (fd_table w) (read_fds w) (write_fds w) (error_fds w) (select_n w)
    (list_pending w) n (next_loc w).
Definition upd_next_loc (n : Z) (w : fdw) : fdw :=
  mkFdw (w_kern w) (fdes w) (fd_table w) (read_fds w) (write_fds w) (error_fds w) (select_n w)
    (list_pending w) (SHELL_EXIT_NOTIFY_FD w) n.

(** a computation on the kernel *)
Definition K {A} (m : M kern A) : M fdw A := zoom w_kern upd_kern m.

(** fatal: the message goes to stderr, the process exits *)
Definition FATAL {S A} : M S A := exit (-1).

(** fde-> and an assignment through it *)
Definition fde_at (p : Z) : M fdw fdevent :=
  deref (if p =? 0 then NullDeref else UseAfterFree) (λ w, fdes w !! p).
Definition fde_put (p : Z) (f : fdevent → fdevent) : M fdw unit :=
  do _ <- fde_at p; modify (upd_fdes (alter f p)).
(** fd_table[i] *)
Definition fd_table_at (i : Z) : M fdw Z :=
  deref OutOfBounds (λ w, if i <? 0 then None else fd_table w !! Z.to_nat i).

(** FD_SET and FD_CLR; a descriptor that does not fit in an fd_set is an
    access outside of it *)
Definition fd_set_check (d : Z) : M fdw unit :=
  if (0 <=? d) && (d <? FD_SETSIZE) then ret tt else fail OutOfBounds.
Definition set_member (b : bool) (d : Z) (s : gset Z) : gset Z :=
  if b then {[ d ]} ∪ s else s ∖ {[ d ]}.

(** ** The select backend *)

Definition fdevent_init : M fdw unit := modify (upd_sets ∅ ∅ ∅).

Definition fdevent_connect (p : Z) : M fdw unit :=
  do f <- fde_at p;
  do n <- gets select_n;
  when (n <=? fd f) (modify (upd_select_n (fd f + 1))).

(** for(n = 0, i = 0; i < select_n; i++) if(fd_table[i] != 0) n = i; *)
Fixpoint last_registered (fuel : nat) (i n : Z) : M fdw Z :=
  match fuel with
  | O => ret n
  | S fuel' => do p <- fd_table_at i; last_registered fuel' (i + 1) (if p =? 0 then n else i)
  end.

Definition fdevent_disconnect (p : Z) : M fdw unit :=
  do f <- fde_at p;
  fd_set_check (fd f);;;
  modify (λ w, upd_sets (read_fds w ∖ {[ fd f ]}) (write_fds w ∖ {[ fd f ]})
                        (error_fds w ∖ {[ fd f ]}) w);;;
  do sn <- gets select_n;
  do n <- last_registered (Z.to_nat sn) 0 0;
  modify (upd_select_n (n + 1)).

Definition fdevent_update (p : Z) (ev : Z) : M fdw unit :=
  do f <- fde_at p;
  fd_set_check (fd f);;;
  modify (λ w, upd_sets (set_member (has ev FDE_READ) (fd f) (read_fds w))
                        (set_member (has ev FDE_WRITE) (fd f) (write_fds w))
                        (set_member (has ev FDE_ERROR) (fd f) (error_fds w)) w);;;
  fde_put p (λ f, set_state (Z.lor (Z.land (state f) FDE_STATEMASK) ev) f).

(** the descriptors the kernel no longer knows, added to [s]; their number *)
Fixpoint fdevent_fd_check (fuel : nat) (i : Z) (s : gset Z) (n : Z) : M fdw (gset Z * Z) :=
  match fuel with
  | O => ret (s, n)
  | S fuel' =>
      do p <- fd_table_at i;
      if p =? 0 then fdevent_fd_check fuel' (i + 1) s n
      else
        do r <- K (sys_ "fcntl" [AZ i; AS (str "F_GETFL")]);
        if r <? 0 then fdevent_fd_check fuel' (i + 1) ({[ i ]} ∪ s) (n + 1)
        else fdevent_fd_check fuel' (i + 1) s n
  end.

(** ** The list of pending objects *)

Definition fdevent_plist_enqueue (p : Z) : M fdw unit :=
  modify (λ w, upd_pending (list_pending w ++ [p]) w).
(** an object that is not queued has NULL links *)
Definition fdevent_plist_remove (p : Z) : M fdw unit := λ w,
  if bool_decide (p ∈ list_pending w)
  then Ok tt (upd_pending (filter (λ q, q ≠ p) (list_pending w)) w)
  else Fault NullDeref w.
Definition fdevent_plist_dequeue : M fdw Z := λ w,
  match list_pending w with
  | [] => Ok 0 w
  | p :: l => Ok p (upd_pending l w)
  end.

(** ** fdevent_process *)

(** select(select_n, r, w, e, NULL).  The answer lists the ready descriptors
    in the form 8 * fd + events; the kernel keeps in each set the ready ones
    among those asked for and returns how many bits are set. *)
Definition ready (ans : list Z) (bit : Z) (n : Z) (s : gset Z) : gset Z :=
  filter (λ d, d < n ∧ existsb (λ c, (c / 8 =? d) && has (c mod 8) bit) ans = true) s.

Definition select (n : Z) (r w e : gset Z) : M fdw (Z * gset Z * gset Z * gset Z) :=
  do '(res, ans) <- K (sys "select" [AZ n]);
  if res <? 0 then ret (res, r, w, e)
  else
    let r' := ready ans FDE_READ n r in
    let w' := ready ans FDE_WRITE n w in
    let e' := ready ans FDE_ERROR n e in
    ret (Z.of_nat (size r' + size w' + size e'), r', w', e').

Definition mask_of (i : Z) (r w e : gset Z) : Z :=
  Z.lor (Z.lor (if bool_decide (i ∈ r) then FDE_READ else 0)
               (if bool_decide (i ∈ w) then FDE_WRITE else 0))
        (if bool_decide (i ∈ e) then FDE_ERROR else 0).
Definition count_of (i : Z) (r w e : gset Z) : Z :=
  (if bool_decide (i ∈ r) then 1 else 0) + (if bool_decide (i ∈ w) then 1 else 0)
  + (if bool_decide (i ∈ e) then 1 else 0).

(** the block executed for a ready descriptor *)
Definition report (p ev : Z) : M fdw unit :=
  fde_put p (λ f, set_events (Z.lor (events f) ev) f);;;
  do f <- fde_at p;
  if has (state f) FDE_PENDING then ret tt
  else
    fde_put p (λ f, set_state (Z.lor (state f) FDE_PENDING) f);;;
    fdevent_plist_enqueue p.

(** for(i = 0; (i < select_n) && (n > 0); i++) *)
Fixpoint process_loop (fuel : nat) (i n : Z) (r w e : gset Z) : M fdw unit :=
  match fuel with
  | O => ret tt
  | S fuel' =>
      if n <=? 0 then ret tt
      else
        let ev := mask_of i r w e in
        let n' := n - count_of i r w e in
        (if ev =? 0 then ret tt
         else
           do p <- fd_table_at i;
           if p =? 0 then FATAL else report p ev);;;
        process_loop fuel' (i + 1) n' r w e
  end.

Definition fdevent_process : M fdw unit :=
  do s <- get;
  do '(n, rfd, wfd, efd) <- select (select_n s) (read_fds s) (write_fds s) (error_fds s);
  do saved_errno <- gets (λ w, k_errno (w_kern w));
  if (n <? 0) && negb (saved_errno =? EBADF) then ret tt
  else
    let '(rfd, wfd, efd) := if n <? 0 then (∅, ∅, ∅) else (rfd, wfd, efd) in
    do '(rfd, n) <- (if n <=? 0 then fdevent_fd_check (Z.to_nat (select_n s)) 0 rfd 0
                     else ret (rfd, n));
    process_loop (Z.to_nat (select_n s)) 0 n rfd wfd efd.

(** ** Registration *)

(** while(fd_table_max <= fde->fd) fd_table_max *= 2; from at least 256, seven
    doublings pass 32000 *)
Fixpoint grow (fuel : nat) (max d : Z) : option Z :=
  if d <? max then Some max
  else match fuel with O => None | S fuel' => grow fuel' (max * 2) d end.

Definition fdevent_register (p : Z) : M fdw unit :=
  do f <- fde_at p;
  if fd f <? 0 then FATAL
  else
    do oldmax <- gets fd_table_max;
    (if oldmax <=? fd f then
       if 32000 <? fd f then FATAL
       else
         when (oldmax =? 0) fdevent_init;;;
         do newmax <- deref OutOfFuel (λ _, grow 8 (if oldmax =? 0 then 256 else oldmax) (fd f));
         do ok <- K malloc_ok;
         if negb ok then FATAL
         else modify (λ w, upd_table (fd_table w ++ replicate (Z.to_nat (newmax - oldmax)) 0) w)
     else ret tt);;;
    modify (λ w, upd_table (<[Z.to_nat (fd f) := p]> (fd_table w)) w).

Definition fdevent_unregister (p : Z) : M fdw unit :=
  do f <- fde_at p;
  do max <- gets fd_table_max;
  if (fd f <? 0) || (max <=? fd f) then FATAL
  else
    do q <- fd_table_at (fd f);
    if negb (q =? p) then FATAL
    else
      modify (λ w, upd_table (<[Z.to_nat (fd f) := 0]> (fd_table w)) w);;;
      when (negb (has (state f) FDE_DONT_CLOSE)) (K (adb_close (fd f))).

(** ** The interface *)

Definition fdevent_install (p d : Z) (fn : fd_func) (a : Z) : M fdw unit :=
  modify (upd_fdes <[p := mkFde d false FDE_ACTIVE 0 fn a]>);;;
  K (note "fcntl" [AZ d; AS (str "O_NONBLOCK")]);;;
  fdevent_register p;;;
  fdevent_connect p;;;
  fde_put p (λ f, set_state (Z.lor (state f) FDE_ACTIVE) f).

Definition fdevent_remove (p : Z) : M fdw unit :=
  do f <- fde_at p;
  when (has (state f) FDE_PENDING) (fdevent_plist_remove p);;;
  when (has (state f) FDE_ACTIVE) (fdevent_disconnect p;;; fdevent_unregister p);;;
  fde_put p (set_state 0);;;
  fde_put p (set_events 0).

(** fdevent_set after the back end was told *)
Definition set_events_asked (p : Z) (ev : Z) : M fdw unit :=
  fde_put p (λ f, set_state (Z.lor (Z.land (state f) FDE_STATEMASK) ev) f);;;
  do f <- fde_at p;
  when (has (state f) FDE_PENDING)
    (fde_put p (λ f, set_events (Z.land (events f) (Z.lnot ev)) f);;;
     do f <- fde_at p;
     when (events f =? 0)
       (fdevent_plist_remove p;;;
        fde_put p (λ f, set_state (Z.land (state f) (Z.lnot FDE_PENDING)) f))).

Definition fdevent_set (p : Z) (ev : Z) : M fdw unit :=
  let ev := Z.land ev FDE_EVENTMASK in
  do f <- fde_at p;
  if Z.land (state f) FDE_EVENTMASK =? ev then ret tt
  else
    when (has (state f) FDE_ACTIVE) (fdevent_update p ev);;;
    set_events_asked p ev.

Definition fdevent_add (p : Z) (ev : Z) : M fdw unit :=
  do f <- fde_at p;
  fdevent_set p (Z.lor (Z.land (state f) FDE_EVENTMASK) (Z.land ev FDE_EVENTMASK)).
Definition fdevent_del (p : Z) (ev : Z) : M fdw unit :=
  do f <- fde_at p;
  fdevent_set p (Z.land (Z.land (state f) FDE_EVENTMASK) (Z.lnot (Z.land ev FDE_EVENTMASK))).

Definition fdevent_create (d : Z) (fn : fd_func) (a : Z) : M fdw Z :=
  do ok <- K malloc_ok;
  if negb ok then ret 0
  else
    do p <- gets next_loc;
    modify (upd_next_loc (p + 1));;;
    fdevent_install p d fn a;;;
    fde_put p (λ f, set_state (Z.lor (state f) FDE_CREATED) f);;;
    ret p.

Definition fdevent_destroy (p : Z) : M fdw unit :=
  if p =? 0 then ret tt
  else
    do f <- fde_at p;
    if negb (has (state f) FDE_CREATED) then FATAL else fdevent_remove p.

Definition fdevent_subproc_setup : M fdw unit :=
  do '(r, s) <- K adb_socketpair;
  if negb (r =? 0) then FATAL
  else
    modify (upd_notify (default 0 (s !! 1%nat)));;;
    do p <- fdevent_create (default 0 (s !! 0%nat)) fdevent_subproc_event_func_ 0;
    if p =? 0 then FATAL else fdevent_add p FDE_READ.

(** fdevent_call_fdfunc up to the call: the function to call, if any *)
Record fd_call := mkCall { c_func : fd_func; c_fd : Z; c_events : Z; c_arg : Z }.

Definition take_events (p : Z) : M fdw (option fd_call) :=
  do f <- fde_at p;
  fde_put p (set_events 0);;;
  if negb (has (state f) FDE_PENDING) then ret None
  else
    fde_put p (λ f, set_state (Z.land (state f) (Z.lnot FDE_PENDING)) f);;;
    do f' <- fde_at p;
    ret (Some (mkCall (func f') (fd f') (events f) (arg f'))).

(** ** Callbacks and the loop

    The functions stored in the objects belong to the other components, which
    work on a larger state [W]. *)

Section loop.
Context {W : Type} (prj : W → fdw) (upd : fdw → W → W).
Definition F {A} (m : M fdw A) : M W A := zoom prj upd m.
Variable callback : fd_call → M W unit.

Definition fdevent_call_fdfunc (p : Z) : M W unit :=
  do c <- F (take_events p);
  match c with None => ret tt | Some c => callback c end.

(** the end of a subprocess, reported on SHELL_EXIT_NOTIFY_FD *)
Definition fdevent_subproc_event_func (d ev : Z) : M W unit :=
  do max <- F (gets fd_table_max);
  if (d <? 0) || (max <=? d) then FATAL
  else
    do p <- F (fd_table_at d);
    F (fdevent_add p FDE_READ);;;
    if negb (has ev FDE_READ) then ret tt
    else
      do r <- F (K (readx d 4));
      match r with
      | None => FATAL
      | Some bs =>
          let subproc_fd := s32 (get32 bs) in
          if (subproc_fd <? 0) || (max <=? subproc_fd) then ret tt
          else
            do sp <- F (fd_table_at subproc_fd);
            if sp =? 0 then ret tt
            else
              do sf <- F (fde_at sp);
              if negb (fd sf =? subproc_fd) then ret tt
              else
                F (fde_put sp (set_force_eof true));;;
                do '(_, out) <- F (K (sys "ioctl" [AZ subproc_fd; AS (str "FIONREAD")]));
                if negb (default 0 (head out) =? 0) then ret tt
                else
                  F (fde_put sp (λ f, set_events (Z.lor (events f) FDE_READ) f));;;
                  do sf <- F (fde_at sp);
                  if has (state sf) FDE_PENDING then ret tt
                  else
                    F (fde_put sp (λ f, set_state (Z.lor (state f) FDE_PENDING) f));;;
                    fdevent_call_fdfunc sp
      end.

(** while((fde = fdevent_plist_dequeue())) fdevent_call_fdfunc(fde); *)
Fixpoint drain (fuel : nat) : M W unit :=
  do p <- F fdevent_plist_dequeue;
  if p =? 0 then ret tt
  else match fuel with
       | O => fail OutOfFuel
       | S fuel' => fdevent_call_fdfunc p;;; drain fuel'
       end.

(** one round of fdevent_loop; callbacks do not queue objects, so the queue
    bounds the number of calls *)
Definition loop_round : M W unit :=
  F fdevent_process;;;
  do n <- F (gets (λ w, length (list_pending w)));
  drain n.

Fixpoint rounds (n : nat) : M W unit :=
  match n with O => ret tt | S n' => loop_round;;; rounds n' end.

Definition fdevent_loop (n : nat) : M W unit := F fdevent_subproc_setup;;; rounds n.
End loop.

(** ** Bits *)

Lemma has_bit x k : 0 ≤ k → has x (2 ^ k) = Z.testbit x k.
Proof.
  intros Hk. unfold has. destruct (Z.testbit x k) eqn:Hb.
  - apply negb_true_iff, Z.eqb_neq. intros H. apply (f_equal (λ y, Z.testbit y k)) in H.
    rewrite Z.land_spec, Z.pow2_bits_true, Hb, Z.bits_0 in H by done. done.
  - apply negb_false_iff, Z.eqb_eq. apply Z.bits_inj'. intros n Hn.
    rewrite Z.land_spec, Z.bits_0, Z.pow2_bits_eqb by done.
    destruct (Z.eqb_spec k n) as [->|]; [by rewrite Hb|apply andb_false_r].
Qed.

Lemma has_READ x : has x FDE_READ = Z.testbit x 0.
Proof. apply (has_bit x 0). lia. Qed.
Lemma has_WRITE x : has x FDE_WRITE = Z.testbit x 1.
Proof. apply (has_bit x 1). lia. Qed.
Lemma has_ERROR x : has x FDE_ERROR = Z.testbit x 2.
Proof. apply (has_bit x 2). lia. Qed.
Lemma has_DONT_CLOSE x : has x FDE_DONT_CLOSE = Z.testbit x 7.
Proof. apply (has_bit x 7). lia. Qed.
Lemma has_ACTIVE x : has x FDE_ACTIVE = Z.testbit x 8.
Proof. apply (has_bit x 8). lia. Qed.
Lemma has_PENDING x : has x FDE_PENDING = Z.testbit x 9.
Proof. apply (has_bit x 9). lia. Qed.
Lemma has_CREATED x : has x FDE_CREATED = Z.testbit x 10.
Proof. apply (has_bit x 10). lia. Qed.
Create Rewrite HintDb fdebits.
#[export] Hint Rewrite has_READ has_WRITE has_ERROR has_DONT_CLOSE has_ACTIVE has_PENDING
  has_CREATED Z.lor_spec Z.land_spec Z.bits_0 : fdebits.
#[export] Hint Rewrite Z.lnot_spec using lia : fdebits.

(** evaluate flag tests on combined masks *)
Ltac bits :=
  autorewrite with fdebits in *;
  repeat match goal with
  | |- context [Z.testbit ?c ?k] =>
      let c' := eval unfold FDE_READ, FDE_WRITE, FDE_ERROR, FDE_DONT_CLOSE, FDE_EVENTMASK,
        FDE_STATEMASK, FDE_ACTIVE, FDE_PENDING, FDE_CREATED in c in
      lazymatch c' with Zpos _ => idtac | Z0 => idtac end;
      let b := eval compute in (Z.testbit c k) in change (Z.testbit c k) with b
  | H : context [Z.testbit ?c ?k] |- _ =>
      let c' := eval unfold FDE_READ, FDE_WRITE, FDE_ERROR, FDE_DONT_CLOSE, FDE_EVENTMASK,
        FDE_STATEMASK, FDE_ACTIVE, FDE_PENDING, FDE_CREATED in c in
      lazymatch c' with Zpos _ => idtac | Z0 => idtac end;
      let b := eval compute in (Z.testbit c k) in change (Z.testbit c k) with b in H
  end;
  rewrite ?andb_true_r, ?andb_false_r, ?orb_false_r, ?orb_true_r in *; cbn [negb] in *.

(** ** The invariant *)

Definition active (f : fdevent) : bool := has (state f) FDE_ACTIVE.
Definition pending (f : fdevent) : bool := has (state f) FDE_PENDING.

(** an active object asks for [bit] on [d] *)
Definition watched (w : fdw) (d bit : Z) : Prop :=
  ∃ p f, fdes w !! p = Some f ∧ active f = true ∧ fd f = d ∧ has (state f) bit = true.

Record fd_inv (w : fdw) : Prop := {
  (* the table is unallocated or has at least 256 entries *)
  fi_len : fd_table w = [] ∨ 256 ≤ fd_table_max w;
  (* entries point to active objects of their descriptor *)
  fi_table i p : fd_table w !! i = Some p → p ≠ 0 →
    ∃ f, fdes w !! p = Some f ∧ fd f = Z.of_nat i ∧ active f = true;
  (* active objects are in the table and within the range of select *)
  fi_active p f : fdes w !! p = Some f → active f = true →
    p ≠ 0 ∧ 0 ≤ fd f < FD_SETSIZE ∧ fd f < select_n w ∧ fd_table w !! Z.to_nat (fd f) = Some p;
  fi_select : 0 ≤ select_n w ≤ fd_table_max w;
  (* the sets given to select *)
  fi_read d : d ∈ read_fds w ↔ watched w d FDE_READ;
  fi_write d : d ∈ write_fds w ↔ watched w d FDE_WRITE;
  fi_error d : d ∈ error_fds w ↔ watched w d FDE_ERROR;
  (* the queue holds each object with undelivered events once *)
  fi_nodup : NoDup (list_pending w);
  fi_queue p : p ∈ list_pending w ↔ ∃ f, fdes w !! p = Some f ∧ pending f = true;
  fi_pending p f : fdes w !! p = Some f → pending f = true → active f = true;
  fi_events p f : fdes w !! p = Some f → events f ≠ 0 ↔ pending f = true;
}.

Definition initial (k : kern) : fdw := mkFdw k ∅ [] ∅ ∅ ∅ 0 [] (-1) 1.

Lemma initial_inv k : fd_inv (initial k).
Proof.
  assert (∀ d bit, ¬ watched (initial k) d bit).
  { intros d bit (p & f & H & _). cbn in H. by rewrite lookup_empty in H. }
  split; cbn; intros *; rewrite ?lookup_empty; try done; try (by left); try apply NoDup_nil_2.
  all: rewrite ?elem_of_empty; split; try done; try (by intros ?%H).
  - intros Hp. by apply not_elem_of_nil in Hp.
  - intros (f & Hf & _). done.
Qed.

(** two active objects of one descriptor are the same *)
Lemma active_inj w p q f g : fd_inv w → fdes w !! p = Some f → fdes w !! q = Some g →
  active f = true → active g = true → fd f = fd g → p = q.
Proof.
  intros Hi Hp Hq Ha Hb Heq.
  destruct (fi_active w Hi p f Hp Ha) as (_ & _ & _ & H1).
  destruct (fi_active w Hi q g Hq Hb) as (_ & _ & _ & H2). congruence.
Qed.

(** Replace one object (same descriptor, same activity), the bits of its
    descriptor in the sets, and its place in the queue. *)
Definition change (p : Z) (f' : fdevent) (r wr e : gset Z) (l : list Z) (w : fdw) : fdw :=
  upd_pending l (upd_sets r wr e (upd_fdes <[p := f']> w)).

Definition set_agrees (w : fdw) (f' : fdevent) (bit : Z) (old new : gset Z) : Prop :=
  ∀ d, d ∈ new ↔ if decide (active f' = true ∧ d = fd f') then has (state f') bit = true else d ∈ old.

Lemma watched_change w p f f' r wr e l bit old new d :
  fd_inv w → fdes w !! p = Some f → fd f' = fd f → active f' = active f →
  (∀ d, d ∈ old ↔ watched w d bit) → set_agrees w f' bit old new →
  d ∈ new ↔ watched (change p f' r wr e l w) d bit.
Proof.
  intros Hi Hp Hfd Ha Hold Hnew. rewrite (Hnew d). unfold watched. cbn.
  case_decide as Hd.
  - destruct Hd as [Hact ->]. split.
    + intros Hb. exists p, f'. by rewrite lookup_insert_eq.
    + intros (q & g & Hq & Hg & Heq & Hb). destruct (decide (q = p)) as [->|Hne].
      { rewrite lookup_insert_eq in Hq. by injection Hq as <-. }
      rewrite lookup_insert_ne in Hq by done. destruct Hne.
      eapply (active_inj w q p); eauto; congruence.
  - rewrite Hold. unfold watched. split; intros (q & g & Hq & Hg & Heq & Hb).
    + destruct (decide (q = p)) as [->|Hne].
      { rewrite Hp in Hq. injection Hq as <-. destruct Hd. split; congruence. }
      exists q, g. by rewrite lookup_insert_ne.
    + destruct (decide (q = p)) as [->|Hne].
      { rewrite lookup_insert_eq in Hq. injection Hq as <-. destruct Hd. split; congruence. }
      rewrite lookup_insert_ne in Hq by done. eauto 10.
Qed.

(** what holds of every object holds after one is replaced *)
Lemma insert_objects (P : fdevent → Prop) (m : gmap Z fdevent) p f :
  P f → (∀ q g, m !! q = Some g → P g) → ∀ q g, <[p := f]> m !! q = Some g → P g.
Proof. intros Hf Hm q g [[<- <-]|[_ Hg]]%lookup_insert_Some; eauto. Qed.

Lemma change_inv w p f f' r wr e l :
  fd_inv w → fdes w !! p = Some f → fd f' = fd f → active f' = active f →
  set_agrees w f' FDE_READ (read_fds w) r → set_agrees w f' FDE_WRITE (write_fds w) wr →
  set_agrees w f' FDE_ERROR (error_fds w) e →
  NoDup l → (∀ q, q ≠ p → q ∈ l ↔ q ∈ list_pending w) → (p ∈ l ↔ pending f' = true) →
  (pending f' = true → active f' = true) → (events f' ≠ 0 ↔ pending f' = true) →
  fd_inv (change p f' r wr e l w).
Proof.
  intros Hi Hp Hfd Ha Hr Hw He Hnd Hq Hpq Hpa Hev.
  split; cbn.
  - apply Hi.
  - intros i q Hl Hq0. destruct (fi_table w Hi i q Hl Hq0) as (g & Hg & Hgi & Hga).
    destruct (decide (q = p)) as [->|Hne].
    + exists f'. rewrite lookup_insert_eq. simplify_eq. split_and!; congruence.
    + exists g. by rewrite lookup_insert_ne.
  - intros q g Hg Hga. destruct (decide (q = p)) as [->|Hne].
    + rewrite lookup_insert_eq in Hg. injection Hg as <-. rewrite Hfd.
      apply (fi_active w Hi p f Hp). congruence.
    + rewrite lookup_insert_ne in Hg by done. by apply Hi.
  - apply Hi.
  - intros d. by eapply watched_change; eauto; apply Hi.
  - intros d. by eapply watched_change; eauto; apply Hi.
  - intros d. by eapply watched_change; eauto; apply Hi.
  - done.
  - intros q. destruct (decide (q = p)) as [->|Hne].
    + rewrite Hpq, lookup_insert_eq. naive_solver.
    + rewrite Hq, lookup_insert_ne by done. apply Hi.
  - by apply (insert_objects (λ g, pending g = true → active g = true)); [|apply (fi_pending w Hi)].
  - by apply (insert_objects (λ g, events g ≠ 0 ↔ pending g = true)); [|apply (fi_events w Hi)].
Qed.

(** ** Evaluation of the primitives *)

Lemma fde_at_ok w p f : fdes w !! p = Some f → fde_at p w = Ok f w.
Proof. unfold fde_at, deref. by intros ->. Qed.
Lemma fde_put_ok w p f g : fdes w !! p = Some f →
  fde_put p g w = Ok tt (upd_fdes <[p := g f]> w).
Proof.
  intros Hf. unfold fde_put. rewrite (bind_ok _ _ _ _ _ (fde_at_ok w p f Hf)).
  unfold modify, upd_fdes. f_equal. f_equal.
  apply map_eq. intros q. destruct (decide (q = p)) as [->|].
  - by rewrite lookup_alter_eq, lookup_insert_eq, Hf.
  - by rewrite lookup_alter_ne, lookup_insert_ne.
Qed.
Lemma fde_lookup_put w p f : fdes (upd_fdes <[p := f]> w) !! p = Some f.
Proof. cbn. apply lookup_insert_eq. Qed.
Lemma fd_set_check_ok d w : 0 ≤ d < FD_SETSIZE → fd_set_check d w = Ok tt w.
Proof.
  intros [H1 H2]. unfold fd_set_check. apply Z.leb_le in H1. apply Z.ltb_lt in H2.
  by rewrite H1, H2.
Qed.

(** ** fdevent_set *)

(** the object and the queue after fdevent_set with masked events [ev] *)
Definition set_obj (f : fdevent) (ev : Z) : fdevent :=
  let s := Z.lor (Z.land (state f) FDE_STATEMASK) ev in
  if pending f then
    let e := Z.land (events f) (Z.lnot ev) in
    if e =? 0 then mkFde (fd f) (force_eof f) (Z.land s (Z.lnot FDE_PENDING)) 0 (func f) (arg f)
    else mkFde (fd f) (force_eof f) s e (func f) (arg f)
  else mkFde (fd f) (force_eof f) s (events f) (func f) (arg f).
Definition set_queue (f : fdevent) (ev : Z) (p : Z) (l : list Z) : list Z :=
  if pending f && (Z.land (events f) (Z.lnot ev) =? 0) then filter (λ q, q ≠ p) l else l.
Definition set_fds (f : fdevent) (ev bit : Z) (s : gset Z) : gset Z :=
  if active f then set_member (has ev bit) (fd f) s else s.

Definition set_result (p : Z) (f : fdevent) (ev : Z) (w : fdw) : fdw :=
  change p (set_obj f ev) (set_fds f ev FDE_READ (read_fds w))
    (set_fds f ev FDE_WRITE (write_fds w)) (set_fds f ev FDE_ERROR (error_fds w))
    (set_queue f ev p (list_pending w)) w.

Ltac fde_step :=
  erewrite bind_ok; [|first [apply fde_at_ok | apply fde_put_ok];
    first [eassumption | apply lookup_insert_eq | cbn; apply lookup_insert_eq]]; cbn beta.

Lemma restate s ev : Z.lor (Z.land (Z.lor (Z.land s FDE_STATEMASK) ev) FDE_STATEMASK) ev
  = Z.lor (Z.land s FDE_STATEMASK) ev.
Proof.
  apply Z.bits_inj'. intros n _. rewrite !Z.lor_spec, !Z.land_spec, !Z.lor_spec, !Z.land_spec.
  destruct (Z.testbit ev n), (Z.testbit s n), (Z.testbit FDE_STATEMASK n); done.
Qed.

(** the object may hold the new events already *)
Lemma set_events_asked_eq w p f s ev : fdes w !! p = Some (set_state s f) →
  Z.lor (Z.land s FDE_STATEMASK) ev = Z.lor (Z.land (state f) FDE_STATEMASK) ev →
  has ev FDE_PENDING = false → (pending f = true → p ∈ list_pending w) →
  set_events_asked p ev w =
    Ok tt (upd_pending (set_queue f ev p (list_pending w)) (upd_fdes <[p := set_obj f ev]> w)).
Proof.
  intros Hf Hs Hev Hq. unfold set_events_asked. fde_step. cbn [set_state state]. rewrite Hs.
  set (s' := Z.lor (Z.land (state f) FDE_STATEMASK) ev).
  assert (Hp1 : has s' FDE_PENDING = pending f).
  { unfold s', pending in *. bits. rewrite Hev. by rewrite orb_false_r. }
  fde_step. cbn [state set_state]. unfold when, set_obj, set_queue. fold s'. rewrite Hp1.
  destruct (pending f) eqn:Hp; [|done].
  fde_step. fde_step. cbn [events set_events set_state andb].
  destruct (Z.land (events f) (Z.lnot ev) =? 0) eqn:He.
  - unfold bind, fdevent_plist_remove. cbn [list_pending upd_fdes]. rewrite bool_decide_eq_true_2 by auto.
    erewrite fde_put_ok by (cbn; apply lookup_insert_eq).
    unfold upd_fdes, upd_pending; cbn. rewrite !insert_insert_eq.
    apply Z.eqb_eq in He. rewrite He. done.
  - unfold ret, upd_fdes, upd_pending; cbn. by rewrite !insert_insert_eq.
Qed.

Lemma fdevent_set_eq w p f ev0 :
  fd_inv w → fdes w !! p = Some f →
  let ev := Z.land ev0 FDE_EVENTMASK in
  fdevent_set p ev0 w =
    Ok tt (if Z.land (state f) FDE_EVENTMASK =? ev then w else set_result p f ev w).
Proof.
  intros Hi Hf ev. unfold fdevent_set. fold ev. cbv zeta. fde_step.
  destruct (Z.land (state f) FDE_EVENTMASK =? ev) eqn:Heq; [done|].
  assert (Hev : has ev FDE_PENDING = false) by (unfold ev; bits; done).
  assert (Hq : pending f = true → p ∈ list_pending w) by (intros; apply (fi_queue w Hi); eauto).
  unfold when, set_result, set_fds. fold (active f). destruct (active f) eqn:Ha.
  - destruct (fi_active w Hi p f Hf Ha) as (_ & Hr & _).
    unfold fdevent_update. rewrite !bind_assoc. fde_step.
    rewrite !bind_assoc. erewrite bind_ok by by apply fd_set_check_ok.
    rewrite !bind_assoc. erewrite bind_ok by done. cbn beta. fde_step.
    rewrite (set_events_asked_eq _ p f (Z.lor (Z.land (state f) FDE_STATEMASK) ev)); try done.
    2:{ cbn. apply lookup_insert_eq. }
    2:{ apply restate. }
    unfold change, upd_fdes, upd_sets, upd_pending; cbn. by rewrite insert_insert_eq.
  - erewrite bind_ok by done. rewrite (set_events_asked_eq _ p f (state f)); try done; by destruct f.
Qed.

Lemma set_fds_agrees w f f' ev bit s :
  fd f' = fd f → active f' = active f → has (state f') bit = has ev bit →
  set_agrees w f' bit s (set_fds f ev bit s).
Proof.
  intros Hfd Ha Hb d. unfold set_fds, set_member. rewrite Ha, Hb, Hfd.
  destruct (active f) eqn:Hf; [|by rewrite decide_False by naive_solver].
  case_decide as Hd.
  - destruct Hd as [_ ->]. destruct (has ev bit); set_solver.
  - destruct (has ev bit); set_solver.
Qed.

Lemma set_result_inv w p f ev0 : fd_inv w → fdes w !! p = Some f →
  fd_inv (set_result p f (Z.land ev0 FDE_EVENTMASK) w).
Proof.
  intros Hi Hf. set (ev := Z.land ev0 FDE_EVENTMASK).
  assert (Hfd : fd (set_obj f ev) = fd f).
  { unfold set_obj. repeat case_match; done. }
  assert (Hact : active (set_obj f ev) = active f).
  { unfold set_obj, active, ev. repeat case_match; cbn; bits; done. }
  assert (Hbit : ∀ k, 0 ≤ k < 8 → Z.testbit (state (set_obj f ev)) k = Z.testbit ev k).
  { intros k Hk. assert (HS : Z.testbit FDE_STATEMASK k = false ∧ Z.testbit FDE_PENDING k = false).
    { assert (k = 0 ∨ k = 1 ∨ k = 2 ∨ k = 3 ∨ k = 4 ∨ k = 5 ∨ k = 6 ∨ k = 7) as Hc by lia.
      by destruct_or! Hc; subst k. }
    destruct HS as [HS HP]. unfold set_obj. repeat case_match; cbn;
      rewrite ?Z.land_spec, ?Z.lor_spec, ?Z.land_spec, ?Z.lnot_spec, ?HS, ?HP by lia; 
      rewrite ?andb_false_r, ?andb_true_r; done. }
  assert (Hpend : pending (set_obj f ev) = pending f && negb (Z.land (events f) (Z.lnot ev) =? 0)).
  { unfold set_obj. destruct (pending f) eqn:Hp; unfold pending in Hp |- *.
    - destruct (Z.land (events f) (Z.lnot ev) =? 0); unfold ev; cbn [state andb negb]; bits; done.
    - unfold ev. cbn [state andb]. bits. done. }
  apply (change_inv w p f); try done.
  - apply set_fds_agrees; [done..|]. rewrite !has_READ. apply Hbit. lia.
  - apply set_fds_agrees; [done..|]. rewrite !has_WRITE. apply Hbit. lia.
  - apply set_fds_agrees; [done..|]. rewrite !has_ERROR. apply Hbit. lia.
  - unfold set_queue. case_match; [apply list.NoDup_filter|]; apply Hi.
  - intros q Hq. unfold set_queue. case_match; [|done]. rewrite list_elem_of_filter. naive_solver.
  - rewrite Hpend. unfold set_queue. destruct (pending f) eqn:Hp; cbn.
    + assert (p ∈ list_pending w) by (apply (fi_queue w Hi); eauto).
      destruct (_ =? 0); [rewrite list_elem_of_filter; naive_solver|naive_solver].
    + rewrite (fi_queue w Hi). split; [|done]. intros (g & Hg & ?). congruence.
  - rewrite Hpend, Hact. intros [Hp _]%andb_true_iff. by eapply (fi_pending w Hi).
  - rewrite Hpend. pose proof (fi_events w Hi p f Hf) as He. unfold set_obj.
    destruct (pending f); cbn; [|done].
    destruct (Z.eqb_spec (Z.land (events f) (Z.lnot ev)) 0); cbn; naive_solver.
Qed.

(** ** fdevent_process *)

(** the object after events [ev] were reported for it *)
Definition deliver (f : fdevent) (ev : Z) : fdevent :=
  if ev =? 0 then f
  else mkFde (fd f) (force_eof f) (Z.lor (state f) FDE_PENDING) (Z.lor (events f) ev) (func f) (arg f).

Lemma set_agrees_same w p f f' bit s :
  fd_inv w → fdes w !! p = Some f → fd f' = fd f → active f' = active f →
  has (state f') bit = has (state f) bit → (∀ d, d ∈ s ↔ watched w d bit) → set_agrees w f' bit s s.
Proof.
  intros Hi Hf Hfd Ha Hb Hs d. case_decide as Hd; [|done]. destruct Hd as [Hact ->].
  rewrite Hs, Hb, Hfd. unfold watched. split.
  - intros (q & g & Hg & Hga & Hgd & Hgb).
    assert (q = p) as -> by (eapply (active_inj w q p); eauto; congruence). congruence.
  - intros H. exists p, f. split_and!; congruence.
Qed.

Definition report_result (p : Z) (f : fdevent) (ev : Z) (w : fdw) : fdw :=
  change p (deliver f ev) (read_fds w) (write_fds w) (error_fds w)
    (if pending f then list_pending w else list_pending w ++ [p]) w.

Lemma lor_pending s : has s FDE_PENDING = true → Z.lor s FDE_PENDING = s.
Proof.
  rewrite has_PENDING. intros H. apply Z.bits_inj'. intros n Hn. rewrite Z.lor_spec.
  change FDE_PENDING with (2 ^ 9). rewrite Z.pow2_bits_eqb by lia.
  destruct (Z.eqb_spec 9 n) as [<-|]; [by rewrite H|by rewrite orb_false_r].
Qed.

Lemma report_eq w p f ev : fdes w !! p = Some f → ev ≠ 0 →
  report p ev w = Ok tt (report_result p f ev w).
Proof.
  intros Hf Hev. unfold report, report_result, deliver. rewrite (proj2 (Z.eqb_neq ev 0)) by done.
  fde_step. fde_step. cbn [state set_events]. fold (pending f).
  destruct (pending f) eqn:Hp.
  - rewrite lor_pending by done. unfold ret, change, upd_fdes, upd_sets, upd_pending; cbn. done.
  - fde_step. unfold fdevent_plist_enqueue, modify, change, upd_fdes, upd_sets, upd_pending; cbn.
    by rewrite !insert_insert_eq.
Qed.

Lemma lor_nonzero a b : b ≠ 0 → Z.lor a b ≠ 0.
Proof. intros Hb H. apply Z.lor_eq_0_iff in H. tauto. Qed.

Lemma report_inv w p f ev : fd_inv w → fdes w !! p = Some f → active f = true → ev ≠ 0 →
  fd_inv (report_result p f ev w).
Proof.
  intros Hi Hf Ha Hev.
  assert (Hd : deliver f ev = mkFde (fd f) (force_eof f) (Z.lor (state f) FDE_PENDING)
    (Z.lor (events f) ev) (func f) (arg f)).
  { unfold deliver. by rewrite (proj2 (Z.eqb_neq ev 0)). }
  assert (Hact : active (deliver f ev) = active f) by (rewrite Hd; unfold active; cbn; by bits).
  assert (Hpe : pending (deliver f ev) = true) by (rewrite Hd; unfold pending; cbn; by bits).
  assert (Hb : ∀ bit, bit = FDE_READ ∨ bit = FDE_WRITE ∨ bit = FDE_ERROR →
    has (state (deliver f ev)) bit = has (state f) bit).
  { intros bit [->|[->| ->]]; rewrite Hd; cbn; by bits. }
  assert (Hfd : fd (deliver f ev) = fd f) by by rewrite Hd.
  apply (change_inv w p f); try done.
  1-3: eapply set_agrees_same; eauto; apply Hi.
  - case_match eqn:Hp; [apply Hi|]. apply list.NoDup_app. split_and!; [apply Hi| |apply NoDup_singleton].
    intros q Hq. apply (fi_queue w Hi) in Hq as (g & Hg & Hgp).
    intros ->%list_elem_of_singleton. congruence.
  - intros q Hq. case_match; [done|]. set_solver.
  - rewrite Hpe. split; [done|]. intros _. case_match eqn:Hp; [apply (fi_queue w Hi); eauto|set_solver].
  - by rewrite Hact.
  - rewrite Hd. cbn. rewrite <- Hd, Hpe. split; [done|]. intros _. by apply lor_nonzero.
Qed.

(** events of [lo, hi) delivered to the objects of [w], those newly pending
    queued in the order of their descriptors *)
Fixpoint newly (w : fdw) (r wr e : gset Z) (fuel : nat) (i : Z) : list Z :=
  match fuel with
  | O => []
  | S fuel' =>
      (match fd_table w !! Z.to_nat i with
       | Some p =>
           match fdes w !! p with
           | Some f => if (mask_of i r wr e =? 0) || pending f then [] else [p]
           | None => []
           end
       | None => []
       end) ++ newly w r wr e fuel' (i + 1)
  end.

Record delivered (r wr e : gset Z) (lo : Z) (fuel : nat) (w w' : fdw) : Prop := {
  dl_fdes p f : fdes w !! p = Some f →
    fdes w' !! p = Some (if active f && (lo <=? fd f) && (fd f <? lo + Z.of_nat fuel)
                         then deliver f (mask_of (fd f) r wr e) else f);
  dl_none p : fdes w !! p = None → fdes w' !! p = None;
  dl_queue : list_pending w' = list_pending w ++ newly w r wr e fuel lo;
  dl_frame : w' = mkFdw (w_kern w) (fdes w') (fd_table w) (read_fds w) (write_fds w) (error_fds w)
    (select_n w) (list_pending w') (SHELL_EXIT_NOTIFY_FD w) (next_loc w) }.

Lemma mask_zero i r wr e : mask_of i r wr e = 0 ↔ count_of i r wr e = 0.
Proof. unfold mask_of, count_of. repeat case_match; cbn; split; lia || done. Qed.
Lemma count_nonneg i r wr e : 0 ≤ count_of i r wr e.
Proof. unfold count_of. repeat case_match; lia. Qed.
Lemma fd_deliver f ev : fd (deliver f ev) = fd f.
Proof. unfold deliver. by destruct (ev =? 0). Qed.
Lemma deliver_0 f : deliver f 0 = f.
Proof. done. Qed.

Fixpoint total (fuel : nat) (i : Z) (r wr e : gset Z) : Z :=
  match fuel with O => 0 | S fuel' => count_of i r wr e + total fuel' (i + 1) r wr e end.
Lemma total_nonneg fuel i r wr e : 0 ≤ total fuel i r wr e.
Proof.
  revert i. induction fuel as [|fuel IH]; intros i; cbn; [lia|].
  pose proof (count_nonneg i r wr e). specialize (IH (i + 1)). lia.
Qed.

(** nothing left to report *)
Lemma delivered_none fuel i r wr e w : total fuel i r wr e = 0 → delivered r wr e i fuel w w.
Proof.
  intros H. assert (Hz : ∀ j, i ≤ j < i + Z.of_nat fuel → mask_of j r wr e = 0).
  { revert i H. induction fuel as [|fuel IH]; intros i H j Hj; [lia|]. cbn in H.
    pose proof (count_nonneg i r wr e). pose proof (total_nonneg fuel (i + 1) r wr e).
    destruct (decide (j = i)) as [->|]; [apply mask_zero; lia|]. apply (IH (i + 1)); lia. }
  split; try done; [| |by destruct w].
  - intros p f Hf. case_match eqn:Hc; [|done]. rewrite Hz; [done|]. lia.
  - enough (newly w r wr e fuel i = []) as -> by by rewrite app_nil_r.
    clear H. revert i Hz. induction fuel as [|fuel IH]; intros i Hz; cbn; [done|].
    rewrite Hz by lia. rewrite (IH (i + 1)) by (intros; apply Hz; lia).
    cbn. repeat case_match; done.
Qed.

Lemma fd_table_at_ok w i p : 0 ≤ i → fd_table w !! Z.to_nat i = Some p → fd_table_at i w = Ok p w.
Proof.
  intros Hi Hp. unfold fd_table_at, deref. by rewrite (proj2 (Z.ltb_ge i 0)), Hp by lia.
Qed.

(** one descriptor, then the following ones *)
Lemma delivered_cons r wr e i fuel w w1 w' : fd_inv w → 0 ≤ i →
  delivered r wr e i 1 w w1 → delivered r wr e (i + 1) fuel w1 w' → delivered r wr e i (S fuel) w w'.
Proof.
  intros Hi Hi0 [A1 A2 A3 A4] [B1 B2 B3 B4]. split.
  - intros p f Hf. pose proof (A1 p f Hf) as H1. apply B1 in H1. rewrite H1. f_equal.
    destruct (active f) eqn:Ha; cbn [andb].
    2:{ cbn. by rewrite Ha. }
    destruct (decide (fd f = i)) as [Heq|Hne].
    + rewrite (proj2 (Z.leb_le i (fd f))), (proj2 (Z.ltb_lt (fd f) (i + Z.of_nat 1))) by lia. cbn [andb].
      rewrite fd_deliver, Heq.
      rewrite (proj2 (Z.leb_gt (i + 1) i)) by lia. rewrite andb_false_r. cbn [andb].
      by rewrite (proj2 (Z.ltb_lt i (i + Z.of_nat (S fuel)))) by lia.
    + assert (Hc : (i <=? fd f) && (fd f <? i + Z.of_nat 1) = false).
      { destruct (Z.leb_spec i (fd f)), (Z.ltb_spec (fd f) (i + Z.of_nat 1)); cbn; lia. }
      rewrite Hc, Ha. cbn [andb].
      replace (i + 1 <=? fd f) with (i <=? fd f).
      2:{ destruct (Z.leb_spec i (fd f)), (Z.leb_spec (i + 1) (fd f)); lia. }
      by replace (i + 1 + Z.of_nat fuel) with (i + Z.of_nat (S fuel)) by lia.
  - auto.
  - rewrite B3, A3, <- app_assoc. f_equal. cbn [newly]. rewrite app_nil_r. f_equal.
    rewrite A4. clear -A1 A2 Hi Hi0.
    assert (Hlt : i < i + 1) by lia. revert Hlt. generalize (i + 1). 
    induction fuel as [|fuel IH]; intros j Hj; cbn; [done|].
    rewrite IH by lia. f_equal. destruct (fd_table w !! Z.to_nat j) as [p|] eqn:Hp; [|done].
    destruct (fdes w !! p) as [f|] eqn:Hf; [|by rewrite (A2 p Hf)].
    rewrite (A1 p f Hf).
    destruct (active f && (i <=? fd f) && (fd f <? i + Z.of_nat 1)) eqn:Hc; [|done].
    destruct (decide (p = 0)) as [->|Hp0].
    { apply andb_true_iff in Hc as [[Ha _]%andb_true_iff _].
      by destruct (fi_active w Hi 0 f Hf Ha) as (? & _). }
    destruct (fi_table w Hi _ p Hp Hp0) as (g & Hg & Hfd & _). rewrite Hf in Hg. injection Hg as <-.
    apply andb_true_iff in Hc as [_ Hc%Z.ltb_lt]. lia.
  - rewrite B4, A4. done.
Qed.

Lemma report_delivered r wr e i p f w : fd_inv w → 0 ≤ i →
  fd_table w !! Z.to_nat i = Some p → fdes w !! p = Some f → active f = true → fd f = i →
  mask_of i r wr e ≠ 0 → delivered r wr e i 1 w (report_result p f (mask_of i r wr e) w).
Proof.
  intros Hi Hi0 Hp Hf Ha Hfd Hm. split; try done.
  - intros q g Hg. cbn. destruct (decide (q = p)) as [->|Hne].
    + rewrite lookup_insert_eq. rewrite Hf in Hg. injection Hg as <-. rewrite Ha, Hfd, Z.leb_refl.
      by rewrite (proj2 (Z.ltb_lt i (i + Z.of_nat 1))) by lia.
    + rewrite lookup_insert_ne by done. rewrite Hg. f_equal.
      case_match eqn:Hc; [|done]. destruct Hne.
      apply andb_true_iff in Hc as [[Hga Hlo%Z.leb_le]%andb_true_iff Hhi%Z.ltb_lt].
      eapply (active_inj w q p); eauto. lia.
  - intros q Hq. cbn. destruct (decide (q = p)) as [->|Hne]; [congruence|].
    by rewrite lookup_insert_ne.
  - cbn. rewrite Hp, Hf, (proj2 (Z.eqb_neq _ 0)) by done. rewrite app_nil_r.
    destruct (pending f); cbn; [by rewrite app_nil_r|done].
Qed.

Lemma process_loop_spec fuel i n r wr e w :
  fd_inv w → 0 ≤ i →
  (∀ j, i ≤ j < i + Z.of_nat fuel → mask_of j r wr e ≠ 0 →
     ∃ p, fd_table w !! Z.to_nat j = Some p ∧ p ≠ 0) →
  n = total fuel i r wr e →
  ∃ w', process_loop fuel i n r wr e w = Ok tt w' ∧ fd_inv w' ∧ delivered r wr e i fuel w w'.
Proof.
  revert i n w. induction fuel as [|fuel IH]; intros i n w Hi Hi0 Hreg ->.
  { exists w. split_and!; [done..|]. by apply delivered_none. }
  cbn [process_loop]. destruct (Z.leb_spec (total (S fuel) i r wr e) 0) as [Hle|Hgt].
  { exists w. split_and!; [done..|]. apply delivered_none.
    pose proof (total_nonneg (S fuel) i r wr e). lia. }
  cbv zeta. replace (total (S fuel) i r wr e - count_of i r wr e) with (total fuel (i + 1) r wr e)
    by (cbn; lia).
  destruct (Z.eqb_spec (mask_of i r wr e) 0) as [Hm|Hm].
  - erewrite bind_ok by done.
    destruct (IH (i + 1) _ w Hi ltac:(lia) ltac:(intros; apply Hreg; lia || done) eq_refl)
      as (w' & Heq & Hi' & Hd).
    exists w'. split_and!; [done..|]. eapply delivered_cons; eauto.
    apply delivered_none. cbn. apply mask_zero in Hm. lia.
  - destruct (Hreg i ltac:(lia) Hm) as (p & Hp & Hp0).
    destruct (fi_table w Hi _ p Hp Hp0) as (f & Hf & Hfd & Ha).
    rewrite !bind_assoc. erewrite bind_ok by by apply fd_table_at_ok. cbn beta.
    rewrite (proj2 (Z.eqb_neq p 0)) by done.
    erewrite bind_ok by by apply report_eq. cbn beta.
    destruct (IH (i + 1) _ (report_result p f (mask_of i r wr e) w)
      ltac:(by apply report_inv) ltac:(lia) ltac:(intros; apply Hreg; lia || done) eq_refl)
      as (w' & Heq & Hi' & Hd).
    exists w'. split_and!; [done..|]. eapply delivered_cons; eauto.
    apply report_delivered; auto. lia.
Qed.

Lemma inv_upd_kern w k : fd_inv w → fd_inv (upd_kern k w).
Proof. intros [? ? ? ? ? ? ? ? ? ? ?]. by split. Qed.
#[export] Hint Resolve inv_upd_kern : adb.

(** counting the members of the sets *)
Definition cnt1 (i : Z) (s : gset Z) : Z := if bool_decide (i ∈ s) then 1 else 0.
Fixpoint cnt (fuel : nat) (i : Z) (s : gset Z) : Z :=
  match fuel with O => 0 | S fuel' => cnt1 i s + cnt fuel' (i + 1) s end.

Lemma total_cnt fuel i r wr e : total fuel i r wr e = cnt fuel i r + cnt fuel i wr + cnt fuel i e.
Proof.
  revert i. induction fuel as [|fuel IH]; intros i; cbn; [done|].
  rewrite IH. unfold count_of, cnt1. lia.
Qed.

Lemma cnt_ext fuel i s s' : (∀ d, i ≤ d → d ∈ s ↔ d ∈ s') → cnt fuel i s = cnt fuel i s'.
Proof.
  revert i. induction fuel as [|fuel IH]; intros i H; cbn; [done|].
  rewrite (IH (i + 1)) by (intros; apply H; lia). f_equal. unfold cnt1.
  by rewrite (bool_decide_ext (i ∈ s) (i ∈ s')) by (apply H; lia).
Qed.

Lemma cnt_size fuel i (s : gset Z) : (∀ d, d ∈ s → i ≤ d < i + Z.of_nat fuel) →
  cnt fuel i s = Z.of_nat (size s).
Proof.
  revert i s. induction fuel as [|fuel IH]; intros i s H; cbn.
  - assert (s = ∅) as -> by (apply set_eq; intros d; split; [intros ?%H; lia|set_solver]).
    by rewrite size_empty.
  - rewrite (cnt_ext fuel (i + 1) s (s ∖ {[i]})).
    2:{ intros d Hd. rewrite elem_of_difference, elem_of_singleton. split; [|naive_solver].
        intros; split; [done|lia]. }
    rewrite IH.
    2:{ intros d [Hd Hne]%elem_of_difference. rewrite elem_of_singleton in Hne.
        apply H in Hd. lia. }
    unfold cnt1. case_bool_decide as Hi.
    + rewrite (size_remove s i) by done. lia.
    + replace (s ∖ {[i]}) with s; [lia|]. apply set_eq. set_solver.
Qed.

(** registered descriptors *)
Definition registered (w : fdw) (d : Z) : Prop :=
  0 ≤ d ∧ ∃ p, fd_table w !! Z.to_nat d = Some p ∧ p ≠ 0.

Lemma watched_registered w d bit : fd_inv w → watched w d bit → registered w d.
Proof.
  intros Hi (p & f & Hp & Ha & <- & _).
  destruct (fi_active w Hi p f Hp Ha) as (? & ? & _ & ?). split; [lia|eauto].
Qed.

Lemma table_lookup w i : fd_inv w → 0 ≤ i < select_n w → ∃ p, fd_table w !! Z.to_nat i = Some p.
Proof.
  intros Hi Hr. apply lookup_lt_is_Some. pose proof (fi_select w Hi). unfold fd_table_max in *. lia.
Qed.

Lemma fdevent_fd_check_spec fuel i s n w :
  fd_inv w → 0 ≤ i → i + Z.of_nat fuel ≤ select_n w → (∀ d, d ∈ s → 0 ≤ d < i) →
  n = Z.of_nat (size s) → (∀ d, d ∈ s → registered w d) →
  ∃ s' k', fdevent_fd_check fuel i s n w = Ok (s', Z.of_nat (size s')) (upd_kern k' w) ∧
    (∀ d, d ∈ s' → 0 ≤ d < i + Z.of_nat fuel) ∧ (∀ d, d ∈ s' → registered w d).
Proof.
  revert i s n w. induction fuel as [|fuel IH]; intros i s n w Hi Hi0 Hsn Hs -> Hreg.
  { exists s, (w_kern w). split_and!; [by destruct w| |done]. intros d Hd. apply Hs in Hd. lia. }
  cbn [fdevent_fd_check]. destruct (table_lookup w i Hi ltac:(lia)) as [p Hp].
  erewrite bind_ok by by apply fd_table_at_ok. cbn beta.
  destruct (Z.eqb_spec p 0) as [->|Hp0].
  { destruct (IH (i + 1) s (Z.of_nat (size s)) w) as (s' & k' & H1 & H2 & H3); auto; try lia.
    - intros d Hd. apply Hs in Hd. lia.
    - exists s', k'. split_and!; auto. intros d Hd. apply H2 in Hd. lia. }
  unfold K, zoom at 1, bind at 1, sys_, bind at 1, sys.
  set (k1 := add_trace _ _).
  assert (∀ (b : bool) (k : kern), ∃ s' k', fdevent_fd_check fuel (i + 1) (if b then {[i]} ∪ s else s)
      (if b then Z.of_nat (size s) + 1 else Z.of_nat (size s)) (upd_kern k w)
      = Ok (s', Z.of_nat (size s')) (upd_kern k' w) ∧
    (∀ d, d ∈ s' → 0 ≤ d < i + Z.of_nat (S fuel)) ∧ (∀ d, d ∈ s' → registered w d)) as Hb.
  { intros b k.
    assert (Hni : i ∉ s) by (intros Hd; apply Hs in Hd; lia).
    destruct (IH (i + 1) (if b then {[i]} ∪ s else s)
      (if b then Z.of_nat (size s) + 1 else Z.of_nat (size s)) (upd_kern k w))
      as (s' & k' & H1 & H2 & H3); auto with adb; cbn; try lia.
    - intros d Hd. destruct b; [apply elem_of_union in Hd as [->%elem_of_singleton|Hd]|];
        try apply Hs in Hd; lia.
    - destruct b; [|done]. rewrite size_add by done. lia.
    - intros d Hd. destruct b; [apply elem_of_union in Hd as [->%elem_of_singleton|Hd]|];
        try (by apply Hreg). split; eauto.
    - exists s', k'. split_and!; [done| |done]. intros d Hd. apply H2 in Hd. lia. }
  destruct (k_sys (w_kern w)) as [|res rest]; cbn [sr_ret].
  - apply (Hb true).
  - destruct (sr_ret res <? 0) eqn:Hneg; unfold ret; rewrite Hneg; [apply (Hb true)|apply (Hb false)].
Qed.

(** what a call of select reports: the sets of ready descriptors; when none is
    ready or a descriptor is bad, descriptors the kernel does not know are
    taken for readable; any other failure reports nothing *)
Inductive selected (w : fdw) : gset Z → gset Z → gset Z → Prop :=
| sel_ready res rest :
    k_sys (w_kern w) = res :: rest → 0 ≤ sr_ret res →
    (let r := ready (sr_out res) FDE_READ (select_n w) (read_fds w) in
     let wr := ready (sr_out res) FDE_WRITE (select_n w) (write_fds w) in
     let e := ready (sr_out res) FDE_ERROR (select_n w) (error_fds w) in
     (0 < size r + size wr + size e)%nat → selected w r wr e)
| sel_bad r : (∀ d, d ∈ r → registered w d) →
    (∀ res rest, k_sys (w_kern w) = res :: rest → 0 ≤ sr_ret res →
      ready (sr_out res) FDE_READ (select_n w) (read_fds w) = ∅ ∧
      ready (sr_out res) FDE_WRITE (select_n w) (write_fds w) = ∅ ∧
      ready (sr_out res) FDE_ERROR (select_n w) (error_fds w) = ∅) →
    selected w r ∅ ∅
| sel_error : (∀ res rest, k_sys (w_kern w) = res :: rest → sr_ret res < 0) → selected w ∅ ∅ ∅.

Lemma elem_of_ready ans bit n s d :
  d ∈ ready ans bit n s → d ∈ s ∧ d < n.
Proof. unfold ready. rewrite elem_of_filter. tauto. Qed.

Lemma mask_registered w r wr e j :
  (∀ d, d ∈ r → registered w d) → (∀ d, d ∈ wr → registered w d) → (∀ d, d ∈ e → registered w d) →
  mask_of j r wr e ≠ 0 → ∃ p, fd_table w !! Z.to_nat j = Some p ∧ p ≠ 0.
Proof.
  intros Hr Hw He Hm. enough (registered w j) as [_ H] by exact H.
  unfold mask_of in Hm. repeat case_bool_decide; auto. by destruct Hm.
Qed.

(** the loop on sets within the range of select *)
Lemma process_sets w r wr e n :
  fd_inv w → (∀ d, d ∈ r → registered w d ∧ d < select_n w) →
  (∀ d, d ∈ wr → registered w d ∧ d < select_n w) →
  (∀ d, d ∈ e → registered w d ∧ d < select_n w) →
  n = Z.of_nat (size r + size wr + size e) →
  ∃ w', process_loop (Z.to_nat (select_n w)) 0 n r wr e w = Ok tt w' ∧ fd_inv w' ∧
    delivered r wr e 0 (Z.to_nat (select_n w)) w w'.
Proof.
  intros Hi Hr Hw He ->. pose proof (fi_select w Hi) as Hsn. apply process_loop_spec; [done|lia|..].
  - intros j _ Hm. apply (mask_registered w r wr e); [..|done]; intros d Hd;
    [exact (proj1 (Hr d Hd))|exact (proj1 (Hw d Hd))|exact (proj1 (He d Hd))].
  - rewrite total_cnt, !cnt_size; [lia|..]; intros d Hd;
      first [apply Hr in Hd as [[? _] ?]|apply Hw in Hd as [[? _] ?]|apply He in Hd as [[? _] ?]]; lia.
Qed.

Lemma delivered_upd_kern r wr e lo fuel k w w' :
  delivered r wr e lo fuel (upd_kern k w) w' →
  (∀ p f, fdes w !! p = Some f →
     fdes w' !! p = Some (if active f && (lo <=? fd f) && (fd f <? lo + Z.of_nat fuel)
                          then deliver f (mask_of (fd f) r wr e) else f)) ∧
  list_pending w' = list_pending w ++ newly w r wr e fuel lo.
Proof.
  intros [H1 _ H3 _]. split; [exact H1|]. rewrite H3. cbn. f_equal. clear.
  revert lo. induction fuel as [|fuel IH]; intros lo; cbn; [done|]. by rewrite IH.
Qed.

Lemma fi_sets_registered w : fd_inv w → ∀ bit s ans, (∀ d, d ∈ s ↔ watched w d bit) →
  ∀ d, d ∈ ready ans bit (select_n w) s → registered w d ∧ d < select_n w.
Proof.
  intros Hi bit s ans Hs d Hd. apply elem_of_ready in Hd as [Hd ?].
  apply Hs in Hd. eauto using watched_registered.
Qed.

Lemma process_bad w k : fd_inv w →
  ∃ r w' k', (bind (fdevent_fd_check (Z.to_nat (select_n w)) 0 ∅ 0)
      (λ x, match x with (rfd, n) => process_loop (Z.to_nat (select_n w)) 0 n rfd ∅ ∅ end))
      (upd_kern k w) = Ok tt w' ∧ fd_inv w' ∧ (∀ d, d ∈ r → registered w d) ∧
    delivered r ∅ ∅ 0 (Z.to_nat (select_n w)) (upd_kern k' w) w'.
Proof.
  intros Hi. pose proof (fi_select w Hi) as Hsn.
  destruct (fdevent_fd_check_spec (Z.to_nat (select_n w)) 0 ∅ 0 (upd_kern k w))
    as (s' & k' & H1 & H2 & H3); auto with adb; cbn; try set_solver; try lia.
  rewrite (bind_ok _ _ _ _ _ H1). cbn beta iota.
  destruct (process_sets (upd_kern k' w) s' ∅ ∅ (Z.of_nat (size s'))) as (w' & Heq & Hi' & Hd);
    [by apply inv_upd_kern|..|exists s', w', k'; by split_and!].
  - intros d Hd. split; [by apply H3|]. apply H2 in Hd. cbn. lia.
  - set_solver.
  - set_solver.
  - rewrite !size_empty. lia.
Qed.

Lemma process_cases w : fd_inv w →
  ∃ r wr e k' w', fdevent_process w = Ok tt w' ∧ fd_inv w' ∧ selected w r wr e ∧
    delivered r wr e 0 (Z.to_nat (select_n w)) (upd_kern k' w) w'.
Proof.
  intros Hi. unfold fdevent_process. erewrite bind_ok by done. cbn beta.
  unfold select at 1, K at 1, zoom at 1, sys, bind at 1 2.
  destruct (k_sys (w_kern w)) as [|res rest] eqn:Hsys; cbn beta iota.
  - change (-1 <? 0) with true. cbn [ret andb]. erewrite bind_ok by done. cbn.
    exists ∅, ∅, ∅, (w_kern (upd_kern (set_errno ENOSYS (add_trace (Sys "select" [AZ (select_n w)]) (w_kern w))) w)).
    eexists. split; [reflexivity|]. split; [by apply inv_upd_kern|].
    split; [apply sel_error; congruence|]. apply delivered_none. by rewrite total_cnt, !cnt_size.
  - destruct (Z.ltb_spec (sr_ret res) 0) as [Hneg|Hpos]; unfold ret at 1; cbn beta iota;
      set (k1 := set_sys rest _); erewrite bind_ok by done; cbn beta.
    + rewrite (proj2 (Z.ltb_lt (sr_ret res) 0)), (proj2 (Z.leb_le (sr_ret res) 0)) by lia.
      cbn [andb w_kern upd_kern k_errno set_errno].
      destruct (Z.eqb_spec (sr_errno res) EBADF) as [Heb|Heb]; cbn [negb].
      * destruct (process_bad w (set_errno (sr_errno res) k1) Hi) as (r & w' & k' & Heq & Hi' & Hr & Hd).
        exists r, ∅, ∅, k', w'. split_and!; try done. apply sel_bad; [done|].
        intros res' rest' Hs Hp. rewrite Hs in Hsys. injection Hsys as -> ->. lia.
      * exists ∅, ∅, ∅, (set_errno (sr_errno res) k1). eexists. split; [reflexivity|].
        split; [by apply inv_upd_kern|]. split.
        { apply sel_error. intros res' rest' Hs. rewrite Hs in Hsys. by injection Hsys as -> ->. }
        apply delivered_none. by rewrite total_cnt, !cnt_size.
    + set (r := ready _ FDE_READ _ _). set (wr := ready _ FDE_WRITE _ _).
      set (e := ready _ FDE_ERROR _ _). set (n := (size r + size wr + size e)%nat).
      rewrite (proj2 (Z.ltb_ge (Z.of_nat n) 0)) by lia. cbn [andb].
      destruct (Z.leb_spec (Z.of_nat n) 0) as [H0|H0].
      * assert (r = ∅ ∧ wr = ∅ ∧ e = ∅) as (Hr0 & Hw0 & He0).
        { split_and!; apply leibniz_equiv, size_empty_inv; unfold n in H0; lia. }
        rewrite Hr0, Hw0, He0.
        destruct (process_bad w k1 Hi) as (s' & w' & k' & Heq & Hi' & Hr & Hd).
        exists s', ∅, ∅, k', w'. split_and!; try done. apply sel_bad; [done|].
        intros res' rest' Hs Hp. rewrite Hs in Hsys. by injection Hsys as -> ->.
      * erewrite bind_ok by done. cbn beta iota.
        destruct (process_sets (upd_kern k1 w) r wr e (Z.of_nat n)) as (w' & Heq & Hi' & Hd);
          [by apply inv_upd_kern|..|].
        1-3: intros d Hd; eapply (fi_sets_registered w Hi); [|exact Hd]; apply Hi.
        { unfold n. lia. }
        exists r, wr, e, k1, w'. split_and!; try done.
        apply (sel_ready w res rest Hsys Hpos). fold r wr e n. lia.
Qed.

(** C21 fdevent_process, whatever select and fcntl answer: no fault and no exit;
    the invariant holds again; every active object gets exactly the events
    reported for its descriptor added to its pending events (and becomes
    pending when there are any), the other objects are unchanged, and the
    objects that became pending are queued behind the others in the order of
    their descriptors.  The early stop of the loop on the count returned by
    select loses nothing. *)
Theorem fdevent_process_spec w :
  fd_inv w →
  ∃ r wr e w', fdevent_process w = Ok tt w' ∧ fd_inv w' ∧ selected w r wr e ∧
    (∀ p f, fdes w !! p = Some f →
       fdes w' !! p = Some (if active f then deliver f (mask_of (fd f) r wr e) else f)) ∧
    list_pending w' = list_pending w ++ newly w r wr e (Z.to_nat (select_n w)) 0.
Proof.
  intros Hi.
  destruct (process_cases w Hi) as (r & wr & e & k' & w' & Heq & Hi' & Hsel & Hd).
  exists r, wr, e, w'. apply delivered_upd_kern in Hd as [H1 H2]. split_and!; try done.
  intros p f Hf. rewrite (H1 p f Hf). f_equal. destruct (active f) eqn:Ha; [|done].
  destruct (fi_active w Hi p f Hf Ha) as (_ & Hr & Hlt & _).
  rewrite (proj2 (Z.leb_le 0 (fd f))) by lia. cbn [andb].
  by rewrite (proj2 (Z.ltb_lt (fd f) _)) by lia.
Qed.

(** ** fdevent_install *)

Lemma grow_spec fuel max d : 0 < max → d < max * 2 ^ Z.of_nat fuel →
  ∃ m, grow fuel max d = Some m ∧ d < m ∧ max ≤ m.
Proof.
  revert max. induction fuel as [|fuel IH]; intros max Hm Hd; cbn.
  - rewrite (proj2 (Z.ltb_lt d max)) by lia. eauto with lia.
  - destruct (Z.ltb_spec d max); [eauto with lia|].
    destruct (IH (max * 2)) as (m & H1 & H2 & H3); [lia| |exists m; split_and!; auto; lia].
    replace (max * 2 * 2 ^ Z.of_nat fuel) with (max * 2 ^ Z.of_nat (S fuel)); [done|].
    rewrite Nat2Z.inj_succ, Z.pow_succ_r by lia. lia.
Qed.

(** the new object in a table that has room for it *)
Definition installed (p d : Z) (fn : fd_func) (a : Z) (t : list Z) (k : kern) (w : fdw) : fdw :=
  mkFdw k (<[p := mkFde d false FDE_ACTIVE 0 fn a]> (fdes w)) (<[Z.to_nat d := p]> t)
    (read_fds w) (write_fds w) (error_fds w)
    (if select_n w <=? d then d + 1 else select_n w) (list_pending w)
    (SHELL_EXIT_NOTIFY_FD w) (next_loc w).

(** a new object asks for nothing *)
Lemma installed_watched p d fn a t k w :
  (∀ q g, fdes w !! q = Some g → active g = true → q ≠ p) →
  ∀ (s : gset Z) bit, bit = FDE_READ ∨ bit = FDE_WRITE ∨ bit = FDE_ERROR → (∀ x, x ∈ s ↔ watched w x bit) →
  ∀ x, x ∈ s ↔ watched (installed p d fn a t k w) x bit.
Proof.
  intros Hno s bit Hbit Hs x. rewrite Hs. unfold watched; cbn.
  split; intros (q & g & Hg & Ha & Hx & Hb).
  - exists q, g. rewrite lookup_insert_ne by (intros ->; by eapply Hno). done.
  - apply lookup_insert_Some in Hg as [[<- <-]|[_ Hg]]; [|eauto 10]. by destruct Hbit as [->|[->| ->]].
Qed.

Lemma installed_inv p d fn a n k w :
  fd_inv w → p ≠ 0 → 0 ≤ d < FD_SETSIZE → ¬ registered w d →
  (∀ f, fdes w !! p = Some f → active f = false) →
  (256 ≤ fd_table_max w + Z.of_nat n) → d < fd_table_max w + Z.of_nat n →
  fd_inv (installed p d fn a (fd_table w ++ replicate n 0) k w).
Proof.
  intros Hi Hp Hd Hreg Hf Hn Hdn. unfold fd_table_max in *.
  set (f0 := mkFde d false FDE_ACTIVE 0 fn a).
  assert (Hno : ∀ q g, fdes w !! q = Some g → active g = true → q ≠ p ∧ fd g ≠ d).
  { intros q g Hg Ha. split; [intros ->; apply Hf in Hg; congruence|]. intros <-. apply Hreg.
    destruct (fi_active w Hi q g Hg Ha) as (? & ? & _ & ?). split; [lia|eauto]. }
  assert (Htl : ∀ i q, (fd_table w ++ replicate n 0) !! i = Some q → q ≠ 0 → fd_table w !! i = Some q).
  { intros i q Hq Hq0. apply lookup_app_Some in Hq as [Hq|[_ Hq]]; [done|].
    apply lookup_replicate in Hq as [-> _]. done. }
  assert (Hlen : (Z.to_nat d < length (fd_table w ++ replicate n 0%Z))%nat).
  { rewrite length_app, length_replicate. lia. }
  assert (Hwat := installed_watched p d fn a (fd_table w ++ replicate n 0) k w (λ q g Hg Ha, proj1 (Hno q g Hg Ha))).
  split; cbn.
  - right. unfold fd_table_max. cbn. rewrite length_insert, length_app, length_replicate. lia.
  - intros i q Hq Hq0. destruct (decide (i = Z.to_nat d)) as [->|Hne].
    + rewrite list_lookup_insert_eq in Hq by done. injection Hq as <-. exists f0.
      rewrite lookup_insert_eq. split_and!; [done|cbn; lia|done].
    + rewrite list_lookup_insert_ne in Hq by done. apply Htl in Hq; [|done].
      destruct (fi_table w Hi i q Hq Hq0) as (g & Hg & Hgi & Ha). exists g.
      destruct (Hno q g Hg Ha). by rewrite lookup_insert_ne.
  - intros q g Hg Ha. destruct (decide (q = p)) as [->|Hne].
    + rewrite lookup_insert_eq in Hg. injection Hg as <-. cbn.
      split_and!; try done; [lia|lia|destruct (Z.leb_spec (select_n w) d); lia|].
      by rewrite list_lookup_insert_eq.
    + rewrite lookup_insert_ne in Hg by done. destruct (Hno q g Hg Ha) as [_ Hnd].
      destruct (fi_active w Hi q g Hg Ha) as (? & ? & ? & Ht).
      split_and!; try done; [lia|lia|destruct (Z.leb_spec (select_n w) d); lia|].
      rewrite list_lookup_insert_ne by lia. by apply lookup_app_l_Some.
  - pose proof (fi_select w Hi) as Hsn. unfold fd_table_max in *. cbn.
    rewrite length_insert, length_app, length_replicate.
    destruct (Z.leb_spec (select_n w) d); lia.
  - apply Hwat; [auto|apply Hi].
  - apply Hwat; [auto|apply Hi].
  - apply Hwat; [auto|apply Hi].
  - apply Hi.
  - intros q. rewrite (fi_queue w Hi). destruct (decide (q = p)) as [->|Hne].
    + rewrite lookup_insert_eq. split; [|by intros (g & [= <-] & Hpg)].
      intros (g & Hg & Hpg). pose proof (fi_pending w Hi p g Hg Hpg) as Ha. apply Hf in Hg. congruence.
    + by rewrite lookup_insert_ne.
  - by apply (insert_objects (λ g, pending g = true → active g = true)); [|apply (fi_pending w Hi)].
  - by apply (insert_objects (λ g, events g ≠ 0 ↔ pending g = true)); [|apply (fi_events w Hi)].
Qed.

Lemma empty_sets w : fd_inv w → fd_table w = [] → read_fds w = ∅ ∧ write_fds w = ∅ ∧ error_fds w = ∅.
Proof.
  intros Hi Ht. assert (Hn : ∀ d bit, ¬ watched w d bit).
  { intros d bit [_ (p & Hp & _)]%(watched_registered w d bit Hi). by rewrite Ht in Hp. }
  split_and!; apply set_eq; intros d;
    rewrite elem_of_empty, ?(fi_read w Hi), ?(fi_write w Hi), ?(fi_error w Hi);
    (split; [apply Hn|done]).
Qed.

Lemma K_malloc w : ∃ ok k', K malloc_ok w = Ok ok (upd_kern k' w) ∧ k_sys k' = k_sys (w_kern w)
  ∧ (ok = false → head (k_oom (w_kern w)) = Some true).
Proof.
  unfold K, zoom, malloc_ok. destruct (k_oom (w_kern w)) as [|b oom]; eexists _, _;
    (split; [reflexivity|]; split; [done|]); [done|]. by destruct b.
Qed.

(** fdevent_register on an object that was just filled in *)
Lemma fdevent_register_eq w f p : fd_inv w → 0 ≤ fd f < FD_SETSIZE →
  let w1 := upd_fdes <[p := f]> w in
  (∃ n k', fdevent_register p w1 =
      Ok tt (upd_kern k' (upd_table (<[Z.to_nat (fd f) := p]> (fd_table w ++ replicate n 0)) w1))
    ∧ 256 ≤ fd_table_max w + Z.of_nat n ∧ fd f < fd_table_max w + Z.of_nat n
    ∧ k_sys k' = k_sys (w_kern w)) ∨
  (∃ w', fdevent_register p w1 = Exit (-1) w' ∧ head (k_oom (w_kern w)) = Some true).
Proof.
  intros Hi Hd w1. unfold fdevent_register.
  erewrite bind_ok; [|apply fde_at_ok; cbn; apply lookup_insert_eq]. cbn beta.
  rewrite (proj2 (Z.ltb_ge (fd f) 0)) by lia. erewrite bind_ok by done. cbn beta.
  change (fd_table_max w1) with (fd_table_max w).
  destruct (Z.leb_spec (fd_table_max w) (fd f)) as [Hle|Hgt].
  2:{ left. exists 0%nat, (w_kern w). unfold bind, ret, modify. cbn [replicate]. rewrite app_nil_r.
      split; [done|]. destruct (fi_len w Hi) as [He|He]; [|split_and!; [lia|lia|done]].
      unfold fd_table_max in Hgt. rewrite He in Hgt. cbn in Hgt. lia. }
  rewrite (proj2 (Z.ltb_ge 32000 (fd f))) by (unfold FD_SETSIZE in *; lia).
  assert (Hw : (when (fd_table_max w =? 0) fdevent_init) w1 = Ok tt w1).
  { destruct (Z.eqb_spec (fd_table_max w) 0) as [H0|H0]; [|done].
    assert (fd_table w = []) as Ht.
    { unfold fd_table_max in H0. destruct (fd_table w); [done|cbn in H0; lia]. }
    destruct (empty_sets w Hi Ht) as (H1 & H2 & H3).
    unfold when, fdevent_init, modify, upd_sets, w1, upd_fdes; cbn. by rewrite H1, H2, H3. }
  rewrite !bind_assoc, (bind_ok _ _ _ _ _ Hw). cbn beta.
  set (old := if fd_table_max w =? 0 then 256 else fd_table_max w).
  assert (Hold : 256 ≤ old ∧ fd_table_max w ≤ old).
  { unfold old. destruct (Z.eqb_spec (fd_table_max w) 0) as [H0|H0]; [lia|].
    destruct (fi_len w Hi) as [He|He]; [|lia]. unfold fd_table_max in H0. by rewrite He in H0. }
  destruct (grow_spec 8 old (fd f)) as (m & Hm & Hdm & Hom);
    [lia|unfold FD_SETSIZE in Hd; replace (2 ^ Z.of_nat 8) with 256 by done; lia|].
  rewrite !bind_assoc.
  erewrite bind_ok by (unfold deref; by rewrite Hm). cbn beta.
  destruct (K_malloc w1) as (ok & k' & Hk & Hsys & Hoom).
  rewrite !bind_assoc, (bind_ok _ _ _ _ _ Hk). cbn beta. destruct ok; cbn [negb].
  - left. exists (Z.to_nat (m - fd_table_max w)), k'.
    split; [reflexivity|]. split_and!; [lia|lia|done].
  - right. eexists. split; [reflexivity|]. by apply Hoom.
Qed.

Lemma fdevent_install_spec w p d fn a :
  fd_inv w → p ≠ 0 → 0 ≤ d < FD_SETSIZE → ¬ registered w d →
  (∀ f, fdes w !! p = Some f → active f = false) →
  (∃ w', fdevent_install p d fn a w = Ok tt w' ∧ fd_inv w'
     ∧ fdes w' = <[p := mkFde d false FDE_ACTIVE 0 fn a]> (fdes w)
     ∧ list_pending w' = list_pending w ∧ registered w' d) ∨
  (∃ w', fdevent_install p d fn a w = Exit (-1) w' ∧ head (k_oom (w_kern w)) = Some true).
Proof.
  intros Hi Hp Hd Hreg Hf. set (f0 := mkFde d false FDE_ACTIVE 0 fn a).
  set (w0 := upd_kern (add_trace (Sys "fcntl" [AZ d; AS (str "O_NONBLOCK")]) (w_kern w)) w).
  unfold fdevent_install. erewrite bind_ok by done. cbn beta. fold f0.
  erewrite (bind_ok (K _) _ _ tt (upd_fdes <[p := f0]> w0)) by done. cbn beta.
  destruct (fdevent_register_eq w0 f0 p) as [(n & k' & Heq & H1 & H2 & _)|(w' & Heq & Ho)];
    [by apply inv_upd_kern|done| |].
  2:{ right. exists w'. split; [|done]. unfold bind. by rewrite Heq. }
  left. exists (installed p d fn a (fd_table w ++ replicate n 0) k' w).
  rewrite (bind_ok _ _ _ _ _ Heq). cbn beta. split_and!.
  - unfold fdevent_connect. rewrite !bind_assoc. erewrite bind_ok.
    2:{ apply fde_at_ok. cbn. apply lookup_insert_eq. }
    cbn beta. rewrite !bind_assoc. erewrite bind_ok by done. cbn beta.
    cbn [select_n upd_kern upd_table upd_fdes w0 fd f0]. unfold when, installed.
    destruct (select_n w <=? d); erewrite bind_ok by done; cbn beta;
      (erewrite fde_put_ok; [|cbn; apply lookup_insert_eq]);
      unfold upd_fdes; cbn; by rewrite insert_insert_eq.
  - apply installed_inv; done.
  - done.
  - done.
  - split; [lia|]. exists p. split; [|done]. cbn. apply list_lookup_insert_eq.
    rewrite length_app, length_replicate. unfold fd_table_max in H2. cbn in H2. lia.
Qed.

(** ** fdevent_remove *)

Lemma last_registered_spec fuel i n w :
  select_n w ≤ fd_table_max w → 0 ≤ i → i + Z.of_nat fuel ≤ select_n w →
  ∃ m, last_registered fuel i n w = Ok m w ∧ (m = n ∨ i ≤ m < i + Z.of_nat fuel) ∧
    (∀ j, i ≤ j < i + Z.of_nat fuel → registered w j → n ≤ i → j ≤ m).
Proof.
  intros Hi. revert i n. induction fuel as [|fuel IH]; intros i n Hi0 Hsn.
  { exists n. split_and!; [done|by left|lia]. }
  cbn [last_registered].
  assert (is_Some (fd_table w !! Z.to_nat i)) as [p Hp].
  { apply lookup_lt_is_Some. unfold fd_table_max in Hi. lia. }
  erewrite bind_ok by by apply fd_table_at_ok. cbn beta.
  destruct (IH (i + 1) (if p =? 0 then n else i)) as (m & Hm & Hr & Hj); [lia|lia|].
  exists m. split; [done|]. split.
  - destruct (p =? 0); lia.
  - intros j Hji Hreg Hn. destruct (decide (j = i)) as [->|Hne].
    + destruct Hreg as (_ & q & Hq & Hq0). simplify_eq.
      rewrite (proj2 (Z.eqb_neq p 0)) in Hr by done. lia.
    + apply Hj; [lia|done|]. destruct (p =? 0); lia.
Qed.

Definition removed_obj (f : fdevent) : fdevent :=
  mkFde (fd f) (force_eof f) 0 0 (func f) (arg f).
Definition removed_active (p : Z) (f : fdevent) (m : Z) (k : kern) (w : fdw) : fdw :=
  mkFdw k (<[p := removed_obj f]> (fdes w)) (<[Z.to_nat (fd f) := 0]> (fd_table w))
    (read_fds w ∖ {[fd f]}) (write_fds w ∖ {[fd f]}) (error_fds w ∖ {[fd f]}) (m + 1)
    (if pending f then filter (λ q, q ≠ p) (list_pending w) else list_pending w)
    (SHELL_EXIT_NOTIFY_FD w) (next_loc w).

Lemma removed_watched p f m k w : fd_inv w → fdes w !! p = Some f → active f = true →
  ∀ (s : gset Z) bit, (∀ x, x ∈ s ↔ watched w x bit) → bit = FDE_READ ∨ bit = FDE_WRITE ∨ bit = FDE_ERROR →
  ∀ x, x ∈ s ∖ {[fd f]} ↔ watched (removed_active p f m k w) x bit.
Proof.
  intros Hi Hf Ha s bit Hs Hbit x. rewrite elem_of_difference, elem_of_singleton, Hs. unfold watched; cbn.
  split.
  - intros [(q & g & Hg & Hga & Hgx & Hgb) Hx]. exists q, g.
    rewrite lookup_insert_ne by (intros ->; congruence). done.
  - intros (q & g & Hg & Hga & Hgx & Hgb). apply lookup_insert_Some in Hg as [[<- <-]|[Hne Hg]]; [done|].
    split; [eauto 10|]. intros ->. destruct Hne. symmetry. eapply (active_inj w q p); eauto.
Qed.
Lemma removed_queue p f w : fd_inv w → fdes w !! p = Some f →
  ∀ q, q ∈ (if pending f then filter (λ q, q ≠ p) (list_pending w) else list_pending w)
    ↔ q ≠ p ∧ q ∈ list_pending w.
Proof.
  intros Hi Hf q. destruct (pending f) eqn:Hpf; [by rewrite list_elem_of_filter|].
  split; [|tauto]. intros Hin. split; [|done]. intros ->.
  apply (fi_queue w Hi) in Hin as (g & Hg & ?). congruence.
Qed.
Lemma removed_active_inv p f m k w :
  fd_inv w → fdes w !! p = Some f → active f = true →
  0 ≤ m < select_n w → (∀ j, j < select_n w → registered w j → j ≤ m) →
  fd_inv (removed_active p f m k w).
Proof.
  intros Hi Hf Ha Hm Hj.
  destruct (fi_active w Hi p f Hf Ha) as (Hp0 & Hfr & Hfs & Hft).
  assert (Hlen : (Z.to_nat (fd f) < length (fd_table w))%nat) by by apply lookup_lt_Some in Hft.
  assert (Hw := removed_watched p f m k w Hi Hf Ha).
  assert (Hoth : ∀ q g, <[p := removed_obj f]> (fdes w) !! q = Some g → active g = true →
    q ≠ p ∧ fdes w !! q = Some g ∧ fd g ≠ fd f).
  { intros q g Hg Hga. destruct (decide (q = p)) as [->|Hne].
    { rewrite lookup_insert_eq in Hg. by injection Hg as <-. }
    rewrite lookup_insert_ne in Hg by done. split_and!; try done. intros Heq. destruct Hne.
    eapply (active_inj w q p); eauto. }
  assert (Hq := removed_queue p f w Hi Hf).
  split; cbn.
  - destruct (fi_len w Hi) as [He|He]; [by rewrite He in Hft|right].
    unfold fd_table_max in *. cbn. by rewrite length_insert.
  - intros i q Hq' Hq0. destruct (decide (i = Z.to_nat (fd f))) as [->|Hne].
    { rewrite list_lookup_insert_eq in Hq' by done. congruence. }
    rewrite list_lookup_insert_ne in Hq' by done.
    destruct (fi_table w Hi i q Hq' Hq0) as (g & Hg & Hgi & Hga). exists g.
    rewrite lookup_insert_ne; [done|]. intros <-. simplify_eq. lia.
  - intros q g Hg Hga. destruct (Hoth q g Hg Hga) as (Hne & Hg' & Hnd).
    destruct (fi_active w Hi q g Hg' Hga) as (? & ? & ? & Ht).
    split_and!; try done; [lia|lia| |].
    + enough (fd g ≤ m) by lia. apply Hj; [lia|]. split; [lia|eauto].
    + rewrite list_lookup_insert_ne; [done|]. lia.
  - pose proof (fi_select w Hi) as Hsn. unfold fd_table_max in *. cbn. rewrite length_insert. lia.
  - apply Hw; [apply Hi|auto].
  - apply Hw; [apply Hi|auto].
  - apply Hw; [apply Hi|auto].
  - destruct (pending f); [apply list.NoDup_filter|]; apply Hi.
  - intros q. rewrite Hq. destruct (decide (q = p)) as [->|Hne].
    + rewrite lookup_insert_eq. split; [tauto|]. by intros (g & [= <-] & ?).
    + rewrite lookup_insert_ne, (fi_queue w Hi) by done. tauto.
  - by apply (insert_objects (λ g, pending g = true → active g = true)); [|apply (fi_pending w Hi)].
  - by apply (insert_objects (λ g, events g ≠ 0 ↔ pending g = true)); [|apply (fi_events w Hi)].
Qed.

(** the operations on an active object, in order *)
Lemma remove_active_run w p f :
  fd_inv w → fdes w !! p = Some f → active f = true →
  ∃ m k', 0 ≤ m < select_n w ∧ (∀ j, j < select_n w → registered w j → j ≤ m) ∧
    (bind (when (pending f) (fdevent_plist_remove p)) (λ _,
     bind (when true (fdevent_disconnect p;;; fdevent_unregister p)) (λ _,
     bind (fde_put p (set_state 0)) (λ _, fde_put p (set_events 0))))) w
    = Ok tt (removed_active p f m k' w).
Proof.
  intros Hi Hf Ha. destruct (fi_active w Hi p f Hf Ha) as (Hp0 & Hfr & Hfs & Hft).
  pose proof (fi_select w Hi) as Hsn.
  set (l := if pending f then filter (λ q, q ≠ p) (list_pending w) else list_pending w).
  assert (H1 : when (pending f) (fdevent_plist_remove p) w = Ok tt (upd_pending l w)).
  { unfold l, when. destruct (pending f) eqn:Hp; [|by destruct w].
    unfold fdevent_plist_remove. rewrite bool_decide_eq_true_2; [done|].
    apply (fi_queue w Hi). eauto. }
  rewrite (bind_ok _ _ _ _ _ H1). cbn beta. cbn [when].
  unfold fdevent_disconnect. rewrite ?bind_assoc.
  erewrite bind_ok by by apply fde_at_ok. cbn beta. rewrite ?bind_assoc.
  erewrite bind_ok by by apply fd_set_check_ok. cbn beta. rewrite ?bind_assoc.
  erewrite bind_ok by done. cbn beta. rewrite ?bind_assoc. erewrite bind_ok by done. cbn beta.
  set (w2 := upd_sets _ _ _ _).
  destruct (last_registered_spec (Z.to_nat (select_n w)) 0 0 w2) as (m & Hm & Hr & Hj);
    [exact (proj2 Hsn)|lia|cbn; lia|].
  exists m. rewrite ?bind_assoc. change (select_n w2) with (select_n w).
  rewrite (bind_ok _ _ _ _ _ Hm). cbn beta. rewrite ?bind_assoc. erewrite bind_ok by done. cbn beta.
  unfold fdevent_unregister. rewrite ?bind_assoc.
  erewrite bind_ok by by apply fde_at_ok. cbn beta. rewrite ?bind_assoc.
  erewrite bind_ok by done. cbn beta.
  change (fd_table_max (upd_select_n (m + 1) w2)) with (fd_table_max w).
  rewrite (proj2 (Z.ltb_ge (fd f) 0)), (proj2 (Z.leb_gt (fd_table_max w) (fd f))) by lia.
  cbn [orb]. rewrite ?bind_assoc.
  erewrite bind_ok by (by apply fd_table_at_ok; [lia|exact Hft]). cbn beta.
  rewrite Z.eqb_refl. cbn [negb]. rewrite ?bind_assoc. erewrite bind_ok by done. cbn beta.
  set (w3 := upd_table _ _).
  assert (∃ k', when (negb (has (state f) FDE_DONT_CLOSE)) (K (adb_close (fd f))) w3
    = Ok tt (upd_kern k' w3)) as [k' Hk].
  { destruct (has (state f) FDE_DONT_CLOSE); cbn; [exists (w_kern w3)|]; eauto. }
  exists k'. split; [lia|]. split.
  { intros j Hjs Hreg. apply Hj; [|exact Hreg|lia]. destruct Hreg as [? _]. lia. }
  rewrite ?bind_assoc, (bind_ok _ _ _ _ _ Hk). cbn beta.
  erewrite bind_ok by (apply fde_put_ok; exact Hf). cbn beta.
  erewrite fde_put_ok by (cbn; apply lookup_insert_eq).
  unfold removed_active, upd_fdes, w3; cbn. by rewrite insert_insert_eq.
Qed.

Lemma fdevent_remove_spec w p f :
  fd_inv w → fdes w !! p = Some f →
  ∃ w', fdevent_remove p w = Ok tt w' ∧ fd_inv w' ∧ fdes w' = <[p := removed_obj f]> (fdes w)
    ∧ (∀ q, q ∈ list_pending w' ↔ q ≠ p ∧ q ∈ list_pending w)
    ∧ (active f = true → ¬ registered w' (fd f)).
Proof.
  intros Hi Hf. unfold fdevent_remove. fde_step. fold (pending f) (active f).
  destruct (active f) eqn:Ha.
  - destruct (remove_active_run w p f Hi Hf Ha) as (m & k' & Hm & Hj & Hrun).
    exists (removed_active p f m k' w). split; [exact Hrun|].
    split; [by apply removed_active_inv|]. split; [done|]. split.
    + intros q. cbn. destruct (pending f) eqn:Hp; [by rewrite list_elem_of_filter|].
      split; [|tauto]. intros Hin. split; [|done]. intros ->.
      apply (fi_queue w Hi) in Hin as (g & Hg & ?). congruence.
    + intros _ (_ & q & Hq & Hq0). cbn in Hq.
      destruct (fi_active w Hi p f Hf Ha) as (_ & _ & _ & Hft). apply lookup_lt_Some in Hft.
      rewrite list_lookup_insert_eq in Hq by done. congruence.
  - assert (Hp : pending f = false).
    { destruct (pending f) eqn:Hp; [|done]. apply (fi_pending w Hi p f Hf) in Hp. congruence. }
    rewrite Hp. cbn [when]. erewrite bind_ok by done. erewrite bind_ok by done. cbn beta.
    fde_step. erewrite fde_put_ok by (cbn; apply lookup_insert_eq).
    eexists. split; [reflexivity|].
    assert (Hnq : p ∉ list_pending w).
    { intros (g & Hg & ?)%(fi_queue w Hi). congruence. }
    split_and!; [|cbn; by rewrite insert_insert_eq| |done].
    + replace (upd_fdes _ _) with (change p (removed_obj f) (read_fds w) (write_fds w) (error_fds w)
        (list_pending w) w) by (unfold change, upd_fdes; cbn; by rewrite insert_insert_eq).
      apply (change_inv w p f); try done; try apply Hi.
    + intros q. cbn. split; [|tauto]. intros Hq. split; [|done]. by intros ->.
Qed.

(** ** Taking the next pending object *)

Definition next_call : M fdw (option fd_call) :=
  do p <- fdevent_plist_dequeue;
  if p =? 0 then ret None else take_events p.

Definition taken_obj (f : fdevent) : fdevent :=
  mkFde (fd f) (force_eof f) (Z.land (state f) (Z.lnot FDE_PENDING)) 0 (func f) (arg f).

Lemma next_call_spec w p l f : fd_inv w → list_pending w = p :: l → fdes w !! p = Some f →
  ∃ w', next_call w = Ok (Some (mkCall (func f) (fd f) (events f) (arg f))) w' ∧ fd_inv w'
    ∧ list_pending w' = l ∧ fdes w' = <[p := taken_obj f]> (fdes w) ∧ events f ≠ 0.
Proof.
  intros Hi Hl Hf.
  assert (Hp : pending f = true).
  { assert (Hin : p ∈ list_pending w) by (rewrite Hl; set_solver).
    apply (fi_queue w Hi) in Hin as (g & Hg & ?). congruence. }
  pose proof (fi_pending w Hi p f Hf Hp) as Ha.
  destruct (fi_active w Hi p f Hf Ha) as (Hp0 & _).
  exists (change p (taken_obj f) (read_fds w) (write_fds w) (error_fds w) l w). split_and!.
  - unfold next_call, fdevent_plist_dequeue, bind at 1. rewrite Hl.
    rewrite (proj2 (Z.eqb_neq p 0)) by done. unfold take_events.
    erewrite bind_ok by by apply fde_at_ok. cbn beta.
    erewrite bind_ok by by apply fde_put_ok. cbn beta. fold (pending f). rewrite Hp. cbn [negb].
    fde_step. fde_step. unfold ret, change, upd_fdes; cbn. by rewrite insert_insert_eq.
  - assert (Hact : active (taken_obj f) = active f) by (unfold active; cbn; by bits).
    assert (Hpe : pending (taken_obj f) = false) by (unfold pending; cbn; by bits).
    pose proof (fi_nodup w Hi) as Hnd. rewrite Hl in Hnd. apply list.NoDup_cons in Hnd as [Hpl Hnd].
    apply (change_inv w p f); try done.
    1-3: eapply set_agrees_same; eauto; [cbn; by bits|apply Hi].
    + intros q Hq. rewrite Hl. set_solver.
    + rewrite Hpe. split; [intros ?; contradiction|done].
    + by rewrite Hpe.
    + cbn. rewrite Hpe. done.
  - done.
  - done.
  - by apply (fi_events w Hi p f Hf).
Qed.

(** ** Sequences of operations *)

Inductive fd_op :=
| OpInstall (p d : Z) (fn : fd_func) (a : Z)
| OpRemove (p : Z)
| OpSet (p ev : Z)
| OpAdd (p ev : Z)
| OpDel (p ev : Z)
| OpProcess
| OpNext.

Definition run_op (op : fd_op) : M fdw unit :=
  match op with
  | OpInstall p d fn a => fdevent_install p d fn a
  | OpRemove p => fdevent_remove p
  | OpSet p ev => fdevent_set p ev
  | OpAdd p ev => fdevent_add p ev
  | OpDel p ev => fdevent_del p ev
  | OpProcess => fdevent_process
  | OpNext => next_call;;; ret tt
  end.

(** what the callers owe: live objects; a descriptor the kernel just handed
    out (so not in the table), in the range of an fd_set *)
Definition op_ok (w : fdw) (op : fd_op) : Prop :=
  match op with
  | OpInstall p d _ _ => p ≠ 0 ∧ 0 ≤ d < FD_SETSIZE ∧ ¬ registered w d
                         ∧ (∀ f, fdes w !! p = Some f → active f = false)
  | OpRemove p | OpSet p _ | OpAdd p _ | OpDel p _ => is_Some (fdes w !! p)
  | OpProcess | OpNext => True
  end.

Inductive fd_reachable : fdw → Prop :=
| fr_init k : fd_reachable (initial k)
| fr_kern w k : fd_reachable w → fd_reachable (upd_kern k w)
| fr_op w op w' : fd_reachable w → op_ok w op → run_op op w = Ok tt w' → fd_reachable w'.

Lemma run_op_inv w op : fd_inv w → op_ok w op →
  wp (run_op op) (λ _ w', fd_inv w') (λ c _, c = -1 ∧ head (k_oom (w_kern w)) = Some true) w.
Proof.
  intros Hi Hok. destruct op as [p d fn a|p|p ev|p ev|p ev| |]; cbn in *.
  - destruct Hok as (Hp & Hd & Hr & Hf).
    destruct (fdevent_install_spec w p d fn a Hi Hp Hd Hr Hf) as [(w' & Heq & H & _)|(w' & Heq & H)];
      unfold wp; rewrite Heq; auto.
  - destruct Hok as [f Hf]. destruct (fdevent_remove_spec w p f Hi Hf) as (w' & Heq & H & _).
    unfold wp. by rewrite Heq.
  - destruct Hok as [f Hf]. unfold wp. rewrite (fdevent_set_eq w p f) by done. cbv zeta.
    case_match; auto using set_result_inv.
  - destruct Hok as [f Hf]. unfold wp, fdevent_add. erewrite bind_ok by by apply fde_at_ok.
    cbn beta. rewrite (fdevent_set_eq w p f) by done. cbv zeta. case_match; auto using set_result_inv.
  - destruct Hok as [f Hf]. unfold wp, fdevent_del. erewrite bind_ok by by apply fde_at_ok.
    cbn beta. rewrite (fdevent_set_eq w p f) by done. cbv zeta. case_match; auto using set_result_inv.
  - destruct (process_cases w Hi) as (r & wr & e & k' & w' & Heq & Hi' & _). unfold wp. by rewrite Heq.
  - destruct (list_pending w) as [|p l] eqn:Hl.
    + unfold wp, next_call, fdevent_plist_dequeue, bind. rewrite Hl. done.
    + assert (Hin : p ∈ list_pending w) by (rewrite Hl; set_solver).
      apply (fi_queue w Hi) in Hin as (f & Hf & _).
      destruct (next_call_spec w p l f Hi Hl Hf) as (w' & Heq & Hi' & _).
      unfold wp, bind. by rewrite Heq.
Qed.

(** add and del: another object is not touched, nor is the kernel *)
Definition only_fde (p : Z) (w w' : fdw) : Prop :=
  fd_inv w' ∧ w_kern w' = w_kern w ∧ fd_table w' = fd_table w ∧ next_loc w' = next_loc w ∧
  is_Some (fdes w' !! p) ∧ ∀ q, q ≠ p → fdes w' !! q = fdes w !! q.

Lemma fdevent_set_run w p ev : fd_inv w → is_Some (fdes w !! p) →
  ∃ w', fdevent_set p ev w = Ok tt w' ∧ only_fde p w w'.
Proof.
  intros Hi [f Hf]. rewrite (fdevent_set_eq w p f) by done. cbv zeta. eexists. split; [done|].
  case_match; [split_and!; by eauto|]. split_and!; [by apply set_result_inv|done..| |]; cbn.
  - rewrite lookup_insert_eq. eauto.
  - intros q Hq. by rewrite lookup_insert_ne.
Qed.
Lemma fdevent_add_run w p ev : fd_inv w → is_Some (fdes w !! p) →
  ∃ w', fdevent_add p ev w = Ok tt w' ∧ only_fde p w w'.
Proof.
  intros Hi Hp. pose proof Hp as [f Hf]. unfold fdevent_add. fde_step. by apply fdevent_set_run.
Qed.
Lemma fdevent_del_run w p ev : fd_inv w → is_Some (fdes w !! p) →
  ∃ w', fdevent_del p ev w = Ok tt w' ∧ only_fde p w w'.
Proof.
  intros Hi Hp. pose proof Hp as [f Hf]. unfold fdevent_del. fde_step. by apply fdevent_set_run.
Qed.


(** fdevent_set on a pending object keeps only the pending events that are
    not in the new set: when every pending event is still wanted, all of them
    are discarded and the object leaves the queue.  (The comment in the source
    promises the opposite: that events no longer wanted are not signalled.) *)
Theorem fdevent_set_drops_wanted w p f ev :
  fd_inv w → fdes w !! p = Some f → pending f = true →
  Z.land (state f) FDE_EVENTMASK ≠ Z.land ev FDE_EVENTMASK →
  Z.land (events f) (Z.land ev FDE_EVENTMASK) = events f →
  ∃ w' f', fdevent_set p ev w = Ok tt w' ∧ fdes w' !! p = Some f' ∧ events f' = 0
    ∧ pending f' = false ∧ p ∉ list_pending w'.
Proof.
  intros Hi Hf Hp Hne Hsub. set (ev' := Z.land ev FDE_EVENTMASK) in *.
  exists (set_result p f ev' w), (set_obj f ev').
  assert (H0 : Z.land (events f) (Z.lnot ev') = 0).
  { rewrite <- Hsub, <- Z.land_assoc, Z.land_lnot_diag. apply Z.land_0_r. }
  split_and!.
  - rewrite (fdevent_set_eq w p f) by done. cbv zeta. fold ev'.
    by rewrite (proj2 (Z.eqb_neq _ ev')) by done.
  - cbn. apply lookup_insert_eq.
  - unfold set_obj. by rewrite Hp, H0.
  - unfold set_obj. rewrite Hp, H0. unfold pending; cbn. by bits.
  - cbn. unfold set_queue. rewrite Hp, H0. cbn. rewrite list_elem_of_filter. tauto.
Qed.

(** ** A concrete run: one socket object on descriptor 5, readable *)

Module Demo.
Definition k0 : kern := mkKern 0 ∅ ∅ ∅ [SysRes 1 0 [8 * 5 + 1]] [] [].
Definition state_of {A} (r : res fdw A) : fdw :=
  match r with Ok _ w | Exit _ w | Fault _ w => w end.
Definition w1 : fdw := state_of (fdevent_install 1 5 local_socket_event_func_ 7 (initial k0)).
Definition w2 : fdw := state_of (fdevent_set 1 FDE_READ w1).
Definition w3 : fdw := state_of (fdevent_process w2).
End Demo.

Lemma run_op_Ok_inv w op w' : fd_inv w → op_ok w op → run_op op w = Ok tt w' → fd_inv w'.
Proof. intros Hi Ho Hr. pose proof (run_op_inv w op Hi Ho) as H. unfold wp in H. by rewrite Hr in H. Qed.

Lemma demo_install_ok : op_ok (initial Demo.k0) (OpInstall 1 5 local_socket_event_func_ 7).
Proof.
  split_and!; try done. intros (_ & p & Hp & _). done.
Qed.
Lemma demo_w1 : run_op (OpInstall 1 5 local_socket_event_func_ 7) (initial Demo.k0) = Ok tt Demo.w1.
Proof. vm_compute. reflexivity. Qed.
Lemma demo_w2 : run_op (OpSet 1 FDE_READ) Demo.w1 = Ok tt Demo.w2.
Proof. vm_compute. reflexivity. Qed.
Lemma demo_w3 : run_op OpProcess Demo.w2 = Ok tt Demo.w3.
Proof. vm_compute. reflexivity. Qed.
Lemma demo_reachable : fd_reachable Demo.w3.
Proof.
  apply (fr_op Demo.w2 OpProcess); [|exact I|exact demo_w3].
  apply (fr_op Demo.w1 (OpSet 1 FDE_READ)); [|by vm_compute; eexists|exact demo_w2].
  eapply fr_op; [apply fr_init|exact demo_install_ok|exact demo_w1].
Qed.
Lemma demo_inv2 : fd_inv Demo.w2.
Proof.
  apply (run_op_Ok_inv Demo.w1 (OpSet 1 FDE_READ)); [|by vm_compute; eexists|exact demo_w2].
  eapply run_op_Ok_inv; [apply initial_inv|exact demo_install_ok|exact demo_w1].
Qed.
Lemma demo_inv3 : fd_inv Demo.w3.
Proof. apply (run_op_Ok_inv Demo.w2 OpProcess); [exact demo_inv2|exact I|exact demo_w3]. Qed.

Lemma fdevent_process_spec_witness :
  fdevent_process Demo.w2 = Ok tt Demo.w3 ∧ list_pending Demo.w3 = [1].
Proof.
  destruct (fdevent_process_spec Demo.w2 demo_inv2) as (r & wr & e & w' & Heq & _).
  assert (Hw : Ok tt w' = Ok tt Demo.w3) by (rewrite <- Heq; exact demo_w3).
  split; [rewrite Heq; exact Hw|vm_compute; reflexivity].
Defined.


(** a pending read is lost when writability is added to the wanted events *)
Lemma fdevent_set_drops_wanted_witness :
  ∃ w' f', fdevent_set 1 (FDE_READ + FDE_WRITE) Demo.w3 = Ok tt w' ∧ fdes w' !! 1 = Some f'
    ∧ events f' = 0 ∧ pending f' = false ∧ 1 ∉ list_pending w'.
Proof.
  eapply (fdevent_set_drops_wanted Demo.w3 1); [exact demo_inv3|vm_compute; reflexivity|..];
    vm_compute; congruence.
Defined.
