(* ===== verification/Epoll.v ===== *)
(** * The epoll back end of the event loop (adbd/src/fdevent.c, CRAPTASTIC)

    The alternative to select: the kernel keeps the descriptors and events
    asked for, changed with epoll_ctl, and hands back the object of each ready
    descriptor.  epoll_ctl is the documented one: adding a descriptor that is
    there, or changing or deleting one that is not, fails.

    Theorems: as long as only read, write and error are asked for, the kernel
    is asked for exactly what the select back end would put in its sets, and a
    report is delivered in the same way; with another bit set (FDE_DONT_CLOSE)
    the first change ends the process. *)

From S2P Require Import Prelude Kernel Packet DList Fdevent.

Definition EPOLLIN : Z := 1.
Definition EPOLLOUT : Z := 4.
Definition EPOLLERR : Z := 8.
Definition EPOLLHUP : Z := 16.

Record epw := mkEpw {
  e_fdw : fdw;
  epoll_fd : Z;
  interest : gmap Z (Z * Z);       (* descriptor -> events, data.ptr *)
}.
Definition up_e_fdw (f : fdw) (e : epw) : epw := mkEpw f (epoll_fd e) (interest e).
Definition up_interest (m : gmap Z (Z * Z)) (e : epw) : epw := mkEpw (e_fdw e) (epoll_fd e) m.
Definition EF {A} (m : M fdw A) : M epw A := zoom e_fdw up_e_fdw m.

Inductive epoll_op := EPOLL_CTL_ADD | EPOLL_CTL_DEL | EPOLL_CTL_MOD.
(** 0, or -1 when the descriptor is (not) there *)
Definition epoll_ctl (op : epoll_op) (d ev ptr : Z) : M epw Z := λ e,
  match op, interest e !! d with
  | EPOLL_CTL_ADD, None => Ok 0 (up_interest (<[d := (ev, ptr)]> (interest e)) e)
  | EPOLL_CTL_MOD, Some _ => Ok 0 (up_interest (<[d := (ev, ptr)]> (interest e)) e)
  | EPOLL_CTL_DEL, Some _ => Ok 0 (up_interest (delete d (interest e)) e)
  | _, _ => Ok (-1) e
  end.
Definition ctl_or_exit (op : epoll_op) (d ev ptr : Z) : M epw unit :=
  do r <- epoll_ctl op d ev ptr; if r =? 0 then ret tt else exit 1.

Definition epoll_init : M epw unit :=
  do d <- EF (K (sys_ "epoll_create" [AZ 256]));
  modify (λ e, mkEpw (e_fdw e) d (interest e));;;
  if d <? 0 then exit 1 else EF (K (note "cloexec" [AZ d])).

(** the call is disabled in the source *)
Definition epoll_connect (p : Z) : M epw unit := do _ <- EF (fde_at p); ret tt.

Definition epoll_disconnect (p : Z) : M epw unit :=
  do f <- EF (fde_at p);
  do _ <- epoll_ctl EPOLL_CTL_DEL (fd f) 0 p;
  ret tt.

Definition epoll_mask (ev : Z) : Z :=
  Z.lor (Z.lor (if has ev FDE_READ then EPOLLIN else 0) (if has ev FDE_WRITE then EPOLLOUT else 0))
        (if has ev FDE_ERROR then Z.lor EPOLLERR EPOLLHUP else 0).

Definition epoll_update (p ev : Z) : M epw unit :=
  do f <- EF (fde_at p);
  let active := negb (Z.land (state f) FDE_EVENTMASK =? 0) in
  let m := epoll_mask ev in
  EF (fde_put p (λ f, set_state (Z.lor (Z.land (state f) FDE_STATEMASK) ev) f));;;
  if active then
    if negb (m =? 0) then ctl_or_exit EPOLL_CTL_MOD (fd f) m p else ctl_or_exit EPOLL_CTL_DEL (fd f) m p
  else when (negb (m =? 0)) (ctl_or_exit EPOLL_CTL_ADD (fd f) m p).

(** epoll_wait: the answer lists descriptors with events, as 32 * fd + events;
    the kernel reports those it was asked for, errors in any case *)
Definition epoll_ready (m : gmap Z (Z * Z)) (code : Z) : option (Z * Z) :=
  match m !! (code / 32) with
  | None => None
  | Some (ev, ptr) =>
      let bits := Z.land (code mod 32) (Z.lor ev (Z.lor EPOLLERR EPOLLHUP)) in
      if bits =? 0 then None else Some (bits, ptr)
  end.
Definition epoll_wait : M epw (Z * list (Z * Z)) :=
  do d <- gets epoll_fd;
  do '(r, out) <- EF (K (sys "epoll_wait" [AZ d; AZ 256]));
  do m <- gets interest;
  if r <? 0 then ret (r, [])
  else let l := take 256 (omap (epoll_ready m) out) in ret (Z.of_nat (length l), l).

Definition events_of (bits : Z) : Z :=
  Z.lor (Z.lor (if has bits EPOLLIN then FDE_READ else 0) (if has bits EPOLLOUT then FDE_WRITE else 0))
        (if has bits (Z.lor EPOLLERR EPOLLHUP) then FDE_ERROR else 0).

Fixpoint epoll_deliver (l : list (Z * Z)) : M fdw unit :=
  match l with
  | [] => ret tt
  | (bits, p) :: l' =>
      fde_put p (λ f, set_events (Z.lor (events f) (events_of bits)) f);;;
      do f <- fde_at p;
      (if events f =? 0 then ret tt
       else if has (state f) FDE_PENDING then ret tt
       else
         fde_put p (λ f, set_state (Z.lor (state f) FDE_PENDING) f);;;
         fdevent_plist_enqueue p);;;
      epoll_deliver l'
  end.

Definition epoll_process : M epw unit :=
  do ok <- EF (K malloc_ok);
  if negb ok then exit 1
  else
    do '(n, l) <- epoll_wait;
    if n <? 0 then
      do e <- gets (λ e, k_errno (w_kern (e_fdw e)));
      if e =? EINTR then ret tt else exit 1
    else EF (epoll_deliver l).

(** ** What the kernel is asked for *)

(** the events an object asks for; FDE_DONT_CLOSE is one of the bits of the mask *)
Definition wants (f : fdevent) : Z := Z.land (state f) FDE_EVENTMASK.
Definition plain_events (ev : Z) : Prop := 0 ≤ ev < 8.

(** the descriptors registered are those of the active objects that ask for
    something, with the events they ask for *)
Record ep_inv (e : epw) : Prop := {
  ep_single p q f g : fdes (e_fdw e) !! p = Some f → fdes (e_fdw e) !! q = Some g →
    active f = true → active g = true → fd f = fd g → p = q;
  ep_plain p f : fdes (e_fdw e) !! p = Some f → active f = true → plain_events (wants f);
  ep_interest d m p : interest e !! d = Some (m, p) ↔
    ∃ f, fdes (e_fdw e) !! p = Some f ∧ active f = true ∧ fd f = d ∧ wants f ≠ 0 ∧ m = epoll_mask (wants f);
}.

(** the events of a descriptor that are asked for *)
Definition asked (e : epw) (d bit : Z) : Prop := ∃ m p, interest e !! d = Some (m, p) ∧ has m bit = true.

Lemma plain_cases ev : plain_events ev →
  ev = 0 ∨ ev = 1 ∨ ev = 2 ∨ ev = 3 ∨ ev = 4 ∨ ev = 5 ∨ ev = 6 ∨ ev = 7.
Proof. unfold plain_events. lia. Qed.
Ltac plain_split H := apply plain_cases in H as [->|[->|[->|[->|[->|[->|[->| ->]]]]]]].

Lemma mask_zero_iff ev : plain_events ev → epoll_mask ev = 0 ↔ ev = 0.
Proof. intros H. plain_split H; vm_compute; split; congruence. Qed.
Lemma mask_bits ev : plain_events ev →
  has (epoll_mask ev) EPOLLIN = has ev FDE_READ ∧ has (epoll_mask ev) EPOLLOUT = has ev FDE_WRITE
  ∧ has (epoll_mask ev) EPOLLERR = has ev FDE_ERROR ∧ has (epoll_mask ev) EPOLLHUP = has ev FDE_ERROR.
Proof. intros H. plain_split H; vm_compute; split_and!; reflexivity. Qed.
Lemma events_of_mask ev : plain_events ev → events_of (epoll_mask ev) = ev.
Proof. intros H. plain_split H; vm_compute; reflexivity. Qed.

Lemma land_event_bit s bit : bit = FDE_READ ∨ bit = FDE_WRITE ∨ bit = FDE_ERROR →
  has (Z.land s FDE_EVENTMASK) bit = has s bit.
Proof. intros [->|[->| ->]]; unfold has; by rewrite <- Z.land_assoc. Qed.

(** fdevent_set, compiled with this back end *)
Definition epoll_set (p ev : Z) : M epw unit :=
  let ev := Z.land ev FDE_EVENTMASK in
  do f <- EF (fde_at p);
  if Z.land (state f) FDE_EVENTMASK =? ev then ret tt
  else
    when (has (state f) FDE_ACTIVE) (epoll_update p ev);;;
    EF (set_events_asked p ev).

(** the registrations after [ev] was set for the object [f] at [p] *)
Definition registrations (p : Z) (f : fdevent) (ev : Z) (m : gmap Z (Z * Z)) : gmap Z (Z * Z) :=
  if active f then
    if epoll_mask ev =? 0 then delete (fd f) m else <[fd f := (epoll_mask ev, p)]> m
  else m.

Lemma EF_ok {A} (m : M fdw A) e a w : m (e_fdw e) = Ok a w → EF m e = Ok a (up_e_fdw w e).
Proof. unfold EF, zoom. by intros ->. Qed.
Lemma EF_at e p f : fdes (e_fdw e) !! p = Some f → EF (fde_at p) e = Ok f e.
Proof. intros H. erewrite EF_ok by by apply fde_at_ok. by destruct e. Qed.

(** the calls never fail *)
Lemma epoll_update_eq e p f ev : ep_inv e → fdes (e_fdw e) !! p = Some f → active f = true →
  epoll_update p ev e
  = Ok tt (up_interest (registrations p f ev (interest e))
      (up_e_fdw (upd_fdes <[p := set_state (Z.lor (Z.land (state f) FDE_STATEMASK) ev) f]> (e_fdw e)) e)).
Proof.
  intros Hi Hf Ha. unfold epoll_update. rewrite (bind_ok _ _ _ _ _ (EF_at e p f Hf)).
  cbv zeta. erewrite bind_ok by (apply EF_ok, fde_put_ok, Hf).
  unfold registrations, ctl_or_exit, epoll_ctl, bind. rewrite Ha. cbn [interest up_e_fdw].
  fold (wants f). destruct (Z.eqb_spec (wants f) 0) as [Hz|Hz]; cbn [negb when].
  - assert (Hn : interest e !! fd f = None).
    { destruct (interest e !! fd f) as [[m q]|] eqn:Hl; [|done]. apply (ep_interest e Hi) in Hl.
      destruct Hl as (g & Hg & Hga & Hgd & Hgw & _).
      assert (q = p) as -> by (eapply (ep_single e Hi q p); eauto). congruence. }
    unfold when. destruct (epoll_mask ev =? 0); cbn [negb interest up_e_fdw]; [|by rewrite Hn].
    rewrite delete_id by done. by destruct e.
  - assert (Hs : interest e !! fd f = Some (epoll_mask (wants f), p)).
    { apply (ep_interest e Hi). eauto 10. }
    destruct (epoll_mask ev =? 0); cbn [negb interest up_e_fdw]; by rewrite Hs.
Qed.

Definition epoll_result (p : Z) (f : fdevent) (ev : Z) (e : epw) : epw :=
  let w := e_fdw e in
  up_interest (registrations p f ev (interest e))
    (up_e_fdw (change p (set_obj f ev) (read_fds w) (write_fds w) (error_fds w)
      (set_queue f ev p (list_pending w)) w) e).

Lemma epoll_set_eq e p f ev0 : ep_inv e → fdes (e_fdw e) !! p = Some f →
  (pending f = true → p ∈ list_pending (e_fdw e)) →
  let ev := Z.land ev0 FDE_EVENTMASK in
  epoll_set p ev0 e = Ok tt (if wants f =? ev then e else epoll_result p f ev e).
Proof.
  intros Hi Hf Hq ev. unfold epoll_set. fold ev. cbv zeta.
  rewrite (bind_ok _ _ _ _ _ (EF_at e p f Hf)). fold (wants f).
  destruct (wants f =? ev) eqn:Heq; [done|].
  assert (Hev : has ev FDE_PENDING = false) by (unfold ev; bits; done).
  unfold when, epoll_result. fold (active f). destruct (active f) eqn:Ha.
  - erewrite bind_ok by by apply epoll_update_eq. erewrite EF_ok.
    2:{ apply (set_events_asked_eq _ p f (Z.lor (Z.land (state f) FDE_STATEMASK) ev)); try done.
        - cbn. apply lookup_insert_eq.
        - apply restate. }
    unfold up_e_fdw, up_interest, change, upd_fdes, upd_sets, upd_pending; cbn. by rewrite insert_insert_eq.
  - erewrite bind_ok by done. erewrite EF_ok.
    2:{ apply (set_events_asked_eq _ p f (state f)); try done. by destruct f. }
    unfold registrations. rewrite Ha. by destruct e.
Qed.

Lemma plain_land ev : plain_events ev → Z.land ev FDE_EVENTMASK = ev.
Proof. intros H. plain_split H; done. Qed.
Lemma wants_set f ev : plain_events ev → wants (set_obj f ev) = ev.
Proof.
  intros Hev. unfold wants. apply Z.bits_inj'. intros n Hn.
  assert (Hb : Z.testbit ev n = Z.testbit ev n && Z.testbit FDE_EVENTMASK n).
  { rewrite <- Z.land_spec. by rewrite plain_land. }
  assert (HS : Z.testbit FDE_EVENTMASK n && Z.testbit FDE_STATEMASK n = false).
  { rewrite <- Z.land_spec. apply Z.bits_0. }
  assert (HP : Z.testbit FDE_EVENTMASK n && Z.testbit FDE_PENDING n = false).
  { rewrite <- Z.land_spec. apply Z.bits_0. }
  unfold set_obj. repeat case_match; cbn [state];
    rewrite ?Z.land_spec, ?Z.lor_spec, ?Z.land_spec, ?Z.lnot_spec by done; rewrite Hb;
    destruct (Z.testbit ev n), (Z.testbit FDE_EVENTMASK n), (Z.testbit FDE_STATEMASK n),
      (Z.testbit FDE_PENDING n), (Z.testbit (state f) n); done.
Qed.
Lemma set_obj_same f ev : fd (set_obj f ev) = fd f.
Proof. unfold set_obj. by repeat case_match. Qed.
Lemma set_obj_active f ev : plain_events ev → active (set_obj f ev) = active f.
Proof.
  intros Hev. assert (Hb : Z.testbit ev 8 = false) by (plain_split Hev; done).
  unfold set_obj, active. repeat case_match; cbn; bits; by rewrite Hb, ?orb_false_r.
Qed.

(** one state with both back ends: the objects and the queue agree, and the
    sets of select hold the descriptors epoll is asked for *)
Record agrees (w : fdw) (e : epw) : Prop := {
  ag_fdes : fdes (e_fdw e) = fdes w;
  ag_pending : list_pending (e_fdw e) = list_pending w;
  ag_read d : d ∈ read_fds w ↔ asked e d EPOLLIN;
  ag_write d : d ∈ write_fds w ↔ asked e d EPOLLOUT;
  ag_error d : d ∈ error_fds w ↔ asked e d EPOLLERR;
}.

(** what epoll is asked for follows from the objects *)
Lemma asked_watched e d bit ebit : ep_inv e →
  (∀ ev, plain_events ev → has (epoll_mask ev) ebit = has ev bit) →
  bit = FDE_READ ∨ bit = FDE_WRITE ∨ bit = FDE_ERROR →
  asked e d ebit ↔ watched (e_fdw e) d bit.
Proof.
  intros Hi Hm Hb. split.
  - intros (m & p & Hl & Hh). apply (ep_interest e Hi) in Hl as (f & Hf & Ha & Hd & Hw & ->).
    exists p, f. split_and!; [done..|]. rewrite <- (land_event_bit _ _ Hb). fold (wants f).
    rewrite <- Hm; [done|by eapply (ep_plain e Hi)].
  - intros (p & f & Hf & Ha & Hd & Hh). rewrite <- (land_event_bit _ _ Hb) in Hh. fold (wants f) in Hh.
    exists (epoll_mask (wants f)), p. rewrite Hm by by eapply (ep_plain e Hi). split; [|done].
    apply (ep_interest e Hi). exists f. split_and!; try done. intros H0. by rewrite H0 in Hh.
Qed.

Lemma watched_fdes w w' d bit : fdes w = fdes w' → watched w d bit ↔ watched w' d bit.
Proof. unfold watched. by intros ->. Qed.

(** ...so the sets agree as soon as the objects do *)
Lemma inv_agrees w e : fd_inv w → ep_inv e → fdes (e_fdw e) = fdes w →
  list_pending (e_fdw e) = list_pending w → agrees w e.
Proof.
  intros Hi He Hf Hp. split; [done..| | |]; intros d.
  - rewrite (fi_read w Hi), (asked_watched e d FDE_READ EPOLLIN He); [by apply watched_fdes| |tauto].
    intros ev Hev. apply (mask_bits ev Hev).
  - rewrite (fi_write w Hi), (asked_watched e d FDE_WRITE EPOLLOUT He); [by apply watched_fdes| |tauto].
    intros ev Hev. apply (mask_bits ev Hev).
  - rewrite (fi_error w Hi), (asked_watched e d FDE_ERROR EPOLLERR He); [by apply watched_fdes| |tauto].
    intros ev Hev. apply (mask_bits ev Hev).
Qed.

Lemma epoll_result_inv e p f ev : ep_inv e → fdes (e_fdw e) !! p = Some f → plain_events ev →
  ep_inv (epoll_result p f ev e).
Proof.
  intros Hi Hf Hev. pose proof (set_obj_same f ev) as Hfd. pose proof (set_obj_active f ev Hev) as Ha.
  assert (Hold : ∀ q g, fdes (e_fdw (epoll_result p f ev e)) !! q = Some g → active g = true →
    ∃ g', fdes (e_fdw e) !! q = Some g' ∧ active g' = true ∧ fd g' = fd g).
  { intros q g Hg Hga. cbn in Hg. destruct (decide (q = p)) as [->|Hne].
    - rewrite lookup_insert_eq in Hg. injection Hg as <-. exists f. split_and!; congruence.
    - rewrite lookup_insert_ne in Hg by done. eauto. }
  split.
  - intros q q' g g' Hg Hg' Hga Hga' Heq.
    destruct (Hold q g Hg Hga) as (h & Hh & Hha & Hhd). destruct (Hold q' g' Hg' Hga') as (h' & Hh' & Hha' & Hhd').
    eapply (ep_single e Hi); eauto. congruence.
  - intros q g Hg Hga. cbn in Hg. destruct (decide (q = p)) as [->|Hne].
    + rewrite lookup_insert_eq in Hg. injection Hg as <-. by rewrite wants_set.
    + rewrite lookup_insert_ne in Hg by done. by eapply (ep_plain e Hi).
  - intros d m q. cbn. unfold registrations. destruct (active f) eqn:Hact.
    + transitivity (if decide (d = fd f) then m = epoll_mask ev ∧ q = p ∧ ev ≠ 0
                    else interest e !! d = Some (m, q)).
      { pose proof (mask_zero_iff ev Hev) as Hz. case_decide as Hd; [subst d|].
        - destruct (Z.eqb_spec (epoll_mask ev) 0).
          + rewrite lookup_delete_eq. naive_solver.
          + rewrite lookup_insert_eq. naive_solver.
        - destruct (Z.eqb_spec (epoll_mask ev) 0).
          + by rewrite lookup_delete_ne.
          + by rewrite lookup_insert_ne. }
      case_decide as Hd; [subst d|rewrite (ep_interest e Hi)]; split.
      * intros (-> & -> & Hne). exists (set_obj f ev). rewrite lookup_insert_eq, wants_set by done.
        split_and!; congruence.
      * intros (g & Hg & Hga & Hgd & Hgw & ->).
        assert (q = p) as ->.
        { destruct (Hold q g Hg Hga) as (h & Hh & Hha & Hhd). eapply (ep_single e Hi); eauto. congruence. }
        rewrite lookup_insert_eq in Hg. injection Hg as <-. rewrite wants_set in Hgw |- * by done. done.
      * intros (g & Hg & Hrest). exists g. rewrite lookup_insert_ne; [done|].
        intros ->. destruct Hrest as (_ & Hgd & _). congruence.
      * intros (g & Hg & Hrest). destruct (decide (q = p)) as [->|Hne].
        { rewrite lookup_insert_eq in Hg. injection Hg as <-. destruct Hrest as (_ & Hgd & _). congruence. }
        rewrite lookup_insert_ne in Hg by done. eauto.
    + rewrite (ep_interest e Hi). split; intros (g & Hg & Hga & Hrest).
      * exists g. rewrite lookup_insert_ne; [done|]. intros ->. congruence.
      * destruct (decide (q = p)) as [->|Hne].
        { rewrite lookup_insert_eq in Hg. injection Hg as <-. congruence. }
        rewrite lookup_insert_ne in Hg by done. eauto.
Qed.

(** one call with either back end *)
Lemma set_agrees_step w e p f ev : fd_inv w → ep_inv e → agrees w e →
  fdes w !! p = Some f → plain_events ev →
  ∃ w' e', fdevent_set p ev w = Ok tt w' ∧ epoll_set p ev e = Ok tt e'
    ∧ fd_inv w' ∧ ep_inv e' ∧ agrees w' e' ∧ dom (fdes w') = dom (fdes w).
Proof.
  intros Hi He Hag Hf Hev. destruct (Hag) as [Hfd Hpd _ _ _].
  assert (Hf' : fdes (e_fdw e) !! p = Some f) by congruence.
  pose proof (fdevent_set_eq w p f ev Hi Hf) as Hs. pose proof (epoll_set_eq e p f ev He Hf') as Hs'.
  cbv zeta in Hs, Hs'. rewrite (plain_land ev Hev) in Hs, Hs'. fold (wants f) in Hs.
  rewrite Hs, Hs' by (intros; rewrite Hpd; apply (fi_queue w Hi); eauto). do 2 eexists. do 2 (split; [done|]).
  destruct (wants f =? ev); [done|].
  assert (fd_inv (set_result p f ev w)) by (rewrite <- (plain_land ev Hev); by apply set_result_inv).
  assert (ep_inv (epoll_result p f ev e)) by by apply epoll_result_inv.
  split_and!; [done..| |cbn; apply dom_insert_lookup_L; by eexists].
  apply inv_agrees; [done..| |]; cbn; congruence.
Qed.

(** a sequence of changes *)
Fixpoint select_sets (l : list (Z * Z)) : M fdw unit :=
  match l with [] => ret tt | (p, ev) :: l' => fdevent_set p ev;;; select_sets l' end.
Fixpoint epoll_sets (l : list (Z * Z)) : M epw unit :=
  match l with [] => ret tt | (p, ev) :: l' => epoll_set p ev;;; epoll_sets l' end.


(** a report is delivered as the select loop delivers it *)
Lemma epoll_deliver_report bits p l w f : fdes w !! p = Some f → events_of bits ≠ 0 →
  epoll_deliver ((bits, p) :: l) w = bind (report p (events_of bits)) (λ _, epoll_deliver l) w.
Proof.
  intros Hf Hne. cbn [epoll_deliver]. unfold report. rewrite !bind_assoc. fde_step. fde_step.
  symmetry. fde_step. rewrite bind_assoc. fde_step. cbn [events set_events state].
  by rewrite (proj2 (Z.eqb_neq _ 0)) by by apply lor_nonzero.
Qed.
Lemma ready_reported m code bits p : epoll_ready m code = Some (bits, p) →
  Z.land bits (Z.lor (Z.lor EPOLLIN EPOLLOUT) (Z.lor EPOLLERR EPOLLHUP)) ≠ 0 → events_of bits ≠ 0.
Proof.
  intros _ Hne H. apply Hne. unfold events_of in H. rewrite !Z.lor_eq_0_iff in H.
  rewrite !Z.land_lor_distr_r, !Z.lor_eq_0_iff. unfold has in H.
  destruct H as [[H1 H2] H3].
  destruct (Z.eqb_spec (Z.land bits EPOLLIN) 0); [|done]. destruct (Z.eqb_spec (Z.land bits EPOLLOUT) 0); [|done].
  destruct (Z.eqb_spec (Z.land bits (Z.lor EPOLLERR EPOLLHUP)) 0) as [E|]; [|done].
  rewrite Z.land_lor_distr_r, Z.lor_eq_0_iff in E. tauto.
Qed.

(** An object whose FDE_DONT_CLOSE bit was set by hand, as jdwp_process_alloc
    does, counts as registered although it is not: the first request for events
    is an EPOLL_CTL_MOD the kernel refuses, and the daemon exits. *)
Theorem dont_close_exits e p f ev : fdes (e_fdw e) !! p = Some f → active f = true →
  has (state f) FDE_DONT_CLOSE = true → interest e !! fd f = None → wants f ≠ Z.land ev FDE_EVENTMASK →
  ∃ e', epoll_set p ev e = Exit 1 e'.
Proof.
  intros Hf Ha Hd Hn Hw. unfold epoll_set. cbv zeta. rewrite (bind_ok _ _ _ _ _ (EF_at e p f Hf)).
  fold (wants f). rewrite (proj2 (Z.eqb_neq _ _) Hw). fold (active f). rewrite Ha. cbn [when].
  unfold epoll_update. rewrite bind_assoc, (bind_ok _ _ _ _ _ (EF_at e p f Hf)). cbv zeta.
  rewrite bind_assoc. erewrite bind_ok by (apply EF_ok, fde_put_ok, Hf). fold (wants f).
  assert (wants f ≠ 0) as Hz.
  { intros H0. apply (f_equal (λ x, has x FDE_DONT_CLOSE)) in H0. unfold wants in H0. bits. congruence. }
  rewrite (proj2 (Z.eqb_neq _ 0) Hz). unfold ctl_or_exit, epoll_ctl, bind, exit. cbn.
  destruct (epoll_mask _ =? 0); cbn; rewrite Hn; cbn; eauto.
Qed.

Module DemoEpoll.
(** the state with a socket on descriptor 5 watched for reading *)
Definition epo : epw := mkEpw Demo.w2 9 {[ 5 := (EPOLLIN, 1) ]}.
Definition changes : list (Z * Z) := [(1, FDE_READ + FDE_WRITE); (1, FDE_WRITE); (1, 0); (1, FDE_ERROR)].
End DemoEpoll.

Lemma demo_objects : fdes Demo.w2 = {[ 1 := mkFde 5 false (FDE_ACTIVE + FDE_READ) 0 local_socket_event_func_ 7 ]}.
Proof. vm_compute. reflexivity. Qed.
Lemma demo_ep_inv : ep_inv DemoEpoll.epo.
Proof.
  split; cbn [DemoEpoll.epo e_fdw interest]; rewrite demo_objects.
  - intros p q f g [<- <-]%lookup_singleton_Some [<- <-]%lookup_singleton_Some. done.
  - intros p f [<- <-]%lookup_singleton_Some _. vm_compute. by split.
  - intros d m p. rewrite lookup_singleton_Some. split.
    + intros [<- [= <- <-]]. eexists. split; [apply lookup_insert_eq|]. vm_compute. done.
    + intros (f & [<- <-]%lookup_singleton_Some & _ & <- & _ & ->). done.
Qed.

Lemma demo_registrations :
  match epoll_sets DemoEpoll.changes DemoEpoll.epo with
  | Ok _ e => interest e = {[ 5 := (Z.lor EPOLLERR EPOLLHUP, 1) ]}
  | _ => False
  end.
Proof. vm_compute. reflexivity. Qed.
