(* ===== verification/Trace.v ===== *)
(** * Tracing (adbd/src/adb.c, transport.c, fdevent.c; adbd/include/qemu_pipe.h)

    The mask of traced parts read from ADB_TRACE, the texts the dump functions
    build in arrays of fixed size, and the pipe to the emulator that can take
    the messages.  print_packet is compiled with DEBUG_PACKETS, dump_fde and
    dump_all_fds with DEBUG.

    Theorems: the mask is the one of the words of the variable; the arrays of
    dump_hex and dump_all_fds are large enough for every input; a pipe is
    opened exactly when the whole request could be written. *)

From S2P Require Import Prelude Kernel Packet DList Fdevent.

Definition TRACE_ADB : Z := 0.
Definition TRACE_SOCKETS : Z := 1.
Definition TRACE_PACKETS : Z := 2.
Definition TRACE_TRANSPORT : Z := 3.
Definition TRACE_RWX : Z := 4.
Definition TRACE_USB : Z := 5.
Definition TRACE_SYNC : Z := 6.
Definition TRACE_SYSDEPS : Z := 7.
Definition TRACE_JDWP : Z := 8.
Definition TRACE_SERVICES : Z := 9.
Definition TRACE_AUTH : Z := 10.

(** ** adb_trace_init *)

Definition tags : list (list Z * Z) :=
  [(str "1", 0); (str "all", 0); (str "adb", TRACE_ADB); (str "sockets", TRACE_SOCKETS);
   (str "packets", TRACE_PACKETS); (str "rwx", TRACE_RWX); (str "usb", TRACE_USB);
   (str "sync", TRACE_SYNC); (str "sysdeps", TRACE_SYSDEPS); (str "transport", TRACE_TRANSPORT);
   (str "jdwp", TRACE_JDWP); (str "services", TRACE_SERVICES); (str "auth", TRACE_AUTH)].

Definition separator (c : Z) : bool := existsb (Z.eqb c) (str " ,:;").
(** the characters before q = strpbrk(p, " ,:;"), the whole string if there is none *)
Fixpoint word_of (p : list Z) : list Z :=
  match p with
  | [] => []
  | c :: p' => if separator c then [] else c :: word_of p'
  end.
(** len == taglen && !memcmp *)
Fixpoint find_tag (l : list (list Z * Z)) (w : list Z) : option Z :=
  match l with
  | [] => None
  | (tag, flag) :: l' =>
      if decide (length w = length tag) then if strncmp_eq tag w (length w) then Some flag else find_tag l' w
      else find_tag l' w
  end.

(** the loop over *p; None: the bound was too small *)
Fixpoint trace_loop (fuel : nat) (p : list Z) (mask : Z) : option Z :=
  match p with
  | [] => Some mask
  | _ =>
      match fuel with
      | O => None
      | S fuel' =>
          let w := word_of p in
          let q := drop (length w) p in
          match find_tag tags w with
          | Some flag =>
              if flag =? 0 then Some (-1)
              else trace_loop fuel' (tail q) (Z.lor mask (Z.shiftl 1 flag))
          | None => trace_loop fuel' (tail q) mask
          end
      end
  end.
(** [p]: the value of ADB_TRACE; adb_trace_mask before and after *)
Definition adb_trace_init (p : option (list Z)) (adb_trace_mask : Z) : option Z :=
  match p with None => Some adb_trace_mask | Some p => trace_loop (length p) p adb_trace_mask end.

(** ** The pipe to the emulator *)

Definition EINVAL : Z := 22.
Definition ECONNRESET : Z := 104.

Definition qemu_pipe_open (pipeName : list Z) : M kern Z :=
  match pipeName with
  | [] => modify (set_errno EINVAL);;; ret (-1)
  | _ =>
      let buff := take 255 (str "pipe:" ++ pipeName) in
      do fd <- adb_open (str "/dev/qemu_pipe");
      if fd <? 0 then ret (-1)
      else
        do r <- adb_write fd (buff ++ [0]);
        match r with
        | inl n =>
            if decide (n = length buff + 1)%nat then ret fd
            else modify (set_errno (if decide (n = 0)%nat then ECONNRESET else EINVAL));;; ret (-1)
        | inr _ => ret (-1)
        end
  end.

(** the new value of adb_debug_qemu *)
Definition adb_qemu_trace_init (adb_debug_qemu : Z) : M kern Z :=
  if 0 <=? adb_debug_qemu then ret adb_debug_qemu else qemu_pipe_open (str "qemud:adb-debug").
(** [text]: the message after formatting *)
Definition adb_qemu_trace (adb_debug_qemu : Z) (text : list Z) : M kern unit :=
  do ok <- malloc_ok;
  if ok && (0 <=? adb_debug_qemu) then do _ <- adb_write adb_debug_qemu (take 1023 text); ret tt else ret tt.

(** the statements after the unconditional return are never executed *)
Definition start_device_log : M kern unit := ret tt.

(** ** Dumps of packets *)

Definition fmt_02x (n : Z) : list Z := let d := fmt_x n in replicate (2 - length d) 48 ++ d.
Definition fmt_08x (n : Z) : list Z := let d := fmt_x n in replicate (8 - length d) 48 ++ d.

Definition MAX_DUMP_HEX_LEN : nat := 16.
(** an array being filled: None when a byte would fall outside *)
Definition put (i : nat) (bs buffer : list Z) : option (list Z) :=
  if decide (i + length bs ≤ length buffer)%nat
  then Some (take i buffer ++ bs ++ drop (i + length bs) buffer) else None.

Fixpoint hex_loop (cs : list Z) (pb : nat) (buffer : list Z) : option (nat * list Z) :=
  match cs with
  | [] => Some (pb, buffer)
  | c :: cs' => buffer ← put pb (fmt_02x c ++ [0]) buffer; hex_loop cs' (pb + 2) buffer
  end.
Definition dumped (c : Z) : Z := if (c <? 32) || (127 <? c) then 46 else c.
Fixpoint char_loop (cs : list Z) (pb : nat) (buffer : list Z) : option (nat * list Z) :=
  match cs with
  | [] => Some (pb, buffer)
  | c :: cs' => buffer ← put pb [dumped c] buffer; char_loop cs' (pb + 1) buffer
  end.
(** the text printed, without the newline; [junk] was in the array before, and
    None stands for an access outside of an array *)
Definition dump_hex (junk ptr : list Z) (len : Z) : option (list Z) :=
  let len2 := Z.min (s32 len) (Z.of_nat MAX_DUMP_HEX_LEN) in
  let cs := take (Z.to_nat len2) ptr in
  if decide (length cs < Z.to_nat len2)%nat then None
  else
    '(pb, buffer) ← hex_loop cs 0 (take (MAX_DUMP_HEX_LEN * 2 + 1 + MAX_DUMP_HEX_LEN + 1) junk);
    buffer ← put pb [32; 0] buffer;
    '(pb, buffer) ← char_loop cs (pb + 1) buffer;
    buffer ← put pb [0] buffer;
    cstring buffer.

(** the four characters of a command, if they are printable *)
Definition command_text (command : Z) : list Z :=
  let bs := le32 command in
  if forallb (λ b, (32 <=? b) && (b <? 127)) bs then bs else take 8 (fmt_08x command).
Definition arg_text (a : Z) : list Z := if a <? 256 then fmt_d a else take 11 (str "0x" ++ fmt_x a).
Definition dump_packet (name func junk : list Z) (p : apacket) (data : list Z) : option (list Z) :=
  let m := p_msg p in
  hex ← dump_hex junk data (s32 (data_length m));
  Some (name ++ str ": " ++ func ++ str ": [" ++ command_text (command m) ++ str "] arg0="
        ++ arg_text (arg0 m) ++ str " arg1=" ++ arg_text (arg1 m) ++ str " (len=" ++ fmt_d (s32 (data_length m))
        ++ str ") " ++ hex).

Definition DUMPMAX : Z := 32.
Definition packet_tag (command : Z) : list Z :=
  if command =? A_SYNC then str "SYNC" else if command =? A_CNXN then str "CNXN"
  else if command =? A_OPEN then str "OPEN" else if command =? A_OKAY then str "OKAY"
  else if command =? A_CLSE then str "CLSE" else if command =? A_WRTE then str "WRTE"
  else if command =? A_AUTH then str "AUTH" else str "????".
Definition printed (c : Z) : Z := if (32 <=? c) && (c <? 127) then c else 46.
Definition print_packet (label : list Z) (p : apacket) (data : list Z) : option (list Z) :=
  let m := p_msg p in
  let count := Z.to_nat (Z.min (data_length m) DUMPMAX) in
  if decide (length data < count)%nat then None
  else
    Some (label ++ str ": " ++ packet_tag (command m) ++ str " " ++ fmt_08x (arg0 m) ++ str " " ++ fmt_08x (arg1 m)
          ++ str " " ++ fmt_04x (data_length m) ++ [32; 34] ++ (printed <$> take count data)
          ++ (if DUMPMAX <? data_length m then [10] else [34; 10])).

(** ** Dumps of the event loop *)

Definition fmt_03d (n : Z) : list Z := let d := fmt_d n in replicate (3 - length d) 48 ++ d.
Definition dump_fde (p : Z) (info : list Z) : M fdw (list Z) :=
  do f <- fde_at p;
  let c bit ch := if has (state f) bit then ch else 32 in
  ret (str "FDE #" ++ fmt_03d (fd f) ++ [32; c FDE_READ 82; c FDE_WRITE 87; c FDE_ERROR 69; 32] ++ info ++ [10]).

(** SAFE_SPRINTF: the text so far and the space left; None: goto cleanup *)
Definition safe_sprintf (st : list Z * Z) (s : list Z) : option (list Z * Z) :=
  let '(text, max_chars) := st in
  let printed_out := Z.of_nat (length s) in
  if printed_out <=? 0 then None
  else if max_chars <? printed_out then None
  else Some (text ++ take (Z.to_nat (max_chars - 1)) s, max_chars - printed_out).

Fixpoint dump_fds_loop (fuel : nat) (i : Z) (st : list Z * Z) : M fdw (option (list Z)) :=
  match fuel with
  | O => ret (Some (fst st))
  | S fuel' =>
      do p <- fd_table_at i;
      match safe_sprintf st (fmt_d i) with
      | None => ret None
      | Some st =>
          if p =? 0 then
            match safe_sprintf st (str "? ") with
            | None => ret None
            | Some st => dump_fds_loop fuel' (i + 1) st
            end
          else
            do r <- K (sys_ "fcntl" [AZ i; AS (str "F_GETFL")]);
            match (if r <? 0 then safe_sprintf st (str "b") else Some st) with
            | None => ret None
            | Some st =>
                match safe_sprintf st (str " ") with
                | None => ret None
                | Some st => dump_fds_loop fuel' (i + 1) st
                end
            end
      end
  end.
(** the list printed; None: no memory, or cleanup without a message *)
Definition dump_all_fds : M fdw (option (list Z)) :=
  do ok <- K malloc_ok;
  if negb ok then ret None
  else
    do n <- gets select_n;
    dump_fds_loop (Z.to_nat n) 0 ([], FD_SETSIZE * 6 + 1).

(** ** The mask *)

(** the parts of a list between separators *)
Fixpoint split_words (p : list Z) : list (list Z) :=
  match p with
  | [] => []
  | c :: p' =>
      if separator c then [] :: split_words p'
      else match split_words p' with [] => [[c]] | w :: l => (c :: w) :: l end
  end.

Lemma split_words_step p : p ≠ [] →
  split_words p = word_of p :: split_words (tail (drop (length (word_of p)) p)).
Proof.
  induction p as [|c p IH]; [done|]. intros _. cbn [split_words word_of]. destruct (separator c); [done|].
  cbn [length drop]. destruct p as [|c' p']; [done|]. by rewrite IH by done.
Qed.

Lemma find_tag_spec l : NoDup l.*1 → ∀ w flag, find_tag l w = Some flag ↔ (w, flag) ∈ l.
Proof.
  induction l as [|[tag f] l IH]; cbn; intros Hnd w flag; [split; [done|by intros ?%not_elem_of_nil]|].
  apply list.NoDup_cons in Hnd as [Hni Hnd]. rewrite elem_of_cons, <- IH by done.
  assert (Hin : find_tag l tag = Some flag → False).
  { intros Hf. apply IH in Hf; [|done]. apply Hni. apply list_elem_of_fmap. by exists (tag, flag). }
  case_decide as Hl; [destruct (strncmp_eq tag w (length w)) eqn:Hs|].
  - apply strncmp_eq_prefix in Hs as [k ->]. rewrite length_app in Hl.
    destruct k; [|cbn in Hl; lia]. rewrite app_nil_r in *. split; [intros [= ->]; by left|].
    intros [[= ->]|H]; [done|by destruct Hin].
  - split; [by right|]. intros [[= -> ->]|]; [|done].
    rewrite (proj2 (strncmp_eq_prefix tag tag)) in Hs; done.
  - split; [by right|]. intros [[= -> ->]|]; done.
Qed.
Lemma tags_distinct : NoDup tags.*1.
Proof. refine (bool_decide_unpack _ _). vm_compute. reflexivity. Qed.

Lemma tag_nonneg w flag : (w, flag) ∈ tags → 0 ≤ flag.
Proof.
  assert (H : forallb (λ t, 0 <=? t.2) tags = true) by reflexivity.
  intros Hin%list_elem_of_In. rewrite forallb_forall in H. apply H in Hin. cbn in Hin. lia.
Qed.

Lemma trace_loop_mask n p mask : (length p ≤ n)%nat →
  ∃ m, trace_loop n p mask = Some m
    ∧ ∀ k, 0 ≤ k → Z.testbit m k = true ↔ Z.testbit mask k = true
        ∨ ∃ w flag, w ∈ split_words p ∧ (w, flag) ∈ tags ∧ (flag = 0 ∨ flag = k).
Proof.
  revert p mask.
  induction n as [|n IH]; intros p mask Hle; (destruct p as [|c p]; [exists mask; split; [done|]; intros k _;
    split; [by left|]; intros [|(w & _ & Hw & _)]; [done|by apply not_elem_of_nil in Hw]|]); [cbn in Hle; lia|].
  remember (c :: p) as s eqn:Hs. assert (Hne : s ≠ []) by (by subst).
  assert (Hw : split_words s = word_of s :: split_words (tail (drop (length (word_of s)) s)))
    by by apply split_words_step.
  set (rest := tail (drop (length (word_of s)) s)) in *.
  assert (Hr : (length rest ≤ n)%nat).
  { unfold rest. destruct (drop _ s) as [|x r] eqn:Hd; cbn; [lia|].
    apply (f_equal length) in Hd. rewrite length_drop in Hd. cbn in Hd. lia. }
  assert (Hstep : trace_loop (S n) s mask = match find_tag tags (word_of s) with
    | Some flag => if flag =? 0 then Some (-1) else trace_loop n rest (Z.lor mask (Z.shiftl 1 flag))
    | None => trace_loop n rest mask end) by (by subst s).
  rewrite Hstep, Hw. clear Hstep Hs. destruct (find_tag tags (word_of s)) as [flag|] eqn:Hf.
  - apply find_tag_spec in Hf; [|apply tags_distinct]. destruct (Z.eqb_spec flag 0) as [->|Hz].
    + exists (-1). split; [done|]. intros k Hk. rewrite Z.bits_m1 by done. split; [|done]. intros _.
      right. exists (word_of s), 0. split_and!; [by left|done|by left].
    + destruct (IH rest (Z.lor mask (Z.shiftl 1 flag)) Hr) as (m & Hm & Hbits). exists m. split; [done|].
      intros k Hk. rewrite Hbits by done. rewrite Z.lor_spec, orb_true_iff.
      assert (Hflag : 0 ≤ flag) by (by apply (tag_nonneg (word_of s))).
      rewrite Z.shiftl_1_l, Z.pow2_bits_eqb, Z.eqb_eq by done. setoid_rewrite (elem_of_cons (split_words rest)).
      split.
      * intros [[?| ->]|(w & g & ? & ? & ?)]; [by left| |]; right;
          [exists (word_of s), k|exists w, g]; (refine (conj _ (conj _ _)); [tauto|assumption|tauto]).
      * intros [?|(w & g & [->|?] & Hg & Hk')]; [by left; left| |right; by exists w, g].
        assert (g = flag) as ->.
        { apply find_tag_spec in Hg, Hf; [|apply tags_distinct..]. congruence. }
        destruct Hk' as [| ->]; [done|]. left; by right.
  - destruct (IH rest mask Hr) as (m & Hm & Hbits). exists m. split; [done|].
    intros k Hk. rewrite Hbits by done. setoid_rewrite (elem_of_cons (split_words rest)). split.
    + intros [?|(w & g & ? & ? & ?)]; [by left|right; exists w, g]. refine (conj _ (conj _ _)); [tauto|assumption|tauto].
    + intros [?|(w & g & [->|?] & Hg & ?)]; [by left| |right; by exists w, g].
      apply find_tag_spec in Hg; [congruence|apply tags_distinct].
Qed.

(** adb_trace_init reads the whole variable, and bit [k] of the mask is
    set afterwards exactly if it was before or one of the words, separated by
    blanks, commas, colons and semicolons, is the tag of [k] or one that stands
    for everything (flag 0). *)
Theorem adb_trace_init_mask p mask :
  ∃ m, adb_trace_init (Some p) mask = Some m
    ∧ ∀ k, 0 ≤ k → Z.testbit m k = true ↔ Z.testbit mask k = true
        ∨ ∃ w flag, w ∈ split_words p ∧ (w, flag) ∈ tags ∧ (flag = 0 ∨ flag = k).
Proof. by apply trace_loop_mask. Qed.

(** TRACE_ADB is 0, which the table uses for everything: tracing adb traces
    all parts. *)
Theorem trace_adb_traces_all : adb_trace_init (Some (str "adb")) 0 = Some (-1)
  ∧ adb_trace_init (Some (str "usb,auth")) 0 = Some (2 ^ TRACE_USB + 2 ^ TRACE_AUTH).
Proof. split; reflexivity. Qed.

(** ** The arrays *)

Lemma put_app pre bs rest : (length bs ≤ length rest)%nat →
  put (length pre) bs (pre ++ rest) = Some ((pre ++ bs) ++ drop (length bs) rest).
Proof.
  intros H. unfold put. rewrite length_app, decide_True by lia.
  by rewrite take_app_length, drop_app_add', <- app_assoc by done.
Qed.

Lemma hex_pair c : is_byte c → ∃ a b, fmt_02x c = [a; b] ∧ a ≠ 0 ∧ b ≠ 0.
Proof.
  assert (H : forallb (λ c, match fmt_02x c with [a; b] => negb (a =? 0) && negb (b =? 0) | _ => false end)
                (seqZ 0 256) = true) by (vm_compute; reflexivity).
  intros Hc. rewrite forallb_forall in H. specialize (H c).
  assert (In c (seqZ 0 256)) as Hin by (apply list_elem_of_In, elem_of_seqZ; unfold is_byte in Hc; lia).
  apply H in Hin. destruct (fmt_02x c) as [|a [|b [|]]]; try done. exists a, b.
  apply andb_true_iff in Hin as [?%negb_true_iff ?%negb_true_iff]. split_and!; [done|lia|lia].
Qed.

Definition hex_text (cs : list Z) : list Z := mjoin (fmt_02x <$> cs).
Lemma hex_text_cons c cs : hex_text (c :: cs) = fmt_02x c ++ hex_text cs.
Proof. done. Qed.
Lemma hex_text_ok cs : Forall is_byte cs → length (hex_text cs) = (2 * length cs)%nat ∧ 0 ∉ hex_text cs.
Proof.
  induction cs as [|c cs IH]; [split; [done|apply not_elem_of_nil]|].
  intros [Hc Hcs]%list.Forall_cons. destruct (IH Hcs) as [Hl Hn]. destruct (hex_pair c Hc) as (a & b & Hab & ? & ?).
  rewrite hex_text_cons, Hab. cbn [app length].
  split; [lia|]. rewrite !not_elem_of_cons. auto.
Qed.

Lemma hex_loop_text cs pre rest : Forall is_byte cs → (2 * length cs + 1 ≤ length rest)%nat →
  ∃ rest', hex_loop cs (length pre) (pre ++ rest) = Some (length (pre ++ hex_text cs), (pre ++ hex_text cs) ++ rest')
    ∧ length rest' = (length rest - 2 * length cs)%nat.
Proof.
  revert pre rest. induction cs as [|c cs IH]; intros pre rest; cbn [hex_loop length].
  - intros _ _. exists rest. unfold hex_text. cbn. rewrite app_nil_r. split; [done|lia].
  - intros [Hc Hcs]%list.Forall_cons Hl. destruct (hex_pair c Hc) as (a & b & Hab & _).
    rewrite put_app by (rewrite Hab; cbn; lia). rewrite Hab. cbn [mbind option_bind app length].
    replace ((pre ++ [a; b; 0]) ++ drop 3 rest) with ((pre ++ [a; b]) ++ 0 :: drop 3 rest) by (by rewrite <- !app_assoc).
    replace (length pre + 2)%nat with (length (pre ++ [a; b])) by (by rewrite length_app).
    destruct (IH (pre ++ [a; b]) (0 :: drop 3 rest) Hcs) as (r & -> & Hr).
    { cbn. rewrite length_drop. lia. }
    exists r. rewrite hex_text_cons, Hab, <- !app_assoc. split; [done|].
    rewrite Hr. cbn. rewrite length_drop. lia.
Qed.
Lemma char_loop_text cs pre rest : (length cs ≤ length rest)%nat →
  ∃ rest', char_loop cs (length pre) (pre ++ rest)
      = Some (length (pre ++ (dumped <$> cs)), (pre ++ (dumped <$> cs)) ++ rest')
    ∧ length rest' = (length rest - length cs)%nat.
Proof.
  revert pre rest. induction cs as [|c cs IH]; intros pre rest; cbn [char_loop length fmap list_fmap].
  - intros _. exists rest. rewrite app_nil_r. split; [done|lia].
  - intros Hl. rewrite put_app by (cbn; lia). cbn [mbind option_bind length].
    replace (length pre + 1)%nat with (length (pre ++ [dumped c])) by (by rewrite length_app).
    destruct (IH (pre ++ [dumped c]) (drop 1 rest)) as (r & -> & Hr); [rewrite length_drop; lia|].
    exists r. rewrite <- !app_assoc. split; [done|]. rewrite Hr, length_drop. lia.
Qed.

(** The array of dump_hex is large enough: whatever the length of the
    packet and whatever was in the array, the text is the two digits of each of
    the first sixteen bytes, a blank, and the bytes as characters, with a dot
    for those below a blank or above 127. *)
Theorem dump_hex_text junk ptr len :
  let cs := take (Z.to_nat (Z.min (s32 len) 16)) ptr in
  (50 ≤ length junk)%nat → Forall is_byte ptr → Z.min (s32 len) 16 ≤ Z.of_nat (length ptr) →
  dump_hex junk ptr len = Some (hex_text cs ++ 32 :: (dumped <$> cs)).
Proof.
  intros cs Hj Hb Hl. unfold dump_hex. change (Z.of_nat MAX_DUMP_HEX_LEN) with 16. fold cs.
  assert (Hc : length cs = Z.to_nat (Z.min (s32 len) 16)) by (unfold cs; rewrite length_take; lia).
  assert (Hc16 : (length cs ≤ 16)%nat) by lia.
  assert (Hcb : Forall is_byte cs) by (by apply Forall_take).
  rewrite decide_False by lia. set (buf := take _ junk).
  assert (Hbuf : length buf = 50%nat) by (unfold buf, MAX_DUMP_HEX_LEN; rewrite length_take; lia).
  destruct (hex_text_ok cs Hcb) as [Hhl Hh0].
  destruct (hex_loop_text cs [] buf Hcb) as (r1 & E1 & Hr1); [lia|]. cbn [app length] in E1. rewrite E1.
  cbn [mbind option_bind]. rewrite put_app by (cbn; lia). cbn [mbind option_bind length].
  replace ((hex_text cs ++ [32; 0]) ++ drop 2 r1) with ((hex_text cs ++ [32]) ++ 0 :: drop 2 r1)
    by (by rewrite <- !app_assoc).
  replace (length (hex_text cs) + 1)%nat with (length (hex_text cs ++ [32])) by (by rewrite length_app).
  destruct (char_loop_text cs (hex_text cs ++ [32]) (0 :: drop 2 r1)) as (r2 & -> & Hr2).
  { cbn. rewrite length_drop. lia. }
  cbn [mbind option_bind]. rewrite put_app.
  2:{ rewrite Hr2. cbn. rewrite length_drop. lia. }
  cbn [mbind option_bind length]. rewrite <- !app_assoc. cbn [app].
  change (hex_text cs ++ 32 :: (dumped <$> cs) ++ 0 :: drop 1 r2)
    with (hex_text cs ++ (32 :: (dumped <$> cs)) ++ 0 :: drop 1 r2). rewrite app_assoc.
  apply cstring_app. rewrite elem_of_app, elem_of_cons, list_elem_of_fmap.
  intros [?|[?|(c & Hd & Hin)]]; [done..|]. unfold dumped in Hd.
  destruct ((c <? 32) || (127 <? c)) eqn:E; [done|]. apply orb_false_iff in E as [E _]. lia.
Qed.

Lemma dump_hex_text_witness :
  dump_hex (replicate 50 7) (str "OKAY" ++ [0; 255]) 6 = Some (str "4f4b415900ff OKAY..").
Proof. apply (dump_hex_text (replicate 50 7) (str "OKAY" ++ [0; 255]) 6); vm_compute; [lia|repeat constructor; congruence|congruence]. Defined.

(** ** The table of the event loop *)

Lemma fmt_d_short i : 0 ≤ i < 1024 → (1 ≤ length (fmt_d i) ≤ 4)%nat.
Proof.
  assert (H : forallb (λ i, (1 <=? length (fmt_d i))%nat && (length (fmt_d i) <=? 4)%nat) (seqZ 0 1024) = true)
    by (vm_compute; reflexivity).
  intros Hi. rewrite forallb_forall in H. specialize (H i).
  assert (In i (seqZ 0 1024)) as Hin by (apply list_elem_of_In, elem_of_seqZ; lia).
  apply H, andb_true_iff in Hin as [?%Nat.leb_le ?%Nat.leb_le]. lia.
Qed.
Lemma safe_sprintf_fits text max s : (1 ≤ length s)%nat → Z.of_nat (length s) < max →
  safe_sprintf (text, max) s = Some (text ++ s, max - Z.of_nat (length s)).
Proof.
  intros H1 H2. unfold safe_sprintf. rewrite (proj2 (Z.leb_gt _ 0)) by lia.
  rewrite (proj2 (Z.ltb_ge _ _)) by lia. by rewrite take_ge by lia.
Qed.

Lemma dump_fds_loop_fits fuel i text max w : fd_inv w → 0 ≤ i → i + Z.of_nat fuel ≤ select_n w →
  select_n w ≤ FD_SETSIZE → 6 * Z.of_nat fuel < max →
  ∃ text' w', dump_fds_loop fuel i (text, max) w = Ok (Some text') w'.
Proof.
  revert i text max w. induction fuel as [|fuel IH]; intros i text max w Hi Hi0 Hn Hs Hm; cbn [dump_fds_loop].
  - eexists _, _. done.
  - destruct (table_lookup w i Hi) as [p Hp]; [lia|].
    rewrite (bind_ok _ _ _ _ _ (fd_table_at_ok w i p Hi0 Hp)).
    pose proof (fmt_d_short i) as Hd. unfold FD_SETSIZE in *.
    rewrite safe_sprintf_fits by lia.
    destruct (p =? 0); [rewrite safe_sprintf_fits by (cbn; lia); apply IH; cbn; (done || lia)|].
    assert (HK : ∃ r k, K (sys_ "fcntl" [AZ i; AS (str "F_GETFL")]) w = Ok r (upd_kern k w)).
    { unfold K, zoom, sys_, sys, bind. destruct (k_sys (w_kern w)) as [|x l]; cbn; eauto. }
    destruct HK as (r & k & HK). rewrite (bind_ok _ _ _ _ _ HK).
    destruct (r <? 0); rewrite ?safe_sprintf_fits by (cbn; lia);
      (apply IH; [by apply inv_upd_kern|cbn; lia..]).
Qed.

(** The buffer of dump_all_fds is large enough: in every state of the
    event loop within the range of select, whatever fcntl answers, the dump is
    complete and the way out for lack of space is never taken. *)
Theorem dump_all_fds_complete w : fd_inv w → select_n w ≤ FD_SETSIZE → head (k_oom (w_kern w)) ≠ Some true →
  ∃ text w', dump_all_fds w = Ok (Some text) w'.
Proof.
  intros Hi Hn Hoom. unfold dump_all_fds.
  assert (HK : ∃ k, K malloc_ok w = Ok true (upd_kern k w)).
  { unfold K, zoom, malloc_ok. destruct (k_oom (w_kern w)) as [|[] l] eqn:E; cbn in *; [exists (w_kern w)|done|]; eauto. }
  destruct HK as [k HK]. rewrite (bind_ok _ _ _ _ _ HK). cbn [negb].
  erewrite bind_ok by done. pose proof (fi_select w Hi).
  apply dump_fds_loop_fits; [by apply inv_upd_kern|lia| | |]; unfold FD_SETSIZE in *; cbn; lia.
Qed.

(** ** The request to the emulator *)

(** The descriptor is returned only if the whole request was written to it;
    otherwise the result is -1, and a descriptor that was opened is not closed. *)
Theorem qemu_pipe_open_request name k : name ≠ [] → (length name ≤ 250)%nat →
  ∃ r k', qemu_pipe_open name k = Ok r k'
    ∧ (0 ≤ r ∧ out_of r k' = out_of r k ++ str "pipe:" ++ name ++ [0] ∨ r = -1)
    ∧ (∀ d, Sys "close" [AZ d] ∈ k_trace k' → Sys "close" [AZ d] ∈ k_trace k).
Proof.
  intros Hn Hl. destruct name as [|c name]; [done|]. unfold qemu_pipe_open, adb_open, sys_, sys.
  rewrite take_ge by (cbn in *; lia).
  assert (Hin : ∀ d c' (l : list syscall), Sys "close" [AZ d] ≠ c' → Sys "close" [AZ d] ∈ l ++ [c'] → Sys "close" [AZ d] ∈ l).
  { intros d c' l Hne [|H%list_elem_of_singleton]%elem_of_app; done. }
  unfold bind at 1 2 3. destruct (k_sys k) as [|[r e o] l]; cbn [sr_ret sr_out sr_errno].
  { cbn. do 2 eexists. split; [done|]. split; [by right|]. cbn. intros d. by apply Hin. }
  destruct (Z.ltb_spec r 0) as [Hr|Hr].
  { cbn. rewrite (proj2 (Z.ltb_lt r 0)) by done. do 2 eexists. split; [done|]. split; [by right|].
    cbn. intros d. by apply Hin. }
  cbn [ret bind]. rewrite (proj2 (Z.ltb_ge r 0)) by done.
  unfold close_on_exec, note, modify, bind at 1 2, ret. cbn [fst].
  rewrite (proj2 (Z.ltb_ge r 0)) by done. unfold adb_write, bind.
  set (k1 := add_trace _ _). destruct (write_script (wr_of r k1) _) as [[n|e'] s'] eqn:Hw.
  - case_decide as Hd.
    + do 2 eexists. split; [done|]. split.
      * left. split; [done|]. rewrite out_of_add_out. rewrite take_ge by (rewrite Hd, length_app; done).
        by rewrite <- app_assoc.
      * cbn. intros d H. apply Hin in H; [|done]. by apply Hin in H.
    + do 2 eexists. split; [done|]. split; [by right|]. cbn. intros d H. apply Hin in H; [|done]. by apply Hin in H.
  - do 2 eexists. split; [done|]. split; [by right|]. cbn. intros d H. apply Hin in H; [|done]. by apply Hin in H.
Qed.
