(* ===== verification/World.v ===== *)
(** * The state of the daemon

    The heap objects (packets, sockets, transports, listeners, disconnect
    callbacks) by address, the static lists and counters of sockets.c,
    transport.c and adb.c, and the locks.  An object that is not in its map
    is not allocated: reaching it is a use after free; releasing it twice is
    one too.

    An object at address [a] has its embedded fdevent at [a + 1], and its
    embedded adisconnect (remote socket, listener) or list head (transport) at
    [a + 2]; allocations are 16 apart. *)

From S2P Require Import Prelude Kernel Packet DList Fdevent.

(** connection states (adb.h) *)
Definition CS_ANY : Z := -1.
Definition CS_OFFLINE : Z := 0.
Definition CS_BOOTLOADER : Z := 1.
Definition CS_DEVICE : Z := 2.
Definition CS_HOST : Z := 3.
Definition CS_RECOVERY : Z := 4.
Definition CS_NOPERM : Z := 5.
Definition CS_SIDELOAD : Z := 6.

Inductive transport_type := kTransportUsb | kTransportLocal | kTransportAny | kTransportHost.
#[export] Instance transport_type_eq_dec : EqDecision transport_type.
Proof. solve_decision. Defined.

(** the functions stored in asocket objects: those of sockets.c, of
    jdwp_service.c and of the device trackers of transport.c *)
Inductive enqueue_fn := local_socket_enqueue_ | remote_socket_enqueue_ | smart_socket_enqueue_
  | jdwp_socket_enqueue_ | jdwp_tracker_enqueue_ | device_tracker_enqueue_.
Inductive ready_fn := local_socket_ready_ | local_socket_ready_notify_ | remote_socket_ready_
  | smart_socket_ready_ | jdwp_socket_ready_ | jdwp_tracker_ready_ | device_tracker_ready_.
Inductive close_fn := local_socket_close_ | local_socket_close_notify_ | remote_socket_close_
  | smart_socket_close_ | jdwp_socket_close_ | jdwp_tracker_close_ | device_tracker_close_.
#[export] Instance enqueue_fn_eq_dec : EqDecision enqueue_fn.
Proof. solve_decision. Defined.
#[export] Instance ready_fn_eq_dec : EqDecision ready_fn.
Proof. solve_decision. Defined.
#[export] Instance close_fn_eq_dec : EqDecision close_fn.
Proof. solve_decision. Defined.

Record asocket := mkSock {
  s_id : Z;
  s_closing : bool;
  s_exit_on_close : bool;
  s_peer : Z;                (* 0 for NULL, as for all addresses *)
  s_fd : Z;
  s_write_fd : Z;
  s_pkts : list Z;           (* pkt_first, its successors, pkt_last *)
  s_enqueue : enqueue_fn;
  s_ready : ready_fn;
  s_close : close_fn;
  s_transport : Z;
  s_ext : Z;                 (* the int behind the asocket of a larger object: pass of a
                                JdwpSocket, need_update of a JdwpTracker, update_needed
                                of a device_tracker *)
}.

Inductive disconnect_fn := remote_socket_disconnect_ | listener_disconnect_.
Record adisconnect := mkDis { dis_func : disconnect_fn; dis_opaque : Z }.

Record atransport := mkTrans {
  t_fd_read : Z;
  t_fd_write : Z;
  t_transport_read : Z;
  t_transport_write : Z;
  t_ref_count : Z;
  t_sync_token : Z;
  t_connection_state : Z;
  t_online : bool;
  t_type : transport_type;   (* kTransportUsb: the functions of transport_usb.c,
                                kTransportLocal: those of transport_local.c *)
  t_usb : Z;                 (* address of the handle *)
  t_sfd : Z;
  t_serial : option (list Z);
  t_product : option (list Z);
  t_model : option (list Z);
  t_device : option (list Z);
  t_devpath : option (list Z);
  t_adb_port : Z;
  t_kicked : bool;
  t_token : list Z;
  t_failed_auth_attempts : Z;
}.

Record alistener := mkListener {
  l_fd : Z;
  l_local_name : list Z;
  l_connect_to : list Z;
  l_transport : Z;
}.

(** jdwp_service.c: a connection of a process that can be debugged *)
Record JdwpProcess := mkProc {
  pid : Z;
  socket : Z;
  jp_fde : Z;
  in_buff : list Z;          (* the characters read so far: in_len is their number *)
  out_fds : list Z;          (* the array *)
  out_count : Z;
}.

(** the static variables of jdwp_service.c *)
Record jdwp_state := mkJdwp {
  jdwp_procs : gmap Z JdwpProcess;
  jdwp_list : list Z;                      (* _jdwp_list *)
  jdwp_trackers_list : list Z;             (* _jdwp_trackers_list *)
  control_listen_socket : Z;               (* _jdwp_control *)
  control_fde : Z;
}.
Definition no_jdwp : jdwp_state := mkJdwp ∅ [] [] 0 0.

Record world := mkWorld {
  w_fd : fdw;
  w_packets : gmap Z apacket;
  w_sockets : gmap Z asocket;
  w_transports : gmap Z atransport;
  w_listeners : gmap Z alistener;
  w_disconnects : gmap Z adisconnect;      (* linked ones, by their address *)
  w_dislists : gmap Z (list Z);            (* transport -> t->disconnects *)
  local_socket_list : list Z;
  local_socket_closing_list : list Z;
  local_socket_next_id : Z;                (* unsigned *)
  transport_list : list Z;
  listener_list : list Z;
  socket_list_lock : bool;                 (* held *)
  transport_lock : bool;
  auth_enabled : bool;
  gListenAll : bool;
  adb_device_banner : list Z;
  transport_registration_send : Z;
  transport_registration_recv : Z;
  w_usb : gmap Z Usb.usb_handle;
  key_list : list (list Z);                (* adb_auth_client.c: the keys' bytes *)
  framework_fd : Z;
  w_jdwp : jdwp_state;
  device_tracker_list : list Z;            (* transport.c, host side *)
}.

(** ** Updates *)

Definition up_fd (x : fdw) (w : world) : world :=
  mkWorld x (w_packets w) (w_sockets w) (w_transports w) (w_listeners w) (w_disconnects w)
    (w_dislists w) (local_socket_list w) (local_socket_closing_list w) (local_socket_next_id w)
    (transport_list w) (listener_list w) (socket_list_lock w) (transport_lock w) (auth_enabled w)
    (gListenAll w) (adb_device_banner w) (transport_registration_send w) (transport_registration_recv w) (w_usb w) (key_list w) (framework_fd w) (w_jdwp w) (device_tracker_list w).
Definition up_packets (f : gmap Z apacket → gmap Z apacket) (w : world) : world :=
  mkWorld (w_fd w) (f (w_packets w)) (w_sockets w) (w_transports w) (w_listeners w) (w_disconnects w)
    (w_dislists w) (local_socket_list w) (local_socket_closing_list w) (local_socket_next_id w)
    (transport_list w) (listener_list w) (socket_list_lock w) (transport_lock w) (auth_enabled w)
    (gListenAll w) (adb_device_banner w) (transport_registration_send w) (transport_registration_recv w) (w_usb w) (key_list w) (framework_fd w) (w_jdwp w) (device_tracker_list w).
Definition up_sockets (f : gmap Z asocket → gmap Z asocket) (w : world) : world :=
  mkWorld (w_fd w) (w_packets w) (f (w_sockets w)) (w_transports w) (w_listeners w) (w_disconnects w)
    (w_dislists w) (local_socket_list w) (local_socket_closing_list w) (local_socket_next_id w)
    (transport_list w) (listener_list w) (socket_list_lock w) (transport_lock w) (auth_enabled w)
    (gListenAll w) (adb_device_banner w) (transport_registration_send w) (transport_registration_recv w) (w_usb w) (key_list w) (framework_fd w) (w_jdwp w) (device_tracker_list w).
Definition up_transports (f : gmap Z atransport → gmap Z atransport) (w : world) : world :=
  mkWorld (w_fd w) (w_packets w) (w_sockets w) (f (w_transports w)) (w_listeners w) (w_disconnects w)
    (w_dislists w) (local_socket_list w) (local_socket_closing_list w) (local_socket_next_id w)
    (transport_list w) (listener_list w) (socket_list_lock w) (transport_lock w) (auth_enabled w)
    (gListenAll w) (adb_device_banner w) (transport_registration_send w) (transport_registration_recv w) (w_usb w) (key_list w) (framework_fd w) (w_jdwp w) (device_tracker_list w).
Definition up_listeners (f : gmap Z alistener → gmap Z alistener) (w : world) : world :=
  mkWorld (w_fd w) (w_packets w) (w_sockets w) (w_transports w) (f (w_listeners w)) (w_disconnects w)
    (w_dislists w) (local_socket_list w) (local_socket_closing_list w) (local_socket_next_id w)
    (transport_list w) (listener_list w) (socket_list_lock w) (transport_lock w) (auth_enabled w)
    (gListenAll w) (adb_device_banner w) (transport_registration_send w) (transport_registration_recv w) (w_usb w) (key_list w) (framework_fd w) (w_jdwp w) (device_tracker_list w).
Definition up_disconnects (f : gmap Z adisconnect → gmap Z adisconnect)
    (g : gmap Z (list Z) → gmap Z (list Z)) (w : world) : world :=
  mkWorld (w_fd w) (w_packets w) (w_sockets w) (w_transports w) (w_listeners w) (f (w_disconnects w))
    (g (w_dislists w)) (local_socket_list w) (local_socket_closing_list w) (local_socket_next_id w)
    (transport_list w) (listener_list w) (socket_list_lock w) (transport_lock w) (auth_enabled w)
    (gListenAll w) (adb_device_banner w) (transport_registration_send w) (transport_registration_recv w) (w_usb w) (key_list w) (framework_fd w) (w_jdwp w) (device_tracker_list w).
Definition up_local_list (l : list Z) (w : world) : world :=
  mkWorld (w_fd w) (w_packets w) (w_sockets w) (w_transports w) (w_listeners w) (w_disconnects w)
    (w_dislists w) l (local_socket_closing_list w) (local_socket_next_id w)
    (transport_list w) (listener_list w) (socket_list_lock w) (transport_lock w) (auth_enabled w)
    (gListenAll w) (adb_device_banner w) (transport_registration_send w) (transport_registration_recv w) (w_usb w) (key_list w) (framework_fd w) (w_jdwp w) (device_tracker_list w).
Definition up_closing_list (l : list Z) (w : world) : world :=
  mkWorld (w_fd w) (w_packets w) (w_sockets w) (w_transports w) (w_listeners w) (w_disconnects w)
    (w_dislists w) (local_socket_list w) l (local_socket_next_id w)
    (transport_list w) (listener_list w) (socket_list_lock w) (transport_lock w) (auth_enabled w)
    (gListenAll w) (adb_device_banner w) (transport_registration_send w) (transport_registration_recv w) (w_usb w) (key_list w) (framework_fd w) (w_jdwp w) (device_tracker_list w).
Definition up_next_id (n : Z) (w : world) : world :=
  mkWorld (w_fd w) (w_packets w) (w_sockets w) (w_transports w) (w_listeners w) (w_disconnects w)
    (w_dislists w) (local_socket_list w) (local_socket_closing_list w) n
    (transport_list w) (listener_list w) (socket_list_lock w) (transport_lock w) (auth_enabled w)
    (gListenAll w) (adb_device_banner w) (transport_registration_send w) (transport_registration_recv w) (w_usb w) (key_list w) (framework_fd w) (w_jdwp w) (device_tracker_list w).
Definition up_transport_list (l : list Z) (w : world) : world :=
  mkWorld (w_fd w) (w_packets w) (w_sockets w) (w_transports w) (w_listeners w) (w_disconnects w)
    (w_dislists w) (local_socket_list w) (local_socket_closing_list w) (local_socket_next_id w)
    l (listener_list w) (socket_list_lock w) (transport_lock w) (auth_enabled w)
    (gListenAll w) (adb_device_banner w) (transport_registration_send w) (transport_registration_recv w) (w_usb w) (key_list w) (framework_fd w) (w_jdwp w) (device_tracker_list w).
Definition up_listener_list (l : list Z) (w : world) : world :=
  mkWorld (w_fd w) (w_packets w) (w_sockets w) (w_transports w) (w_listeners w) (w_disconnects w)
    (w_dislists w) (local_socket_list w) (local_socket_closing_list w) (local_socket_next_id w)
    (transport_list w) l (socket_list_lock w) (transport_lock w) (auth_enabled w)
    (gListenAll w) (adb_device_banner w) (transport_registration_send w) (transport_registration_recv w) (w_usb w) (key_list w) (framework_fd w) (w_jdwp w) (device_tracker_list w).
Definition up_socket_lock (b : bool) (w : world) : world :=
  mkWorld (w_fd w) (w_packets w) (w_sockets w) (w_transports w) (w_listeners w) (w_disconnects w)
    (w_dislists w) (local_socket_list w) (local_socket_closing_list w) (local_socket_next_id w)
    (transport_list w) (listener_list w) b (transport_lock w) (auth_enabled w)
    (gListenAll w) (adb_device_banner w) (transport_registration_send w) (transport_registration_recv w) (w_usb w) (key_list w) (framework_fd w) (w_jdwp w) (device_tracker_list w).
Definition up_transport_lock (b : bool) (w : world) : world :=
  mkWorld (w_fd w) (w_packets w) (w_sockets w) (w_transports w) (w_listeners w) (w_disconnects w)
    (w_dislists w) (local_socket_list w) (local_socket_closing_list w) (local_socket_next_id w)
    (transport_list w) (listener_list w) (socket_list_lock w) b (auth_enabled w)
    (gListenAll w) (adb_device_banner w) (transport_registration_send w) (transport_registration_recv w) (w_usb w) (key_list w) (framework_fd w) (w_jdwp w) (device_tracker_list w).
Definition up_config (auth la : bool) (banner : list Z) (w : world) : world :=
  mkWorld (w_fd w) (w_packets w) (w_sockets w) (w_transports w) (w_listeners w) (w_disconnects w)
    (w_dislists w) (local_socket_list w) (local_socket_closing_list w) (local_socket_next_id w)
    (transport_list w) (listener_list w) (socket_list_lock w) (transport_lock w) auth la banner
    (transport_registration_send w) (transport_registration_recv w) (w_usb w) (key_list w) (framework_fd w) (w_jdwp w) (device_tracker_list w).
Definition up_registration (snd rcv : Z) (w : world) : world :=
  mkWorld (w_fd w) (w_packets w) (w_sockets w) (w_transports w) (w_listeners w) (w_disconnects w)
    (w_dislists w) (local_socket_list w) (local_socket_closing_list w) (local_socket_next_id w)
    (transport_list w) (listener_list w) (socket_list_lock w) (transport_lock w) (auth_enabled w)
    (gListenAll w) (adb_device_banner w) snd rcv (w_usb w) (key_list w) (framework_fd w) (w_jdwp w) (device_tracker_list w).
Definition up_usb (f : gmap Z Usb.usb_handle → gmap Z Usb.usb_handle) (w : world) : world :=
  mkWorld (w_fd w) (w_packets w) (w_sockets w) (w_transports w) (w_listeners w) (w_disconnects w)
    (w_dislists w) (local_socket_list w) (local_socket_closing_list w) (local_socket_next_id w)
    (transport_list w) (listener_list w) (socket_list_lock w) (transport_lock w) (auth_enabled w)
    (gListenAll w) (adb_device_banner w) (transport_registration_send w)
    (transport_registration_recv w) (f (w_usb w)) (key_list w) (framework_fd w) (w_jdwp w) (device_tracker_list w).
Definition up_auth (ks : list (list Z)) (d : Z) (w : world) : world :=
  mkWorld (w_fd w) (w_packets w) (w_sockets w) (w_transports w) (w_listeners w) (w_disconnects w)
    (w_dislists w) (local_socket_list w) (local_socket_closing_list w) (local_socket_next_id w)
    (transport_list w) (listener_list w) (socket_list_lock w) (transport_lock w) (auth_enabled w)
    (gListenAll w) (adb_device_banner w) (transport_registration_send w)
    (transport_registration_recv w) (w_usb w) ks d (w_jdwp w) (device_tracker_list w).

Definition up_jdwp (j : jdwp_state) (w : world) : world :=
  mkWorld (w_fd w) (w_packets w) (w_sockets w) (w_transports w) (w_listeners w) (w_disconnects w)
    (w_dislists w) (local_socket_list w) (local_socket_closing_list w) (local_socket_next_id w)
    (transport_list w) (listener_list w) (socket_list_lock w) (transport_lock w) (auth_enabled w)
    (gListenAll w) (adb_device_banner w) (transport_registration_send w)
    (transport_registration_recv w) (w_usb w) (key_list w) (framework_fd w) j (device_tracker_list w).
Definition up_device_trackers (l : list Z) (w : world) : world :=
  mkWorld (w_fd w) (w_packets w) (w_sockets w) (w_transports w) (w_listeners w) (w_disconnects w)
    (w_dislists w) (local_socket_list w) (local_socket_closing_list w) (local_socket_next_id w)
    (transport_list w) (listener_list w) (socket_list_lock w) (transport_lock w) (auth_enabled w)
    (gListenAll w) (adb_device_banner w) (transport_registration_send w)
    (transport_registration_recv w) (w_usb w) (key_list w) (framework_fd w) (w_jdwp w) l.

(** updates of the variables of jdwp_service.c *)
Definition up_procs (f : gmap Z JdwpProcess → gmap Z JdwpProcess) (w : world) : world :=
  let j := w_jdwp w in
  up_jdwp (mkJdwp (f (jdwp_procs j)) (jdwp_list j) (jdwp_trackers_list j)
             (control_listen_socket j) (control_fde j)) w.
Definition up_jdwp_list (l : list Z) (w : world) : world :=
  let j := w_jdwp w in
  up_jdwp (mkJdwp (jdwp_procs j) l (jdwp_trackers_list j) (control_listen_socket j) (control_fde j)) w.
Definition up_trackers (l : list Z) (w : world) : world :=
  let j := w_jdwp w in
  up_jdwp (mkJdwp (jdwp_procs j) (jdwp_list j) l (control_listen_socket j) (control_fde j)) w.
Definition up_control (s f : Z) (w : world) : world :=
  let j := w_jdwp w in
  up_jdwp (mkJdwp (jdwp_procs j) (jdwp_list j) (jdwp_trackers_list j) s f) w.

(** the static variables as the program starts *)
Definition start_world (k : kern) : world :=
  mkWorld (upd_next_loc 16 (initial k)) ∅ ∅ ∅ ∅ ∅ ∅ [] [] 1 [] [] false false false false
    (str "device") (-1) (-1) ∅ [] (-1) no_jdwp [].

(** ** Lifting *)

Definition FD {A} (m : M fdw A) : M world A := zoom w_fd up_fd m.
Definition KW {A} (m : M kern A) : M world A := FD (K m).
Definition w_kern_of (w : world) : kern := w_kern (w_fd w).

(** fatal and fatal_errno *)
Definition fatal {A} : M world A := FATAL.

(** ** Allocation and access *)

Definition alloc : M world Z :=
  do a <- FD (gets next_loc); FD (modify (upd_next_loc (a + 16)));;; ret a.

Definition bad_ptr (a : Z) : fault := if a =? 0 then NullDeref else UseAfterFree.

Definition sock_at (s : Z) : M world asocket := deref (bad_ptr s) (λ w, w_sockets w !! s).
Definition sock_put (s : Z) (f : asocket → asocket) : M world unit :=
  do _ <- sock_at s; modify (up_sockets (alter f s)).
Definition trans_at (t : Z) : M world atransport := deref (bad_ptr t) (λ w, w_transports w !! t).
Definition trans_put (t : Z) (f : atransport → atransport) : M world unit :=
  do _ <- trans_at t; modify (up_transports (alter f t)).
Definition pkt_at (p : Z) : M world apacket := deref (bad_ptr p) (λ w, w_packets w !! p).
Definition pkt_put (p : Z) (f : apacket → apacket) : M world unit :=
  do _ <- pkt_at p; modify (up_packets (alter f p)).
Definition usb_at (h : Z) : M world Usb.usb_handle := deref (bad_ptr h) (λ w, w_usb w !! h).
Definition usb_put (h : Z) (f : Usb.usb_handle → Usb.usb_handle) : M world unit :=
  do _ <- usb_at h; modify (up_usb (alter f h)).
Definition listener_at (l : Z) : M world alistener := deref (bad_ptr l) (λ w, w_listeners w !! l).

Definition proc_at (a : Z) : M world JdwpProcess := deref (bad_ptr a) (λ w, jdwp_procs (w_jdwp w) !! a).
Definition proc_put (a : Z) (f : JdwpProcess → JdwpProcess) : M world unit :=
  do _ <- proc_at a; modify (up_procs (alter f a)).

(** the addresses of embedded objects *)
Definition fde_of (a : Z) : Z := a + 1.
Definition dis_of (a : Z) : Z := a + 2.
Definition auth_fde_of (t : Z) : Z := t + 3.

(** free(s) of a socket: its memory, the embedded fdevent included *)
Definition free_socket (s : Z) : M world unit :=
  do _ <- sock_at s;
  modify (up_sockets (delete s));;;
  FD (modify (upd_fdes (delete (fde_of s)))).

(** ** Locks

    Handlers of one thread run to completion between two lock operations of
    another; a lock found taken is one the same thread holds. *)

Definition lock_sockets : M world unit :=
  do b <- gets socket_list_lock;
  if b then fail Deadlock else modify (up_socket_lock true).
Definition unlock_sockets : M world unit := modify (up_socket_lock false).
Definition lock_transports : M world unit :=
  do b <- gets transport_lock;
  if b then fail Deadlock else modify (up_transport_lock true).
Definition unlock_transports : M world unit := modify (up_transport_lock false).

(** ** Field updates *)

Definition so_id (x : Z) (s : asocket) : asocket :=
  mkSock x (s_closing s) (s_exit_on_close s) (s_peer s) (s_fd s) (s_write_fd s) (s_pkts s)
    (s_enqueue s) (s_ready s) (s_close s) (s_transport s) (s_ext s).
Definition so_closing (x : bool) (s : asocket) : asocket :=
  mkSock (s_id s) x (s_exit_on_close s) (s_peer s) (s_fd s) (s_write_fd s) (s_pkts s)
    (s_enqueue s) (s_ready s) (s_close s) (s_transport s) (s_ext s).
Definition so_exit_on_close (x : bool) (s : asocket) : asocket :=
  mkSock (s_id s) (s_closing s) x (s_peer s) (s_fd s) (s_write_fd s) (s_pkts s)
    (s_enqueue s) (s_ready s) (s_close s) (s_transport s) (s_ext s).
Definition so_peer (x : Z) (s : asocket) : asocket :=
  mkSock (s_id s) (s_closing s) (s_exit_on_close s) x (s_fd s) (s_write_fd s) (s_pkts s)
    (s_enqueue s) (s_ready s) (s_close s) (s_transport s) (s_ext s).
Definition so_pkts (x : list Z) (s : asocket) : asocket :=
  mkSock (s_id s) (s_closing s) (s_exit_on_close s) (s_peer s) (s_fd s) (s_write_fd s) x
    (s_enqueue s) (s_ready s) (s_close s) (s_transport s) (s_ext s).
Definition so_funs (r : ready_fn) (c : close_fn) (s : asocket) : asocket :=
  mkSock (s_id s) (s_closing s) (s_exit_on_close s) (s_peer s) (s_fd s) (s_write_fd s) (s_pkts s)
    (s_enqueue s) r c (s_transport s) (s_ext s).
Definition so_transport (x : Z) (s : asocket) : asocket :=
  mkSock (s_id s) (s_closing s) (s_exit_on_close s) (s_peer s) (s_fd s) (s_write_fd s) (s_pkts s)
    (s_enqueue s) (s_ready s) (s_close s) x (s_ext s).

Definition so_ext (x : Z) (s : asocket) : asocket :=
  mkSock (s_id s) (s_closing s) (s_exit_on_close s) (s_peer s) (s_fd s) (s_write_fd s) (s_pkts s)
    (s_enqueue s) (s_ready s) (s_close s) (s_transport s) x.

Definition to_pipes (fr fw tr tw : Z) (t : atransport) : atransport :=
  mkTrans fr fw tr tw (t_ref_count t) (t_sync_token t) (t_connection_state t) (t_online t) (t_type t)
    (t_usb t) (t_sfd t) (t_serial t) (t_product t) (t_model t) (t_device t) (t_devpath t) (t_adb_port t)
    (t_kicked t) (t_token t) (t_failed_auth_attempts t).
Definition to_ref_count (x : Z) (t : atransport) : atransport :=
  mkTrans (t_fd_read t) (t_fd_write t) (t_transport_read t) (t_transport_write t) x (t_sync_token t)
    (t_connection_state t) (t_online t) (t_type t)
    (t_usb t) (t_sfd t) (t_serial t) (t_product t) (t_model t) (t_device t) (t_devpath t) (t_adb_port t)
    (t_kicked t) (t_token t) (t_failed_auth_attempts t).
Definition to_sync_token (x : Z) (t : atransport) : atransport :=
  mkTrans (t_fd_read t) (t_fd_write t) (t_transport_read t) (t_transport_write t) (t_ref_count t) x
    (t_connection_state t) (t_online t) (t_type t)
    (t_usb t) (t_sfd t) (t_serial t) (t_product t) (t_model t) (t_device t) (t_devpath t) (t_adb_port t)
    (t_kicked t) (t_token t) (t_failed_auth_attempts t).
Definition to_state (x : Z) (t : atransport) : atransport :=
  mkTrans (t_fd_read t) (t_fd_write t) (t_transport_read t) (t_transport_write t) (t_ref_count t)
    (t_sync_token t) x (t_online t) (t_type t)
    (t_usb t) (t_sfd t) (t_serial t) (t_product t) (t_model t) (t_device t) (t_devpath t) (t_adb_port t)
    (t_kicked t) (t_token t) (t_failed_auth_attempts t).
Definition to_online (x : bool) (t : atransport) : atransport :=
  mkTrans (t_fd_read t) (t_fd_write t) (t_transport_read t) (t_transport_write t) (t_ref_count t)
    (t_sync_token t) (t_connection_state t) x (t_type t)
    (t_usb t) (t_sfd t) (t_serial t) (t_product t) (t_model t) (t_device t) (t_devpath t) (t_adb_port t)
    (t_kicked t) (t_token t) (t_failed_auth_attempts t).
Definition to_links (u : Z) (sfd : Z) (t : atransport) : atransport :=
  mkTrans (t_fd_read t) (t_fd_write t) (t_transport_read t) (t_transport_write t) (t_ref_count t)
    (t_sync_token t) (t_connection_state t) (t_online t) (t_type t)
    u sfd (t_serial t) (t_product t) (t_model t) (t_device t) (t_devpath t) (t_adb_port t)
    (t_kicked t) (t_token t) (t_failed_auth_attempts t).
Definition to_quals (p m d : option (list Z)) (t : atransport) : atransport :=
  mkTrans (t_fd_read t) (t_fd_write t) (t_transport_read t) (t_transport_write t) (t_ref_count t)
    (t_sync_token t) (t_connection_state t) (t_online t) (t_type t)
    (t_usb t) (t_sfd t) (t_serial t) p m d (t_devpath t) (t_adb_port t)
    (t_kicked t) (t_token t) (t_failed_auth_attempts t).
Definition to_kicked (x : bool) (t : atransport) : atransport :=
  mkTrans (t_fd_read t) (t_fd_write t) (t_transport_read t) (t_transport_write t) (t_ref_count t)
    (t_sync_token t) (t_connection_state t) (t_online t) (t_type t)
    (t_usb t) (t_sfd t) (t_serial t) (t_product t) (t_model t) (t_device t) (t_devpath t) (t_adb_port t)
    x (t_token t) (t_failed_auth_attempts t).
Definition to_auth (token : list Z) (n : Z) (t : atransport) : atransport :=
  mkTrans (t_fd_read t) (t_fd_write t) (t_transport_read t) (t_transport_write t) (t_ref_count t)
    (t_sync_token t) (t_connection_state t) (t_online t) (t_type t)
    (t_usb t) (t_sfd t) (t_serial t) (t_product t) (t_model t) (t_device t) (t_devpath t) (t_adb_port t)
    (t_kicked t) token n.

(** ** Runs

    What the accesses do when the object exists, for the tactic [run]. *)

Definition up_kern (k : kern) (w : world) : world := up_fd (upd_kern k (w_fd w)) w.

Lemma up_kern_id w : up_kern (w_kern_of w) w = w.
Proof. by destruct w as [[]]. Qed.
Lemma up_packets_id w p pk : w_packets w !! p = Some pk → up_packets <[p := pk]> w = w.
Proof. intros H. destruct w. unfold up_packets; cbn in *. by rewrite insert_id. Qed.

Section runs.
Context (w : world).
Implicit Types s p t l : Z.

Lemma sock_at_run s so : w_sockets w !! s = Some so → sock_at s w = Ok so w.
Proof. intros H. unfold sock_at, deref. by rewrite H. Qed.
Lemma sock_put_run s f so : w_sockets w !! s = Some so →
  sock_put s f w = Ok tt (up_sockets <[s := f so]> w).
Proof.
  intros H. unfold sock_put. rewrite (bind_ok _ _ _ _ _ (sock_at_run s so H)).
  unfold modify, up_sockets. do 2 f_equal. apply map_eq. intros s'.
  destruct (decide (s' = s)) as [->|Hne].
  - by rewrite lookup_alter_eq, lookup_insert_eq, H.
  - by rewrite lookup_alter_ne, lookup_insert_ne.
Qed.
Lemma trans_at_run t tr : w_transports w !! t = Some tr → trans_at t w = Ok tr w.
Proof. intros H. unfold trans_at, deref. by rewrite H. Qed.
Lemma pkt_at_run p pk : w_packets w !! p = Some pk → pkt_at p w = Ok pk w.
Proof. intros H. unfold pkt_at, deref. by rewrite H. Qed.
Lemma usb_at_run a h : w_usb w !! a = Some h → usb_at a w = Ok h w.
Proof. intros H. unfold usb_at, deref. by rewrite H. Qed.
Lemma pkt_put_run p f pk : w_packets w !! p = Some pk →
  pkt_put p f w = Ok tt (up_packets <[p := f pk]> w).
Proof.
  intros H. unfold pkt_put. rewrite (bind_ok _ _ _ _ _ (pkt_at_run p pk H)).
  unfold modify, up_packets. do 2 f_equal. apply map_eq. intros p'.
  destruct (decide (p' = p)) as [->|Hne].
  - by rewrite lookup_alter_eq, lookup_insert_eq, H.
  - by rewrite lookup_alter_ne, lookup_insert_ne.
Qed.
Lemma proc_at_run a pr : jdwp_procs (w_jdwp w) !! a = Some pr → proc_at a w = Ok pr w.
Proof. intros H. unfold proc_at, deref. by rewrite H. Qed.
Lemma listener_at_run l li : w_listeners w !! l = Some li → listener_at l w = Ok li w.
Proof. intros H. unfold listener_at, deref. by rewrite H. Qed.
Lemma lock_sockets_run : socket_list_lock w = false → lock_sockets w = Ok tt (up_socket_lock true w).
Proof. intros H. unfold lock_sockets, bind, gets. by rewrite H. Qed.
Lemma FD_run {A} (m : M fdw A) a f : m (w_fd w) = Ok a f → FD m w = Ok a (up_fd f w).
Proof. intros H. unfold FD, zoom. by rewrite H. Qed.
Lemma KW_run {A} (m : M kern A) a k : m (w_kern_of w) = Ok a k → KW m w = Ok a (up_kern k w).
Proof. intros H. apply FD_run. unfold K, zoom. unfold w_kern_of in H. by rewrite H. Qed.
End runs.
