(* ===== verification/Transport.v ===== *)
(** * Transports (adbd/src/transport.c, and the device side of
    transport_local.c, transport_usb.c and usb_linux_client.c)

    Packets travel between the main thread and the two threads of a transport
    as addresses written to pipes.  This file has everything that does not
    call back into the socket layer: the pipes, send_packet, reference
    counting and kicking, the disconnect lists, the choice of a transport, and
    the initialisation and registration of transports.  The threads and the
    handlers of the main loop are in Daemon.v. *)

From S2P Require Import Prelude Kernel SockUtil Packet UsbDesc DList Fdevent Trace World.

(** ** Packets (adb.c) *)

Definition get_apacket : M world Z :=
  do ok <- KW malloc_ok;
  if negb ok then fatal
  else do p <- alloc; modify (up_packets <[p := zero_packet]>);;; ret p.

Definition put_apacket (p : Z) : M world unit :=
  do _ <- pkt_at p; modify (up_packets (delete p)).

(** ** Pipes *)

(** the loop of write_packet on the bytes of the address (32 bits) is the one
    of writex, that of read_packet the one of readx *)
Definition write_packet (d p : Z) : M kern bool := writex d (le32 p).
Definition read_packet (d : Z) : M kern (option Z) :=
  do r <- readx d 4; ret (get32 <$> r).

Definition send_packet (p t : Z) : M world unit :=
  do pk <- pkt_at p;
  match payload pk (data_length (p_msg pk)) with
  | None => fail Uninitialised
  | Some body =>
      pkt_put p (λ pk, fill_header pk body);;;
      if t =? 0 then fatal
      else
        do tr <- trans_at t;
        do ok <- KW (write_packet (t_transport_write tr) p);
        if ok then ret tt else fatal
  end.

(** struct tmsg { atransport* transport; int action; } *)
Definition tmsg_bytes (t action : Z) : list Z := le32 t ++ le32 action.
Definition transport_read_action (d : Z) : M kern (option (Z * Z)) :=
  do r <- readx d 8; ret ((λ bs, (get32 bs, get32 (drop 4 bs))) <$> r).
Definition transport_write_action (d t action : Z) : M kern bool := writex d (tmsg_bytes t action).

Definition register_transport (t : Z) : M world unit :=
  do d <- gets transport_registration_send;
  do ok <- KW (transport_write_action d t 1);
  if ok then ret tt else fatal.
Definition remove_transport (t : Z) : M world unit :=
  do d <- gets transport_registration_send;
  do ok <- KW (transport_write_action d t 0);
  if ok then ret tt else fatal.

(** ** kick and close, by the kind of transport *)

Definition usb_adb_kick (h : Z) : M world unit :=
  do u <- usb_at h;
  KW (adb_close (Usb.fd u));;;
  usb_put h (λ u, Usb.mkUsb (Usb.impl u) (-1) (Usb.control u) (Usb.bulk_out u) (Usb.bulk_in u));;;
  KW (note "cond_signal" [AZ h]).

Definition usb_ffs_kick (h : Z) : M world unit :=
  do u <- usb_at h;
  KW (note "ioctl" [AZ (Usb.bulk_in u); AS (str "FUNCTIONFS_CLEAR_HALT")]);;;
  KW (note "ioctl" [AZ (Usb.bulk_out u); AS (str "FUNCTIONFS_CLEAR_HALT")]);;;
  KW (adb_close (Usb.control u));;;
  KW (adb_close (Usb.bulk_out u));;;
  KW (adb_close (Usb.bulk_in u));;;
  usb_put h (λ u, Usb.mkUsb (Usb.impl u) (Usb.fd u) (-1) (-1) (-1));;;
  KW (note "cond_signal" [AZ h]).

Definition usb_kick (h : Z) : M world unit :=
  do u <- usb_at h;
  match Usb.impl u with Usb.usb_adb => usb_adb_kick h | Usb.usb_ffs => usb_ffs_kick h end.

Definition local_remote_kick (t : Z) : M world unit :=
  do tr <- trans_at t;
  trans_put t (λ tr, to_links (t_usb tr) (-1) tr);;;
  KW (note "shutdown" [AZ (t_sfd tr)]);;;
  KW (adb_close (t_sfd tr)).

Definition remote_kick (t : Z) : M world unit :=
  do tr <- trans_at t;
  match t_type tr with
  | kTransportUsb => usb_kick (t_usb tr)
  | _ => local_remote_kick t
  end.

Definition local_remote_close (t : Z) : M world unit :=
  do tr <- trans_at t;
  KW (adb_close (t_fd_read tr));;;
  KW (adb_close (t_fd_write tr));;;
  KW (adb_close (t_transport_read tr));;;
  KW (adb_close (t_transport_write tr)).

(** usb_close does nothing *)
Definition usb_remote_close (t : Z) : M world unit :=
  trans_put t (λ tr, to_links 0 (t_sfd tr) tr).

Definition remote_close (t : Z) : M world unit :=
  do tr <- trans_at t;
  match t_type tr with
  | kTransportUsb => usb_remote_close t
  | _ => local_remote_close t
  end.

Definition kick_transport (t : Z) : M world unit :=
  if t =? 0 then ret tt
  else
    do tr <- trans_at t;
    if t_kicked tr then ret tt
    else
      lock_transports;;;
      do tr <- trans_at t;
      let kicked := t_kicked tr in
      when (negb kicked) (trans_put t (to_kicked true));;;
      unlock_transports;;;
      if negb kicked then remote_kick t else ret tt.

Definition transport_unref_locked (t : Z) : M world unit :=
  trans_put t (λ tr, to_ref_count (t_ref_count tr - 1) tr);;;
  do tr <- trans_at t;
  if t_ref_count tr =? 0 then
    (if negb (t_kicked tr) then trans_put t (to_kicked true);;; remote_kick t else ret tt);;;
    remote_close t;;;
    remove_transport t
  else ret tt.

Definition transport_unref (t : Z) : M world unit :=
  if t =? 0 then ret tt
  else lock_transports;;; transport_unref_locked t;;; unlock_transports.

(** ** Disconnect callbacks *)

(** the fields func and opaque of an adisconnect *)
Definition dis_init (d : Z) (f : disconnect_fn) (o : Z) : M world unit :=
  modify (up_disconnects <[d := mkDis f o]> id).

(** the head of a transport's list is linked when it is registered *)
Definition add_transport_disconnect (t d : Z) : M world unit :=
  lock_transports;;;
  do _ <- deref NullDeref (λ w, w_dislists w !! t);
  modify (up_disconnects id (alter (λ l, l ++ [d]) t));;;
  unlock_transports.

(** it unlinks [d] from the list it is in, whichever that is; an unlinked
    object points to itself, so a second call changes nothing *)
Definition remove_transport_disconnect (t d : Z) : M world unit :=
  do _ <- deref NullDeref (λ w, w_disconnects w !! d);
  modify (up_disconnects id (fmap (filter (λ x, x ≠ d)))).

(** the element after [d], None at the end; an unlinked object follows itself *)
Fixpoint next_of (d : Z) (l : list Z) : option Z :=
  match l with
  | [] => Some d
  | x :: l' => if x =? d then head l' else next_of d l'
  end.

Section disconnects.
Variable call : disconnect_fn → Z → Z → M world unit.

Fixpoint run_disconnects (fuel : nat) (t : Z) (d : option Z) : M world unit :=
  match d with
  | None => ret tt
  | Some d =>
      match fuel with
      | O => fail OutOfFuel
      | S fuel' =>
          do dis <- deref (bad_ptr d) (λ w, w_disconnects w !! d);
          do l <- deref (bad_ptr t) (λ w, w_dislists w !! t);
          let next := next_of d l in
          call (dis_func dis) (dis_opaque dis) t;;;
          run_disconnects fuel' t next
      end
  end.

Definition run_transport_disconnects (t : Z) : M world unit :=
  do _ <- trans_at t;
  do l <- deref NullDeref (λ w, w_dislists w !! t);
  run_disconnects (length l) t (head l).
End disconnects.

(** ** Choosing a transport *)

Definition qual_char_is_invalid (ch : Z) : bool :=
  if (65 <=? ch) && (ch <=? 90) then false
  else if (97 <=? ch) && (ch <=? 122) then false
  else if (48 <=? ch) && (ch <=? 57) then false
  else true.

(** *prefix++ != *to_test++ over the prefix; the rest of to_test *)
Fixpoint match_prefix (prefix to_test : list Z) : option (list Z) :=
  match prefix, to_test with
  | [], _ => Some to_test
  | c :: prefix', x :: to_test' => if c =? x then match_prefix prefix' to_test' else None
  | _ :: _, [] => None
  end.

Fixpoint match_qual (qual to_test : list Z) (sanitize : bool) : bool :=
  match qual, to_test with
  | [], [] => true
  | [], _ :: _ => false
  | ch :: qual', x :: to_test' =>
      ((if sanitize && qual_char_is_invalid ch then 95 else ch) =? x)
      && match_qual qual' to_test' sanitize
  | _ :: _, [] => false
  end.

Definition qual_match (to_test prefix : list Z) (qual : option (list Z)) (sanitize : bool) : bool :=
  match to_test with
  | [] => match qual with None | Some [] => true | Some (_ :: _) => false end
  | _ =>
      match qual with
      | None => false
      | Some q =>
          match match_prefix prefix to_test with
          | None => false
          | Some rest => match_qual q rest sanitize
          end
      end
  end.

Definition opt_eq (s : list Z) (o : option (list Z)) : bool :=
  match o with Some x => strcmp_eq s x | None => false end.

Definition serial_matches (serial : list Z) (tr : atransport) : bool :=
  opt_eq serial (t_serial tr) || opt_eq serial (t_devpath tr)
  || qual_match serial (str "product:") (t_product tr) false
  || qual_match serial (str "model:") (t_model tr) true
  || qual_match serial (str "device:") (t_device tr) false.

(** the loop over transport_list: result, ambiguous, *error_out *)
Record pick := mkPick { pk_result : Z; pk_ambiguous : bool; pk_error : option (list Z) }.

(** does the transport match, and the message when another one does too *)
Definition candidate (ttype : transport_type) (serial : option (list Z)) (tr : atransport)
  : option (list Z) :=
  match serial with
  | Some sn => if serial_matches sn tr then Some (str "more than one device") else None
  | None =>
      if bool_decide (ttype = kTransportUsb ∧ t_type tr = kTransportUsb)
      then Some (str "more than one device")
      else if bool_decide (ttype = kTransportLocal ∧ t_type tr = kTransportLocal)
      then Some (str "more than one emulator")
      else if bool_decide (ttype = kTransportAny) then Some (str "more than one device and emulator")
      else None
  end.

Fixpoint pick_transport (l : list Z) (ttype : transport_type) (serial : option (list Z)) (st : pick)
  : M world pick :=
  match l with
  | [] => ret st
  | t :: l' =>
      do tr <- trans_at t;
      if t_connection_state tr =? CS_NOPERM then
        pick_transport l' ttype serial
          (mkPick (pk_result st) (pk_ambiguous st) (Some (str "insufficient permissions for device")))
      else
        match candidate ttype serial tr with
        | None => pick_transport l' ttype serial st
        | Some msg =>
            if negb (pk_result st =? 0) then ret (mkPick 0 true (Some msg))
            else pick_transport l' ttype serial (mkPick t (pk_ambiguous st) (pk_error st))
        end
  end.

(** one pass; the second component is false when the code sleeps and retries *)
Definition acquire_pass (st : Z) (ttype : transport_type) (serial : option (list Z)) (ambiguous : bool)
  : M world (pick * bool) :=
  lock_transports;;;
  do l <- gets transport_list;
  do r <- pick_transport l ttype serial (mkPick 0 ambiguous (Some (str "device not found")));
  unlock_transports;;;
  do r <- (if pk_result r =? 0 then ret r
           else
             do tr <- trans_at (pk_result r);
             if t_connection_state tr =? CS_OFFLINE
             then ret (mkPick 0 (pk_ambiguous r) (Some (str "device offline")))
             else if negb (st =? CS_ANY) && negb (t_connection_state tr =? st)
             then ret (mkPick 0 (pk_ambiguous r) (Some (str "invalid device state")))
             else ret r);
  if negb (pk_result r =? 0) then ret (mkPick (pk_result r) (pk_ambiguous r) None, true)
  else if negb (st =? CS_ANY) && (bool_decide (is_Some serial) || negb (pk_ambiguous r))
  then ret (r, false)
  else ret (r, true).

(** at most [fuel] retries, one a second *)
Fixpoint acquire_loop (fuel : nat) (st : Z) (ttype : transport_type) (serial : option (list Z))
    (ambiguous : bool) : M world (Z * option (list Z)) :=
  do '(r, done) <- acquire_pass st ttype serial ambiguous;
  if (done : bool) then ret (pk_result r, pk_error r)
  else
    KW (adb_sleep_ms 1000);;;
    match fuel with
    | O => fail OutOfFuel
    | S fuel' => acquire_loop fuel' st ttype serial (pk_ambiguous r)
    end.

Definition acquire_one_transport (fuel : nat) (st : Z) (ttype : transport_type)
    (serial : option (list Z)) : M world (Z * option (list Z)) :=
  acquire_loop fuel st ttype serial false.

(** ** New transports *)

(** calloc *)
Definition zero_transport : atransport :=
  mkTrans 0 0 0 0 0 0 0 false kTransportUsb 0 0 None None None None None 0 false
    (replicate 20 0) 0.

Definition alloc_transport : M world Z :=
  do ok <- KW malloc_ok;
  if negb ok then ret 0
  else
    do t <- alloc;
    modify (up_transports <[t := zero_transport]>);;;
    FD (modify (upd_fdes <[fde_of t := mkFde 0 false 0 0 transport_socket_events_ 0]>));;;
    FD (modify (upd_fdes <[auth_fde_of t := mkFde 0 false 0 0 adb_auth_event_ 0]>));;;
    ret t.

Definition to_init (st : Z) (ty : transport_type) (h sfd : Z) (t : atransport) : atransport :=
  mkTrans (t_fd_read t) (t_fd_write t) (t_transport_read t) (t_transport_write t) (t_ref_count t)
    1 st (t_online t) ty h sfd (t_serial t) (t_product t) (t_model t) (t_device t) (t_devpath t) 0
    (t_kicked t) (t_token t) (t_failed_auth_attempts t).
Definition to_names (serial devpath : option (list Z)) (t : atransport) : atransport :=
  mkTrans (t_fd_read t) (t_fd_write t) (t_transport_read t) (t_transport_write t) (t_ref_count t)
    (t_sync_token t) (t_connection_state t) (t_online t) (t_type t)
    (t_usb t) (t_sfd t) serial (t_product t) (t_model t) (t_device t) devpath (t_adb_port t)
    (t_kicked t) (t_token t) (t_failed_auth_attempts t).

(** the device side never fails *)
Definition init_socket_transport (t s : Z) : M world unit :=
  trans_put t (λ tr, to_init CS_OFFLINE kTransportLocal (t_usb tr) s tr).
Definition init_usb_transport (t h st : Z) : M world unit :=
  trans_put t (λ tr, to_init st kTransportUsb h (t_sfd tr) tr).

Definition strdup (s : list Z) : M world (option (list Z)) :=
  do ok <- KW malloc_ok; ret (if ok then Some s else None).

Definition register_socket_transport (s : Z) (serial : option (list Z)) : M world unit :=
  do t <- alloc_transport;
  let name := match serial with Some n => n | None => str "T-0x" ++ fmt_x t end in
  init_socket_transport t s;;;
  do n <- strdup name;
  trans_put t (λ tr, to_names n (t_devpath tr) tr);;;
  register_transport t.

Definition register_usb_transport (h : Z) (serial devpath : option (list Z)) (writeable : bool)
  : M world unit :=
  do t <- alloc_transport;
  init_usb_transport t h (if writeable then CS_OFFLINE else CS_NOPERM);;;
  match serial with
  | None => ret tt
  | Some n => do n <- strdup n; trans_put t (λ tr, to_names n (t_devpath tr) tr)
  end;;;
  match devpath with
  | None => ret tt
  | Some n => do n <- strdup n; trans_put t (λ tr, to_names (t_serial tr) n tr)
  end;;;
  register_transport t.

(** the first match is unlinked *)
Fixpoint find_usb (l : list Z) (h : Z) : M world (option Z) :=
  match l with
  | [] => ret None
  | t :: l' =>
      do tr <- trans_at t;
      if (t_usb tr =? h) && (t_connection_state tr =? CS_NOPERM) then ret (Some t)
      else find_usb l' h
  end.
Definition unregister_usb_transport (h : Z) : M world unit :=
  lock_transports;;;
  do l <- gets transport_list;
  do r <- find_usb l h;
  match r with
  | None => ret tt
  | Some t => modify (up_transport_list (filter (λ x, x ≠ t) l))
  end;;;
  unlock_transports.

(** the static object transport_registration_fde *)
Definition transport_registration_fde : Z := 1.

Definition init_transport_registration : M world unit :=
  do '(r, s) <- KW adb_socketpair;
  if negb (r =? 0) then fatal
  else
    let s0 := default 0 (s !! 0%nat) in
    let s1 := default 0 (s !! 1%nat) in
    modify (up_registration s1 s0);;;
    FD (fdevent_install transport_registration_fde s0 transport_registration_func_ 0);;;
    FD (fdevent_set transport_registration_fde FDE_READ).

(** ** The device's connection threads, one iteration of their loops *)

(** server_socket_thread: the listening descriptor is kept from one iteration
    to the next, -1 when there is none *)
Definition server_socket_thread_step (port serverfd : Z) : M world Z :=
  do sf <- (if serverfd =? -1 then
              do d <- KW (socket_inaddr_any_server port SOCK_STREAM);
              if d <? 0 then KW (adb_sleep_ms 1000);;; ret (d, false)
              else KW (close_on_exec d);;; ret (d, true)
            else ret (serverfd, true));
  let '(serverfd, go) := sf in
  if negb (go : bool) then ret serverfd
  else
    do d <- KW (adb_socket_accept serverfd);
    (if 0 <=? d then
       KW (close_on_exec d);;;
       KW (disable_tcp_nagle d);;;
       register_socket_transport d (Some (str "host"))
     else ret tt);;;
    ret serverfd.

(** qemu_socket_thread: one pass of the loop; the descriptor of the next one,
    None when the thread ends *)
Definition qemu_con_name (port : Z) : list Z := take 31 (str "qemud:adb:" ++ fmt_d port).
Definition qemu_accept_step (port fd : Z) : M world (option Z) :=
  do res <- KW (adb_write fd (str "accept"));
  match res with
  | inl 6%nat =>
      do res <- KW (adb_read fd 256);
      (if bool_decide (res = inl (str "ok")) then
         register_socket_transport fd (Some (str "host"));;;
         do _ <- KW (adb_write fd (str "start")); ret tt
       else KW (adb_close fd));;;
      do fd <- KW (qemu_pipe_open (qemu_con_name port));
      ret (if fd <? 0 then None else Some fd)
  | _ => ret None
  end.
(** the start of the thread: the descriptor, None when it is over.  Without
    the service of the emulator the TCP thread takes over. *)
Definition qemu_socket_thread_start (port : Z) : M world (option Z) :=
  do ok <- KW malloc_ok;
  if negb ok then ret None
  else
    do fd <- KW (qemu_pipe_open (qemu_con_name port));
    if fd <? 0 then
      do _ <- KW (sys_ "thread:server_socket_thread" [AZ port]); ret None
    else ret (Some fd).
(** at most [n] connections *)
Fixpoint qemu_accepts (n : nat) (port fd : Z) : M world unit :=
  match n with
  | O => ret tt
  | S n' => do r <- qemu_accept_step port fd; match r with None => ret tt | Some fd => qemu_accepts n' port fd end
  end.
Definition qemu_socket_thread (n : nat) (port : Z) : M world unit :=
  do r <- qemu_socket_thread_start port;
  match r with None => ret tt | Some fd => qemu_accepts n port fd end.

(** usb_adb_open_thread from the point where the device has to be opened *)
Definition usb_adb_open_step (h : Z) : M world bool :=
  do d <- KW (sys_ "open" [AS (str "/dev/android_adb")]);
  do d <- (if d <? 0 then KW (sys_ "open" [AS (str "/dev/android")]) else ret d);
  if d <? 0 then KW (adb_sleep_ms 1000);;; ret false
  else
    KW (close_on_exec d);;;
    usb_put h (λ u, Usb.mkUsb (Usb.impl u) d (Usb.control u) (Usb.bulk_out u) (Usb.bulk_in u));;;
    register_usb_transport h None None true;;;
    ret true.

(** init_functionfs; the board is little-endian *)
Definition ffs_fail (h : Z) : M world unit :=
  do u <- usb_at h;
  when (0 <? Usb.bulk_in u)
    (KW (adb_close (Usb.bulk_in u));;;
     usb_put h (λ u, Usb.mkUsb (Usb.impl u) (Usb.fd u) (Usb.control u) (Usb.bulk_out u) (-1)));;;
  when (0 <? Usb.bulk_out u)
    (KW (adb_close (Usb.bulk_out u));;;
     usb_put h (λ u, Usb.mkUsb (Usb.impl u) (Usb.fd u) (Usb.control u) (-1) (Usb.bulk_in u)));;;
  when (0 <? Usb.control u)
    (KW (adb_close (Usb.control u));;;
     usb_put h (λ u, Usb.mkUsb (Usb.impl u) (Usb.fd u) (-1) (Usb.bulk_out u) (Usb.bulk_in u))).

Definition init_functionfs (h : Z) : M world unit :=
  do c <- KW (adb_open (str "/dev/usb-ffs/adb/ep0"));
  usb_put h (λ u, Usb.mkUsb (Usb.impl u) (Usb.fd u) c (Usb.bulk_out u) (Usb.bulk_in u));;;
  if c <? 0 then ffs_fail h
  else
    do r <- KW (adb_write c (descriptors_bytes true));
    match r with
    | inr _ => ffs_fail h
    | inl _ =>
        do r <- KW (adb_write c (strings_bytes true));
        match r with
        | inr _ => ffs_fail h
        | inl _ =>
            do o <- KW (adb_open (str "/dev/usb-ffs/adb/ep1"));
            usb_put h (λ u, Usb.mkUsb (Usb.impl u) (Usb.fd u) (Usb.control u) o (Usb.bulk_in u));;;
            if o <? 0 then ffs_fail h
            else
              do i <- KW (adb_open (str "/dev/usb-ffs/adb/ep2"));
              usb_put h (λ u, Usb.mkUsb (Usb.impl u) (Usb.fd u) (Usb.control u) (Usb.bulk_out u) i);;;
              if i <? 0 then ffs_fail h else ret tt
        end
    end.

(** usb_ffs_open_thread from the point where the device has to be opened *)
Definition usb_ffs_open_step (h : Z) : M world bool :=
  init_functionfs h;;;
  do u <- usb_at h;
  if 0 <=? Usb.control u then register_usb_transport h None None true;;; ret true
  else KW (adb_sleep_ms 1000);;; ret false.

Definition alloc_usb (u : Usb.usb_handle) : M world Z :=
  do ok <- KW malloc_ok;
  if negb ok then fail NullDeref
  else do h <- alloc; modify (up_usb <[h := u]>);;; ret h.

Definition thread_create (name : string) (a : Z) : M world unit :=
  do r <- KW (sys_ name [AZ a]);
  if r =? 0 then ret tt else fatal.

Definition usb_adb_init : M world unit :=
  do h <- alloc_usb (Usb.mkUsb Usb.usb_adb (-1) 0 0 0);
  do d <- KW (sys_ "open" [AS (str "/dev/android_adb_enable")]);
  when (0 <=? d) (KW (close_on_exec d));;;
  thread_create "thread:usb_adb_open_thread" h.

(** bulk_out is set twice and bulk_in keeps the 0 of calloc *)
Definition usb_ffs_init : M world unit :=
  do h <- alloc_usb (Usb.mkUsb Usb.usb_ffs 0 (-1) (-1) 0);
  thread_create "thread:usb_ffs_open_thread" h.

Definition usb_init : M world unit :=
  do r <- KW (sys_ "access" [AS (str "/dev/usb-ffs/adb/ep0")]);
  if r =? 0 then usb_ffs_init else usb_adb_init.

(** HOST is 0 on the device *)
Definition local_init (port : Z) : M world unit :=
  do r <- KW (sys_ "access" [AS (str "/dev/qemu_pipe")]);
  if negb (r =? -1) then thread_create "thread:qemu_socket_thread" port
  else thread_create "thread:server_socket_thread" port.
