(* ===== verification/Listing.v ===== *)
(** * Lists sent to clients (adbd/src/jdwp_service.c, adbd/src/transport.c)

    The processes that can be debugged and, on the host, the transports are
    listed line by line in a buffer of fixed size; a line that does not fit
    ends the list.  A listing is the bytes up to the terminating NUL: the
    integer the C function returns is their number. *)

From S2P Require Import Prelude Kernel Packet DList Fdevent World Transport.

(** ** JDWP processes *)

Fixpoint list_pids (l : list Z) (room : Z) : M world (list Z) :=
  match l with
  | [] => ret []
  | a :: l' =>
      do pr <- proc_at a;
      if pid pr <? 0 then list_pids l' room
      else
        let line := fmt_d (pid pr) ++ [10] in
        let len := Z.of_nat (length line) in
        if room <=? len then ret []
        else do rest <- list_pids l' (room - len); ret (line ++ rest)
  end.

(** p[0] = 0 needs a place *)
Definition jdwp_process_list (bufferlen : Z) : M world (list Z) :=
  do l <- gets (λ w, jdwp_list (w_jdwp w));
  do s <- list_pids l bufferlen;
  if bufferlen <=? 0 then fail OutOfBounds else ret s.

Definition jdwp_process_list_msg (bufferlen : Z) : M world (list Z) :=
  do s <- jdwp_process_list (bufferlen - 4);
  ret (take 4 (fmt_04x (Z.of_nat (length s))) ++ s).

(** ** Transports (ADB_HOST) *)

Definition statename (t : atransport) : list Z :=
  let st := t_connection_state t in
  if st =? CS_OFFLINE then str "offline"
  else if st =? CS_BOOTLOADER then str "bootloader"
  else if st =? CS_DEVICE then str "device"
  else if st =? CS_HOST then str "host"
  else if st =? CS_RECOVERY then str "recovery"
  else if st =? CS_SIDELOAD then str "sideload"
  else if st =? CS_NOPERM then str "no permissions"
  else str "unknown".

(** *buf and *buf_size: what was printed so far and the size_t that is left.
    After a line that was cut the text is not what the memory holds, but such a
    line is never sent. *)
Record obuf := mkObuf { ob_text : list Z; ob_size : Z }.

(** snprintf( *buf, *buf_size, s), *buf_size -= len, *buf += len, in a buffer
    of [bufsize] bytes.  With the size 0 nothing is written, otherwise the text
    is cut to leave room for the NUL. *)
Definition print_to {S} (bufsize : Z) (b : obuf) (s : list Z) : M S obuf :=
  let at_ := Z.of_nat (length (ob_text b)) in
  let len := Z.of_nat (length s) in
  let written := if ob_size b =? 0 then 0 else Z.min (len + 1) (ob_size b) in
  if (0 <? written) && (bufsize <? at_ + written) then fail OutOfBounds
  else ret (mkObuf (ob_text b ++ s) (u32 (ob_size b - len))).

Definition sanitized (qual : list Z) : list Z :=
  (λ c, if qual_char_is_invalid c then 95 else c) <$> qual.

Definition add_qual {S} (bufsize : Z) (b : obuf) (prefix : list Z) (qual : option (list Z))
    (sanitize_qual : bool) : M S obuf :=
  match qual with
  | None | Some [] => ret b
  | Some qual =>
      if ob_size b =? 0 then ret b
      else
        do b' <- print_to bufsize b (prefix ++ (if sanitize_qual then sanitized qual else qual));
        (* the loop from prefix_len up to len looks at every character *)
        if sanitize_qual && (bufsize <? Z.of_nat (length (ob_text b'))) then fail OutOfBounds
        else ret b'
  end.

(** %-22s *)
Definition pad22 (s : list Z) : list Z := s ++ replicate (22 - length s) 32.

(** the text and the value returned *)
Definition format_transport {S} (t : atransport) (bufsize : Z) (long_listing : bool)
    : M S (list Z * Z) :=
  let serial := match t_serial t with
                | None | Some [] => str "????????????"
                | Some s => s
                end in
  if negb long_listing then
    let line := serial ++ [9] ++ statename t ++ [10] in
    ret (line, Z.of_nat (length line))
  else
    do b <- print_to bufsize (mkObuf [] bufsize) (pad22 serial ++ [32] ++ statename t);
    do b <- add_qual bufsize b (str " ") (t_devpath t) false;
    do b <- add_qual bufsize b (str " product:") (t_product t) false;
    do b <- add_qual bufsize b (str " model:") (t_model t) true;
    do b <- add_qual bufsize b (str " device:") (t_device t) false;
    do b <- print_to bufsize b [10];
    ret (ob_text b, u32 (bufsize - ob_size b)).

Fixpoint list_lines (l : list Z) (room : Z) (long_listing : bool) : M world (list Z) :=
  match l with
  | [] => ret []
  | t :: l' =>
      do tr <- trans_at t;
      do '(line, len) <- format_transport tr room long_listing;
      if room <=? s32 len then ret []
      else do rest <- list_lines l' (room - s32 len) long_listing; ret (line ++ rest)
  end.

Definition list_transports (bufsize : Z) (long_listing : bool) : M world (list Z) :=
  lock_transports;;;
  do l <- gets transport_list;
  do s <- list_lines l bufsize long_listing;
  (if bufsize <=? 0 then fail OutOfBounds else ret tt);;;
  unlock_transports;;;
  ret s.

Definition list_transports_msg (bufferlen : Z) : M world (list Z) :=
  do s <- list_transports (bufferlen - 4) false;
  ret (take 4 (fmt_04x (Z.of_nat (length s))) ++ s).
