(* ===== verification/Sockets.v ===== *)
(** * Sockets (adbd/src/sockets.c)

    A local socket is bound to a descriptor, a remote socket to a stream of a
    transport, a smart socket decodes the first request of a client; the sockets
    of jdwp_service.c and the device trackers of transport.c only send lists.  Each is
    one half of a connection and calls the other half, its peer, through the
    functions stored in it; the stored functions are constructors of World.v
    and [call_close], [call_ready] and [call_enqueue] are the indirect calls.

    A close runs into the peer's close and comes back with the peer links cut,
    so the calls nest at most three deep; the bound used is 8. *)

From S2P Require Import Prelude Kernel Packet DList Fdevent World Transport Listing.

(** service_to_fd (services.c): the two descriptors of a service, None when
    there is no such service *)
Class Services := { service_to_fd : list Z → M kern (option (Z * Z)) }.

(** ** The lists of local sockets *)

Fixpoint find_id (l : list Z) (id : Z) : M world Z :=
  match l with
  | [] => ret 0
  | s :: l' => do so <- sock_at s; if s_id so =? id then ret s else find_id l' id
  end.

Definition find_local_socket (id : Z) : M world Z :=
  lock_sockets;;;
  do l <- gets local_socket_list;
  do r <- find_id l id;
  unlock_sockets;;;
  ret r.

Definition install_local_socket (s : Z) : M world unit :=
  lock_sockets;;;
  do n <- gets local_socket_next_id;
  sock_put s (so_id n);;;
  modify (up_next_id (u32 (n + 1)));;;
  modify (λ w, up_local_list (local_socket_list w ++ [s]) w);;;
  unlock_sockets.

(** the links are NULL unless the socket is in one of the two lists *)
Definition remove_socket (s : Z) : M world unit :=
  do _ <- sock_at s;
  do w <- get;
  if bool_decide (s ∈ local_socket_list w ∨ s ∈ local_socket_closing_list w) then
    modify (λ w, up_local_list (filter (λ x, x ≠ s) (local_socket_list w)) w);;;
    modify (λ w, up_closing_list (filter (λ x, x ≠ s) (local_socket_closing_list w)) w);;;
    sock_put s (so_id 0)
  else ret tt.

Fixpoint put_apackets (l : list Z) : M world unit :=
  match l with
  | [] => ret tt
  | p :: l' => put_apacket p;;; put_apackets l'
  end.

Definition local_socket_destroy (s : Z) : M world unit :=
  do so <- sock_at s;
  FD (fdevent_remove (fde_of s));;;
  when (negb (s_write_fd so =? s_fd so)) (KW (adb_close (s_write_fd so)));;;
  put_apackets (s_pkts so);;;
  remove_socket s;;;
  free_socket s;;;
  if s_exit_on_close so then exit 1 else ret tt.

(** ** The lists of trackers *)

(** an access to the object at the address, if there is one *)
Definition touch (o : option Z) : M world unit :=
  match o with None => ret tt | Some a => do _ <- sock_at a; ret tt end.
Definition prev_of (s : Z) (l : list Z) : option Z := next_of s (reverse l).

(** the list without [tracker]; the nodes up to it are looked at *)
Fixpoint unlink_node (l : list Z) (tracker : Z) : M world (list Z) :=
  match l with
  | [] => ret []
  | node :: l' =>
      do _ <- sock_at node;
      if node =? tracker then ret l'
      else do r <- unlink_node l' tracker; ret (node :: r)
  end.
Definition device_tracker_remove (tracker : Z) : M world unit :=
  do l <- gets device_tracker_list;
  lock_transports;;;
  do l' <- unlink_node l tracker;
  modify (up_device_trackers l');;;
  unlock_transports.

(** ** close *)

Section close.
(** s->close(s), and local_socket_close_locked, one level deeper *)
Variable close : Z → M world unit.
Variable close_locked : Z → M world unit.

Definition local_socket_close_locked (s : Z) : M world unit :=
  do so <- sock_at s;
  (if s_peer so =? 0 then ret tt
   else
     sock_put (s_peer so) (so_peer 0);;;
     do po <- sock_at (s_peer so);
     (if decide (s_close po = local_socket_close_) then close_locked (s_peer so)
      else close (s_peer so));;;
     sock_put s (so_peer 0));;;
  do so <- sock_at s;
  if s_closing so || bool_decide (s_pkts so = []) then local_socket_destroy s
  else
    sock_put s (so_closing true);;;
    FD (fdevent_del (fde_of s) FDE_READ);;;
    remove_socket s;;;
    modify (λ w, up_closing_list (local_socket_closing_list w ++ [s]) w).

Definition local_socket_close (s : Z) : M world unit :=
  lock_sockets;;; local_socket_close_locked s;;; unlock_sockets.

Definition local_socket_close_notify (s : Z) : M world unit :=
  sock_put s (so_funs local_socket_ready_ local_socket_close_);;;
  do so <- sock_at s;
  KW (sendfailmsg (s_fd so) (str "closed"));;;
  close s.

(** free of an aremotesocket releases its adisconnect too *)
Definition free_remote (s : Z) : M world unit :=
  free_socket s;;; modify (up_disconnects (delete (dis_of s)) id).

Definition msg_set (c a0 a1 len : Z) (pk : apacket) : apacket :=
  with_msg pk (mkMsg c a0 a1 len (data_check (p_msg pk)) (magic (p_msg pk))).

Definition remote_socket_close (s : Z) : M world unit :=
  do so <- sock_at s;
  do p <- get_apacket;
  do a0 <- (if s_peer so =? 0 then ret 0
            else
              do po <- sock_at (s_peer so);
              sock_put (s_peer so) (so_peer 0);;;
              close (s_peer so);;;
              ret (s_id po));
  pkt_put p (msg_set A_CLSE a0 (s_id so) 0);;;
  send_packet p (s_transport so);;;
  remove_transport_disconnect (s_transport so) (dis_of s);;;
  free_remote s.

Definition smart_socket_close (s : Z) : M world unit :=
  do so <- sock_at s;
  match s_pkts so with [] => ret tt | p :: _ => put_apacket p end;;;
  (if s_peer so =? 0 then ret tt
   else
     sock_put (s_peer so) (so_peer 0);;;
     close (s_peer so);;;
     sock_put s (so_peer 0));;;
  free_socket s.

(** jdwp_service.c *)
Definition jdwp_socket_close (s : Z) : M world unit :=
  do so <- sock_at s;
  remove_socket s;;;
  (if s_peer so =? 0 then ret tt
   else sock_put (s_peer so) (so_peer 0);;; close (s_peer so));;;
  free_socket s.

Definition jdwp_tracker_close (s : Z) : M world unit :=
  do so <- sock_at s;
  (if s_peer so =? 0 then ret tt
   else sock_put (s_peer so) (so_peer 0);;; close (s_peer so));;;
  remove_socket s;;;
  do l <- gets (λ w, jdwp_trackers_list (w_jdwp w));
  touch (prev_of s l);;;
  touch (next_of s l);;;
  modify (up_trackers (filter (λ x, x ≠ s) l));;;
  free_socket s.

(** transport.c, ADB_HOST *)
Definition device_tracker_close (s : Z) : M world unit :=
  do so <- sock_at s;
  (if s_peer so =? 0 then ret tt
   else sock_put (s_peer so) (so_peer 0);;; close (s_peer so));;;
  device_tracker_remove s;;;
  free_socket s.
End close.

(** the indirect call, and local_socket_close_locked with its recursion *)
Fixpoint close_rec (fuel : nat) (locked : bool) (s : Z) : M world unit :=
  match fuel with
  | O => fail OutOfFuel
  | S fuel' =>
      let close := close_rec fuel' false in
      let close_locked := close_rec fuel' true in
      if locked then local_socket_close_locked close close_locked s
      else
        do so <- sock_at s;
        match s_close so with
        | local_socket_close_ => local_socket_close close close_locked s
        | local_socket_close_notify_ => local_socket_close_notify close s
        | remote_socket_close_ => remote_socket_close close s
        | smart_socket_close_ => smart_socket_close close s
        | jdwp_socket_close_ => jdwp_socket_close close s
        | jdwp_tracker_close_ => jdwp_tracker_close close s
        | device_tracker_close_ => device_tracker_close close s
        end
  end.
Definition CLOSE_DEPTH : nat := 8.
Definition call_close (s : Z) : M world unit := close_rec CLOSE_DEPTH false s.
Definition close_locked (s : Z) : M world unit := close_rec CLOSE_DEPTH true s.
Arguments call_close : simpl never.
Arguments close_locked : simpl never.

(** the loop with its restart after each socket closed *)
Fixpoint find_of_transport (l : list Z) (t : Z) : M world (option Z) :=
  match l with
  | [] => ret None
  | s :: l' =>
      do so <- sock_at s;
      do m <- (if s_transport so =? t then ret true
               else if s_peer so =? 0 then ret false
               else do po <- sock_at (s_peer so); ret (s_transport po =? t));
      if (m : bool) then ret (Some s) else find_of_transport l' t
  end.
Fixpoint close_of_transport (fuel : nat) (t : Z) : M world unit :=
  do l <- gets local_socket_list;
  do r <- find_of_transport l t;
  match r with
  | None => ret tt
  | Some s =>
      match fuel with
      | O => fail OutOfFuel
      | S fuel' => close_locked s;;; close_of_transport fuel' t
      end
  end.
Definition close_all_sockets (t : Z) : M world unit :=
  lock_sockets;;;
  do n <- gets (λ w, length (local_socket_list w));
  close_of_transport n t;;;
  unlock_sockets.

(** ** ready *)

Definition local_socket_ready (s : Z) : M world unit :=
  do _ <- sock_at s; FD (fdevent_add (fde_of s) FDE_READ).

Definition remote_socket_ready (s : Z) : M world unit :=
  do p <- get_apacket;
  do so <- sock_at s;
  do po <- sock_at (s_peer so);
  pkt_put p (msg_set A_OKAY (s_id po) (s_id so) 0);;;
  send_packet p (s_transport so).

Definition local_socket_ready_notify (s : Z) : M world unit :=
  sock_put s (so_funs local_socket_ready_ local_socket_close_);;;
  do so <- sock_at s;
  do _ <- KW (adb_write (s_fd so) (str "OKAY"));
  local_socket_ready s.

Definition smart_socket_ready (s : Z) : M world unit := do _ <- sock_at s; ret tt.

(** ** enqueue *)

(** the bytes from ptr on, [len] of them *)
Definition rest_bytes (pk : apacket) : option (list Z) :=
  if decide (p_len pk ≤ Z.of_nat (length (drop (p_ptr pk) (p_data pk))))
  then Some (take (Z.to_nat (p_len pk)) (drop (p_ptr pk) (p_data pk))) else None.
Definition advance (n : nat) (pk : apacket) : apacket :=
  mkPacket (p_len pk - Z.of_nat n) (p_ptr pk + n) (p_msg pk) (p_data pk).

Inductive drained := Drained | Blocked | Failed.

(** while(p->len > 0) r = adb_write(fd, p->ptr, p->len) ...; [eintr]: an
    interrupted write is repeated *)
Fixpoint drain_packet (fuel : nat) (eintr : bool) (wfd p : Z) : M world drained :=
  do pk <- pkt_at p;
  if p_len pk <=? 0 then ret Drained
  else
    match fuel with
    | O => fail OutOfFuel
    | S fuel' =>
        do bs <- deref Uninitialised (λ _, rest_bytes pk);
        do r <- KW (adb_write wfd bs);
        match r with
        | inl O => ret Failed
        | inl n => pkt_put p (advance n);;; drain_packet fuel' eintr wfd p
        | inr e =>
            if e =? EAGAIN then ret Blocked
            else if eintr && (e =? EINTR) then drain_packet fuel' eintr wfd p
            else ret Failed
        end
    end.
(** every write that goes on uses up an event of the script or the packet *)
Definition drain_fuel (wfd : Z) (w : world) : nat := 2 + length (wr_of wfd (w_kern_of w)).

Definition local_socket_enqueue (s p : Z) : M world Z :=
  pkt_put p (λ pk, mkPacket (p_len pk) 0 (p_msg pk) (p_data pk));;;
  do so <- sock_at s;
  let append :=
    sock_put s (λ so, so_pkts (s_pkts so ++ [p]) so);;;
    FD (fdevent_add (fde_of s) FDE_WRITE);;;
    ret 1 in
  if negb (bool_decide (s_pkts so = [])) then append
  else
    do n <- gets (drain_fuel (s_write_fd so));
    do r <- drain_packet n false (s_write_fd so) p;
    match r with
    | Failed => call_close s;;; ret 1
    | Drained => put_apacket p;;; ret 0
    | Blocked => append
    end.

Definition remote_socket_enqueue (s p : Z) : M world Z :=
  do so <- sock_at s;
  do po <- sock_at (s_peer so);
  pkt_put p (λ pk, msg_set A_WRTE (s_id po) (s_id so) (p_len pk) pk);;;
  send_packet p (s_transport so);;;
  ret 1.

(** ** Requests of smart sockets *)

Definition hex_digit (c : Z) : option Z :=
  if (48 <=? c) && (c <=? 57) then Some (c - 48)
  else if (97 <=? c) && (c <=? 102) then Some (c - 97 + 10)
  else if (65 <=? c) && (c <=? 70) then Some (c - 65 + 10)
  else None.
Fixpoint unhex_loop (s : list Z) (n : Z) : Z :=
  match s with
  | [] => n
  | c :: s' =>
      match hex_digit c with
      | None => 0xffffffff
      | Some d => unhex_loop s' (u32 (Z.lor (Z.shiftl n 4) d))
      end
  end.
(** [s] is the array up to its [len]th byte *)
Definition unhex (s : list Z) : Z := unhex_loop s 0.

Definition prefixes : list (list Z) :=
  [str "usb:"; str "product:"; str "model:"; str "device:"].
Fixpoint skip_digits (s : list Z) : list Z :=
  match s with c :: s' => if isdigit c then skip_digits s' else s | [] => [] end.
(** the position of the colon after the serial, as the rest of the string *)
Fixpoint skip_prefixed (l : list (list Z)) (service : list Z) : option (option (list Z)) :=
  match l with
  | [] => None
  | pre :: l' =>
      if strncmp_eq service pre (length pre)
      then Some (strchr (drop (length pre) service) 58)
      else skip_prefixed l' service
  end.
Definition skip_host_serial (service : list Z) : option (list Z) :=
  match skip_prefixed prefixes service with
  | Some r => r
  | None =>
      match strchr service 58 with
      | None => None
      | Some first_colon =>
          let after := tail first_colon in
          match after with
          | c :: _ =>
              if isdigit c then
                let e := skip_digits after in
                match e with 58 :: _ => Some e | _ => Some first_colon end
              else Some first_colon
          | [] => Some first_colon
          end
      end
  end.

Definition connect_to_remote (s : Z) (destination : list Z) : M world unit :=
  do p <- get_apacket;
  let len := Z.of_nat (length destination) + 1 in
  if MAX_PAYLOAD - 1 <? len then fatal
  else
    do so <- sock_at s;
    pkt_put p (λ pk, with_data (msg_set A_OPEN (s_id so) 0 len pk) (destination ++ [0]));;;
    send_packet p (s_transport so).

(** data[i] = v on the written part of an array *)
Definition store_byte (i : nat) (v : Z) (d : list Z) : option (list Z) :=
  if decide (i < length d)%nat then Some (<[i := v]> d)
  else if decide (i = length d) then Some (d ++ [v]) else None.
(** memcpy(data + off, src, n) *)
Definition copy_at (off n : nat) (src d : list Z) : option (list Z) :=
  if decide (off ≤ length d ∧ n ≤ length src)%nat
  then Some (take off d ++ take n src ++ drop (off + n) d) else None.

Definition smart_fail (s : Z) : M world Z := call_close s;;; ret (-1).

(** p->data[len + 4] = 0 *)
Definition terminate_request (p : Z) (len : nat) : M world (list Z) :=
  do pk <- pkt_at p;
  do d <- deref Uninitialised (λ _, store_byte (len + 4) 0 (p_data pk));
  pkt_put p (λ pk, with_data pk d);;;
  ret d.

(** the request goes to the transport of the socket *)
Definition smart_forward (s : Z) (d : list Z) : M world Z :=
  do so <- sock_at s;
  do offline <- (if s_transport so =? 0 then ret true
                 else do tr <- trans_at (s_transport so); ret (t_connection_state tr =? CS_OFFLINE));
  do po <- sock_at (s_peer so);
  if (offline : bool) then
    KW (sendfailmsg (s_fd po) (str "device offline (x)"));;; smart_fail s
  else
    sock_put (s_peer so) (so_funs local_socket_ready_notify_ local_socket_close_notify_);;;
    sock_put (s_peer so) (so_peer 0);;;
    sock_put (s_peer so) (so_transport (s_transport so));;;
    do dest <- deref OutOfBounds (λ _, cstring (drop 4 d));
    connect_to_remote (s_peer so) dest;;;
    sock_put s (so_peer 0);;;
    call_close s;;;
    ret 1.

(** from the complete request on (the device chooses the only transport) *)
Definition smart_connect (s p : Z) (len : nat) : M world Z :=
  do d <- terminate_request p len;
  do so <- sock_at s;
  do ok <- (if s_transport so =? 0 then
              do '(t, err) <- acquire_one_transport 0 CS_ANY kTransportAny None;
              sock_put s (so_transport t);;;
              if t =? 0 then
                do po <- sock_at (s_peer so);
                KW (sendfailmsg (s_fd po) (default [] err));;;
                ret false
              else ret true
            else ret true);
  if negb (ok : bool) then smart_fail s else smart_forward s d.

(** up to the complete request: the value to return, or the packet with the
    request and its length *)
Definition smart_gather (s p : Z) : M world (Z + Z * nat) :=
  do so <- sock_at s;
  do q <- match s_pkts so with
          | [] => sock_put s (so_pkts [p]);;; ret (Some p)
          | first :: _ =>
              do pf <- pkt_at first;
              do pk <- pkt_at p;
              if MAX_PAYLOAD <? p_len pf + p_len pk then put_apacket p;;; ret None
              else
                do d <- deref Uninitialised (λ _,
                  copy_at (Z.to_nat (p_len pf)) (Z.to_nat (p_len pk)) (p_data pk) (p_data pf));
                pkt_put first (λ pf, with_len (with_data pf d) (p_len pf + p_len pk));;;
                put_apacket p;;;
                ret (Some first)
          end;
  match q with
  | None => do r <- smart_fail s; ret (inl r)
  | Some p =>
      do pk <- pkt_at p;
      if p_len pk <? 4 then ret (inl 0)
      else
        do hdr <- deref Uninitialised (λ _, payload pk 4);
        let len := unhex hdr in
        if (len <? 1) || (1024 <? len) then do r <- smart_fail s; ret (inl r)
        else if p_len pk <? len + 4 then ret (inl 0)
        else ret (inr (p, Z.to_nat len))
  end.

Definition smart_socket_enqueue (s p : Z) : M world Z :=
  do g <- smart_gather s p;
  match g with
  | inl r => ret r
  | inr (p, len) => smart_connect s p len
  end.

(** nothing can be written to the sockets that send lists *)
Definition jdwp_socket_enqueue (s p : Z) : M world Z :=
  put_apacket p;;;
  do so <- sock_at s;
  call_close (s_peer so);;;
  ret (-1).
Definition jdwp_tracker_enqueue (s p : Z) : M world Z :=
  put_apacket p;;;
  do so <- sock_at s;
  call_close (s_peer so);;;
  ret (-1).
Definition device_tracker_enqueue (s p : Z) : M world Z :=
  put_apacket p;;;
  device_tracker_close call_close s;;;
  ret (-1).

Definition call_enqueue (s p : Z) : M world Z :=
  do so <- sock_at s;
  match s_enqueue so with
  | local_socket_enqueue_ => local_socket_enqueue s p
  | remote_socket_enqueue_ => remote_socket_enqueue s p
  | smart_socket_enqueue_ => smart_socket_enqueue s p
  | jdwp_socket_enqueue_ => jdwp_socket_enqueue s p
  | jdwp_tracker_enqueue_ => jdwp_tracker_enqueue s p
  | device_tracker_enqueue_ => device_tracker_enqueue s p
  end.

(** ** ready of the sockets that send lists *)

(** get_apacket, the bytes copied into its data, peer->enqueue *)
Definition send_list (s p : Z) (bs : list Z) : M world Z :=
  do so <- sock_at s;
  pkt_put p (λ pk, with_len (with_data pk bs) (Z.of_nat (length bs)));;;
  call_enqueue (s_peer so) p.

(** the list the first time, then the end of the stream *)
Definition jdwp_socket_ready (s : Z) : M world unit :=
  do so <- sock_at s;
  if s_ext so =? 0 then
    do p <- get_apacket;
    do bs <- jdwp_process_list MAX_PAYLOAD;
    do _ <- send_list s p bs;
    sock_put s (so_ext 1)
  else call_close (s_peer so).

Definition jdwp_tracker_ready (s : Z) : M world unit :=
  do so <- sock_at s;
  if s_ext so =? 0 then ret tt
  else
    do p <- get_apacket;
    sock_put s (so_ext 0);;;
    do bs <- jdwp_process_list_msg MAX_PAYLOAD;
    do _ <- send_list s p bs;
    ret tt.

Definition device_tracker_send (tracker : Z) (buffer : list Z) : M world Z :=
  do p <- get_apacket;
  send_list tracker p buffer.

Definition device_tracker_ready (s : Z) : M world unit :=
  do so <- sock_at s;
  if 0 <? s_ext so then
    do ok <- KW malloc_ok;
    if negb ok then ret tt
    else
      sock_put s (so_ext 0);;;
      do buffer <- list_transports_msg 1024;
      do _ <- device_tracker_send s buffer;
      ret tt
  else ret tt.

Definition call_ready (s : Z) : M world unit :=
  do so <- sock_at s;
  match s_ready so with
  | local_socket_ready_ => local_socket_ready s
  | local_socket_ready_notify_ => local_socket_ready_notify s
  | remote_socket_ready_ => remote_socket_ready s
  | smart_socket_ready_ => smart_socket_ready s
  | jdwp_socket_ready_ => jdwp_socket_ready s
  | jdwp_tracker_ready_ => jdwp_tracker_ready s
  | device_tracker_ready_ => device_tracker_ready s
  end.

(** ** Events on a local socket *)

(** while((p = s->pkt_first) != 0): the queue is drained packet by packet *)
Fixpoint drain_queue (fuel : nat) (s : Z) : M world drained :=
  do so <- sock_at s;
  match s_pkts so with
  | [] => ret Drained
  | p :: rest =>
      match fuel with
      | O => fail OutOfFuel
      | S fuel' =>
          do n <- gets (drain_fuel (s_write_fd so));
          do r <- drain_packet n true (s_write_fd so) p;
          match r with
          | Drained => sock_put s (so_pkts rest);;; put_apacket p;;; drain_queue fuel' s
          | _ => ret r
          end
      end
  end.

(** the read loop: the bytes read, the last result of adb_read, is_eof *)
Fixpoint fill_packet (fuel : nat) (d : Z) (avail : nat) (acc : list Z) : M world (list Z * Z * bool) :=
  match fuel with
  | O => fail OutOfFuel
  | S fuel' =>
      do r <- KW (adb_read d avail);
      match r with
      | inl [] => ret (acc, 0, true)
      | inl bs =>
          let avail' := (avail - length bs)%nat in
          if decide (avail' = 0)%nat then ret (acc ++ bs, Z.of_nat (length bs), false)
          else fill_packet fuel' d avail' (acc ++ bs)
      | inr e =>
          if e =? EAGAIN then ret (acc, -1, false)
          else if e =? EINTR then fill_packet fuel' d avail acc
          else ret (acc, -1, true)
      end
  end.

Definition socket_writable (s : Z) : M world unit :=
  do so <- sock_at s;
  do r <- drain_queue (length (s_pkts so)) s;
  match r with
  | Blocked => ret tt
  | Failed => call_close s
  | Drained =>
      do so <- sock_at s;
      if s_closing so then call_close s
      else
        FD (fdevent_del (fde_of s) FDE_WRITE);;;
        do so <- sock_at s;
        call_ready (s_peer so)
  end.

(** the part for readable events; true when the function returns early *)
Definition socket_readable (d s : Z) : M world bool :=
  do p <- get_apacket;
  do n <- gets (λ w, length (rd_of d (w_kern_of w)));
  do '(bs, r, is_eof) <- fill_packet (2 + n) d (Z.to_nat MAX_PAYLOAD) [];
  pkt_put p (λ pk, with_data pk bs);;;
  do so <- sock_at s;
  do res <- (if bool_decide (bs = []) || (s_peer so =? 0) then put_apacket p;;; ret (r, false)
             else
               pkt_put p (λ pk, with_len pk (Z.of_nat (length bs)));;;
               do r <- call_enqueue (s_peer so) p;
               if r <? 0 then ret (r, true)
               else
                 when (0 <? r) (FD (fdevent_del (fde_of s) FDE_READ));;;
                 ret (r, false));
  let '(r, early) := res in
  if (early : bool) then ret true
  else
    do f <- FD (fde_at (fde_of s));
    when ((force_eof f && (r =? 0)) || is_eof) (call_close s);;;
    ret false.

Definition local_socket_event_func (d ev s : Z) : M world unit :=
  if has ev FDE_WRITE then socket_writable s
  else if has ev FDE_READ then do _ <- socket_readable d s; ret tt
  else ret tt.

(** ** Creation *)

(** calloc of a socket; the embedded fdevent is all zeros *)
Definition new_socket (so : asocket) : M world Z :=
  do s <- alloc;
  modify (up_sockets <[s := so]>);;;
  FD (modify (upd_fdes <[fde_of s := mkFde 0 false 0 0 local_socket_event_func_ 0]>));;;
  ret s.
Definition alloc_socket (so : asocket) : M world Z :=
  do ok <- KW malloc_ok;
  if negb ok then fatal else new_socket so.

Definition create_local_socket_pair (read_fd write_fd : Z) : M world Z :=
  do s <- alloc_socket (mkSock 0 false false 0 read_fd write_fd [] local_socket_enqueue_
                          local_socket_ready_ local_socket_close_ 0 0);
  install_local_socket s;;;
  FD (fdevent_install (fde_of s) read_fd local_socket_event_func_ s);;;
  ret s.
Definition create_local_socket (d : Z) : M world Z := create_local_socket_pair d d.

Definition create_local_service_socket `{Services} (name : list Z) : M world Z :=
  do r <- KW (service_to_fd name);
  match r with
  | None => ret 0
  | Some (fd0, fd1) =>
      do s <- (if fd0 =? fd1 then create_local_socket fd0 else create_local_socket_pair fd0 fd1);
      do root <- (if strncmp_eq name (str "root:") 5
                  then do u <- KW (sys_ "getuid" []); ret (negb (u =? 0)) else ret false);
      when (root || strncmp_eq name (str "usb:") 4 || strncmp_eq name (str "tcpip:") 6)
        (sock_put s (so_exit_on_close true));;;
      ret s
  end.

(** calloc may fail after dis was computed; the check comes before any use *)
Definition create_remote_socket (id t : Z) : M world Z :=
  do s <- alloc_socket (mkSock id false false 0 0 0 [] remote_socket_enqueue_
                          remote_socket_ready_ remote_socket_close_ t 0);
  dis_init (dis_of s) remote_socket_disconnect_ s;;;
  add_transport_disconnect t (dis_of s);;;
  ret s.

Definition remote_socket_disconnect (s : Z) : M world unit :=
  do so <- sock_at s;
  (if s_peer so =? 0 then ret tt
   else sock_put (s_peer so) (so_peer 0);;; call_close (s_peer so));;;
  remove_transport_disconnect (s_transport so) (dis_of s);;;
  free_remote s.

Definition create_smart_socket : M world Z :=
  alloc_socket (mkSock 0 false false 0 0 0 [] smart_socket_enqueue_
                  smart_socket_ready_ smart_socket_close_ 0 0).

Definition connect_to_smartsocket (s : Z) : M world unit :=
  do ss <- create_smart_socket;
  sock_put s (so_peer ss);;;
  sock_put ss (so_peer s);;;
  call_ready s.

(** ** The sockets of jdwp_service.c and the device trackers *)

Definition create_jdwp_service_socket : M world Z :=
  do ok <- KW malloc_ok;
  if negb ok then ret 0
  else
    do s <- new_socket (mkSock 0 false false 0 0 0 [] jdwp_socket_enqueue_ jdwp_socket_ready_
                          jdwp_socket_close_ 0 0);
    install_local_socket s;;;
    ret s.

Definition create_jdwp_tracker_service_socket : M world Z :=
  do ok <- KW malloc_ok;
  if negb ok then ret 0
  else
    do s <- new_socket (mkSock 0 false false 0 0 0 [] jdwp_tracker_enqueue_ jdwp_tracker_ready_
                          jdwp_tracker_close_ 0 1);
    do l <- gets (λ w, jdwp_trackers_list (w_jdwp w));
    touch (list.last l);;;
    modify (up_trackers (l ++ [s]));;;
    install_local_socket s;;;
    ret s.

Definition create_device_tracker : M world Z :=
  do s <- alloc_socket (mkSock 0 false false 0 0 0 [] device_tracker_enqueue_ device_tracker_ready_
                          device_tracker_close_ 0 1);
  modify (λ w, up_device_trackers (s :: device_tracker_list w) w);;;
  ret s.

(** update_transports (ADB_HOST); a send may destroy the tracker, so its
    successor was read before *)
Fixpoint update_trackers (fuel : nat) (tracker : option Z) (buffer : list Z) : M world unit :=
  match tracker with
  | None => ret tt
  | Some t =>
      match fuel with
      | O => fail OutOfFuel
      | S fuel' =>
          do _ <- sock_at t;
          do l <- gets device_tracker_list;
          do _ <- device_tracker_send t buffer;
          update_trackers fuel' (next_of t l) buffer
      end
  end.
Definition update_transports : M world unit :=
  do ok <- KW malloc_ok;
  if negb ok then ret tt
  else
    do buffer <- list_transports_msg 1024;
    do l <- gets device_tracker_list;
    update_trackers (length l) (head l) buffer.
