(* ===== verification/Jdwp.v ===== *)
(** * Processes that can be debugged (adbd/src/jdwp_service.c)

    A process connects to the control socket, sends its pid in four hexadecimal
    digits and keeps the connection.  A request "jdwp:<pid>" makes a pair of
    descriptors: one end is bound to the stream of the host, the other is queued
    for the process and passed to it over its connection.  Sockets for "jdwp" and
    "track-jdwp" send the list of pids; their functions are in Sockets.v.

    The file is compiled when ADBD_NO_PTY is not defined. *)

From S2P Require Import Prelude Kernel Packet DList Fdevent World Transport Listing Sockets.

Definition MAX_OUT_FDS : Z := 4.
Definition ECONNABORTED : Z := 103.
Definition O_NONBLOCK : Z := 0x800.

(** ** Trackers *)

(** t = t->next is read from the tracker after its peer took the packet *)
Fixpoint notify_trackers (fuel : nat) (t : option Z) (buffer : list Z) : M world unit :=
  match t with
  | None => ret tt
  | Some t =>
      match fuel with
      | O => fail OutOfFuel
      | S fuel' =>
          do p <- get_apacket;
          do _ <- send_list t p buffer;
          do _ <- sock_at t;
          do l <- gets (λ w, jdwp_trackers_list (w_jdwp w));
          notify_trackers fuel' (next_of t l) buffer
      end
  end.

Definition jdwp_process_list_updated : M world unit :=
  do ok <- KW malloc_ok;
  if negb ok then ret tt
  else
    do buffer <- jdwp_process_list_msg 1024;
    do l <- gets (λ w, jdwp_trackers_list (w_jdwp w));
    notify_trackers (length l) (head l) buffer.

(** ** Processes *)

Definition pr_pid (x : Z) (p : JdwpProcess) : JdwpProcess :=
  mkProc x (socket p) (jp_fde p) (in_buff p) (out_fds p) (out_count p).
Definition pr_in (x : list Z) (p : JdwpProcess) : JdwpProcess :=
  mkProc (pid p) (socket p) (jp_fde p) x (out_fds p) (out_count p).
Definition pr_out (l : list Z) (n : Z) (p : JdwpProcess) : JdwpProcess :=
  mkProc (pid p) (socket p) (jp_fde p) (in_buff p) l n.

(** proc->prev->next = ...: the neighbours are processes of the list or its head *)
Definition touch_proc (o : option Z) : M world unit :=
  match o with None => ret tt | Some a => do _ <- proc_at a; ret tt end.

Fixpoint close_fds (l : list Z) : M world unit :=
  match l with
  | [] => ret tt
  | d :: l' => KW (adb_close d);;; close_fds l'
  end.

Definition jdwp_process_free (proc : Z) : M world unit :=
  if proc =? 0 then ret tt
  else
    do pr <- proc_at proc;
    do l <- gets (λ w, jdwp_list (w_jdwp w));
    touch_proc (prev_of proc l);;;
    touch_proc (next_of proc l);;;
    modify (up_jdwp_list (filter (λ x, x ≠ proc) l));;;
    when (0 <=? socket pr)
      (KW (note "shutdown" [AZ (socket pr)]);;; KW (adb_close (socket pr)));;;
    when (negb (jp_fde pr =? 0)) (FD (fdevent_destroy (jp_fde pr)));;;
    close_fds (take (Z.to_nat (out_count pr)) (out_fds pr));;;
    modify (up_procs (delete proc));;;
    jdwp_process_list_updated.

Definition jdwp_process_alloc (s : Z) : M world Z :=
  do ok <- KW malloc_ok;
  if negb ok then ret 0
  else
    do proc <- alloc;
    do fde <- FD (fdevent_create s jdwp_process_event_ proc);
    if fde =? 0 then ret 0
    else
      FD (fde_put fde (λ f, set_state (Z.lor (state f) FDE_DONT_CLOSE) f));;;
      modify (up_procs <[proc := mkProc (-1) s fde [] (replicate (Z.to_nat MAX_OUT_FDS) 0) 0]>);;;
      do l <- gets (λ w, jdwp_list (w_jdwp w));
      touch_proc (list.last l);;;
      modify (up_jdwp_list (l ++ [proc]));;;
      FD (fdevent_add fde FDE_READ);;;
      ret proc.

(** recv(s, buf, len, 0): one call, not repeated after a signal *)
Definition recv (s : Z) (len : nat) : M kern (list Z + Z) := λ k,
  match rd_of s k with
  | [] => Ok (inl []) k
  | RdErr e :: rest => Ok (inr e) (set_errno e (set_rd s rest k))
  | RdData bs :: rest =>
      if decide (length bs ≤ len)%nat then Ok (inl bs) (set_rd s rest k)
      else Ok (inl (take len bs)) (set_rd s (RdData (drop len bs) :: rest) k)
  end.

(** how a loop over recv ends *)
Inductive received := Complete | WouldBlock | Broken.

(** the first loop: in_buff is filled up to four characters *)
Fixpoint read_pid (fuel : nat) (s proc : Z) : M world received :=
  do pr <- proc_at proc;
  let size := (4 - length (in_buff pr))%nat in
  if decide (size = 0)%nat then ret Complete
  else
    match fuel with
    | O => fail OutOfFuel
    | S fuel' =>
        do r <- KW (recv s size);
        match r with
        | inr e =>
            if e =? EINTR then read_pid fuel' s proc
            else if e =? EAGAIN then ret WouldBlock else ret Broken
        | inl [] => ret Broken
        | inl bs => proc_put proc (pr_in (in_buff pr ++ bs));;; read_pid fuel' s proc
        end
    end.

(** the second loop: whatever arrives is dropped *)
Fixpoint drop_input (fuel : nat) (s : Z) : M world received :=
  match fuel with
  | O => fail OutOfFuel
  | S fuel' =>
      do r <- KW (recv s 32);
      match r with
      | inr e =>
          if e =? EINTR then drop_input fuel' s
          else if e =? EAGAIN then ret WouldBlock else ret Broken
      | inl [] => ret Broken
      | inl _ => drop_input fuel' s
      end
  end.

(** sscanf(s, "%04x", &n) on at most four characters: blanks are skipped, then
    a sign, "0x" and digits; None when no number is there *)
Fixpoint hex_digits (s : list Z) (acc : Z) : Z :=
  match s with
  | c :: s' => match hex_digit c with Some d => hex_digits s' (acc * 16 + d) | None => acc end
  | [] => acc
  end.
Definition starts_hex (s : list Z) : bool :=
  match s with c :: _ => bool_decide (is_Some (hex_digit c)) | [] => false end.
Definition scan_plain (s : list Z) : option Z := if starts_hex s then Some (hex_digits s 0) else None.
Definition scan_unsigned (s : list Z) : option Z :=
  match s with
  | c0 :: c1 :: s' => if (c0 =? 48) && ((c1 =? 120) || (c1 =? 88)) then scan_plain s' else scan_plain s
  | _ => scan_plain s
  end.
Definition scan_04x (s : list Z) : option Z :=
  match take 4 (skip_spaces s) with
  | [] => None
  | c :: s' =>
      if c =? 45 then s32 ∘ Z.opp <$> scan_unsigned s'
      else if c =? 43 then scan_unsigned s'
      else scan_unsigned (c :: s')
  end.

(** sendmsg with the descriptor, again after a signal; true: it was sent *)
Fixpoint send_fd (fuel : nat) (s d : Z) : M kern bool :=
  match fuel with
  | O => fail OutOfFuel
  | S fuel' =>
      do r <- sys_ "sendmsg:SCM_RIGHTS" [AZ s; AZ d; AS (str "!")];
      if 0 <=? r then adb_close d;;; ret true
      else do e <- gets k_errno; if e =? EINTR then send_fd fuel' s d else ret false
  end.

(** for(n = 1; n < out_count; n++) out_fds[n - 1] = out_fds[n] *)
Fixpoint shift_fds (k : nat) (n : nat) (l : list Z) : list Z :=
  match k with
  | O => l
  | S k' => shift_fds k' (S n) (match l !! n with Some d => <[(n - 1)%nat := d]> l | None => l end)
  end.

(** the part for FDE_READ; false when the function returns *)
Definition jdwp_process_readable (s proc : Z) : M world bool :=
  do pr <- proc_at proc;
  if pid pr <? 0 then
    do n <- gets (λ w, length (rd_of s (w_kern_of w)));
    do r <- read_pid (2 + n) s proc;
    match r with
    | WouldBlock => ret false
    | Broken => jdwp_process_free proc;;; ret false
    | Complete =>
        do pr <- proc_at proc;
        match scan_04x (default [] (cstring (in_buff pr ++ [0]))) with
        | None => jdwp_process_free proc;;; ret false
        | Some n => proc_put proc (pr_pid n);;; jdwp_process_list_updated;;; ret true
        end
    end
  else
    do n <- gets (λ w, script_size (rd_of s (w_kern_of w)));
    do r <- drop_input (2 + n) s;
    match r with
    | WouldBlock => ret false
    | _ => jdwp_process_free proc;;; ret false
    end.

(** the part for FDE_WRITE *)
Definition jdwp_process_writable (proc : Z) : M world unit :=
  do pr <- proc_at proc;
  if out_count pr <=? 0 then ret tt
  else
    do d <- deref OutOfBounds (λ _, out_fds pr !! 0%nat);
    do flags <- KW (sys_ "fcntl" [AZ (socket pr); AS (str "F_GETFL")]);
    if flags =? -1 then jdwp_process_free proc
    else
      do r <- KW (sys_ "fcntl" [AZ (socket pr); AS (str "F_SETFL");
                                AZ (Z.land flags (Z.lnot O_NONBLOCK))]);
      if r =? -1 then jdwp_process_free proc
      else
        do n <- gets (λ w, length (k_sys (w_kern_of w)));
        do sent <- KW (send_fd (2 + n) (socket pr) d);
        if negb sent then jdwp_process_free proc
        else
          proc_put proc (pr_out (shift_fds (Z.to_nat (out_count pr) - 1) 1 (out_fds pr)) (out_count pr));;;
          do r <- KW (sys_ "fcntl" [AZ (socket pr); AS (str "F_SETFL"); AZ flags]);
          if r =? -1 then jdwp_process_free proc
          else
            proc_put proc (λ pr, pr_out (out_fds pr) (out_count pr - 1) pr);;;
            when (out_count pr - 1 =? 0) (FD (fdevent_del (jp_fde pr) FDE_WRITE)).

Definition jdwp_process_event (s ev proc : Z) : M world unit :=
  do go <- (if has ev FDE_READ then jdwp_process_readable s proc else ret true);
  if (go : bool) && has ev FDE_WRITE then jdwp_process_writable proc else ret tt.

(** ** Connections *)

Fixpoint find_pid (l : list Z) (n : Z) : M world Z :=
  match l with
  | [] => ret 0
  | a :: l' => do pr <- proc_at a; if pid pr =? n then ret a else find_pid l' n
  end.

Definition create_jdwp_connection_fd (n : Z) : M world Z :=
  do l <- gets (λ w, jdwp_list (w_jdwp w));
  do proc <- find_pid l n;
  if proc =? 0 then ret (-1)
  else
    do pr <- proc_at proc;
    if MAX_OUT_FDS <=? out_count pr then ret (-1)
    else
      do '(r, fds) <- KW adb_socketpair;
      if r <? 0 then ret (-1)
      else
        proc_put proc (pr_out (<[Z.to_nat (out_count pr) := default 0 (fds !! 1%nat)]> (out_fds pr))
                         (out_count pr + 1));;;
        when (out_count pr + 1 =? 1) (FD (fdevent_add (jp_fde pr) FDE_WRITE));;;
        ret (default 0 (fds !! 0%nat)).

(** ** The control socket *)

Definition JDWP_CONTROL_NAME : list Z := 0 :: str "jdwp-control".
Definition maxpath : Z := 108.               (* sizeof(addr.sun_path) *)

Definition jdwp_control_init (sockname : list Z) : M world Z :=
  let pathlen := Z.of_nat (length sockname) in
  if maxpath <=? pathlen then ret (-1)
  else
    do s <- KW (sys_ "socket" [AS (str "AF_UNIX"); AS (str "SOCK_STREAM")]);
    if s <? 0 then ret (-1)
    else
      do b <- KW (sys_ "bind" [AZ s; AS sockname; AZ (pathlen + 2)]);
      if b <? 0 then KW (adb_close s);;; ret (-1)
      else
        do l <- KW (sys_ "listen" [AZ s; AZ 4]);
        if l <? 0 then KW (adb_close s);;; ret (-1)
        else
          modify (λ w, up_control s (control_fde (w_jdwp w)) w);;;
          do fde <- FD (fdevent_create s jdwp_control_event_ 0);
          modify (up_control s fde);;;
          if fde =? 0 then KW (adb_close s);;; ret (-1)
          else
            FD (fdevent_add fde FDE_READ);;;
            KW (close_on_exec s);;;
            ret 0.

(** do s = accept() while(s < 0); None: the function returns *)
Fixpoint accept_loop (fuel : nat) (listener : Z) : M kern (option Z) :=
  match fuel with
  | O => fail OutOfFuel
  | S fuel' =>
      do s <- adb_socket_accept listener;
      if s <? 0 then do e <- gets k_errno; if e =? EINTR then accept_loop fuel' listener else ret None
      else ret (Some s)
  end.

Definition jdwp_control_event (ev : Z) : M world unit :=
  if negb (has ev FDE_READ) then ret tt
  else
    do listener <- gets (λ w, control_listen_socket (w_jdwp w));
    do n <- gets (λ w, length (k_sys (w_kern_of w)));
    do r <- KW (accept_loop (2 + n) listener);
    match r with
    | None => ret tt
    | Some s => do _ <- jdwp_process_alloc s; ret tt
    end.

Definition init_jdwp : M world Z :=
  modify (up_jdwp_list []);;;
  modify (up_trackers []);;;
  jdwp_control_init JDWP_CONTROL_NAME.

(** ** Requests of the host

    What service_to_fd and create_local_service_socket do in addition when
    the file is compiled. *)

Definition jdwp_service_to_fd (name : list Z) : option (M world (option (Z * Z))) :=
  if strncmp_eq name (str "jdwp:") 5 then
    Some (do r <- create_jdwp_connection_fd (atoi (drop 5 name));
          ret (if 0 <=? r then Some (r, r) else None))
  else None.

Definition create_jdwp_or_local_service_socket `{Services} (name : list Z) : M world Z :=
  if strcmp_eq name (str "jdwp") then create_jdwp_service_socket
  else if strcmp_eq name (str "track-jdwp") then create_jdwp_tracker_service_socket
  else
    match jdwp_service_to_fd name with
    | None => create_local_service_socket name
    | Some m =>
        do r <- m;
        match r with
        | None => ret 0
        | Some (fd0, fd1) =>
            if fd0 =? fd1 then create_local_socket fd0 else create_local_socket_pair fd0 fd1
        end
    end.
