(* ===== verification/ListingProps.v ===== *)
(** * Theorems on the lists sent to clients

    Numbers in four hexadecimal digits are read back by every reader of the
    daemon; a list is the longest prefix of its lines that fits in the buffer,
    with its length in front; the long listing of the host overruns its
    buffer. *)

From S2P Require Import Prelude Kernel Packet DList Fdevent World Transport Listing Sockets Jdwp.

(** ** Four hexadecimal digits *)

Definition nibbles (n : Z) : list Z := [n / 4096; n / 256 mod 16; n / 16 mod 16; n mod 16].

Lemma fmt_04x_nibbles n : 0 ≤ n < 65536 → fmt_04x n = digit <$> nibbles n.
Proof.
  intros Hn. unfold fmt_04x, fmt_x, nibbles. cbn [digits fmap list_fmap].
  rewrite !Z.div_div by lia. change (16 * 16) with 256. change (256 * 16) with 4096.
  change (4096 * 16) with 65536.
  rewrite (Z.div_small n 65536) by lia.
  assert (Hd : n / 4096 mod 16 = n / 4096) by (apply Z.mod_small; split; [apply Z.div_pos|apply Z.div_lt_upper_bound]; lia).
  destruct (Z.eqb_spec (n / 16) 0) as [H|H].
  { rewrite !(Z.div_small n) by (apply Z.div_small_iff in H; lia). done. }
  destruct (Z.eqb_spec (n / 256) 0) as [H2|H2].
  { rewrite !(Z.div_small n 256), !(Z.div_small n 4096) by (apply Z.div_small_iff in H2; lia). done. }
  destruct (Z.eqb_spec (n / 4096) 0) as [H3|H3].
  { rewrite !(Z.div_small n 4096) by (apply Z.div_small_iff in H3; lia). done. }
  cbn. by rewrite Hd.
Qed.

Lemma hex_digit_digit d : 0 ≤ d < 16 → hex_digit (digit d) = Some d.
Proof.
  intros Hd. unfold digit, hex_digit. destruct (Z.ltb_spec d 10).
  - rewrite (proj2 (Z.leb_le 48 _)), (proj2 (Z.leb_le _ 57)) by lia. cbn. f_equal. lia.
  - rewrite (proj2 (Z.leb_le 48 _)), (proj2 (Z.leb_gt _ 57)) by lia. cbn [andb].
    rewrite (proj2 (Z.leb_le 97 _)), (proj2 (Z.leb_le _ 102)) by lia. cbn. f_equal. lia.
Qed.

Lemma nibbles_range n : 0 ≤ n < 65536 → Forall (λ d, 0 ≤ d < 16) (nibbles n).
Proof.
  intros Hn. unfold nibbles. repeat constructor; try (apply Z.mod_pos_bound; lia).
  - apply Z.div_pos; lia.
  - apply Z.div_lt_upper_bound; lia.
Qed.
Lemma nibbles_value n : ((n / 4096 * 16 + n / 256 mod 16) * 16 + n / 16 mod 16) * 16 + n mod 16 = n.
Proof.
  pose proof (Z.div_mod n 16 ltac:(lia)). pose proof (Z.div_mod (n / 16) 16 ltac:(lia)).
  pose proof (Z.div_mod (n / 256) 16 ltac:(lia)).
  rewrite Z.div_div in * by lia. change (16 * 16) with 256 in *. change (256 * 16) with 4096 in *. lia.
Qed.

Lemma length_fmt_04x n : 0 ≤ n < 65536 → length (fmt_04x n) = 4%nat.
Proof. intros Hn. by rewrite fmt_04x_nibbles. Qed.

Lemma hex_digits_fmt n : 0 ≤ n < 65536 → hex_digits (fmt_04x n) 0 = n.
Proof.
  intros Hn. rewrite fmt_04x_nibbles by done. pose proof (nibbles_range n Hn) as Hr.
  unfold nibbles in *. rewrite !list.Forall_cons in Hr. destruct Hr as (H1 & H2 & H3 & H4 & _).
  cbn [fmap list_fmap hex_digits]. rewrite !hex_digit_digit by done. apply nibbles_value.
Qed.

(** a digit is no blank, no sign, no NUL and no x *)
Lemma hex_digit_range d : 0 ≤ d < 16 → 48 ≤ digit d ≤ 57 ∨ 97 ≤ digit d ≤ 102.
Proof. intros Hd. unfold digit. destruct (Z.ltb_spec d 10); lia. Qed.

(** the first digits of a number are read in full *)
Lemma scan_fmt n : 0 ≤ n < 65536 → scan_04x (fmt_04x n) = Some n.
Proof.
  intros Hn. pose proof (hex_digits_fmt n Hn) as Hv. rewrite fmt_04x_nibbles in * by done.
  pose proof (nibbles_range n Hn) as Hr. unfold nibbles in *. cbn [fmap list_fmap] in *.
  rewrite !list.Forall_cons in Hr. destruct Hr as (H1 & H2 & H3 & H4 & _).
  pose proof (hex_digit_range _ H1) as R1. pose proof (hex_digit_range _ H2) as R2.
  unfold scan_04x. cbn [skip_spaces]. unfold isspace.
  rewrite (proj2 (Z.eqb_neq _ 32)), (proj2 (Z.leb_gt (digit _) 13)), andb_false_r by lia.
  cbn [orb take]. rewrite (proj2 (Z.eqb_neq _ 45)), (proj2 (Z.eqb_neq _ 43)) by lia.
  unfold scan_unsigned. rewrite (proj2 (Z.eqb_neq _ 120)), (proj2 (Z.eqb_neq _ 88)) by lia.
  rewrite andb_false_r. unfold scan_plain. cbn [starts_hex]. rewrite hex_digit_digit by done.
  rewrite bool_decide_eq_true_2 by eauto. by f_equal.
Qed.

Lemma fmt_04x_no_nul n : 0 ≤ n < 65536 → 0 ∉ fmt_04x n.
Proof.
  intros Hn. rewrite fmt_04x_nibbles by done. intros (d & Hd & Hin)%list_elem_of_fmap.
  pose proof (nibbles_range n Hn) as Hr. rewrite list.Forall_forall in Hr.
  pose proof (hex_digit_range d (Hr d Hin)). lia.
Qed.

(** the length in front of a list, as smart sockets read it *)
Lemma unhex_fmt n : 0 ≤ n < 65536 → unhex (fmt_04x n) = n.
Proof.
  intros Hn. rewrite fmt_04x_nibbles by done. pose proof (nibbles_range n Hn) as Hr.
  unfold nibbles in *. rewrite !list.Forall_cons in Hr. destruct Hr as (H1 & H2 & H3 & H4 & _).
  assert (Hstep : ∀ a d, 0 ≤ a < 2 ^ 16 → 0 ≤ d < 16 → u32 (Z.lor (Z.shiftl a 4) d) = a * 16 + d).
  { intros a d Ha Hd. assert (Z.land (Z.shiftl a 4) d = 0) as Hland.
    { apply Z.bits_inj'. intros i Hi. rewrite Z.land_spec, Z.bits_0, Z.shiftl_spec by done.
      destruct (Z.ltb_spec i 4).
      - rewrite Z.testbit_neg_r by lia. done.
      - rewrite (Z.bits_above_log2 d i); [apply andb_false_r|lia|]. destruct (decide (d = 0)) as [->|];
          [cbn; lia|]. apply Z.log2_lt_pow2; [lia|]. apply Z.lt_le_trans with (2 ^ 4); [lia|].
        apply Z.pow_le_mono_r; lia. }
    rewrite <- Z.lxor_lor by done. rewrite <- Z.add_nocarry_lxor by done.
    rewrite Z.shiftl_mul_pow2 by lia. change (2 ^ 4) with 16. by rewrite u32_id by lia. }
  unfold unhex. cbn [fmap list_fmap unhex_loop].
  rewrite !hex_digit_digit by done.
  pose proof (nibbles_value n) as Hv. revert H1 H2 H3 H4 Hv.
  generalize (n / 4096), (n / 256 mod 16), (n / 16 mod 16), (n mod 16). intros a b c d H1 H2 H3 H4 Hv.
  rewrite (Hstep 0 a), (Hstep _ b), (Hstep _ c), (Hstep _ d) by lia. lia.
Qed.

(** ** The longest prefix that fits *)

(** [s] is the longest prefix of the lines that leaves room for the NUL *)
Definition longest_fit (room : Z) (lines : list (list Z)) (s : list Z) : Prop :=
  ∃ k, s = concat (take k lines) ∧ Z.of_nat (length s) < room
    ∧ (k = length lines ∨ room ≤ Z.of_nat (length (concat (take (S k) lines)))).

Fixpoint fits (room : Z) (lines : list (list Z)) : list Z :=
  match lines with
  | [] => []
  | x :: lines' =>
      if room <=? Z.of_nat (length x) then []
      else x ++ fits (room - Z.of_nat (length x)) lines'
  end.

Lemma fits_longest room lines : 0 < room → longest_fit room lines (fits room lines).
Proof.
  revert room. induction lines as [|x lines IH]; intros room Hr; cbn [fits].
  { exists 0%nat. split_and!; [done|done|by left]. }
  destruct (Z.leb_spec room (Z.of_nat (length x))) as [Hle|Hlt].
  { exists 0%nat. split_and!; [done|done|]. right. cbn. by rewrite app_nil_r. }
  destruct (IH (room - Z.of_nat (length x)) ltac:(lia)) as (k & -> & Hl & Hk).
  exists (S k). cbn [take concat]. rewrite length_app. split_and!; [done|lia|].
  destruct Hk as [->|Hk]; [by left|right]. cbn [take concat] in *. rewrite length_app. lia.
Qed.

(** the length in front and the list: what a client receives *)
Definition counted_list (room : Z) (lines : list (list Z)) (msg : list Z) : Prop :=
  ∃ body, msg = fmt_04x (Z.of_nat (length body)) ++ body ∧ longest_fit (room - 4) lines body
    ∧ unhex (take 4 msg) = Z.of_nat (length body) ∧ Z.of_nat (length msg) < room.

Lemma counted_list_intro room lines body : 4 < room ≤ 65536 → longest_fit (room - 4) lines body →
  counted_list room lines (take 4 (fmt_04x (Z.of_nat (length body))) ++ body).
Proof.
  intros Hr Hf. assert (Hl : 0 ≤ Z.of_nat (length body) < 65536).
  { destruct Hf as (k & _ & Hl & _). lia. }
  pose proof (length_fmt_04x _ Hl) as H4. rewrite take_ge by lia. exists body. split_and!; [done..| |].
  - rewrite take_app_le, take_ge by lia. by apply unhex_fmt.
  - rewrite length_app, H4. destruct Hf as (k & _ & Hb & _). lia.
Qed.

(** ** Pids *)

Definition pid_line (n : Z) : list Z := fmt_d n ++ [10].
Definition live_pid (j : jdwp_state) (a : Z) : option Z :=
  pr ← jdwp_procs j !! a; if pid pr <? 0 then None else Some (pid pr).
Definition live_pids (j : jdwp_state) : list Z := omap (live_pid j) (jdwp_list j).

Lemma list_pids_run l room w : (∀ a, a ∈ l → is_Some (jdwp_procs (w_jdwp w) !! a)) →
  list_pids l room w = Ok (fits room (pid_line <$> omap (live_pid (w_jdwp w)) l)) w.
Proof.
  revert room. induction l as [|a l IH]; intros room Hl; [done|]. cbn [list_pids omap list_omap].
  destruct (Hl a ltac:(set_solver)) as [pr Hpr]. run (proc_at_run w a pr Hpr).
  assert (Hrest : ∀ b, b ∈ l → is_Some (jdwp_procs (w_jdwp w) !! b)) by set_solver.
  unfold live_pid at 1. rewrite Hpr. cbn [mbind option_bind].
  destruct (pid pr <? 0); [by apply IH|]. cbn [fmap list_fmap fits]. unfold pid_line at 1 2 3.
  cbv zeta. destruct (room <=? _); [done|]. by run (IH (room - Z.of_nat (length (fmt_d (pid pr) ++ [10]))) Hrest).
Qed.

(** ** Transports *)

Definition transport_line (t : atransport) : list Z :=
  match t_serial t with None | Some [] => str "????????????" | Some s => s end
  ++ [9] ++ statename t ++ [10].

Lemma list_lines_run l ts room w : room < 2 ^ 31 → Forall2 (λ a t, w_transports w !! a = Some t) l ts →
  Forall (λ t, Z.of_nat (length (transport_line t)) < 2 ^ 31) ts →
  list_lines l room false w = Ok (fits room (transport_line <$> ts)) w.
Proof.
  intros Hr H. revert room Hr. induction H as [|a t l ts Ha _ IH]; intros room Hr Hs; [done|].
  apply list.Forall_cons in Hs as [Ht Hs]. cbn [list_lines fmap list_fmap fits].
  run (trans_at_run w a t Ha).
  assert (Hid : s32 (Z.of_nat (length (transport_line t))) = Z.of_nat (length (transport_line t))).
  { unfold s32. rewrite Z.mod_small; lia. }
  rewrite (bind_ok _ _ w (transport_line t, Z.of_nat (length (transport_line t))) w) by done.
  rewrite Hid. destruct (room <=? _); [done|].
  by run (IH (room - Z.of_nat (length (transport_line t))) ltac:(lia) Hs).
Qed.

(** ** The messages *)

Lemma list_msg_run w room : 4 < room ≤ 65536 →
  (∀ a, a ∈ jdwp_list (w_jdwp w) → is_Some (jdwp_procs (w_jdwp w) !! a)) →
  ∃ msg, jdwp_process_list_msg room w = Ok msg w
    ∧ counted_list room (pid_line <$> live_pids (w_jdwp w)) msg.
Proof.
  intros Hr Hl. eexists. split; [|apply counted_list_intro; [done|apply fits_longest; lia]].
  unfold jdwp_process_list_msg, jdwp_process_list. rewrite bind_assoc.
  run (eq_refl : gets (λ w, jdwp_list (w_jdwp w)) w = Ok _ w). rewrite bind_assoc.
  run (list_pids_run _ (room - 4) w Hl). by rewrite (proj2 (Z.leb_gt _ 0)) by lia.
Qed.

(** The list of processes is sent whole or cut at a line: the message is
    the length in four hexadecimal digits, as the reader decodes them, and the
    longest prefix of the lines of the live processes, in the order of their
    connections, that fits in the buffer; processes whose pid is not known yet
    are left out, nothing is written outside of the buffer and the state is not
    changed. *)
Theorem jdwp_list_fits w room : 4 < room ≤ 65536 →
  (∀ a, a ∈ jdwp_list (w_jdwp w) → is_Some (jdwp_procs (w_jdwp w) !! a)) →
  ∃ msg, jdwp_process_list_msg room w = Ok msg w
    ∧ counted_list room (pid_line <$> live_pids (w_jdwp w)) msg.
Proof. apply list_msg_run. Qed.

(** the same for the transports of the host *)
Theorem transports_list_fits w room ts : 4 < room ≤ 65536 → transport_lock w = false →
  Forall2 (λ a t, w_transports w !! a = Some t) (transport_list w) ts →
  Forall (λ t, Z.of_nat (length (transport_line t)) < 2 ^ 31) ts →
  ∃ msg, list_transports_msg room w = Ok msg w ∧ counted_list room (transport_line <$> ts) msg.
Proof.
  intros Hr Hlk Hts Hs. eexists. split; [|apply counted_list_intro; [done|apply fits_longest; lia]].
  unfold list_transports_msg, list_transports, lock_transports. rewrite !bind_assoc.
  run (eq_refl : gets transport_lock w = Ok _ w). rewrite Hlk. set (w1 := up_transport_lock true w).
  run (eq_refl : modify (up_transport_lock true) w = Ok tt w1). rewrite bind_assoc.
  run (eq_refl : gets transport_list w1 = Ok (transport_list w) w1). rewrite bind_assoc.
  run (list_lines_run (transport_list w) ts (room - 4) w1 ltac:(lia) Hts Hs).
  rewrite (proj2 (Z.leb_gt _ 0)) by lia. unfold bind, ret, unlock_transports, modify.
  f_equal. unfold w1, up_transport_lock. destruct w; cbn in *. by rewrite Hlk.
Qed.

(** ** The long listing *)

(** once the text is longer than the buffer, *buf_size has wrapped around and
    nothing stops the next write *)
Definition overrun (bufsize : Z) (b : obuf) : Prop :=
  bufsize < Z.of_nat (length (ob_text b)) ∧ 0 < ob_size b.

Lemma print_to_overrun {S} bufsize b s (w : S) : overrun bufsize b →
  print_to bufsize b s w = Fault OutOfBounds w.
Proof.
  intros [H1 H2]. unfold print_to. rewrite (proj2 (Z.eqb_neq _ 0)) by lia.
  rewrite (proj2 (Z.ltb_lt 0 _)), (proj2 (Z.ltb_lt bufsize _)) by lia. done.
Qed.
Lemma add_qual_overrun {S B} bufsize b pre q san (f : obuf → M S B) (w : S) : overrun bufsize b →
  (∀ w', f b w' = Fault OutOfBounds w') → (do b <- add_qual bufsize b pre q san; f b) w = Fault OutOfBounds w.
Proof.
  intros H Hf. unfold bind, add_qual. destruct q as [[|c q]|]; [apply Hf| |apply Hf].
  destruct (Z.eqb_spec (ob_size b) 0); [apply Hf|]. unfold bind. by rewrite print_to_overrun.
Qed.

(** A transport whose serial and state do not fit in what is left of the buffer
    makes the long listing ("devices -l") write outside of it. *)
Theorem long_listing_overruns {W} t bufsize (w : W) : 0 < bufsize < 2 ^ 31 →
  bufsize < Z.of_nat (length (default [] (t_serial t))) < 2 ^ 31 →
  format_transport t bufsize true w = Fault OutOfBounds w.
Proof.
  intros Hb Hs. unfold format_transport. cbn [negb].
  destruct (t_serial t) as [[|c ser]|]; cbn in Hs; [lia| |lia].
  set (serial := c :: ser) in *. set (line := pad22 serial ++ [32] ++ statename t).
  assert (Hst : (length (statename t) ≤ 14)%nat)
    by (unfold statename; repeat (case_match; [vm_compute; lia|]); vm_compute; lia).
  assert (Hln : bufsize < Z.of_nat (length line) < 2 ^ 31 + 40).
  { unfold line, pad22. rewrite !length_app, length_replicate. cbn [length].
    change (length serial) with (S (length ser)). lia. }
  rewrite (bind_ok _ _ w (mkObuf line (u32 (bufsize - Z.of_nat (length line)))) w); cycle 1.
  { unfold print_to. cbn [ob_size ob_text length]. rewrite (proj2 (Z.eqb_neq _ 0)) by lia.
    rewrite (proj2 (Z.ltb_ge bufsize _)) by lia. by rewrite andb_false_r. }
  assert (Hov : overrun bufsize (mkObuf line (u32 (bufsize - Z.of_nat (length line))))).
  { split; cbn [ob_text ob_size]; [lia|]. unfold u32. rewrite <- (Z_mod_plus_full _ 1), Z.mod_small; lia. }
  do 4 (apply add_qual_overrun; [done|clear w; intros w]). unfold bind. by rewrite print_to_overrun.
Qed.

(** ** Examples *)

Module DemoListing.
Definition proc (n : Z) : JdwpProcess := mkProc n 5 33 [] [0; 0; 0; 0] 0.
Definition world : World.world :=
  up_jdwp (mkJdwp {[ 16 := proc 100; 32 := proc (-1); 48 := proc 7 ]} [16; 32; 48] [] 0 0)
    (start_world (mkKern 0 ∅ ∅ ∅ [] [] [])).
End DemoListing.

Lemma jdwp_list_fits_witness : ∃ msg, jdwp_process_list_msg 1024 DemoListing.world = Ok msg DemoListing.world
  ∧ counted_list 1024 (pid_line <$> live_pids (w_jdwp DemoListing.world)) msg
  ∧ msg = str "0006100" ++ [10] ++ str "7" ++ [10].
Proof.
  destruct (jdwp_list_fits DemoListing.world 1024) as (msg & Hm & Hc); [lia| |].
  - intros a Ha. change (jdwp_list (w_jdwp DemoListing.world)) with [16; 32; 48] in Ha.
    apply list_elem_of_In in Ha as [<-|[<-|[<-|[]]]]; eexists; vm_compute; reflexivity.
  - exists msg. split_and!; [exact Hm|exact Hc|].
    assert (jdwp_process_list_msg 1024 DemoListing.world
      = Ok (str "0006100" ++ [10] ++ str "7" ++ [10]) DemoListing.world) as Hm' by (vm_compute; reflexivity).
    rewrite Hm in Hm'. by injection Hm'.
Defined.
