(* ===== verification/Adb.v ===== *)
(** * The protocol engine (adbd/src/adb.c, device build)

    handle_packet and what it sends, the listeners, and the requests that are
    answered by the daemon itself.  The services and the authentication are
    behind interfaces: [Services] (Sockets.v) and [Auth] below. *)

From S2P Require Import Prelude Kernel SockUtil Packet DList Fdevent World Transport Sockets.

Definition ADB_AUTH_TOKEN : Z := 1.
Definition ADB_AUTH_SIGNATURE : Z := 2.
Definition ADB_AUTH_RSAPUBLICKEY : Z := 3.
Definition TOKEN_SIZE : nat := 20.

(** adb_auth.h on the device.  The token buffer is filled in place: the result
    is its new contents and whether all of it was filled. *)
Class Auth := {
  adb_auth_generate_token : list Z → M world (list Z * bool);
  adb_auth_verify : list Z → list Z → M world bool;
  adb_auth_confirm_key : list Z → Z → M world unit;
  adb_auth_event : Z → Z → Z → M world unit;      (* fd, events, transport *)
  adb_auth_listener : Z → M world unit;
  adb_auth_init : M world unit;
}.

(** ADBD_NO_AUTH: the inline functions of adb_auth.h *)
Definition no_auth : Auth := {|
  adb_auth_generate_token := λ tok, ret (tok, false);
  adb_auth_verify := λ _ _, ret false;
  adb_auth_confirm_key := λ _ _, ret tt;
  adb_auth_event := λ _ _ _, ret tt;               (* never installed *)
  adb_auth_listener := λ _, ret tt;
  adb_auth_init := ret tt |}.

(** ** Sending *)

Definition send_ready (local remote t : Z) : M world unit :=
  do p <- get_apacket;
  pkt_put p (msg_set A_OKAY local remote 0);;;
  send_packet p t.
Definition send_close (local remote t : Z) : M world unit :=
  do p <- get_apacket;
  pkt_put p (msg_set A_CLSE local remote 0);;;
  send_packet p t.

Definition connect_data (banner : list Z) : list Z :=
  banner ++ str "::" ++
  str "ro.product.name=" ++ str "occam" ++ str ";" ++
  str "ro.product.model=" ++ str "Nexus 4" ++ str ";" ++
  str "ro.product.device=" ++ str "mako" ++ str ";".

(** the buffer is large enough for the banners in use *)
Definition fill_connect_data (banner : list Z) : M world (list Z) :=
  let d := connect_data banner in
  if MAX_PAYLOAD <=? Z.of_nat (length d) then fail OutOfBounds else ret (d ++ [0]).

Definition send_connect (t : Z) : M world unit :=
  do p <- get_apacket;
  do banner <- gets adb_device_banner;
  do d <- fill_connect_data banner;
  pkt_put p (λ pk, with_data (msg_set A_CNXN A_VERSION MAX_PAYLOAD (Z.of_nat (length d)) pk) d);;;
  send_packet p t.

Definition handle_online (t : Z) : M world unit := trans_put t (to_online true).

Definition adb_auth_verified (t : Z) : M world unit := handle_online t;;; send_connect t.

Section auth.
Context `{Auth}.

Definition send_auth_request (t : Z) : M world unit :=
  do tr <- trans_at t;
  do '(tok, ok) <- adb_auth_generate_token (t_token tr);
  trans_put t (λ tr, to_auth tok (t_failed_auth_attempts tr) tr);;;
  if negb (ok : bool) then ret tt
  else
    do p <- get_apacket;
    pkt_put p (λ pk, with_data (msg_set A_AUTH ADB_AUTH_TOKEN 0 (Z.of_nat (length tok)) pk) tok);;;
    send_packet p t.

(** adb_auth_get_userkey returns 0 on the device *)
Definition send_auth_publickey (t : Z) : M world unit :=
  do p <- get_apacket; put_apacket p.
End auth.

(** ** parse_banner *)

Definition qual_overwrite (src : list Z) : M world (option (list Z)) :=
  match src with [] => ret None | _ => strdup src end.

(** adb_strtok_r: the non-empty pieces between semicolons *)
Fixpoint split_on (c : Z) (s acc : list Z) : list (list Z) :=
  match s with
  | [] => [rev acc]
  | x :: s' => if x =? c then rev acc :: split_on c s' [] else split_on c s' (x :: acc)
  end.
Definition strtok (c : Z) (s : list Z) : list (list Z) :=
  filter (λ x, x ≠ []) (split_on c s []).

Fixpoint parse_props (l : list (list Z)) (t : Z) : M world unit :=
  match l with
  | [] => ret tt
  | tok :: l' =>
      match strchr tok 61 with
      | None => ret tt
      | Some cp =>
          let key := before tok 61 in
          let val := tail cp in
          if strcmp_eq key (str "ro.product.name") then
            do v <- qual_overwrite val;
            trans_put t (λ tr, to_quals v (t_model tr) (t_device tr) tr)
          else if strcmp_eq key (str "ro.product.model") then
            do v <- qual_overwrite val;
            trans_put t (λ tr, to_quals (t_product tr) v (t_device tr) tr)
          else if strcmp_eq key (str "ro.product.device") then
            do v <- qual_overwrite val;
            trans_put t (λ tr, to_quals (t_product tr) (t_model tr) v tr)
          else ret tt
      end;;;
      parse_props l' t
  end.

Definition banner_state (type : list Z) : Z :=
  if strcmp_eq type (str "bootloader") then CS_BOOTLOADER
  else if strcmp_eq type (str "device") then CS_DEVICE
  else if strcmp_eq type (str "recovery") then CS_RECOVERY
  else if strcmp_eq type (str "sideload") then CS_SIDELOAD
  else CS_HOST.

Definition parse_banner (banner : list Z) (t : Z) : M world unit :=
  let type := before banner 58 in
  match strchr banner 58 with
  | None => ret tt
  | Some cp =>
      match strchr (tail cp) 58 with
      | None => ret tt
      | Some cp2 => parse_props (strtok 59 (tail cp2)) t
      end
  end;;;
  trans_put t (to_state (banner_state type)).

(** ** Listeners *)

Definition free_listener (l : Z) : M world unit :=
  do li <- listener_at l;
  modify (λ w, up_listener_list (filter (λ x, x ≠ l) (listener_list w)) w);;;
  FD (fdevent_remove (fde_of l));;;
  (if l_transport li =? 0 then ret tt
   else remove_transport_disconnect (l_transport li) (dis_of l));;;
  modify (up_listeners (delete l));;;
  modify (up_disconnects (delete (dis_of l)) id);;;
  FD (modify (upd_fdes (delete (fde_of l)))).

Definition listener_disconnect (l : Z) : M world unit := free_listener l.

(** the callbacks of transports *)
Definition call_disconnect (f : disconnect_fn) (opaque t : Z) : M world unit :=
  match f with
  | remote_socket_disconnect_ => remote_socket_disconnect opaque
  | listener_disconnect_ => listener_disconnect opaque
  end.

Definition handle_offline (t : Z) : M world unit :=
  trans_put t (to_online false);;;
  run_transport_disconnects call_disconnect t.

(** ** handle_packet *)

Section handle_packet.
Context `{Services} `{Auth}.

Definition handle_sync (p t : Z) (pk : apacket) : M world unit :=
  if negb (arg0 (p_msg pk) =? 0) then send_packet p t
  else
    trans_put t (to_state CS_OFFLINE);;;
    handle_offline t;;;
    send_packet p t.

Definition handle_cnxn (t : Z) (pk : apacket) : M world unit :=
  do tr <- trans_at t;
  when (negb (t_connection_state tr =? CS_OFFLINE))
    (trans_put t (to_state CS_OFFLINE);;; handle_offline t);;;
  do banner <- deref Uninitialised (λ _, cstring (p_data pk));
  parse_banner banner t;;;
  do a <- gets auth_enabled;
  if negb a then handle_online t;;; send_connect t
  else send_auth_request t.

Definition handle_auth (t : Z) (pk : apacket) : M world unit :=
  let m := p_msg pk in
  if arg0 m =? ADB_AUTH_TOKEN then
    do _ <- trans_at t; send_auth_publickey t
  else if arg0 m =? ADB_AUTH_SIGNATURE then
    do tr <- trans_at t;
    do sig <- deref Uninitialised (λ _, payload pk (data_length m));
    do ok <- adb_auth_verify (t_token tr) sig;
    if (ok : bool) then
      adb_auth_verified t;;;
      trans_put t (λ tr, to_auth (t_token tr) 0 tr)
    else
      trans_put t (λ tr, to_auth (t_token tr) (u32 (t_failed_auth_attempts tr + 1)) tr);;;
      when (10 <? t_failed_auth_attempts tr) (KW (adb_sleep_ms 1000));;;
      send_auth_request t
  else if arg0 m =? ADB_AUTH_RSAPUBLICKEY then
    do key <- deref Uninitialised (λ _, payload pk (data_length m));
    adb_auth_confirm_key key t
  else ret tt.

Definition handle_open (p t : Z) (pk : apacket) : M world unit :=
  do tr <- trans_at t;
  if negb (t_online tr) then ret tt
  else
    let m := p_msg pk in
    do d <- deref Uninitialised (λ _,
      store_byte (Z.to_nat (if 0 <? data_length m then data_length m - 1 else 0)) 0 (p_data pk));
    pkt_put p (λ pk, with_data pk d);;;
    do name <- deref OutOfBounds (λ _, cstring d);
    do s <- create_local_service_socket name;
    if s =? 0 then send_close 0 (arg0 m) t
    else
      do r <- create_remote_socket (arg0 m) t;
      sock_put s (so_peer r);;;
      sock_put r (so_peer s);;;
      do so <- sock_at s;
      do ro <- sock_at r;
      send_ready (s_id so) (s_id ro) t;;;
      call_ready s.

Definition handle_okay (t : Z) (pk : apacket) : M world unit :=
  do tr <- trans_at t;
  if negb (t_online tr) then ret tt
  else
    do s <- find_local_socket (arg1 (p_msg pk));
    if s =? 0 then ret tt
    else
      do so <- sock_at s;
      (if s_peer so =? 0 then
         do r <- create_remote_socket (arg0 (p_msg pk)) t;
         sock_put s (so_peer r);;; sock_put r (so_peer s)
       else ret tt);;;
      call_ready s.

Definition handle_clse (t : Z) (pk : apacket) : M world unit :=
  do tr <- trans_at t;
  if negb (t_online tr) then ret tt
  else
    do s <- find_local_socket (arg1 (p_msg pk));
    if s =? 0 then ret tt else call_close s.

(** true when the packet was handed over *)
Definition handle_wrte (p t : Z) (pk : apacket) : M world bool :=
  do tr <- trans_at t;
  if negb (t_online tr) then ret false
  else
    do s <- find_local_socket (arg1 (p_msg pk));
    if s =? 0 then ret false
    else
      pkt_put p (λ pk, with_len pk (data_length (p_msg pk)));;;
      do r <- call_enqueue s p;
      (if r =? 0 then do so <- sock_at s; send_ready (s_id so) (arg0 (p_msg pk)) t else ret tt);;;
      ret true.

Definition handle_packet (p t : Z) : M world unit :=
  do pk <- pkt_at p;
  let c := command (p_msg pk) in
  if c =? A_SYNC then handle_sync p t pk
  else if c =? A_WRTE then
    do taken <- handle_wrte p t pk;
    if (taken : bool) then ret tt else put_apacket p
  else
    (if c =? A_CNXN then handle_cnxn t pk
     else if c =? A_AUTH then handle_auth t pk
     else if c =? A_OPEN then handle_open p t pk
     else if c =? A_OKAY then handle_okay t pk
     else if c =? A_CLSE then handle_clse t pk
     else ret tt);;;
    put_apacket p.
End handle_packet.

(** ** More on listeners *)

Definition CHUNK_SIZE : Z := 64 * 1024.
Definition INSTALL_STATUS_OK : Z := 0.
Definition INSTALL_STATUS_INTERNAL_ERROR : Z := -1.
Definition INSTALL_STATUS_CANNOT_BIND : Z := -2.
Definition INSTALL_STATUS_CANNOT_REBIND : Z := -3.

Definition local_name_to_fd (name : list Z) : M world Z :=
  if strncmp_eq (str "tcp:") name 4 then
    do la <- gets gListenAll;
    let port := atoi (drop 4 name) in
    if la then KW (socket_inaddr_any_server port SOCK_STREAM)
    else KW (socket_loopback_server port SOCK_STREAM)
  else if strncmp_eq name (str "local:") 6 then
    KW (socket_local_server (drop 6 name) ANDROID_SOCKET_NAMESPACE_ABSTRACT SOCK_STREAM)
  else if strncmp_eq name (str "localabstract:") 14 then
    KW (socket_local_server (drop 14 name) ANDROID_SOCKET_NAMESPACE_ABSTRACT SOCK_STREAM)
  else if strncmp_eq name (str "localfilesystem:") 16 then
    KW (socket_local_server (drop 16 name) ANDROID_SOCKET_NAMESPACE_FILESYSTEM SOCK_STREAM)
  else ret (-1).

Definition is_special (connect_to : list Z) : bool :=
  match connect_to with 42 :: _ => true | _ => false end.

(** the line of a listener; its length is the result whatever fits *)
Definition format_listener (l : Z) : M world (list Z) :=
  do li <- listener_at l;
  do tr <- trans_at (l_transport li);
  do serial <- deref NullDeref (λ _, t_serial tr);
  ret (serial ++ [32] ++ l_local_name li ++ [32] ++ l_connect_to li ++ [10]).

(** [buflen]: None for a NULL buffer; the text written and the result *)
Fixpoint format_list (ls : list Z) (buflen : option Z) : M world (list Z * Z) :=
  match ls with
  | [] => ret ([], 0)
  | l :: ls' =>
      do li <- listener_at l;
      if is_special (l_connect_to li) then format_list ls' buflen
      else
        do line <- format_listener l;
        let len := Z.of_nat (length line) in
        match buflen with
        | None => do '(_, n) <- format_list ls' None; ret ([], len + n)
        | Some b =>
            let out := take (Z.to_nat (b - 1)) line in
            if b - len =? 0 then ret (out, len)
            else do '(t, n) <- format_list ls' (Some (b - len)); ret (out ++ t, len + n)
        end
  end.
Definition format_listeners (buflen : option Z) : M world (list Z * Z) :=
  do ls <- gets listener_list; format_list ls buflen.

Fixpoint find_listener (ls : list Z) (name : list Z) : M world Z :=
  match ls with
  | [] => ret 0
  | l :: ls' =>
      do li <- listener_at l;
      if strcmp_eq name (l_local_name li) then ret l else find_listener ls' name
  end.

Definition remove_listener (name : list Z) : M world Z :=
  do ls <- gets listener_list;
  do l <- find_listener ls name;
  if l =? 0 then ret (-1) else listener_disconnect l;;; ret 0.

(** the successor is read before an element is freed *)
Fixpoint remove_listeners (ls : list Z) : M world unit :=
  match ls with
  | [] => ret tt
  | l :: ls' =>
      do li <- listener_at l;
      when (negb (is_special (l_connect_to li))) (listener_disconnect l);;;
      remove_listeners ls'
  end.
Definition remove_all_listeners : M world unit :=
  do ls <- gets listener_list; remove_listeners ls.

Definition rebind_listener (l : Z) (connect_to : list Z) (t : Z) (no_rebind : bool) : M world Z :=
  do li <- listener_at l;
  if is_special (l_connect_to li) then ret INSTALL_STATUS_INTERNAL_ERROR
  else if no_rebind then ret INSTALL_STATUS_CANNOT_REBIND
  else
    do cto <- strdup connect_to;
    match cto with
    | None => ret INSTALL_STATUS_INTERNAL_ERROR
    | Some cto =>
        modify (up_listeners (alter (λ li, mkListener (l_fd li) (l_local_name li) cto (l_transport li)) l));;;
        (if l_transport li =? t then ret tt
         else
           remove_transport_disconnect (l_transport li) (dis_of l);;;
           modify (up_listeners (alter (λ li, mkListener (l_fd li) (l_local_name li) (l_connect_to li) t) l));;;
           add_transport_disconnect t (dis_of l));;;
        ret INSTALL_STATUS_OK
    end.

Definition install_listener (local_name connect_to : list Z) (t : Z) (no_rebind : bool) : M world Z :=
  do ls <- gets listener_list;
  do l <- find_listener ls local_name;
  if negb (l =? 0) then rebind_listener l connect_to t no_rebind
  else
    do ok <- KW malloc_ok;
    do n1 <- (if negb ok then fatal else strdup local_name);
    do n2 <- match n1 with None => fatal | Some _ => strdup connect_to end;
    match n2 with
    | None => fatal
    | Some _ =>
        do d <- local_name_to_fd local_name;
        if d <? 0 then ret (-2)
        else
          do l <- alloc;
          KW (close_on_exec d);;;
          FD (fdevent_install (fde_of l) d
                (if strcmp_eq connect_to (str "*smartsocket*") then ss_listener_event_func_
                 else listener_event_func_) l);;;
          FD (fdevent_set (fde_of l) FDE_READ);;;
          modify (up_listeners <[l := mkListener d local_name connect_to t]>);;;
          modify (λ w, up_listener_list (listener_list w ++ [l]) w);;;
          (if t =? 0 then ret tt
           else
             dis_init (dis_of l) listener_disconnect_ l;;;
             add_transport_disconnect t (dis_of l));;;
          ret INSTALL_STATUS_OK
    end.

Definition ss_listener_event_func (d ev : Z) : M world unit :=
  if negb (has ev FDE_READ) then ret tt
  else
    do c <- KW (adb_socket_accept d);
    if c <? 0 then ret tt
    else
      KW (adb_socket_setbufsize c CHUNK_SIZE);;;
      do s <- create_local_socket c;
      connect_to_smartsocket s.

Definition listener_event_func (d ev l : Z) : M world unit :=
  if negb (has ev FDE_READ) then ret tt
  else
    do c <- KW (adb_socket_accept d);
    if c <? 0 then ret tt
    else
      do s <- create_local_socket c;
      do li <- listener_at l;
      sock_put s (so_transport (l_transport li));;;
      connect_to_remote s (l_connect_to li).

(** ** handle_host_request (the part compiled on the device) *)

Definition connection_state_name (tr : option atransport) : list Z :=
  match tr with
  | None => str "unknown"
  | Some tr =>
      let c := t_connection_state tr in
      if c =? CS_BOOTLOADER then str "bootloader"
      else if c =? CS_DEVICE then str "device"
      else if c =? CS_OFFLINE then str "offline"
      else str "unknown"
  end.

(** OKAY, the length in four hex digits, the text *)
Definition okay_text (s : list Z) : list Z := str "OKAY" ++ fmt_04x (Z.of_nat (length s)) ++ s.

Definition reply_fail (d : Z) (msg : list Z) : M world Z := KW (sendfailmsg d msg);;; ret 0.

(** forward: and killforward: *)
Definition handle_forward (service : list Z) (ttype : transport_type) (serial : option (list Z))
    (reply_fd : Z) : M world Z :=
  let createForward := negb (strncmp_eq service (str "kill") 4) in
  let local := tail (default [] (strchr service 58)) in
  let no_rebind := createForward && strncmp_eq local (str "norebind:") 9 in
  let local := if no_rebind then tail (default [] (strchr local 58)) else local in
  let remote := strchr local 59 in
  let spec :=
    if createForward then
      match remote with
      | None => None
      | Some r =>
          let l := before local 59 in
          let r := tail r in
          if bool_decide (l = []) || bool_decide (r = []) || is_special r then None
          else Some (l, r)
      end
    else if bool_decide (local = []) then None else Some (local, []) in
  match spec with
  | None => reply_fail reply_fd (str "malformed forward spec")
  | Some (local, remote) =>
      do '(t, err) <- acquire_one_transport 0 CS_ANY ttype serial;
      if t =? 0 then reply_fail reply_fd (default [] err)
      else
        do r <- (if createForward then install_listener local remote t no_rebind
                 else remove_listener local);
        if r =? 0 then do _ <- KW (writex reply_fd (str "OKAYOKAY")); ret 0
        else if createForward then
          reply_fail reply_fd
            (if r =? INSTALL_STATUS_CANNOT_BIND then str "cannot bind to socket"
             else if r =? INSTALL_STATUS_CANNOT_REBIND then str "cannot rebind existing socket"
             else str "internal error")
        else reply_fail reply_fd (str "cannot remove listener")
  end.

(** the requests the device and the host have in common, after "kill" *)
Definition common_requests (service : list Z) (ttype : transport_type) (serial : option (list Z))
    (reply_fd : Z) : M world Z :=
  if strcmp_eq service (str "list-forward") then
    do '(_, size) <- format_listeners None;
    do ok <- KW malloc_ok;
    if negb ok then
      (* the header is sent; write of a NULL buffer fails *)
      do _ <- KW (writex reply_fd (take 8 (str "OKAY" ++ fmt_04x size))); ret 0
    else
      do '(text, _) <- format_listeners (Some (size + 1));
      do _ <- KW (writex reply_fd (take 8 (str "OKAY" ++ fmt_04x size)));
      do _ <- KW (writex reply_fd (take (Z.to_nat size) text));
      ret 0
  else if strcmp_eq service (str "killforward-all") then
    remove_all_listeners;;;
    do _ <- KW (adb_write reply_fd (str "OKAYOKAY")); ret 0
  else if strncmp_eq service (str "forward:") 8 || strncmp_eq service (str "killforward:") 12 then
    handle_forward service ttype serial reply_fd
  else if strncmp_eq service (str "get-state") 9 then
    do '(t, _) <- acquire_one_transport 0 CS_ANY ttype serial;
    do tr <- (if t =? 0 then ret None else do tr <- trans_at t; ret (Some tr));
    do _ <- KW (writex reply_fd (okay_text (connection_state_name tr)));
    ret 0
  else ret (-1).

Definition handle_host_request (service : list Z) (ttype : transport_type) (serial : option (list Z))
    (reply_fd : Z) : M world Z :=
  do ok <- KW malloc_ok;
  if negb ok then KW (sendfailmsg reply_fd (str "out of memory"));;; ret (-1)
  else if strcmp_eq service (str "kill") then
    do _ <- KW (adb_write reply_fd (str "OKAY")); exit 0
  else common_requests service ttype serial reply_fd.
