(* ===== verification/Daemon.v ===== *)
(** * The daemon: transport threads, the handlers of the main loop, start-up

    The main thread handles packets and events; each transport has an input
    thread (towards the remote end) and an output thread (from the remote
    end).  A step of a thread is one iteration of its loop; the shared state
    is [world], so a run of the daemon is a sequence of such steps in any
    order. *)

From S2P Require Import Prelude Kernel Packet DList Fdevent Trace World Transport Sockets Jdwp Adb.

(** ** The links of a transport *)

Definition t_read_from_remote (t : Z) : M world (option apacket) :=
  do tr <- trans_at t;
  match t_type tr with
  | kTransportUsb => do h <- usb_at (t_usb tr); KW (TransportUsb.remote_read h)
  | _ => KW (TransportLocal.remote_read {| TransportLocal.sfd := t_sfd tr |})
  end.
Definition t_write_to_remote (pk : apacket) (t : Z) : M world bool :=
  do tr <- trans_at t;
  match t_type tr with
  | kTransportUsb => do h <- usb_at (t_usb tr); KW (TransportUsb.remote_write h pk)
  | _ => KW (TransportLocal.remote_write {| TransportLocal.sfd := t_sfd tr |} pk)
  end.

(** ** output_thread *)

Definition sync_msg (a0 a1 : Z) (pk : apacket) : apacket :=
  with_msg pk (mkMsg A_SYNC a0 a1 0 0 (Z.lxor A_SYNC 0xffffffff)).

Definition thread_exit (t : Z) : M world unit := kick_transport t;;; transport_unref t.

(** true: the pump runs; false: the thread is gone *)
Definition output_thread_start (t : Z) : M world bool :=
  do p <- get_apacket;
  trans_put t (λ tr, to_sync_token (u32 (t_sync_token tr + 1)) tr);;;
  do tr <- trans_at t;
  pkt_put p (sync_msg 1 (t_sync_token tr));;;
  do ok <- KW (write_packet (t_fd_write tr) p);
  if ok then ret true else put_apacket p;;; thread_exit t;;; ret false.

Definition output_thread_end (t : Z) : M world unit :=
  do p <- get_apacket;
  pkt_put p (sync_msg 0 0);;;
  do tr <- trans_at t;
  do ok <- KW (write_packet (t_fd_write tr) p);
  (if ok then ret tt else put_apacket p);;;
  thread_exit t.

Definition output_thread_step (t : Z) : M world bool :=
  do p <- get_apacket;
  do r <- t_read_from_remote t;
  match r with
  | Some pk =>
      pkt_put p (λ _, pk);;;
      do tr <- trans_at t;
      do ok <- KW (write_packet (t_fd_write tr) p);
      if ok then ret true else put_apacket p;;; thread_exit t;;; ret false
  | None => put_apacket p;;; output_thread_end t;;; ret false
  end.

(** ** input_thread *)

Definition input_thread_end (t : Z) : M world unit :=
  close_all_sockets t;;; thread_exit t.

(** one iteration with the flag [active]; None: the thread is gone *)
Definition input_thread_step (t : Z) (active : bool) : M world (option bool) :=
  do tr <- trans_at t;
  do r <- KW (read_packet (t_fd_read tr));
  match r with
  | None => input_thread_end t;;; ret None
  | Some p =>
      do pk <- pkt_at p;
      let m := p_msg pk in
      if command m =? A_SYNC then
        if arg0 m =? 0 then put_apacket p;;; input_thread_end t;;; ret None
        else
          do tr <- trans_at t;
          put_apacket p;;;
          ret (Some (if arg1 m =? t_sync_token tr then true else active))
      else
        (if active then do _ <- t_write_to_remote pk t; ret tt else ret tt);;;
        put_apacket p;;;
        ret (Some active)
  end.

(** ** Handlers *)

Section daemon.
Context `{Services} `{Auth}.

Definition transport_socket_events (d ev t : Z) : M world unit :=
  if negb (has ev FDE_READ) then ret tt
  else
    do r <- KW (read_packet d);
    match r with
    | None => ret tt
    | Some p => handle_packet p t
    end.

Definition free_transport (t : Z) : M world unit :=
  do _ <- trans_at t;
  modify (up_transports (delete t));;;
  modify (up_disconnects id (delete t));;;
  FD (modify (upd_fdes (λ m, delete (auth_fde_of t) (delete (fde_of t) m)))).

Definition transport_remove (t : Z) : M world unit :=
  close_all_sockets t;;;
  FD (fdevent_remove (fde_of t));;;
  do tr <- trans_at t;
  KW (adb_close (t_fd_read tr));;;
  KW (adb_close (t_fd_write tr));;;
  KW (adb_close (t_transport_read tr));;;
  KW (adb_close (t_transport_write tr));;;
  lock_transports;;;
  do l <- gets transport_list;
  (if decide (t ∈ l) then modify (up_transport_list (filter (λ x, x ≠ t) l)) else fail NullDeref);;;
  unlock_transports;;;
  run_transport_disconnects call_disconnect t;;;
  free_transport t.

Definition pipe : M world (option (Z * Z)) :=
  do '(r, s) <- KW (sys "pipe" []);
  if r <? 0 then ret None else ret (Some (default 0 (s !! 0%nat), default 0 (s !! 1%nat))).

Definition transport_start (t : Z) : M world unit :=
  trans_put t (to_ref_count 2);;;
  do a <- pipe;
  do b <- match a with None => fatal | Some _ => pipe end;
  match a, b with
  | Some (io_r, io_w), Some (main_r, main_w) =>
      KW (close_on_exec io_r);;; KW (close_on_exec io_w);;;
      KW (close_on_exec main_r);;; KW (close_on_exec main_w);;;
      trans_put t (to_pipes main_r io_w io_r main_w);;;
      FD (fdevent_install (fde_of t) io_r transport_socket_events_ t);;;
      FD (fdevent_set (fde_of t) FDE_READ);;;
      thread_create "thread:input_thread" t;;;
      thread_create "thread:output_thread" t
  | _, _ => fatal
  end.

Definition transport_registration_func (d ev : Z) : M world unit :=
  if negb (has ev FDE_READ) then ret tt
  else
    do m <- KW (transport_read_action d);
    match m with
    | None => fatal
    | Some (t, action) =>
        if action =? 0 then transport_remove t
        else
          do tr <- trans_at t;
          (if t_connection_state tr =? CS_NOPERM then ret tt else transport_start t);;;
          lock_transports;;;
          modify (λ w, up_transport_list (transport_list w ++ [t]) w);;;
          unlock_transports;;;
          modify (up_disconnects id <[t := []]>)
    end.

(** ** The main loop *)

(** the indirect call of an event function; a subprocess event calls another
    object's function *)
Fixpoint dispatch (fuel : nat) (c : fd_call) : M world unit :=
  match fuel with
  | O => fail OutOfFuel
  | S fuel' =>
      match c_func c with
      | fdevent_subproc_event_func_ =>
          fdevent_subproc_event_func w_fd up_fd (dispatch fuel') (c_fd c) (c_events c)
      | local_socket_event_func_ => local_socket_event_func (c_fd c) (c_events c) (c_arg c)
      | ss_listener_event_func_ => ss_listener_event_func (c_fd c) (c_events c)
      | listener_event_func_ => listener_event_func (c_fd c) (c_events c) (c_arg c)
      | transport_socket_events_ => transport_socket_events (c_fd c) (c_events c) (c_arg c)
      | transport_registration_func_ => transport_registration_func (c_fd c) (c_events c)
      | adb_auth_event_ => adb_auth_event (c_fd c) (c_events c) (c_arg c)
      | adb_auth_listener_ => adb_auth_listener (c_fd c)
      | jdwp_process_event_ => jdwp_process_event (c_fd c) (c_events c) (c_arg c)
      | jdwp_control_event_ => jdwp_control_event (c_events c)
      end
  end.
Definition DISPATCH_DEPTH : nat := 4.

(** ** Start-up *)

Definition build_local_name (port : Z) : list Z := str "tcp:" ++ fmt_d port.
(** ALLOW_ADBD_ROOT: the function returns 0 before it looks at anything, so the
    branch of adb_main that drops the privileges is dead code *)
Definition should_drop_privileges : bool := false.

Definition DEFAULT_ADB_LOCAL_TRANSPORT_PORT : Z := 5555.

(** standard input from /dev/null, the log to /tmp/adb.log *)
Definition start_logging : M world unit :=
  do d <- KW (sys_ "open" [AS (str "/dev/null"); AS (str "O_RDONLY")]);
  KW (note "dup2" [AZ d; AZ 0]);;;
  KW (adb_close d);;;
  do d <- KW (sys_ "open" [AS (str "/tmp/adb.log"); AS (str "O_WRONLY|O_CREAT|O_APPEND")]);
  do d <- (if d <? 0 then KW (sys_ "open" [AS (str "/dev/null"); AS (str "O_WRONLY")]) else ret d);
  KW (note "dup2" [AZ d; AZ 1]);;;
  KW (note "dup2" [AZ d; AZ 2]);;;
  KW (adb_close d).

(** [listen]: built without ADBD_NO_LISTENER; [pty]: built without ADBD_NO_PTY *)
Definition adb_main_init (listen pty is_daemon : bool) (server_port : Z) : M world unit :=
  KW (note "umask" [AZ 0]);;;
  KW (note "atexit" []);;;
  KW (note "signal" [AS (str "SIGPIPE"); AS (str "SIG_IGN")]);;;
  init_transport_registration;;;
  modify (λ w, up_config false (gListenAll w) (adb_device_banner w) w);;;
  do a <- gets auth_enabled;
  when a adb_auth_init;;;
  do e <- KW (sys_ "getenv" [AS (str "ADB_EXTERNAL_STORAGE")]);
  when (negb (e =? 0)) (KW (note "setenv" [AS (str "EXTERNAL_STORAGE"); AZ e]));;;
  (if negb should_drop_privileges && listen then
     do r <- install_listener (build_local_name server_port) (str "*smartsocket*") 0 false;
     if r =? 0 then ret tt else exit 1
   else ret tt);;;
  do a <- KW (sys_ "access" [AS (str "/dev/android_adb")]);
  do b <- (if a =? 0 then ret 0 else KW (sys_ "access" [AS (str "/dev/usb-ffs/adb/ep0")]));
  (if b =? 0 then usb_init else local_init DEFAULT_ADB_LOCAL_TRANSPORT_PORT);;;
  when pty (do _ <- init_jdwp; ret tt);;;
  when is_daemon start_logging.

(** the first [n] rounds of the loop *)
Definition adb_main (listen pty is_daemon : bool) (server_port : Z) (n : nat) : M world unit :=
  adb_main_init listen pty is_daemon server_port;;;
  fdevent_loop w_fd up_fd (dispatch DISPATCH_DEPTH) n.

Definition DEFAULT_ADB_PORT : Z := 5037.

(** [argv1]: the first argument.  The handle of adb_qemu_trace_init is used by
    the tracing macro DQ only. *)
Definition main (listen pty : bool) (argv1 : option (list Z)) (n : nat) : M world unit :=
  do _ <- KW (adb_qemu_trace_init (-1));
  when (bool_decide (argv1 = Some (str "recovery")))
    (modify (λ w, up_config (auth_enabled w) (gListenAll w) (str "recovery") w));;;
  KW start_device_log;;;
  adb_main listen pty false DEFAULT_ADB_PORT n.
End daemon.
