(* ===== verification/Flow.v ===== *)
(** * Bytes through a local socket

    What reaches the descriptor of a local socket, and what waits in its
    queue, is one stream: enqueue appends to it, and the event function moves
    bytes from the queue to the descriptor without losing, repeating or
    reordering any, whatever the sizes the kernel accepts. *)

From S2P Require Import Prelude Kernel Packet DList Fdevent World Transport Sockets.

(** a packet with all of the bytes that ptr and len promise *)
Definition pkt_ok (pk : apacket) (bs : list Z) : Prop := 0 ≤ p_len pk ∧ rest_bytes pk = Some bs.
(** the packets of a queue are allocated, distinct and complete *)
Definition queue_ok (w : world) (l : list Z) : Prop :=
  NoDup l ∧ ∀ p, p ∈ l → ∃ pk bs, w_packets w !! p = Some pk ∧ pkt_ok pk bs.
(** the bytes that wait in it *)
Definition pkt_bytes (w : world) (p : Z) : list Z :=
  match w_packets w !! p with Some pk => default [] (rest_bytes pk) | None => [] end.
Definition queue_bytes (w : world) (l : list Z) : list Z := concat (pkt_bytes w <$> l).

Lemma pkt_bytes_ok w p pk bs : w_packets w !! p = Some pk → pkt_ok pk bs → pkt_bytes w p = bs.
Proof. intros Hp [_ Hb]. unfold pkt_bytes. by rewrite Hp, Hb. Qed.

Lemma queue_bytes_ext w w' l : (∀ p, p ∈ l → w_packets w' !! p = w_packets w !! p) →
  queue_bytes w' l = queue_bytes w l.
Proof.
  intros H. unfold queue_bytes. f_equal. apply list_fmap_ext. intros i p Hp.
  unfold pkt_bytes. by rewrite H by (eapply list_elem_of_lookup_2; eauto).
Qed.
Lemma queue_ok_ext w w' l : (∀ p, p ∈ l → w_packets w' !! p = w_packets w !! p) →
  queue_ok w l → queue_ok w' l.
Proof. intros H [Hnd Hq]. split; [done|]. intros p Hp. rewrite H by done. auto. Qed.

(** ** One packet *)

Lemma length_rest pk bs : pkt_ok pk bs → p_len pk = Z.of_nat (length bs).
Proof.
  intros [H0 H]. unfold rest_bytes in H. case_decide as Hl; [|done]. injection H as <-.
  rewrite length_take. lia.
Qed.
Lemma advance_ok pk bs n : pkt_ok pk bs → (n ≤ length bs)%nat → pkt_ok (advance n pk) (drop n bs).
Proof.
  intros Hok Hn. pose proof (length_rest pk bs Hok) as Hl. destruct Hok as [H0 H].
  split; [cbn; lia|]. unfold rest_bytes in *. cbn. case_decide as Hd; [|done]. injection H as <-.
  rewrite <- drop_drop, length_drop.
  rewrite decide_True by lia. f_equal. rewrite skipn_firstn_comm. f_equal. lia.
Qed.
Lemma advance_advance pk n m : advance m (advance n pk) = advance (n + m) pk.
Proof. unfold advance. cbn. f_equal; lia. Qed.
Lemma advance_0 pk : advance 0 pk = pk.
Proof. unfold advance. rewrite Z.sub_0_r, Nat.add_0_r. by destruct pk. Qed.

Lemma drain_packet_spec fuel eintr wfd p w pk bs :
  w_packets w !! p = Some pk → pkt_ok pk bs →
  (length (wr_of wfd (w_kern_of w)) + (if decide (bs = []) then 0 else 1) ≤ fuel)%nat →
  ∃ r k' n, drain_packet fuel eintr wfd p w = Ok r (up_packets <[p := advance n pk]> (up_kern k' w))
    ∧ (n ≤ length bs)%nat ∧ out_of wfd k' = out_of wfd (w_kern_of w) ++ take n bs
    ∧ same_but_wr wfd (w_kern_of w) k' ∧ (r = Drained ↔ n = length bs).
Proof.
  revert w pk bs. induction fuel as [|fuel IH]; intros w pk bs Hp Hok Hf;
    pose proof (length_rest pk bs Hok) as Hlen; cbn [drain_packet]; run (pkt_at_run w p pk Hp).
  - destruct (decide (bs = [])) as [->|]; [|lia]. cbn in Hlen. rewrite Hlen. cbn.
    exists Drained, (w_kern_of w), 0%nat. rewrite advance_0, take_0, app_nil_r. split_and!; try done.
    unfold ret. f_equal. by rewrite up_kern_id, up_packets_id.
  - destruct (decide (bs = [])) as [->|Hne].
    { cbn in Hlen. rewrite Hlen. cbn.
      exists Drained, (w_kern_of w), 0%nat. rewrite advance_0, take_0, app_nil_r. split_and!; try done.
      unfold ret. f_equal. by rewrite up_kern_id, up_packets_id. }
    assert (0 < length bs)%nat by (destruct bs; cbn; [done|lia]).
    rewrite (proj2 (Z.leb_gt (p_len pk) 0)) by lia.
    rewrite (bind_ok (deref _ _) _ w bs w) by by unfold deref; rewrite (proj2 Hok).
    set (k := w_kern_of w) in *.
    pose proof (write_script_spec (wr_of wfd k) (length bs) ltac:(lia)) as Hv.
    destruct (write_script (wr_of wfd k) (length bs)) as [r s'] eqn:Hr.
    inversion Hv as [e s'' He Hs|s'' Hs|n s'' Hn Hle Hd Hle' Hl]; subst; clear Hv.
    + set (k1 := set_errno e (set_wr wfd s' k)).
      assert (Hw : adb_write wfd bs k = Ok (inr e) k1) by by unfold adb_write; rewrite Hr.
      run (KW_run w _ _ _ Hw). rewrite (proj2 (Z.eqb_neq e EINTR)), andb_false_r by done.
      exists (if e =? EAGAIN then Blocked else Failed), k1, 0%nat. rewrite advance_0, take_0, app_nil_r, up_packets_id by done.
      split_and!; [by destruct (e =? EAGAIN)|lia|done| |].
      * etrans; [apply same_but_wr_set_wr|apply same_but_wr_errno].
      * split; [by destruct (e =? EAGAIN)|lia].
    + set (k1 := add_out wfd [] (set_wr wfd s' k)).
      assert (Hw : adb_write wfd bs k = Ok (inl 0%nat) k1) by by unfold adb_write; rewrite Hr.
      run (KW_run w _ _ _ Hw). exists Failed, k1, 0%nat.
      rewrite advance_0, take_0, app_nil_r, up_packets_id by done.
      split_and!; [done|lia| | |split; [done|lia]].
      * unfold k1. by autorewrite with adb; rewrite app_nil_r.
      * etrans; [apply same_but_wr_set_wr|apply same_but_wr_add_out].
    + set (k1 := add_out wfd (take n bs) (set_wr wfd s' k)).
      assert (Hw : adb_write wfd bs k = Ok (inl n) k1) by by unfold adb_write; rewrite Hr.
      run (KW_run w _ _ _ Hw). destruct n as [|n']; [lia|]. set (n := S n') in *.
      run (pkt_put_run (up_kern k1 w) p (advance n) pk Hp).
      assert (Hwr : wr_of wfd k1 = s') by apply wr_of_set_wr.
      destruct (IH (up_packets <[p := advance n pk]> (up_kern k1 w)) (advance n pk) (drop n bs))
        as (r & k' & m & -> & Hm & Ho & Hsame & Hdr).
      { apply lookup_insert_eq. } { by apply advance_ok. }
      { change (w_kern_of (up_packets <[p := advance n pk]> (up_kern k1 w))) with k1. rewrite Hwr.
        case_decide as Hnil; [lia|]. destruct Hl as [Hl|]; [|lia].
        destruct Hnil. apply drop_ge. lia. }
      change (w_kern_of (up_packets <[p := advance n pk]> (up_kern k1 w))) with k1 in *.
      rewrite length_drop in Hm, Hdr. exists r, k', (n + m)%nat. split_and!.
      * rewrite advance_advance. unfold up_packets, up_kern; cbn. by rewrite insert_insert_eq.
      * lia.
      * rewrite Ho. unfold k1. autorewrite with adb. rewrite <- app_assoc. f_equal.
        by rewrite take_take_drop.
      * etrans; [|done]. etrans; [apply same_but_wr_set_wr|apply same_but_wr_add_out].
      * rewrite Hdr. lia.
Qed.

(** ** The queue *)

(** nothing but packets, sockets and the descriptor [wfd] *)
Definition data_step (wfd : Z) (w w' : world) : Prop :=
  w' = up_packets (λ _, w_packets w') (up_sockets (λ _, w_sockets w') (up_kern (w_kern_of w') w))
  ∧ same_but_wr wfd (w_kern_of w) (w_kern_of w').
#[export] Instance data_step_preorder wfd : PreOrder (data_step wfd).
Proof.
  split; [intros w; split; [by destruct w as [[]]|done]|].
  intros w1 w2 w3 [H1 S1] [H2 S2]. split; [|by etrans]. rewrite H2, H1. by destruct w3 as [[]].
Qed.

Record drained_to (s : Z) (so : asocket) (l' : list Z) (w w' : world) : Prop := {
  dr_socket : w_sockets w' = <[s := so_pkts l' so]> (w_sockets w);
  dr_queue : queue_ok w' l';
  dr_bytes : out_of (s_write_fd so) (w_kern_of w') ++ queue_bytes w' l'
    = out_of (s_write_fd so) (w_kern_of w) ++ queue_bytes w (s_pkts so);
  dr_suffix : ∃ sent, s_pkts so = sent ++ l' ∧ ∀ p, p ∈ sent → w_packets w' !! p = None;
  dr_others p : p ∉ s_pkts so → w_packets w' !! p = w_packets w !! p;
  dr_frame : data_step (s_write_fd so) w w';
}.

Lemma put_run p pk w : w_packets w !! p = Some pk → put_apacket p w = Ok tt (up_packets (delete p) w).
Proof. intros H. unfold put_apacket. by run (pkt_at_run w p pk H). Qed.

(** one packet of the queue *)
Lemma drain_head n eintr s w so p rest :
  w_sockets w !! s = Some so → s_pkts so = p :: rest → queue_ok w (p :: rest) →
  (drain_fuel (s_write_fd so) w ≤ n)%nat →
  ∃ r w', drain_packet n eintr (s_write_fd so) p w = Ok r w' ∧ drained_to s so (p :: rest) w w'
    ∧ (r = Drained ↔ pkt_bytes w' p = []).
Proof.
  intros Hs Hq [Hnd Hpk] Hn. destruct (Hpk p ltac:(set_solver)) as (pk & bs & Hp & Hok).
  destruct (drain_packet_spec n eintr (s_write_fd so) p w pk bs Hp Hok)
    as (r & k' & m & Hr & Hm & Ho & Hsame & Hd).
  { unfold drain_fuel in Hn. case_decide; lia. }
  set (w' := up_packets <[p := advance m pk]> (up_kern k' w)) in *.
  pose proof (advance_ok pk bs m Hok Hm) as Hok'.
  assert (Hp' : w_packets w' !! p = Some (advance m pk)) by apply lookup_insert_eq.
  assert (Hoth : ∀ q, q ≠ p → w_packets w' !! q = w_packets w !! q).
  { intros q Hne. cbn. by rewrite lookup_insert_ne. }
  apply list.NoDup_cons in Hnd as [Hnin Hnd].
  exists r, w'. split_and!; [done| |].
  - split.
    + cbn. rewrite insert_id; [done|]. rewrite <- Hq. by destruct so.
    + split; [by apply list.NoDup_cons|]. intros q Hin.
      destruct (decide (q = p)) as [->|Hne]; [eauto|]. rewrite Hoth by done. apply Hpk. done.
    + change (w_kern_of w') with k'. rewrite Ho, Hq. unfold queue_bytes. cbn [fmap list_fmap concat].
      rewrite (pkt_bytes_ok w' p _ _ Hp' Hok'), (pkt_bytes_ok w p _ _ Hp Hok).
      fold (queue_bytes w' rest) (queue_bytes w rest).
      rewrite (queue_bytes_ext w w' rest) by (intros q Hin; apply Hoth; set_solver).
      rewrite <- app_assoc. f_equal. by rewrite app_assoc, take_drop.
    + exists []. split; [done|set_solver].
    + intros q Hnq. apply Hoth. rewrite Hq in Hnq. set_solver.
    + split; [by destruct w as [[]]|done].
  - rewrite (pkt_bytes_ok w' p _ _ Hp' Hok'), Hd.
    rewrite <- length_zero_iff_nil, length_drop. lia.
Qed.

(** the head is freed once its bytes are gone *)
Lemma drained_pop s so p rest w w' :
  drained_to s so (p :: rest) w w' → pkt_bytes w' p = [] →
  let w2 := up_packets (delete p) (up_sockets <[s := so_pkts rest so]> w') in
  drained_to s so rest w w2.
Proof.
  intros [Hs [Hnd Hq] Hb (sent & Hsent & Hfree) Hoth Hfr] Hnil w2.
  apply list.NoDup_cons in Hnd as [Hnin Hnd].
  assert (Hrest : ∀ q, q ∈ rest → w_packets w2 !! q = w_packets w' !! q).
  { intros q Hin. cbn. rewrite lookup_delete_ne; [done|]. set_solver. }
  split.
  - cbn. by rewrite Hs, insert_insert_eq.
  - apply (queue_ok_ext w'); [done|]. split; [done|]. set_solver.
  - rewrite <- Hb. f_equal. rewrite (queue_bytes_ext w' w2) by done.
    unfold queue_bytes at 2. cbn. by rewrite Hnil.
  - exists (sent ++ [p]). split; [by rewrite <- app_assoc|]. intros q Hin. cbn.
    destruct (decide (q = p)) as [->|Hne]; [apply lookup_delete_eq|].
    rewrite lookup_delete_ne by done. apply Hfree. set_solver.
  - intros q Hnq. cbn. rewrite lookup_delete_ne; [by apply Hoth|]. rewrite Hsent in Hnq. set_solver.
  - etrans; [done|]. split; [|done]. by destruct w' as [[]].
Qed.

Lemma drained_trans s so l l' w w1 w2 :
  drained_to s so l w w1 → drained_to s (so_pkts l so) l' w1 w2 → drained_to s so l' w w2.
Proof.
  intros [Hs1 Hq1 Hb1 (sent1 & Hsent1 & Hfree1) Ho1 Hf1] [Hs2 Hq2 Hb2 (sent2 & Hsent2 & Hfree2) Ho2 Hf2].
  cbn in *. subst l. split.
  - by rewrite Hs2, Hs1, insert_insert_eq.
  - done.
  - by rewrite Hb2.
  - exists (sent1 ++ sent2). rewrite <- app_assoc. split; [done|]. intros p Hin.
    destruct (decide (p ∈ sent2 ++ l')) as [Hin2|Hnin].
    + apply elem_of_app in Hin as [Hin|Hin]; [|by apply Hfree2].
      destruct Hq1 as [_ Hq1]. destruct (Hq1 p Hin2) as (pk & bs & Hp & _).
      by rewrite (Hfree1 p Hin) in Hp.
    + rewrite Ho2 by done. apply Hfree1. set_solver.
  - intros p Hnp. rewrite Ho2; [by apply Ho1|]. rewrite Hsent1 in Hnp. set_solver.
  - by etrans.
Qed.

(** C10 Data for a local socket is first in, first out: whatever amounts the
    kernel accepts or refuses, draining a queue ends (its bounds are never
    exceeded), the bytes written to the descriptor followed by those still
    queued are the bytes written before followed by those queued before,
    packets are freed exactly when their last byte has been written, and no
    other object changes. *)
Theorem drain_queue_fifo s w so :
  w_sockets w !! s = Some so → queue_ok w (s_pkts so) →
  ∃ r w' l', drain_queue (length (s_pkts so)) s w = Ok r w' ∧ drained_to s so l' w w'
    ∧ (r = Drained ↔ l' = []).
Proof.
  intros Hs Hok. remember (s_pkts so) as l eqn:Hq. symmetry in Hq.
  revert w so Hs Hq Hok. induction l as [|p rest IH]; intros w so Hs Hq Hok.
  { exists Drained, w, []. cbn [length drain_queue]. run (sock_at_run w s so Hs). rewrite Hq.
    split_and!; try done. split; [|done|by rewrite Hq|exists []; set_solver|done|reflexivity].
    rewrite insert_id; [done|]. rewrite <- Hq. by destruct so. }
  cbn [length drain_queue]. run (sock_at_run w s so Hs). rewrite Hq.
  run (eq_refl : gets (drain_fuel (s_write_fd so)) w = Ok _ _).
  destruct (drain_head _ true s w so p rest Hs Hq Hok (reflexivity _)) as (r & w1 & Hr & H1 & Hd).
  run Hr. destruct r as [| |]; [|exists Blocked, w1, (p :: rest); by split_and!
    |exists Failed, w1, (p :: rest); by split_and!].
  assert (Hs1 : w_sockets w1 !! s = Some (so_pkts (p :: rest) so))
    by (rewrite (dr_socket _ _ _ _ _ H1); apply lookup_insert_eq).
  run (sock_put_run w1 s (so_pkts rest) _ Hs1).
  destruct (dr_queue _ _ _ _ _ H1) as [_ Hq1]. destruct (Hq1 p ltac:(set_solver)) as (pk & bs & Hp & _).
  rewrite (bind_ok _ _ _ _ _ (put_run p pk (up_sockets <[s := so_pkts rest (so_pkts (p :: rest) so)]> w1) Hp)).
  pose proof (drained_pop s so p rest w w1 H1 (proj1 Hd eq_refl)) as H2. cbv zeta in H2.
  change (so_pkts rest (so_pkts (p :: rest) so)) with (so_pkts rest so).
  set (w2 := up_packets _ _) in *.
  destruct (IH w2 (so_pkts rest so)) as (r & w' & l' & Hrun & H3 & Hl).
  { cbn. apply lookup_insert_eq. } { done. } { apply (dr_queue _ _ _ _ _ H2). }
  exists r, w', l'. split_and!; [done| |done]. by eapply drained_trans.
Qed.

(** ** enqueue *)

(** ptr = data, before anything is written *)
Definition rewound (pk : apacket) : apacket := mkPacket (p_len pk) 0 (p_msg pk) (p_data pk).
Lemma rewound_ok pk bs : payload pk (p_len pk) = Some bs → pkt_ok (rewound pk) bs.
Proof.
  unfold payload, pkt_ok, rest_bytes. cbn. rewrite drop_0. intros H. case_decide as Hd; [|done].
  split; [lia|]. by rewrite decide_True by lia.
Qed.

Lemma queue_bytes_snoc w l p : queue_bytes w (l ++ [p]) = queue_bytes w l ++ pkt_bytes w p.
Proof. unfold queue_bytes. rewrite fmap_app, concat_app. cbn. by rewrite app_nil_r. Qed.

(** what enqueue leaves alone *)
Record enqueue_frame (wfd : Z) (w w' : world) : Prop := {
  ef_kern : same_but_wr wfd (w_kern_of w) (w_kern_of w');
  ef_rest : w' = up_fd (w_fd w') (up_packets (λ _, w_packets w') (up_sockets (λ _, w_sockets w') w));
  ef_next : next_loc (w_fd w') = next_loc (w_fd w);
  ef_inv : fd_inv (w_fd w');
}.

(** the end of local_socket_enqueue when the packet has to wait *)
Lemma append_run s p w so pk bs :
  w_sockets w !! s = Some so → queue_ok w (s_pkts so) → p ∉ s_pkts so →
  w_packets w !! p = Some pk → pkt_ok pk bs →
  fd_inv (w_fd w) → is_Some (fdes (w_fd w) !! fde_of s) →
  ∃ w', (sock_put s (λ so, so_pkts (s_pkts so ++ [p]) so);;;
         FD (fdevent_add (fde_of s) FDE_WRITE);;; ret 1) w = Ok 1 w'
    ∧ w_sockets w' = <[s := so_pkts (s_pkts so ++ [p]) so]> (w_sockets w)
    ∧ w_packets w' = w_packets w ∧ w_kern_of w' = w_kern_of w
    ∧ queue_ok w' (s_pkts so ++ [p])
    ∧ queue_bytes w' (s_pkts so ++ [p]) = queue_bytes w (s_pkts so) ++ bs
    ∧ enqueue_frame (s_write_fd so) w w'.
Proof.
  intros Hs [Hnd Hq] Hnin Hp Hok Hi Hfde. run (sock_put_run w s (λ so, so_pkts (s_pkts so ++ [p]) so) so Hs).
  set (w1 := up_sockets _ w).
  destruct (fdevent_add_run (w_fd w1) (fde_of s) FDE_WRITE Hi Hfde) as (f & Hf & Hi' & Hk & _ & Hn & _).
  run (FD_run w1 _ _ _ Hf). exists (up_fd f w1). split_and!; try done.
  - split.
    + apply list.NoDup_app. split_and!; [done| |apply NoDup_singleton].
      intros q Hin1 Hin2%list_elem_of_singleton. congruence.
    + intros q [Hin|Hin%list_elem_of_singleton]%elem_of_app; [by apply Hq|]. subst q. eauto.
  - rewrite queue_bytes_snoc. f_equal.
    by apply (pkt_bytes_ok (up_fd f w1) p pk).
  - split; [|by destruct w|done|done]. unfold w_kern_of; cbn. by rewrite Hk.
Qed.

Lemma enqueue_run s p w so pk bs :
  w_sockets w !! s = Some so → queue_ok w (s_pkts so) → p ∉ s_pkts so →
  w_packets w !! p = Some pk → payload pk (p_len pk) = Some bs →
  fd_inv (w_fd w) → is_Some (fdes (w_fd w) !! fde_of s) →
  (s_pkts so = [] ∧ ∃ n k', (n < length bs)%nat
     ∧ local_socket_enqueue s p w
       = (call_close s;;; ret 1) (up_packets <[p := advance n (rewound pk)]> (up_kern k' w))
     ∧ out_of (s_write_fd so) k' = out_of (s_write_fd so) (w_kern_of w) ++ take n bs
     ∧ same_but_wr (s_write_fd so) (w_kern_of w) k') ∨
  ∃ r w' l', local_socket_enqueue s p w = Ok r w'
    ∧ w_sockets w' = <[s := so_pkts l' so]> (w_sockets w) ∧ queue_ok w' l'
    ∧ out_of (s_write_fd so) (w_kern_of w') ++ queue_bytes w' l'
      = (out_of (s_write_fd so) (w_kern_of w) ++ queue_bytes w (s_pkts so)) ++ bs
    ∧ (r = 0 ∧ l' = [] ∧ w_packets w' !! p = None ∨ r = 1 ∧ l' = s_pkts so ++ [p])
    ∧ enqueue_frame (s_write_fd so) w w'.
Proof.
  intros Hs Hq Hnin Hp Hbs Hi Hfde. unfold local_socket_enqueue.
  run (pkt_put_run w p (λ pk, mkPacket (p_len pk) 0 (p_msg pk) (p_data pk)) pk Hp).
  fold (rewound pk). pose proof (rewound_ok pk bs Hbs) as Hok.
  set (w1 := up_packets _ w). run (sock_at_run w1 s so Hs). cbv zeta.
  assert (Hp1 : w_packets w1 !! p = Some (rewound pk)) by apply lookup_insert_eq.
  assert (Hoth : ∀ q, q ≠ p → w_packets w1 !! q = w_packets w !! q).
  { intros q Hne. cbn. by rewrite lookup_insert_ne. }
  assert (Hsame : ∀ q, q ∈ s_pkts so → w_packets w1 !! q = w_packets w !! q).
  { intros q Hin. apply Hoth. intros ->. done. }
  destruct (decide (s_pkts so = [])) as [Hnil|Hnnil]; cycle 1.
  { rewrite bool_decide_eq_false_2 by done. cbn [negb]. right.
    destruct (append_run s p w1 so (rewound pk) bs) as (w' & -> & Hs' & Hp' & Hk' & Hq' & Hb' & Hef); try done.
    { by apply (queue_ok_ext w). }
    exists 1, w', (s_pkts so ++ [p]). split_and!; try done; [|by right|].
    2: { destruct Hef as [E1 E2 E3 E4]. split; [done| |done|done]. rewrite E2. by destruct w. }
    rewrite Hk', Hb', (queue_bytes_ext w w1) by done. by rewrite app_assoc. }
  rewrite bool_decide_eq_true_2 by done. cbn [negb].
  run (eq_refl : gets (drain_fuel (s_write_fd so)) w1 = Ok _ _).
  destruct (drain_packet_spec (drain_fuel (s_write_fd so) w1) false (s_write_fd so) p w1 (rewound pk) bs)
    as (r & k' & n & Hr & Hn & Ho & Hsm & Hd); [done..|unfold drain_fuel; case_decide; lia|].
  run Hr. set (w2 := up_packets _ (up_kern k' w1)) in *.
  assert (Hp2 : w_packets w2 !! p = Some (advance n (rewound pk))) by apply lookup_insert_eq.
  destruct r; [right|right|left].
  3: { split; [done|]. exists n, k'. split; [|split_and!; [|done..]].
       - destruct (decide (n = length bs)) as [He|]; [|lia]. by apply Hd in He.
       - unfold w2, w1, up_packets, up_kern; cbn. by rewrite insert_insert_eq. }
  - run (put_run p _ w2 Hp2). exists 0, (up_packets (delete p) w2), []. split_and!; try done.
    + cbn. rewrite insert_id; [done|]. rewrite <- Hnil. by destruct so.
    + split; [apply NoDup_nil_2|set_solver].
    + change (w_kern_of (up_packets (delete p) w2)) with k'. rewrite Ho, Hnil.
      rewrite (proj1 Hd eq_refl), firstn_all. by rewrite !app_nil_r.
    + left. split_and!; [done..|]. apply lookup_delete_eq.
    + split; [done|by destruct w|done|]. by apply inv_upd_kern.
  - pose proof (advance_ok _ bs n Hok Hn) as Hok2.
    destruct (append_run s p w2 so _ _ Hs ltac:(rewrite Hnil; split; [apply NoDup_nil_2|set_solver]) Hnin Hp2 Hok2)
      as (w' & -> & Hs' & Hp' & Hk' & Hq' & Hb' & Hef); [by apply inv_upd_kern|done|].
    exists 1, w', (s_pkts so ++ [p]). split_and!; try done; [|by right|].
    2: { destruct Hef as [E1 E2 E3 E4]. split; [by etrans| |done|done]. rewrite E2. by destruct w. }
    rewrite Hk', Hb'. change (w_kern_of w2) with k'. rewrite Ho, Hnil. cbn [app fmap concat].
    rewrite <- !app_assoc. f_equal. unfold queue_bytes; cbn. by rewrite take_drop.
Qed.

(** Enqueuing a packet appends its bytes to the stream of the socket: either
    all of them have been written (the packet is freed and the result 0 asks
    for more), or the packet is last in the queue with exactly the bytes that
    are still to be written and the result 1 stops the sender; only when a
    write of an otherwise idle socket fails, after the first [n] bytes, is
    the socket closed instead. *)
Theorem enqueue_appends_bytes s p w so pk bs :
  w_sockets w !! s = Some so → queue_ok w (s_pkts so) → p ∉ s_pkts so →
  w_packets w !! p = Some pk → payload pk (p_len pk) = Some bs →
  fd_inv (w_fd w) → is_Some (fdes (w_fd w) !! fde_of s) →
  (s_pkts so = [] ∧ ∃ n k', (n < length bs)%nat
     ∧ local_socket_enqueue s p w
       = (call_close s;;; ret 1) (up_packets <[p := advance n (rewound pk)]> (up_kern k' w))
     ∧ out_of (s_write_fd so) k' = out_of (s_write_fd so) (w_kern_of w) ++ take n bs
     ∧ same_but_wr (s_write_fd so) (w_kern_of w) k') ∨
  ∃ r w' l', local_socket_enqueue s p w = Ok r w'
    ∧ w_sockets w' = <[s := so_pkts l' so]> (w_sockets w) ∧ queue_ok w' l'
    ∧ out_of (s_write_fd so) (w_kern_of w') ++ queue_bytes w' l'
      = (out_of (s_write_fd so) (w_kern_of w) ++ queue_bytes w (s_pkts so)) ++ bs
    ∧ (r = 0 ∧ l' = [] ∧ w_packets w' !! p = None ∨ r = 1 ∧ l' = s_pkts so ++ [p]).
Proof.
  intros H1 H2 H3 H4 H5 H6 H7.
  destruct (enqueue_run s p w so pk bs H1 H2 H3 H4 H5 H6 H7) as [?|(r & w' & l' & ?)]; [by left|right].
  exists r, w', l'. naive_solver.
Qed.

(** ** Examples *)

Module DemoFlow.
(** descriptor 5 takes three bytes, then blocks *)
Definition kernel : kern := mkKern 0 ∅ {[ 5 := [WrOk 3; WrErr EAGAIN] ]} ∅ [] [] [].
Definition events : fdw := final (fdevent_install 33 5 local_socket_event_func_ 32 (initial kernel)).
Definition socket (l : list Z) : asocket :=
  mkSock 1 false false 0 5 5 l local_socket_enqueue_ local_socket_ready_ local_socket_close_ 0 0.
Definition packet : apacket := mkPacket 5 0 zero_msg (str "hello").
(** socket 32 with queue [l], packets 48 and 64 *)
Definition world (l : list Z) : world :=
  up_fd events (up_packets <[48 := packet]> (up_packets <[64 := packet]>
    (up_sockets <[32 := socket l]> (start_world kernel)))).
End DemoFlow.

Lemma demo_flow_inv l : fd_inv (w_fd (DemoFlow.world l)).
Proof.
  apply (run_op_Ok_inv (initial DemoFlow.kernel) (OpInstall 33 5 local_socket_event_func_ 32)).
  - apply initial_inv.
  - split_and!; try done. intros (_ & p & Hp & _). done.
  - vm_compute. reflexivity.
Qed.

Lemma drain_queue_fifo_witness : ∃ r w' l', drain_queue 2 32 (DemoFlow.world [48; 64]) = Ok r w' ∧
  out_of 5 (w_kern_of w') ++ queue_bytes w' l' = str "hellohello" ∧ (r = Drained ↔ l' = []).
Proof.
  destruct (drain_queue_fifo 32 (DemoFlow.world [48; 64]) (DemoFlow.socket [48; 64]))
    as (r & w' & l' & Hrun & Hd & Hr).
  - vm_compute; reflexivity.
  - split; [apply (bool_decide_unpack _); vm_compute; exact I|].
    intros p Hp. exists DemoFlow.packet, (str "hello").
    apply elem_of_cons in Hp as [->|Hp%list_elem_of_singleton]; [|subst p];
      (split; [vm_compute; reflexivity|]); (split; [vm_compute; congruence|vm_compute; reflexivity]).
  - exists r, w', l'. split; [exact Hrun|]. split; [|exact Hr]. exact (dr_bytes _ _ _ _ _ Hd).
Defined.

(** five bytes for a descriptor that takes three: two wait *)
Lemma enqueue_appends_bytes_witness :
  (∃ w1, local_socket_enqueue 32 48 (DemoFlow.world []) = (call_close 32;;; ret 1) w1) ∨
  ∃ r w' l', local_socket_enqueue 32 48 (DemoFlow.world []) = Ok r w'
    ∧ out_of 5 (w_kern_of w') ++ queue_bytes w' l' = str "hello"
    ∧ (r = 0 ∧ l' = [] ∨ r = 1 ∧ l' = [48]).
Proof.
  destruct (enqueue_appends_bytes 32 48 (DemoFlow.world []) (DemoFlow.socket []) DemoFlow.packet (str "hello"))
    as [(_ & n & k' & _ & H & _)|(r & w' & l' & Hrun & _ & _ & Hb & Hc)].
  - vm_compute; reflexivity.
  - split; [apply NoDup_nil_2|]. intros p Hp. by apply not_elem_of_nil in Hp.
  - apply not_elem_of_nil.
  - vm_compute; reflexivity.
  - vm_compute; reflexivity.
  - apply demo_flow_inv.
  - vm_compute. eexists; reflexivity.
  - left. eexists. exact H.
  - right. exists r, w', l'. split; [exact Hrun|]. split; [exact Hb|]. naive_solver.
Defined.

Example enqueue_two_wait : ∃ w', local_socket_enqueue 32 48 (DemoFlow.world []) = Ok 1 w'
  ∧ out_of 5 (w_kern_of w') = str "hel" ∧ queue_bytes w' [48] = str "lo".
Proof. eexists. split; [vm_compute; reflexivity|]. split; vm_compute; reflexivity. Qed.
