(* ===== verification/SocketTable.v ===== *)
(** * The table of local sockets

    local_socket_list, local_socket_next_id and the functions on them
    implement a finite map from identifiers to sockets: packets name a local
    socket by its identifier. *)

From S2P Require Import Prelude Kernel Packet DList Fdevent World Transport Sockets.

Definition id_of (w : world) (s : Z) : Z := from_option s_id 0 (w_sockets w !! s).
(** the map; of two sockets with one identifier the older one is found *)
Definition entries (w : world) (l : list Z) : list (Z * Z) := (λ s, (id_of w s, s)) <$> l.
Definition table (w : world) : gmap Z Z := list_to_map (entries w (local_socket_list w)).

(** identifiers are given in increasing order and are never 0, as long as the
    counter has not wrapped around *)
Record table_ok (w : world) : Prop := {
  tb_nodup : NoDup (local_socket_list w);
  tb_addr s : s ∈ local_socket_list w → s ≠ 0 ∧ is_Some (w_sockets w !! s);
  tb_ids s1 s2 : s1 ∈ local_socket_list w → s2 ∈ local_socket_list w →
    id_of w s1 = id_of w s2 → s1 = s2;
  tb_range s : s ∈ local_socket_list w → 1 ≤ id_of w s < local_socket_next_id w;
  tb_next : 1 ≤ local_socket_next_id w;
}.

Lemma entries_ext w w' l : (∀ s, s ∈ l → id_of w' s = id_of w s) → entries w' l = entries w l.
Proof.
  intros H. apply list_fmap_ext. intros i s Hs. by rewrite H by (eapply list_elem_of_lookup_2; eauto).
Qed.

Lemma entries_nodup w : table_ok w → NoDup (entries w (local_socket_list w)).*1.
Proof.
  intros Hok. unfold entries. rewrite <- list_fmap_compose. cbn.
  pose proof (tb_ids w Hok) as Hids. pose proof (tb_nodup w Hok) as Hnd.
  revert Hids Hnd. generalize (local_socket_list w). clear Hok.
  induction l as [|s l IH]; intros Hids Hnd; cbn; [apply NoDup_nil_2|].
  apply list.NoDup_cons in Hnd as [Hnin Hnd]. apply list.NoDup_cons. split.
  - rewrite list_elem_of_fmap. intros (s' & He & Hin). cbn in He.
    rewrite (Hids s s') in Hnin; set_solver.
  - apply IH; [|done]. intros s1 s2 H1 H2. apply Hids; set_solver.
Qed.

Lemma socket_table_lookup w id s : table_ok w →
  table w !! id = Some s ↔ s ∈ local_socket_list w ∧ id_of w s = id.
Proof.
  intros Hok. unfold table. rewrite <- elem_of_list_to_map by by apply entries_nodup.
  unfold entries. rewrite list_elem_of_fmap. split.
  - intros (s' & [= -> ->] & Hin). done.
  - intros [Hin <-]. eauto.
Qed.

(** the search in the list is the lookup *)
Lemma find_id_lookup w l id : (∀ s, s ∈ l → s ≠ 0 ∧ is_Some (w_sockets w !! s)) →
  find_id l id w = Ok (default 0 ((list_to_map (entries w l) : gmap Z Z) !! id)) w.
Proof.
  induction l as [|s l IH]; intros Hl; cbn -[bind]; [done|].
  destruct (Hl s ltac:(set_solver)) as [_ [so Hs]]. run (sock_at_run w s so Hs).
  assert (Hid : id_of w s = s_id so) by by unfold id_of; rewrite Hs. rewrite Hid.
  destruct (Z.eqb_spec (s_id so) id) as [->|Hne].
  - by rewrite lookup_insert_eq.
  - rewrite lookup_insert_ne by done. apply IH. set_solver.
Qed.

Lemma find_local_socket_run w id : table_ok w → socket_list_lock w = false →
  find_local_socket id w = Ok (default 0 (table w !! id)) w.
Proof.
  intros Hok Hl. unfold find_local_socket. run (lock_sockets_run w Hl).
  run (eq_refl : gets local_socket_list (up_socket_lock true w) = Ok _ _).
  rewrite (bind_ok _ _ _ _ _ (find_id_lookup (up_socket_lock true w) _ id (tb_addr w Hok))).
  cbn. unfold bind, unlock_sockets, modify, ret. f_equal.
  destruct w; cbn in *. by rewrite Hl.
Qed.

Lemma id_of_insert w s so s' :
  id_of (up_sockets <[s := so]> w) s' = if decide (s' = s) then s_id so else id_of w s'.
Proof.
  unfold id_of; cbn. case_decide as Hd; [subst; by rewrite lookup_insert_eq|].
  by rewrite lookup_insert_ne.
Qed.

Lemma install_run w s so :
  table_ok w → socket_list_lock w = false → w_sockets w !! s = Some so → s ≠ 0 →
  s ∉ local_socket_list w → local_socket_next_id w < 2 ^ 32 - 1 →
  ∃ w', install_local_socket s w = Ok tt w' ∧ table_ok w' ∧ socket_list_lock w' = false
    ∧ table w' = <[local_socket_next_id w := s]> (table w).
Proof.
  intros Hok Hl Hs H0 Hnin Hmax. pose proof (tb_next w Hok) as Hnext.
  unfold install_local_socket. run (lock_sockets_run w Hl).
  set (n := local_socket_next_id w) in *.
  run (eq_refl : gets local_socket_next_id (up_socket_lock true w) = Ok n _).
  rewrite (bind_ok _ _ _ _ _ (sock_put_run (up_socket_lock true w) s (so_id n) so Hs)).
  eexists. split; [reflexivity|].
  rewrite u32_id by lia. set (w' := up_socket_lock false _).
  assert (Hid : ∀ s', id_of w' s' = if decide (s' = s) then n else id_of w s')
    by (intros s'; exact (id_of_insert w s (so_id n so) s')).
  assert (Hsock : ∀ s', s' ≠ s → w_sockets w' !! s' = w_sockets w !! s')
    by (intros s' Hne; cbn; by rewrite lookup_insert_ne).
  assert (Hnew : ∀ s', s' ∈ local_socket_list w → s' ≠ s) by (intros s' Hin ->; done).
  assert (Hlist : local_socket_list w' = local_socket_list w ++ [s]) by done.
  assert (Hnxt : local_socket_next_id w' = n + 1) by done.
  assert (Hok' : table_ok w').
  { split.
    - rewrite Hlist. apply list.NoDup_app. split_and!; [apply (tb_nodup w Hok)| |apply NoDup_singleton].
      intros s' H1 ->%list_elem_of_singleton. done.
    - intros s'. rewrite Hlist. intros [Hin|Hin%list_elem_of_singleton]%elem_of_app.
      + rewrite Hsock by auto. by apply (tb_addr w Hok).
      + subst s'. split; [done|]. cbn. rewrite lookup_insert_eq. eauto.
    - intros s1 s2. rewrite Hlist, !elem_of_app, !list_elem_of_singleton, !Hid.
      intros [H1| ->] [H2| ->] He; repeat case_decide; subst; try done.
      + by apply (tb_ids w Hok).
      + apply (tb_range w Hok) in H1. fold n in H1. lia.
      + apply (tb_range w Hok) in H2. fold n in H2. lia.
    - intros s'. rewrite Hlist, elem_of_app, list_elem_of_singleton, Hid, Hnxt.
      intros [Hin|Hin]; case_decide; subst; try done; try lia.
      apply (tb_range w Hok) in Hin. fold n in Hin. lia.
    - rewrite Hnxt. lia. }
  split_and!; [done..|]. apply map_eq. intros id. apply option_eq. intros s'.
  rewrite socket_table_lookup, Hlist, elem_of_app, list_elem_of_singleton, Hid, lookup_insert_Some by done.
  rewrite socket_table_lookup by done. case_decide as Hd; [subst s'; naive_solver|].
  split; [|naive_solver]. intros [[Hin|Hin] He]; [|done]. right. split; [|done].
  apply (tb_range w Hok) in Hin. fold n in Hin. lia.
Qed.

Lemma remove_run w s so : table_ok w → w_sockets w !! s = Some so → s ∈ local_socket_list w →
  ∃ w', remove_socket s w = Ok tt w' ∧ table_ok w' ∧ socket_list_lock w' = socket_list_lock w
    ∧ table w' = delete (s_id so) (table w).
Proof.
  intros Hok Hs Hin. unfold remove_socket. run (sock_at_run w s so Hs).
  run (eq_refl : get w = Ok w w). rewrite bool_decide_eq_true_2 by by left.
  set (w1 := up_local_list (filter (λ x, x ≠ s) (local_socket_list w)) w).
  set (w2 := up_closing_list (filter (λ x, x ≠ s) (local_socket_closing_list w1)) w1).
  unfold modify at 1. rewrite (bind_ok _ _ w tt w1) by done.
  unfold modify at 1. rewrite (bind_ok _ _ w1 tt w2) by done.
  rewrite (sock_put_run w2 s (so_id 0) so Hs). set (w' := up_sockets _ w2).
  assert (Hid : ∀ s', s' ≠ s → id_of w' s' = id_of w s').
  { intros s' Hne. pose proof (id_of_insert w s (so_id 0 so) s') as H. by rewrite decide_False in H. }
  assert (Hlist : local_socket_list w' = filter (λ x, x ≠ s) (local_socket_list w)) by done.
  assert (Hso : id_of w s = s_id so) by by unfold id_of; rewrite Hs.
  assert (Hel : ∀ s', s' ∈ local_socket_list w' ↔ s' ≠ s ∧ s' ∈ local_socket_list w)
    by (intros s'; rewrite Hlist, list_elem_of_filter; tauto).
  assert (Hok' : table_ok w').
  { split.
    - rewrite Hlist. apply list.NoDup_filter, (tb_nodup w Hok).
    - intros s' [Hne Hin']%Hel. cbn. rewrite lookup_insert_ne by done. by apply (tb_addr w Hok).
    - intros s1 s2 [Hn1 H1]%Hel [Hn2 H2]%Hel. rewrite !Hid by done. by apply (tb_ids w Hok).
    - intros s' [Hne Hin']%Hel. rewrite Hid by done. by apply (tb_range w Hok).
    - apply (tb_next w Hok). }
  exists w'. split_and!; [done..|]. apply map_eq. intros id. apply option_eq. intros s'.
  rewrite socket_table_lookup, Hel, lookup_delete_Some, socket_table_lookup by done. split.
  - intros ((Hne & Hin') & <-). rewrite Hid by done. split_and!; try done. rewrite <- Hso.
    intros He. by apply (tb_ids w Hok) in He; auto.
  - intros (Hne & Hin' & He). assert (Hns : s' ≠ s) by (intros ->; congruence).
    rewrite Hid by done. done.
Qed.

(** C15 The list of local sockets implements a map from identifiers to sockets.
    find_local_socket is its lookup (NULL for an unknown identifier) and
    changes nothing; install_local_socket inserts the socket under a fresh
    identifier; remove_socket deletes it; each of them keeps identifiers
    distinct and nonzero, until 2^32 - 1 sockets have been created. *)
Theorem local_sockets_refine_map w :
  table_ok w → socket_list_lock w = false →
  (∀ id, find_local_socket id w = Ok (default 0 (table w !! id)) w) ∧
  (∀ s so, w_sockets w !! s = Some so → s ≠ 0 → s ∉ local_socket_list w →
     local_socket_next_id w < 2 ^ 32 - 1 →
     table w !! local_socket_next_id w = None ∧
     ∃ w', install_local_socket s w = Ok tt w' ∧ table_ok w' ∧ socket_list_lock w' = false
       ∧ table w' = <[local_socket_next_id w := s]> (table w)) ∧
  (∀ s so, w_sockets w !! s = Some so → s ∈ local_socket_list w →
     ∃ w', remove_socket s w = Ok tt w' ∧ table_ok w' ∧ socket_list_lock w' = false
       ∧ table w' = delete (s_id so) (table w)).
Proof.
  intros Hok Hl. split_and!.
  - intros id. by apply find_local_socket_run.
  - intros s so Hs H0 Hnin Hmax. split; [|by apply install_run with so].
    apply eq_None_not_Some. intros [s' [Hin He]%socket_table_lookup]; [|done].
    apply (tb_range w Hok) in Hin. lia.
  - intros s so Hs Hin. rewrite <- Hl. by apply remove_run.
Qed.

Module DemoTable.
Definition kernel : kern := mkKern 0 ∅ ∅ ∅ [] [] [].
Definition socket (i : Z) : asocket :=
  mkSock i false false 0 5 5 [] local_socket_enqueue_ local_socket_ready_ local_socket_close_ 0 0.
(** socket 32 has identifier 1 *)
Definition world : world :=
  up_next_id 2 (up_local_list [32] (up_sockets <[32 := socket 1]> (start_world kernel))).
End DemoTable.

Lemma local_sockets_refine_map_witness :
  find_local_socket 1 DemoTable.world = Ok 32 DemoTable.world ∧
  find_local_socket 2 DemoTable.world = Ok 0 DemoTable.world.
Proof.
  destruct (local_sockets_refine_map DemoTable.world) as (Hf & _ & _).
  - split; try (vm_compute; congruence).
    + apply NoDup_singleton.
    + intros s ->%list_elem_of_singleton. split; [done|]. vm_compute. eauto.
    + intros s1 s2 ->%list_elem_of_singleton ->%list_elem_of_singleton. done.
    + intros s ->%list_elem_of_singleton. vm_compute. split; congruence.
  - reflexivity.
  - split; [exact (Hf 1)|exact (Hf 2)].
Defined.
