(* ===== verification/Closing.v ===== *)
(** * Closing a stream

    A local socket and the remote socket that stands for the other end of the
    stream point to each other.  Closing either of them takes both down: the
    remote end is told once, with a CLSE packet, the descriptor is closed,
    both objects are freed.  A local socket that still has data to write
    stays until the data is gone. *)

From S2P Require Import Prelude Kernel Packet DList Fdevent World Transport Sockets Flow SocketTable.

(** ** Sending *)

Lemma KW_malloc_ok w : k_oom (w_kern_of w) = [] → KW malloc_ok w = Ok true w.
Proof.
  intros H. rewrite (KW_run w malloc_ok true (w_kern_of w)); [by rewrite up_kern_id|].
  unfold malloc_ok. by rewrite H.
Qed.

(** a fresh object *)
Definition bumped (w : world) : world := up_fd (upd_next_loc (next_loc (w_fd w) + 16) (w_fd w)) w.
Lemma alloc_run w : alloc w = Ok (next_loc (w_fd w)) (bumped w).
Proof. done. Qed.
Lemma get_apacket_run w : k_oom (w_kern_of w) = [] →
  get_apacket w = Ok (next_loc (w_fd w)) (up_packets <[next_loc (w_fd w) := zero_packet]> (bumped w)).
Proof. intros H. unfold get_apacket. by run (KW_malloc_ok w H). Qed.

(** the pipe of the transport takes the address *)
Lemma send_packet_run w p pk body t tr :
  w_packets w !! p = Some pk → payload pk (data_length (p_msg pk)) = Some body →
  w_transports w !! t = Some tr → t ≠ 0 →
  (4 ≤ wcap (wr_of (t_transport_write tr) (w_kern_of w)))%nat →
  ∃ k', send_packet p t w = Ok tt (up_packets <[p := fill_header pk body]> (up_kern k' w))
    ∧ out_of (t_transport_write tr) k' = out_of (t_transport_write tr) (w_kern_of w) ++ le32 p
    ∧ same_but_wr (t_transport_write tr) (w_kern_of w) k'
    ∧ (wcap (wr_of (t_transport_write tr) k') = wcap (wr_of (t_transport_write tr) (w_kern_of w)) - 4)%nat.
Proof.
  intros Hp Hb Ht H0 Hcap. unfold send_packet. run (pkt_at_run w p pk Hp). rewrite Hb.
  run (pkt_put_run w p (λ pk, fill_header pk body) pk Hp). rewrite (proj2 (Z.eqb_neq t 0)) by done.
  set (w1 := up_packets _ w). run (trans_at_run w1 t tr Ht). unfold write_packet.
  destruct (writex_spec (t_transport_write tr) (le32 p) (w_kern_of w1)) as (k' & Hs & Hw & Ho & Hc).
  cbv zeta in Hw, Ho, Hc. change (w_kern_of w1) with (w_kern_of w) in *.
  rewrite bool_decide_eq_true_2 in Hw by (rewrite length_le32; lia).
  run (KW_run w1 _ _ _ Hw). exists k'. split_and!; [done| |done|].
  - rewrite Ho. rewrite take_ge by (rewrite length_le32; lia). done.
  - rewrite Hc by (rewrite length_le32; lia). by rewrite length_le32.
Qed.

(** a packet without payload, ready for the wire *)
Definition control (c a0 a1 : Z) : apacket :=
  mkPacket 0 0 (mkMsg c a0 a1 0 0 (Z.lxor c 0xffffffff)) [].

(** [c a0 a1] was sent on [t] *)
Record sent_control (c a0 a1 : Z) (tr : atransport) (w w' : world) : Prop := {
  sc_packet : w_packets w' = <[next_loc (w_fd w) := control c a0 a1]> (w_packets w);
  sc_out : out_of (t_transport_write tr) (w_kern_of w')
    = out_of (t_transport_write tr) (w_kern_of w) ++ le32 (next_loc (w_fd w));
  sc_kern : same_but_wr (t_transport_write tr) (w_kern_of w) (w_kern_of w');
  sc_rest : w' = up_packets (λ _, w_packets w')
    (up_fd (upd_next_loc (next_loc (w_fd w) + 16) (upd_kern (w_kern_of w') (w_fd w))) w);
  sc_cap : (wcap (wr_of (t_transport_write tr) (w_kern_of w'))
    = wcap (wr_of (t_transport_write tr) (w_kern_of w)) - 4)%nat;
}.

Lemma send_control_run w c a0 a1 t tr w1 :
  k_oom (w_kern_of w) = [] → w_transports w !! t = Some tr → t ≠ 0 →
  (4 ≤ wcap (wr_of (t_transport_write tr) (w_kern_of w)))%nat →
  w1 = up_packets <[next_loc (w_fd w) := zero_packet]> (bumped w) →
  ∃ w', (pkt_put (next_loc (w_fd w)) (msg_set c a0 a1 0);;; send_packet (next_loc (w_fd w)) t) w1
      = Ok tt w' ∧ sent_control c a0 a1 tr w w'.
Proof.
  intros Hm Ht H0 Hcap ->. set (p := next_loc (w_fd w)). set (w1 := up_packets _ _).
  assert (Hp : w_packets w1 !! p = Some zero_packet) by apply lookup_insert_eq.
  run (pkt_put_run w1 p (msg_set c a0 a1 0) _ Hp).
  set (w2 := up_packets _ w1).
  destruct (send_packet_run w2 p (msg_set c a0 a1 0 zero_packet) [] t tr)
    as (k' & -> & Ho & Hs & Hc); [apply lookup_insert_eq|done..|].
  eexists. split; [done|]. split; [|done..].
  cbn. by rewrite !insert_insert_eq.
Qed.

(** ** Freeing *)

Definition out_frame (w w' : fdw) : Prop :=
  k_out (w_kern w') = k_out (w_kern w) ∧ k_wr (w_kern w') = k_wr (w_kern w)
  ∧ next_loc w' = next_loc w.
#[export] Instance out_frame_preorder : PreOrder out_frame.
Proof.
  split; [done|]. intros w1 w2 w3 (A1 & B1 & C1) (A2 & B2 & C2).
  split_and!; by etrans.
Qed.

Lemma fdevent_remove_frame p : keeps out_frame (fdevent_remove p).
Proof.
  unfold fdevent_remove, fdevent_disconnect, fdevent_unregister, fde_put, fde_at, fd_set_check,
    fd_table_at, FATAL.
  assert (Hpl : keeps out_frame (fdevent_plist_remove p)).
  { intros w. unfold fdevent_plist_remove. by case_bool_decide. }
  assert (Hlr : ∀ n i m, keeps out_frame (last_registered n i m)).
  { induction n as [|n IH]; intros i m; cbn [last_registered]; unfold fd_table_at; repeat first [apply IH | keeps_step]. }
  repeat first [apply Hpl | apply Hlr | keeps_step
    | (apply keeps_modify; intros ?; done)
    | (apply (keeps_zoom (λ k k', k_out k' = k_out k ∧ k_wr k' = k_wr k)); [intros k; done|];
       intros w k [? ?]; done) ].
Qed.

(** an object that is neither active nor queued can be freed *)
Lemma fd_inv_delete w p f : fd_inv w → fdes w !! p = Some f → active f = false → pending f = false →
  fd_inv (upd_fdes (delete p) w).
Proof.
  intros Hi Hf Ha Hp.
  assert (Hne : ∀ q g, fdes w !! q = Some g → active g = true ∨ pending g = true → q ≠ p).
  { intros q g Hg [H|H] ->; congruence. }
  assert (Hw : ∀ d b, watched (upd_fdes (delete p) w) d b ↔ watched w d b).
  { intros d b. unfold watched; cbn. split; intros (q & g & Hg & H); exists q, g.
    - apply lookup_delete_Some in Hg as [_ Hg]. done.
    - split; [|done]. apply lookup_delete_Some. split; [|done]. apply not_eq_sym. eapply Hne; [done|].
      left. tauto. }
  split; cbn.
  - apply Hi.
  - intros i q Hq Hq0. destruct (fi_table w Hi i q Hq Hq0) as (g & Hg & Hd & Hact).
    exists g. rewrite lookup_delete_ne; [done|]. apply not_eq_sym. by eapply Hne; eauto.
  - intros q g [_ Hg]%lookup_delete_Some. apply (fi_active w Hi q g Hg).
  - apply Hi.
  - intros d. rewrite Hw. apply Hi.
  - intros d. rewrite Hw. apply Hi.
  - intros d. rewrite Hw. apply Hi.
  - apply Hi.
  - intros q. rewrite (fi_queue w Hi). split; intros (g & Hg & Hpd); exists g.
    + split; [|done]. rewrite lookup_delete_ne; [done|]. apply not_eq_sym. by eapply Hne; eauto.
    + by apply lookup_delete_Some in Hg as [_ Hg].
  - intros q g [_ Hg]%lookup_delete_Some. apply (fi_pending w Hi q g Hg).
  - intros q g [_ Hg]%lookup_delete_Some. apply (fi_events w Hi q g Hg).
Qed.

Lemma put_apackets_run l w : NoDup l → (∀ p, p ∈ l → is_Some (w_packets w !! p)) →
  ∃ m, put_apackets l w = Ok tt (up_packets (λ _, m) w)
    ∧ ∀ p, m !! p = if decide (p ∈ l) then None else w_packets w !! p.
Proof.
  revert w. induction l as [|p l IH]; intros w Hnd Hl.
  - exists (w_packets w). split; [by destruct w|]. intros q. by rewrite decide_False by set_solver.
  - apply list.NoDup_cons in Hnd as [Hnin Hnd].
    destruct (Hl p ltac:(set_solver)) as [pk Hp]. cbn [put_apackets]. run (put_run p pk w Hp).
    destruct (IH (up_packets (delete p) w)) as (m & -> & Hm); [done| |].
    { intros q Hq. cbn. rewrite lookup_delete_ne by set_solver. apply Hl. set_solver. }
    exists m. split; [done|]. intros q. rewrite Hm. cbn.
    destruct (decide (q = p)) as [->|Hne].
    + rewrite (decide_True (P := p ∈ p :: l)) by set_solver. case_decide; [done|apply lookup_delete_eq].
    + rewrite lookup_delete_ne by done.
      destruct (decide (q ∈ l)), (decide (q ∈ p :: l)); set_solver.
Qed.

Lemma filter_ne_id (s : Z) (l : list Z) : s ∉ l → filter (λ x, x ≠ s) l = l.
Proof.
  induction l as [|x l IH]; intros H; [done|]. rewrite filter_cons_True by set_solver.
  f_equal. apply IH. set_solver.
Qed.

(** the object [s] is gone, with its events and its place in the lists *)
Record destroyed (s : Z) (so : asocket) (w w' : world) : Prop := {
  de_events : fd_inv (w_fd w');
  de_fdes : fdes (w_fd w') = delete (fde_of s) (fdes (w_fd w));
  de_loc : next_loc (w_fd w') = next_loc (w_fd w);
  de_out : k_out (w_kern_of w') = k_out (w_kern_of w);
  de_wr : k_wr (w_kern_of w') = k_wr (w_kern_of w);
  de_packets p : w_packets w' !! p = if decide (p ∈ s_pkts so) then None else w_packets w !! p;
  de_rest : w' = up_fd (w_fd w') (up_packets (λ _, w_packets w') (up_sockets (delete s)
    (up_local_list (filter (λ x, x ≠ s) (local_socket_list w))
      (up_closing_list (filter (λ x, x ≠ s) (local_socket_closing_list w)) w))));
}.

Lemma remove_socket_run w s so : w_sockets w !! s = Some so →
  ∃ so', remove_socket s w = Ok tt (up_sockets <[s := so']>
    (up_local_list (filter (λ x, x ≠ s) (local_socket_list w))
      (up_closing_list (filter (λ x, x ≠ s) (local_socket_closing_list w)) w))).
Proof.
  intros Hs. unfold remove_socket. run (sock_at_run w s so Hs). run (eq_refl : get w = Ok w w).
  case_bool_decide as Hin.
  - exists (so_id 0 so).
    set (w1 := up_local_list (filter (λ x, x ≠ s) (local_socket_list w)) w).
    set (w2 := up_closing_list (filter (λ x, x ≠ s) (local_socket_closing_list w1)) w1).
    unfold modify at 1. rewrite (bind_ok _ _ w tt w1) by done.
    unfold modify at 1. rewrite (bind_ok _ _ w1 tt w2) by done.
    by rewrite (sock_put_run w2 s (so_id 0) so Hs).
  - exists so. rewrite !filter_ne_id by (intros ?; apply Hin; auto).
    unfold ret. f_equal. destruct w; cbn in *. unfold up_sockets, up_local_list, up_closing_list; cbn.
    by rewrite insert_id.
Qed.

Lemma local_socket_destroy_run w s so :
  w_sockets w !! s = Some so → s_exit_on_close so = false → queue_ok w (s_pkts so) →
  fd_inv (w_fd w) → is_Some (fdes (w_fd w) !! fde_of s) →
  ∃ w', local_socket_destroy s w = Ok tt w' ∧ destroyed s so w w'.
Proof.
  intros Hs Hex [Hnd Hq] Hi [f Hf]. unfold local_socket_destroy. run (sock_at_run w s so Hs).
  destruct (fdevent_remove_spec (w_fd w) (fde_of s) f Hi Hf) as (f1 & Hrem & Hi1 & Hfd1 & _).
  pose proof (fdevent_remove_frame (fde_of s) (w_fd w)) as Hfr. rewrite Hrem in Hfr. cbn in Hfr.
  destruct Hfr as (Ho1 & Hw1 & Hl1). run (FD_run w _ _ _ Hrem).
  set (k2 := if s_write_fd so =? s_fd so then w_kern f1
             else add_trace (Sys "close" [AZ (s_write_fd so)]) (w_kern f1)).
  rewrite (bind_ok _ _ (up_fd f1 w) tt (up_fd (upd_kern k2 f1) w)); cycle 1.
  { unfold when, k2. destruct (s_write_fd so =? s_fd so); cbn; unfold ret; [|done].
    f_equal. by destruct f1. }
  set (w2 := up_fd (upd_kern k2 f1) w).
  destruct (put_apackets_run (s_pkts so) w2 Hnd) as (m & Hput & Hm).
  { intros p Hp. destruct (Hq p Hp) as (pk & bs & Hpk & _). cbn. eauto. }
  run Hput. set (w3 := up_packets _ w2).
  destruct (remove_socket_run w3 s so Hs) as (so' & Hrs). run Hrs.
  set (w4 := up_sockets _ _).
  assert (Hs4 : w_sockets w4 !! s = Some so') by apply lookup_insert_eq.
  unfold free_socket. rewrite bind_assoc. run (sock_at_run w4 s so' Hs4). rewrite Hex.
  assert (Hk2 : k_out k2 = k_out (w_kern f1) ∧ k_wr k2 = k_wr (w_kern f1))
    by (unfold k2; case_match; done).
  destruct Hk2 as [Hk2 Hk3].
  eexists. split; [reflexivity|]. split.
  - cbn. apply (fd_inv_delete _ _ (removed_obj f)); [by apply inv_upd_kern| |done|done].
    cbn. rewrite Hfd1. apply lookup_insert_eq.
  - cbn. rewrite Hfd1. apply delete_insert_eq.
  - cbn. done.
  - cbn. unfold w_kern_of. cbn. by rewrite Hk2.
  - cbn. unfold w_kern_of. cbn. by rewrite Hk3.
  - intros p. cbn. apply Hm.
  - cbn. unfold up_fd, up_packets, up_sockets, up_local_list, up_closing_list; cbn.
    by rewrite delete_insert_eq.
Qed.

(** ** The remote half *)

(** [r] is gone and its end of the stream was told *)
Record remote_closed (r : Z) (ro : asocket) (tr : atransport) (w w' : world) : Prop := {
  rc_packets : w_packets w' = <[next_loc (w_fd w) := control A_CLSE 0 (s_id ro)]> (w_packets w);
  rc_out : out_of (t_transport_write tr) (w_kern_of w')
    = out_of (t_transport_write tr) (w_kern_of w) ++ le32 (next_loc (w_fd w));
  rc_kern : same_but_wr (t_transport_write tr) (w_kern_of w) (w_kern_of w');
  rc_rest : w' = up_packets (λ _, w_packets w')
    (up_disconnects (delete (dis_of r)) (fmap (filter (λ x, x ≠ dis_of r)))
      (up_sockets (delete r)
        (up_fd (upd_fdes (delete (fde_of r))
          (upd_next_loc (next_loc (w_fd w) + 16) (upd_kern (w_kern_of w') (w_fd w)))) w)));
}.

Lemma remote_socket_close_run close w r ro tr :
  w_sockets w !! r = Some ro → s_peer ro = 0 →
  w_transports w !! s_transport ro = Some tr → s_transport ro ≠ 0 →
  is_Some (w_disconnects w !! dis_of r) → k_oom (w_kern_of w) = [] →
  (4 ≤ wcap (wr_of (t_transport_write tr) (w_kern_of w)))%nat →
  ∃ w', remote_socket_close close r w = Ok tt w' ∧ remote_closed r ro tr w w'.
Proof.
  intros Hr Hp Ht H0 [d Hd] Hm Hcap. unfold remote_socket_close. run (sock_at_run w r ro Hr).
  run (get_apacket_run w Hm). rewrite Hp. cbn [Z.eqb].
  set (w1 := up_packets _ _). run (eq_refl : ret 0 w1 = Ok 0 w1).
  destruct (send_control_run w A_CLSE 0 (s_id ro) (s_transport ro) tr w1 Hm Ht H0 Hcap eq_refl)
    as (w2 & Hrun & [Hp2 Ho2 Hk2 Hw2 _]).
  rewrite <- bind_assoc. run Hrun.
  assert (Hw2' : ∀ B (g : world → B), g w2 = g (up_packets (λ _, w_packets w2)
    (up_fd (upd_next_loc (next_loc (w_fd w) + 16) (upd_kern (w_kern_of w2) (w_fd w))) w)))
    by (intros; by rewrite <- Hw2).
  unfold remove_transport_disconnect. rewrite bind_assoc.
  rewrite (bind_ok (deref _ _) _ w2 d w2)
    by (unfold deref; rewrite (Hw2' _ (λ w, w_disconnects w !! dis_of r)); cbn; by rewrite Hd).
  unfold free_remote, free_socket. unfold modify at 1.
  rewrite (bind_ok _ _ w2 tt (up_disconnects id (fmap (filter (λ x, x ≠ dis_of r))) w2)) by done.
  set (w3 := up_disconnects _ _ w2). rewrite bind_assoc.
  assert (Hr3 : w_sockets w3 !! r = Some ro)
    by (change (w_sockets w3) with (w_sockets w2); rewrite (Hw2' _ w_sockets); done).
  run (sock_at_run w3 r ro Hr3). eexists. split; [reflexivity|]. split.
  - exact Hp2.
  - exact Ho2.
  - exact Hk2.
  - subst w3. rewrite Hw2. done.
Qed.

(** one level of an indirect close *)
Lemma close_rec_locked d s : close_rec (S d) true s
  = local_socket_close_locked (close_rec d false) (close_rec d true) s.
Proof. done. Qed.
Lemma close_rec_call d s : close_rec (S d) false s = (do so <- sock_at s;
  match s_close so with
  | local_socket_close_ => local_socket_close (close_rec d false) (close_rec d true) s
  | local_socket_close_notify_ => local_socket_close_notify (close_rec d false) s
  | remote_socket_close_ => remote_socket_close (close_rec d false) s
  | smart_socket_close_ => smart_socket_close (close_rec d false) s
  | jdwp_socket_close_ => jdwp_socket_close (close_rec d false) s
  | jdwp_tracker_close_ => jdwp_tracker_close (close_rec d false) s
  | device_tracker_close_ => device_tracker_close (close_rec d false) s
  end).
Proof. done. Qed.

(** ** A connected pair *)

Record stream_pair (s r : Z) (so ro : asocket) (tr : atransport) (w : world) : Prop := {
  sp_s : w_sockets w !! s = Some so;
  sp_r : w_sockets w !! r = Some ro;
  sp_ne : s ≠ r ∧ s ≠ 0 ∧ r ≠ 0 ∧ fde_of s ≠ fde_of r;
  sp_peer : s_peer so = r ∧ s_peer ro = s;
  sp_fns : s_close so = local_socket_close_ ∧ s_close ro = remote_socket_close_;
  sp_trans : w_transports w !! s_transport ro = Some tr ∧ s_transport ro ≠ 0;
  sp_dis : is_Some (w_disconnects w !! dis_of r);
  sp_events : fd_inv (w_fd w);
  sp_fde_s : is_Some (fdes (w_fd w) !! fde_of s);
  sp_fde_r : ∃ f, fdes (w_fd w) !! fde_of r = Some f ∧ active f = false ∧ pending f = false;
  sp_queue : queue_ok w (s_pkts so);
  sp_fresh : next_loc (w_fd w) ∉ s_pkts so;
  sp_lock : socket_list_lock w = false;
  sp_oom : k_oom (w_kern_of w) = [];
  sp_pipe : (4 ≤ wcap (wr_of (t_transport_write tr) (w_kern_of w)))%nat;
}.

(** what both ways of closing have in common *)
Record told (s r : Z) (so ro : asocket) (tr : atransport) (w w' : world) : Prop := {
  td_out : out_of (t_transport_write tr) (w_kern_of w')
    = out_of (t_transport_write tr) (w_kern_of w) ++ le32 (next_loc (w_fd w));
  td_packets : w_packets w' = <[next_loc (w_fd w) := control A_CLSE 0 (s_id ro)]> (w_packets w);
  td_dis : w_dislists w' = filter (λ x, x ≠ dis_of r) <$> w_dislists w;
  td_events : fd_inv (w_fd w');
  td_lock : socket_list_lock w' = false;
  td_list : local_socket_list w' = filter (λ x, x ≠ s) (local_socket_list w);
}.

(** the state when the peer is gone, before the local socket goes *)
Definition cut (s r : Z) (so : asocket) (w1 : world) : world := up_sockets <[s := so_peer 0 so]> w1.

Lemma close_peer_run n s r so ro tr w :
  stream_pair s r so ro tr w →
  ∃ w1, local_socket_close_locked (close_rec (S n) false) (close_rec (S n) true) s (up_socket_lock true w)
    = (do so <- sock_at s;
       if s_closing so || bool_decide (s_pkts so = []) then local_socket_destroy s
       else sock_put s (so_closing true);;; FD (fdevent_del (fde_of s) FDE_READ);;; remove_socket s;;;
            modify (λ w, up_closing_list (local_socket_closing_list w ++ [s]) w)) (cut s r so w1)
    ∧ remote_closed r (so_peer 0 ro) tr (up_sockets <[r := so_peer 0 ro]> (up_socket_lock true w)) w1.
Proof.
  intros [Hs Hr (Hsr & Hs0 & Hr0 & Hfde) [Hp1 Hp2] [Hc1 Hc2] [Ht Ht0] Hd Hi Hfs Hfr Hq Hf Hl Hm Hcap].
  unfold local_socket_close_locked. set (w0 := up_socket_lock true w).
  run (sock_at_run w0 s so Hs). rewrite Hp1, (proj2 (Z.eqb_neq r 0)) by done.
  rewrite !bind_assoc.
  run (sock_put_run w0 r (so_peer 0) ro Hr). set (wa := up_sockets _ w0). rewrite bind_assoc.
  assert (Hra : w_sockets wa !! r = Some (so_peer 0 ro)) by apply lookup_insert_eq.
  run (sock_at_run wa r _ Hra). cbn [s_close so_peer]. rewrite decide_False by congruence.
  rewrite bind_assoc, close_rec_call.
  destruct (remote_socket_close_run (close_rec n false) wa r (so_peer 0 ro) tr)
    as (w1 & Hrun & Hrc); try done.
  rewrite (bind_ok _ _ wa tt w1); cycle 1.
  { run (sock_at_run wa r _ Hra). cbn [s_close so_peer]. rewrite Hc2. exact Hrun. }
  exists w1. split; [|done].
  assert (Hs1 : w_sockets w1 !! s = Some so).
  { rewrite (rc_rest _ _ _ _ _ Hrc). cbn. rewrite lookup_delete_ne, lookup_insert_ne by done. done. }
  by run (sock_put_run w1 s (so_peer 0) so Hs1).
Qed.

Lemma inv_upd_next_loc w n : fd_inv w → fd_inv (upd_next_loc n w).
Proof. intros []. by split. Qed.

(** the world between the two halves *)
Lemma cut_facts s r so ro tr w w1 :
  stream_pair s r so ro tr w →
  remote_closed r (so_peer 0 ro) tr (up_sockets <[r := so_peer 0 ro]> (up_socket_lock true w)) w1 →
  let w2 := cut s r so w1 in
  w_sockets w2 = <[s := so_peer 0 so]> (delete r (w_sockets w))
  ∧ w_packets w2 = <[next_loc (w_fd w) := control A_CLSE 0 (s_id ro)]> (w_packets w)
  ∧ fd_inv (w_fd w2) ∧ is_Some (fdes (w_fd w2) !! fde_of s) ∧ queue_ok w2 (s_pkts so)
  ∧ local_socket_list w2 = local_socket_list w
  ∧ local_socket_closing_list w2 = local_socket_closing_list w
  ∧ w_dislists w2 = filter (λ x, x ≠ dis_of r) <$> w_dislists w
  ∧ out_of (t_transport_write tr) (w_kern_of w2)
    = out_of (t_transport_write tr) (w_kern_of w) ++ le32 (next_loc (w_fd w)).
Proof.
  intros Hsp [Hp1 Ho1 _ Hrest] w2. destruct (sp_fde_r _ _ _ _ _ _ Hsp) as (f & Hf & Ha & Hpd).
  destruct (sp_ne _ _ _ _ _ _ Hsp) as (Hsr & _ & _ & Hfde).
  assert (Hrest' : ∀ B (g : world → B), g w1 = g (up_packets (λ _, w_packets w1)
    (up_disconnects (delete (dis_of r)) (fmap (filter (λ x, x ≠ dis_of r)))
      (up_sockets (delete r)
        (up_fd (upd_fdes (delete (fde_of r))
          (upd_next_loc (next_loc (w_fd w) + 16) (upd_kern (w_kern_of w1) (w_fd w))))
          (up_sockets <[r := so_peer 0 ro]> (up_socket_lock true w))))))) by (intros B g; exact (f_equal g Hrest)).
  assert (Hpk : w_packets w2 = <[next_loc (w_fd w) := control A_CLSE 0 (s_id ro)]> (w_packets w)) by exact Hp1.
  split_and!.
  - cbn. f_equal. rewrite (Hrest' _ w_sockets). cbn. apply delete_insert_eq.
  - exact Hpk.
  - change (w_fd w2) with (w_fd w1). rewrite (Hrest' _ w_fd). cbn.
    apply (fd_inv_delete _ _ f); [|done..]. apply inv_upd_next_loc, inv_upd_kern, (sp_events _ _ _ _ _ _ Hsp).
  - change (w_fd w2) with (w_fd w1). rewrite (Hrest' _ w_fd). cbn.
    rewrite lookup_delete_ne by done. apply (sp_fde_s _ _ _ _ _ _ Hsp).
  - apply (queue_ok_ext w); [|apply (sp_queue _ _ _ _ _ _ Hsp)]. intros p Hp. rewrite Hpk.
    apply lookup_insert_ne. intros <-. by apply (sp_fresh _ _ _ _ _ _ Hsp).
  - exact (Hrest' _ local_socket_list).
  - exact (Hrest' _ local_socket_closing_list).
  - exact (Hrest' _ w_dislists).
  - exact Ho1.
Qed.

Lemma call_close_run s r so ro tr w : stream_pair s r so ro tr w →
  ∀ w', local_socket_close_locked (close_rec 7 false) (close_rec 7 true) s (up_socket_lock true w) = Ok tt w' →
  call_close s w = Ok tt (up_socket_lock false w').
Proof.
  intros Hsp w' Hrun. unfold call_close, CLOSE_DEPTH. rewrite close_rec_call.
  run (sock_at_run w s so (sp_s _ _ _ _ _ _ Hsp)). rewrite (proj1 (sp_fns _ _ _ _ _ _ Hsp)).
  unfold local_socket_close. run (lock_sockets_run w (sp_lock _ _ _ _ _ _ Hsp)). by run Hrun.
Qed.

Lemma close_idle_run s r so ro tr w :
  stream_pair s r so ro tr w → s_pkts so = [] → s_exit_on_close so = false →
  ∃ w', call_close s w = Ok tt w' ∧ told s r so ro tr w w'
    ∧ w_sockets w' = delete s (delete r (w_sockets w))
    ∧ fdes (w_fd w') !! fde_of s = None
    ∧ s ∉ local_socket_list w' ∧ s ∉ local_socket_closing_list w'.
Proof.
  intros Hsp Hnil Hex. destruct (close_peer_run 6 s r so ro tr w Hsp) as (w1 & Hrun & Hrc).
  destruct (cut_facts s r so ro tr w w1 Hsp Hrc) as (Hs2 & Hp2 & Hi2 & Hf2 & Hq2 & Hl2 & Hc2 & Hd2 & Ho2).
  set (w2 := cut s r so w1) in *.
  assert (Hss : w_sockets w2 !! s = Some (so_peer 0 so)) by (rewrite Hs2; apply lookup_insert_eq).
  destruct (local_socket_destroy_run w2 s (so_peer 0 so) Hss Hex Hq2 Hi2 Hf2)
    as (w3 & Hdes & [De1 De2 De3 De4 De5 De6 De7]).
  assert (Hrun' : local_socket_close_locked (close_rec 7 false) (close_rec 7 true) s (up_socket_lock true w)
    = Ok tt w3).
  { rewrite Hrun. run (sock_at_run w2 s _ Hss). cbn [s_pkts so_peer]. rewrite Hnil, bool_decide_eq_true_2 by done.
    rewrite orb_true_r. exact Hdes. }
  exists (up_socket_lock false w3). split; [by apply (call_close_run s r so ro tr)|].
  assert (De7' : ∀ B (g : world → B), g w3 = g (up_fd (w_fd w3) (up_packets (λ _, w_packets w3) (up_sockets (delete s)
    (up_local_list (filter (λ x, x ≠ s) (local_socket_list w2))
      (up_closing_list (filter (λ x, x ≠ s) (local_socket_closing_list w2)) w2))))))
    by (intros; by rewrite <- De7).
  split_and!.
  - split; [| | | |done|].
    + change (out_of (t_transport_write tr) (w_kern_of w3)
        = out_of (t_transport_write tr) (w_kern_of w) ++ le32 (next_loc (w_fd w))).
      rewrite <- Ho2. unfold out_of. by rewrite De4.
    + rewrite <- Hp2. apply map_eq. intros p. cbn [w_packets up_socket_lock]. rewrite De6.
      cbn [s_pkts so_peer]. by rewrite Hnil, decide_False by apply not_elem_of_nil.
    + cbn. rewrite (De7' _ w_dislists). exact Hd2.
    + exact De1.
    + cbn. rewrite (De7' _ local_socket_list). cbn. by rewrite <- Hl2.
  - change (w_sockets w3 = delete s (delete r (w_sockets w))). rewrite (De7' _ w_sockets).
    change (delete s (w_sockets w2) = delete s (delete r (w_sockets w))). rewrite Hs2. apply delete_insert_eq.
  - cbn. rewrite De2. apply lookup_delete_eq.
  - cbn. rewrite (De7' _ local_socket_list). cbn. rewrite list_elem_of_filter. tauto.
  - cbn. rewrite (De7' _ local_socket_closing_list). cbn. rewrite list_elem_of_filter. tauto.
Qed.

(** C11 Closing an idle stream.  For a local socket with nothing queued and its
    remote half: both objects are freed and are in no list any more, the
    event loop forgets the descriptor, the transport no longer has a
    callback for the stream, exactly one packet goes to the transport and it
    is CLSE with the identifier the other end knows the stream by, and the
    socket lock is free again. *)
Theorem close_stream_frees_both s r so ro tr w :
  stream_pair s r so ro tr w → s_pkts so = [] → s_exit_on_close so = false →
  ∃ w', call_close s w = Ok tt w' ∧ told s r so ro tr w w'
    ∧ w_sockets w' = delete s (delete r (w_sockets w))
    ∧ fdes (w_fd w') !! fde_of s = None
    ∧ s ∉ local_socket_list w' ∧ s ∉ local_socket_closing_list w'.
Proof. apply close_idle_run. Qed.

(** C12 Closing a stream with data still to be written to the descriptor keeps
    the data: the remote half is freed and told as before, but the local
    socket survives with its queue unchanged, is marked as closing, no longer
    reads, has no peer, and moved from the table (no packet can find it any
    more) to the list of closing sockets. *)
Theorem close_stream_keeps_data s r so ro tr w :
  stream_pair s r so ro tr w → s_pkts so ≠ [] → s_closing so = false →
  s ∈ local_socket_list w → s ∉ local_socket_closing_list w →
  ∃ w' so', call_close s w = Ok tt w' ∧ told s r so ro tr w w'
    ∧ w_sockets w' = <[s := so']> (delete r (w_sockets w))
    ∧ s_pkts so' = s_pkts so ∧ s_closing so' = true ∧ s_peer so' = 0 ∧ s_write_fd so' = s_write_fd so
    ∧ queue_bytes w' (s_pkts so') = queue_bytes w (s_pkts so) ∧ queue_ok w' (s_pkts so')
    ∧ s ∉ local_socket_list w'
    ∧ local_socket_closing_list w' = local_socket_closing_list w ++ [s].
Proof.
  intros Hsp Hnil Hcl Hin Hnin. destruct (close_peer_run 6 s r so ro tr w Hsp) as (w1 & Hrun & Hrc).
  destruct (cut_facts s r so ro tr w w1 Hsp Hrc) as (Hs2 & Hp2 & Hi2 & Hf2 & Hq2 & Hl2 & Hc2 & Hd2 & Ho2).
  set (w2 := cut s r so w1) in *.
  assert (Hss : w_sockets w2 !! s = Some (so_peer 0 so)) by (rewrite Hs2; apply lookup_insert_eq).
  set (so2 := so_closing true (so_peer 0 so)).
  set (w3 := up_sockets <[s := so2]> w2).
  destruct (fdevent_del_run (w_fd w3) (fde_of s) FDE_READ Hi2 Hf2) as (f4 & Hdel & Hi4 & Hk4 & _).
  set (w4 := up_fd f4 w3).
  assert (Hs4 : w_sockets w4 !! s = Some so2) by apply lookup_insert_eq.
  set (w5 := up_local_list (filter (λ x, x ≠ s) (local_socket_list w4)) w4).
  set (w6 := up_closing_list (filter (λ x, x ≠ s) (local_socket_closing_list w5)) w5).
  set (w7 := up_sockets <[s := so_id 0 so2]> w6).
  assert (Hrs : remove_socket s w4 = Ok tt w7).
  { unfold remove_socket. run (sock_at_run w4 s so2 Hs4). run (eq_refl : get w4 = Ok w4 w4).
    rewrite bool_decide_eq_true_2 by (left; change (s ∈ local_socket_list w2); by rewrite Hl2).
    unfold modify at 1. rewrite (bind_ok _ _ w4 tt w5) by done.
    unfold modify at 1. rewrite (bind_ok _ _ w5 tt w6) by done.
    by rewrite (sock_put_run w6 s (so_id 0) so2 Hs4). }
  set (w8 := up_closing_list (local_socket_closing_list w7 ++ [s]) w7).
  assert (Hrun' : local_socket_close_locked (close_rec 7 false) (close_rec 7 true) s (up_socket_lock true w)
    = Ok tt w8).
  { rewrite Hrun. run (sock_at_run w2 s _ Hss). cbn [s_pkts so_peer s_closing].
    rewrite Hcl, bool_decide_eq_false_2 by done. cbn [orb].
    run (sock_put_run w2 s (so_closing true) _ Hss). run (FD_run w3 _ _ _ Hdel). run Hrs. done. }
  exists (up_socket_lock false w8), (so_id 0 so2).
  assert (Hpk : ∀ p, p ∈ s_pkts so → w_packets (up_socket_lock false w8) !! p = w_packets w !! p).
  { intros p Hp. change (w_packets (up_socket_lock false w8)) with (w_packets w2). rewrite Hp2.
    apply lookup_insert_ne. intros <-. by apply (sp_fresh _ _ _ _ _ _ Hsp). }
  split_and!; try done.
  - by apply (call_close_run s r so ro tr).
  - split; [| |exact Hd2|exact Hi4|done|].
    + change (w_kern_of (up_socket_lock false w8)) with (w_kern f4). rewrite Hk4. exact Ho2.
    + exact Hp2.
    + change (local_socket_list (up_socket_lock false w8))
        with (filter (λ x, x ≠ s) (local_socket_list w2)). by rewrite Hl2.
  - change (w_sockets (up_socket_lock false w8)) with (<[s := so_id 0 so2]> (<[s := so2]> (w_sockets w2))).
    by rewrite Hs2, !insert_insert_eq.
  - by apply queue_bytes_ext.
  - change (s ∉ filter (λ x, x ≠ s) (local_socket_list w2)). rewrite list_elem_of_filter. tauto.
  - change (filter (λ x, x ≠ s) (local_socket_closing_list w2) ++ [s]
      = local_socket_closing_list w ++ [s]). by rewrite Hc2, filter_ne_id.
Qed.

(** ** Examples *)

(** a new object that is all zeros *)
Lemma fd_inv_fresh w p f : fd_inv w → fdes w !! p = None → state f = 0 → events f = 0 →
  fd_inv (upd_fdes <[p := f]> w).
Proof.
  intros Hi Hf Hst Hev.
  assert (Ha : active f = false ∧ pending f = false) by (unfold active, pending; rewrite Hst; done).
  assert (Hw : ∀ d b, watched (upd_fdes <[p := f]> w) d b ↔ watched w d b).
  { intros d b. unfold watched; cbn. split; intros (q & g & Hg & H); exists q, g.
    - apply lookup_insert_Some in Hg as [[-> <-]|[_ Hg]]; [|done]. destruct H as [H _]. destruct Ha. congruence.
    - split; [|done]. rewrite lookup_insert_ne; [done|congruence]. }
  split; cbn.
  - apply Hi.
  - intros i q Hq Hq0. destruct (fi_table w Hi i q Hq Hq0) as (g & Hg & Hd & Hact).
    exists g. rewrite lookup_insert_ne; [done|congruence].
  - intros q g [[-> <-]|[_ Hg]]%lookup_insert_Some; [by rewrite (proj1 Ha)|]. apply (fi_active w Hi q g Hg).
  - apply Hi.
  - intros d. rewrite Hw. apply Hi.
  - intros d. rewrite Hw. apply Hi.
  - intros d. rewrite Hw. apply Hi.
  - apply Hi.
  - intros q. rewrite (fi_queue w Hi). split; intros (g & Hg & Hpd); exists g.
    + split; [|done]. rewrite lookup_insert_ne; [done|congruence].
    + apply lookup_insert_Some in Hg as [[-> <-]|[_ Hg]]; [|done]. destruct Ha. congruence.
  - intros q g [[-> <-]|[_ Hg]]%lookup_insert_Some; [by rewrite (proj2 Ha)|]. apply (fi_pending w Hi q g Hg).
  - intros q g [[-> <-]|[_ Hg]]%lookup_insert_Some; [by rewrite (proj2 Ha), Hev|]. apply (fi_events w Hi q g Hg).
Qed.

Module DemoClosing.
(** descriptor 11 is the pipe of transport 16, 5 the service's *)
Definition kernel : kern := mkKern 0 ∅ {[ 11 := [WrOk 40] ]} ∅ [] [] [].
Definition events : fdw :=
  upd_next_loc 112 (upd_fdes <[81 := mkFde 0 false 0 0 local_socket_event_func_ 0]>
    (final (fdevent_install 33 5 local_socket_event_func_ 32 (initial kernel)))).
Definition transport : atransport :=
  mkTrans 10 12 13 11 2 1 CS_DEVICE true kTransportUsb 0 0 None None None None None 0 false
    (replicate 20 0) 0.
Definition local_half (l : list Z) : asocket :=
  mkSock 1 false false 80 5 5 l local_socket_enqueue_ local_socket_ready_ local_socket_close_ 0 0.
Definition remote_half : asocket :=
  mkSock 7 false false 32 0 0 [] remote_socket_enqueue_ remote_socket_ready_ remote_socket_close_ 16 0.
(** sockets 32 and 80 are connected, packet 48 may be queued *)
Definition world (l : list Z) : world :=
  up_fd events (up_local_list [32] (up_next_id 2 (up_disconnects <[82 := mkDis remote_socket_disconnect_ 80]> <[16 := [82]]>
    (up_packets <[48 := DemoFlow.packet]> (up_transports <[16 := transport]>
      (up_sockets (λ _, {[ 32 := local_half l; 80 := remote_half ]}) (start_world kernel))))))).
End DemoClosing.

Lemma demo_pair l : l = [] ∨ l = [48] →
  stream_pair 32 80 (DemoClosing.local_half l) DemoClosing.remote_half DemoClosing.transport
    (DemoClosing.world l).
Proof.
  intros Hl. split; try (vm_compute; reflexivity).
  - split_and!; vm_compute; congruence.
  - done.
  - done.
  - split; [vm_compute; reflexivity|done].
  - vm_compute. eauto.
  - cbn. apply inv_upd_next_loc, fd_inv_fresh; [|vm_compute; reflexivity..].
    apply (run_op_Ok_inv (initial DemoClosing.kernel) (OpInstall 33 5 local_socket_event_func_ 32)).
    + apply initial_inv.
    + split_and!; try done. intros (_ & p & Hp & _). done.
    + vm_compute. reflexivity.
  - vm_compute. eauto.
  - eexists. split; [vm_compute; reflexivity|done].
  - destruct Hl as [->| ->]; (split; [apply NoDup_nil_2 || apply NoDup_singleton|]); intros p Hp;
      [by apply not_elem_of_nil in Hp|]. apply list_elem_of_singleton in Hp as ->.
    exists DemoFlow.packet, (str "hello"). split; [vm_compute; reflexivity|]. split; [done|vm_compute; reflexivity].
  - destruct Hl as [->| ->]; vm_compute; set_solver.
  - vm_compute. lia.
Qed.

Lemma close_stream_frees_both_witness : ∃ w', call_close 32 (DemoClosing.world []) = Ok tt w'
  ∧ w_sockets w' = ∅ ∧ w_packets w' !! 112 = Some (control A_CLSE 0 7).
Proof.
  destruct (close_stream_frees_both 32 80 (DemoClosing.local_half []) DemoClosing.remote_half
    DemoClosing.transport (DemoClosing.world [])) as (w' & Hrun & Htold & Hs & _).
  - apply demo_pair. left. reflexivity.
  - reflexivity.
  - reflexivity.
  - exists w'. split; [exact Hrun|]. split; [rewrite Hs; vm_compute; reflexivity|].
    rewrite (td_packets _ _ _ _ _ _ _ Htold). apply lookup_insert_eq.
Defined.

Lemma close_stream_keeps_data_witness : ∃ w' so', call_close 32 (DemoClosing.world [48]) = Ok tt w'
  ∧ w_sockets w' !! 32 = Some so' ∧ queue_bytes w' (s_pkts so') = str "hello".
Proof.
  destruct (close_stream_keeps_data 32 80 (DemoClosing.local_half [48]) DemoClosing.remote_half
    DemoClosing.transport (DemoClosing.world [48])) as (w' & so' & Hrun & _ & Hs & _ & _ & _ & _ & Hb & _).
  - apply demo_pair. right. reflexivity.
  - discriminate.
  - reflexivity.
  - left.
  - apply not_elem_of_nil.
  - exists w', so'. split; [exact Hrun|]. split; [rewrite Hs; apply lookup_insert_eq|].
    rewrite Hb. vm_compute. reflexivity.
Defined.
