(* ===== verification/Teardown.v ===== *)
(** * Tearing down

    The bounds of Sockets.v are enough: closing nests at most four deep in
    every state of the heap, and close_all_sockets restarts at most once per
    local socket.  When it returns, no local socket of the transport is left
    in the table. *)

From S2P Require Import Prelude Kernel Packet DList Fdevent World Transport Sockets Flow SocketTable Closing.

(** ** Bounds

    [bounded m]: [m] never exhausts a bound of the model. *)

Definition in_bounds {S A} (r : res S A) : Prop :=
  match r with Fault OutOfFuel _ => False | _ => True end.
Definition bounded {S A} (m : M S A) : Prop := ∀ s, in_bounds (m s).

Section bounded.
Context {S : Type}.

Lemma bind_bounds {A B} (m : M S A) (f : A → M S B) s :
  in_bounds (m s) → (∀ a s', m s = Ok a s' → in_bounds (f a s')) → in_bounds (bind m f s).
Proof. unfold bind. destruct (m s) as [a s'| |e s']; auto. Qed.
Lemma bounded_bind {A B} (m : M S A) (f : A → M S B) :
  bounded m → (∀ a, bounded (f a)) → bounded (bind m f).
Proof. intros Hm Hf s. apply bind_bounds; [apply Hm|]. intros; apply Hf. Qed.
Lemma bounded_ret {A} (a : A) : bounded (S := S) (ret a).
Proof. done. Qed.
Lemma bounded_get : bounded (S := S) get.
Proof. done. Qed.
Lemma bounded_gets {A} (f : S → A) : bounded (gets f).
Proof. done. Qed.
Lemma bounded_modify (f : S → S) : bounded (modify f).
Proof. done. Qed.
Lemma bounded_exit {A} c : bounded (exit c : M S A).
Proof. done. Qed.
Lemma bounded_fail {A} f : f ≠ OutOfFuel → bounded (fail f : M S A).
Proof. intros Hf s. by destruct f. Qed.
Lemma bounded_deref {A} f (o : S → option A) : f ≠ OutOfFuel → bounded (deref f o).
Proof. intros Hf s. unfold deref. destruct (o s); [done|]. by destruct f. Qed.
Lemma bounded_when b (m : M S unit) : bounded m → bounded (when b m).
Proof. by destruct b. Qed.
End bounded.

Lemma bounded_zoom {S T A} (prj : T → S) (upd : S → T → T) (m : M S A) :
  bounded m → bounded (zoom prj upd m).
Proof. intros Hm t. specialize (Hm (prj t)). unfold zoom. by destruct (m (prj t)). Qed.
Lemma bounded_FD {A} (m : M fdw A) : bounded m → bounded (FD m).
Proof. apply bounded_zoom. Qed.
Lemma bounded_KW {A} (m : M kern A) : bounded m → bounded (KW m).
Proof. intros Hm. by do 2 apply bounded_zoom. Qed.
Lemma bad_ptr_bounds p : bad_ptr p ≠ OutOfFuel.
Proof. unfold bad_ptr. by case_match. Qed.

Create HintDb bounds.
#[export] Hint Resolve bounded_ret bounded_get bounded_gets bounded_modify bounded_exit bad_ptr_bounds : bounds.

Ltac bounds_step :=
  lazymatch goal with
  | |- bounded (bind _ _) => apply bounded_bind; [|intros ?]
  | |- bounded (fail _) => apply bounded_fail; (discriminate || auto with bounds)
  | |- bounded (deref _ _) => apply bounded_deref; (discriminate || auto with bounds)
  | |- bounded (when _ _) => apply bounded_when
  | |- bounded (FD _) => apply bounded_FD
  | |- bounded (KW _) => apply bounded_KW
  | |- bounded (K _) => apply bounded_zoom
  | |- bounded (match ?x with _ => _ end) => destruct x
  | |- bounded (let _ := _ in _) => cbv zeta
  end.
Ltac bounds := repeat first [solve [eauto with bounds] | progress cbn beta iota | bounds_step].

Lemma bounded_writex d bs : bounded (writex d bs).
Proof. intros k. by destruct (writex_spec d bs k) as (k' & _ & -> & _). Qed.
Lemma bounded_readx d n : bounded (readx d n).
Proof.
  intros k. destruct (readx_spec d n k) as (k' & _ & H). cbv zeta in H.
  case_decide; [destruct H as [-> _]|rewrite H]; done.
Qed.
Lemma bounded_malloc : bounded malloc_ok.
Proof. intros k. unfold malloc_ok. by destruct (k_oom k). Qed.
Lemma bounded_note n a : bounded (note n a).
Proof. done. Qed.
Lemma bounded_close d : bounded (adb_close d).
Proof. done. Qed.
#[export] Hint Resolve bounded_writex bounded_readx bounded_malloc bounded_note bounded_close : bounds.
Lemma bounded_sendfailmsg d r : bounded (sendfailmsg d r).
Proof. unfold sendfailmsg. bounds. Qed.
#[export] Hint Resolve bounded_sendfailmsg : bounds.

Lemma bounded_fdevent_remove p : bounded (fdevent_remove p).
Proof.
  assert (Hpl : bounded (fdevent_plist_remove p))
    by (intros w; unfold fdevent_plist_remove; by case_bool_decide).
  assert (Hlr : ∀ n i m, bounded (last_registered n i m)).
  { induction n as [|n IH]; intros i m; cbn [last_registered]; unfold fd_table_at; bounds. }
  unfold fdevent_remove, fdevent_disconnect, fdevent_unregister, fde_put, fde_at, fd_set_check,
    fd_table_at, FATAL.
  bounds; case_match; discriminate.
Qed.
Lemma bounded_fdevent_del p ev : bounded (fdevent_del p ev).
Proof.
  assert (Hpl : bounded (fdevent_plist_remove p))
    by (intros w; unfold fdevent_plist_remove; by case_bool_decide).
  unfold fdevent_del, fdevent_set, set_events_asked, fdevent_update, fde_put, fde_at, fd_set_check.
  bounds; case_match; discriminate.
Qed.
#[export] Hint Resolve bounded_fdevent_remove bounded_fdevent_del : bounds.

Lemma bounded_sock_at s : bounded (sock_at s).
Proof. unfold sock_at. bounds. Qed.
Lemma bounded_sock_put s f : bounded (sock_put s f).
Proof. unfold sock_put, sock_at. bounds. Qed.
Lemma bounded_put_apacket p : bounded (put_apacket p).
Proof. unfold put_apacket, pkt_at. bounds. Qed.
#[export] Hint Resolve bounded_sock_at bounded_sock_put bounded_put_apacket : bounds.
Lemma bounded_put_apackets l : bounded (put_apackets l).
Proof. induction l; cbn; bounds. Qed.
Lemma bounded_remove_socket s : bounded (remove_socket s).
Proof. unfold remove_socket. bounds. Qed.
Lemma bounded_free_socket s : bounded (free_socket s).
Proof. unfold free_socket. bounds. Qed.
#[export] Hint Resolve bounded_put_apackets bounded_remove_socket bounded_free_socket : bounds.
Lemma bounded_destroy s : bounded (local_socket_destroy s).
Proof. unfold local_socket_destroy. bounds. Qed.
Lemma bounded_get_apacket : bounded get_apacket.
Proof. unfold get_apacket, fatal, alloc, FATAL. bounds. Qed.
Lemma bounded_send_packet p t : bounded (send_packet p t).
Proof. unfold send_packet, pkt_at, pkt_put, pkt_at, trans_at, fatal, FATAL, write_packet. bounds. Qed.
Lemma bounded_lock : bounded lock_sockets.
Proof. unfold lock_sockets. bounds. Qed.
Lemma bounded_unlock : bounded unlock_sockets.
Proof. unfold unlock_sockets. bounds. Qed.
#[export] Hint Resolve bounded_destroy bounded_get_apacket bounded_send_packet bounded_lock
  bounded_unlock : bounds.

Lemma bounded_touch o : bounded (touch o).
Proof. unfold touch. bounds. Qed.
Lemma bounded_unlink_node l t : bounded (unlink_node l t).
Proof. induction l; cbn; bounds. Qed.
#[export] Hint Resolve bounded_touch bounded_unlink_node : bounds.
Lemma bounded_device_tracker_remove t : bounded (device_tracker_remove t).
Proof. unfold device_tracker_remove, lock_transports, unlock_transports. bounds. Qed.
#[export] Hint Resolve bounded_device_tracker_remove : bounds.
Lemma bounded_tracker_end s : bounded (remove_socket s;;;
  do l <- gets (λ w, jdwp_trackers_list (w_jdwp w)); touch (prev_of s l);;; touch (next_of s l);;;
  modify (up_trackers (filter (λ x, x ≠ s) l));;; free_socket s).
Proof. bounds. Qed.

(** ** The depth of close *)

(** once a socket has no peer, closing it calls no other socket's close *)
Definition peerless (s : Z) (w : world) : Prop :=
  ∀ so, w_sockets w !! s = Some so → s_peer so = 0.

Lemma sock_put_peer s w w' : sock_put s (so_peer 0) w = Ok tt w' → peerless s w'.
Proof.
  unfold sock_put, bind, sock_at, deref. destruct (w_sockets w !! s) as [so|] eqn:E; [|done].
  intros [= <-] so'. cbn. rewrite lookup_alter_eq, E. by intros [= <-].
Qed.

Lemma close_locked_peerless c1 c2 s w : peerless s w → in_bounds (local_socket_close_locked c1 c2 s w).
Proof.
  intros Hp. unfold local_socket_close_locked. apply bind_bounds; [apply bounded_sock_at|].
  intros so w1 Hso. unfold sock_at, deref in Hso. destruct (w_sockets w !! s) as [so'|] eqn:E; [|done].
  injection Hso as <- <-. rewrite (Hp so' E). cbn [Z.eqb].
  cut (bounded (ret tt;;; do so0 <- sock_at s;
    if s_closing so0 || bool_decide (s_pkts so0 = []) then local_socket_destroy s
    else sock_put s (so_closing true);;; FD (fdevent_del (fde_of s) FDE_READ);;; remove_socket s;;;
         modify (λ w0, up_closing_list (local_socket_closing_list w0 ++ [s]) w0))); [eauto|].
  bounds.
Qed.

Lemma bounded_remove_disconnect t d : bounded (remove_transport_disconnect t d).
Proof. unfold remove_transport_disconnect, lock_transports, unlock_transports. bounds. Qed.
Lemma bounded_free_remote s : bounded (free_remote s).
Proof. unfold free_remote. bounds. Qed.
Lemma bounded_pkt_put p f : bounded (pkt_put p f).
Proof. unfold pkt_put, pkt_at. bounds. Qed.
#[export] Hint Resolve bounded_remove_disconnect bounded_free_remote bounded_pkt_put : bounds.

Lemma sock_at_ok s w so w' : sock_at s w = Ok so w' → w' = w ∧ w_sockets w !! s = Some so.
Proof. unfold sock_at, deref. destruct (w_sockets w !! s); [|done]. by intros [= <- <-]. Qed.
Lemma lock_ok w w' : lock_sockets w = Ok tt w' → w' = up_socket_lock true w.
Proof. unfold lock_sockets, bind, gets. destruct (socket_list_lock w); [done|]. by intros [= <-]. Qed.

Lemma local_close_peerless c1 c2 s w : peerless s w → in_bounds (local_socket_close c1 c2 s w).
Proof.
  intros Hp. unfold local_socket_close. apply bind_bounds; [apply bounded_lock|].
  intros [] w1 ->%lock_ok. apply bind_bounds; [|intros; apply bounded_unlock].
  by apply close_locked_peerless.
Qed.

Lemma KW_sockets {A} (m : M kern A) w a w' : KW m w = Ok a w' → w_sockets w' = w_sockets w.
Proof.
  unfold KW, FD, K, zoom. destruct (m _); [|done..]. by intros [= _ <-].
Qed.

(** two levels: the function of the socket, after a notification its own close *)
Lemma close_peerless n b s w : peerless s w → in_bounds (close_rec (S (S n)) b s w).
Proof.
  intros Hp. destruct b; [rewrite close_rec_locked; by apply close_locked_peerless|].
  rewrite close_rec_call.
  apply bind_bounds; [apply bounded_sock_at|]. intros so ? [-> E]%sock_at_ok.
  destruct (s_close so).
  - by apply local_close_peerless.
  - unfold local_socket_close_notify. rewrite (bind_ok _ _ _ _ _ (sock_put_run _ _ _ _ E)).
    set (w1 := up_sockets _ w).
    assert (E1 : w_sockets w1 !! s = Some (so_funs local_socket_ready_ local_socket_close_ so))
      by apply lookup_insert_eq.
    run (sock_at_run _ _ _ E1). apply bind_bounds; [apply bounded_KW, bounded_sendfailmsg|].
    intros ? w2 Hw2%KW_sockets.
    assert (E2 := E1). rewrite <- Hw2 in E2. rewrite close_rec_call. run (sock_at_run _ _ _ E2). apply local_close_peerless.
    intros so2 Hs2. simplify_eq. exact (Hp so E).
  - unfold remote_socket_close. run (sock_at_run _ _ _ E). rewrite (Hp so E). cbn [Z.eqb].
    cut (bounded (do p <- get_apacket; do a0 <- ret 0; pkt_put p (msg_set A_CLSE a0 (s_id so) 0);;;
      send_packet p (s_transport so);;; remove_transport_disconnect (s_transport so) (dis_of s);;;
      free_remote s)); [eauto|]. bounds.
  - unfold smart_socket_close. run (sock_at_run _ _ _ E). rewrite (Hp so E). cbn [Z.eqb].
    cut (bounded (match s_pkts so with [] => ret tt | p :: _ => put_apacket p end;;; ret tt;;;
      free_socket s)); [eauto|]. bounds.
  - unfold jdwp_socket_close. run (sock_at_run _ _ _ E). rewrite (Hp so E). cbn [Z.eqb].
    cut (bounded (remove_socket s;;; ret tt;;; free_socket s)); [eauto|]. bounds.
  - unfold jdwp_tracker_close. run (sock_at_run _ _ _ E). rewrite (Hp so E). cbn [Z.eqb].
    run (eq_refl : ret tt w = Ok tt w). apply (bounded_tracker_end s).
  - unfold device_tracker_close. run (sock_at_run _ _ _ E). rewrite (Hp so E). cbn [Z.eqb].
    cut (bounded (ret tt;;; device_tracker_remove s;;; free_socket s)); [eauto|]. bounds.
Qed.

Lemma close_locked_bounded n s : bounded (close_rec (S (S (S n))) true s).
Proof.
  intros w. rewrite close_rec_locked. unfold local_socket_close_locked.
  apply bind_bounds; [apply bounded_sock_at|]. intros so ? [-> E]%sock_at_ok.
  apply bind_bounds; [|intros; cut (bounded (do so <- sock_at s;
    if s_closing so || bool_decide (s_pkts so = []) then local_socket_destroy s
    else sock_put s (so_closing true);;; FD (fdevent_del (fde_of s) FDE_READ);;; remove_socket s;;;
         modify (λ w0, up_closing_list (local_socket_closing_list w0 ++ [s]) w0))); [eauto|bounds]].
  destruct (_ =? _); [done|]. apply bind_bounds; [apply bounded_sock_put|].
  intros [] w1 H1%sock_put_peer. apply bind_bounds; [apply bounded_sock_at|].
  intros po ? [-> E1]%sock_at_ok. apply bind_bounds; [|intros; apply bounded_sock_put].
  case_decide; by apply close_peerless.
Qed.

(** a peer is cut off, then closed *)
Lemma cut_peer_bounds n p : bounded (if p =? 0 then ret tt
  else sock_put p (so_peer 0);;; close_rec (S (S n)) false p).
Proof.
  intros w. destruct (p =? 0); [done|]. apply bind_bounds; [apply bounded_sock_put|].
  intros [] w2 H2%sock_put_peer. by apply close_peerless.
Qed.

Lemma close_own_bounded n s w so : w_sockets w !! s = Some so → s_close so ≠ local_socket_close_notify_ →
  in_bounds (close_rec (S (S (S n))) false s w).
Proof.
  intros E Hn. rewrite close_rec_call. run (sock_at_run _ _ _ E).
  destruct (s_close so); try done.
  - unfold local_socket_close. apply bind_bounds; [apply bounded_lock|].
    intros [] w1 ->%lock_ok. apply bind_bounds; [|intros; apply bounded_unlock].
    apply (close_locked_bounded n s).
  - unfold remote_socket_close. run (sock_at_run _ _ _ E). apply bind_bounds; [apply bounded_get_apacket|].
    intros p w1 _. apply bind_bounds; [|intros a0 w2 _; revert w2; cut (bounded
      (pkt_put p (msg_set A_CLSE a0 (s_id so) 0);;; send_packet p (s_transport so);;;
       remove_transport_disconnect (s_transport so) (dis_of s);;; free_remote s)); [done|bounds]].
    destruct (_ =? _); [done|]. apply bind_bounds; [apply bounded_sock_at|]. intros po w2 _.
    apply bind_bounds; [apply bounded_sock_put|]. intros [] w3 H3%sock_put_peer.
    apply bind_bounds; [by apply close_peerless|done].
  - unfold smart_socket_close. run (sock_at_run _ _ _ E).
    apply bind_bounds; [revert w E; cut (bounded (match s_pkts so with [] => ret tt
      | p :: _ => put_apacket p end)); [eauto|bounds]|]. intros [] w1 _.
    apply bind_bounds; [|intros; apply bounded_free_socket].
    destruct (_ =? _); [done|]. apply bind_bounds; [apply bounded_sock_put|].
    intros [] w2 H2%sock_put_peer. apply bind_bounds; [by apply close_peerless|].
    intros; apply bounded_sock_put.
  - unfold jdwp_socket_close. run (sock_at_run _ _ _ E). apply bind_bounds; [apply bounded_remove_socket|].
    intros [] w1 _. apply bind_bounds; [by apply cut_peer_bounds|]. intros; apply bounded_free_socket.
  - unfold jdwp_tracker_close. run (sock_at_run _ _ _ E).
    apply bind_bounds; [by apply cut_peer_bounds|]. intros; apply (bounded_tracker_end s).
  - unfold device_tracker_close. run (sock_at_run _ _ _ E).
    apply bind_bounds; [by apply cut_peer_bounds|]. intros; cut (bounded (device_tracker_remove s;;;
      free_socket s)); [eauto|bounds].
Qed.

(** four levels are enough in every state *)
Lemma close_bounded n b s : bounded (close_rec (4 + n) b s).
Proof.
  intros w. destruct b; [apply (close_locked_bounded (S n))|].
  destruct (w_sockets w !! s) as [so|] eqn:E.
  2: { cbn [Nat.add]. rewrite close_rec_call. apply bind_bounds; [apply bounded_sock_at|].
       intros so w' [_ E']%sock_at_ok. congruence. }
  destruct (decide (s_close so = local_socket_close_notify_)) as [Hc|Hc];
    [|by apply (close_own_bounded (S n) s w so)].
  cbn [Nat.add]. rewrite close_rec_call. run (sock_at_run _ _ _ E). rewrite Hc.
  unfold local_socket_close_notify. rewrite (bind_ok _ _ _ _ _ (sock_put_run _ _ _ _ E)).
  set (w1 := up_sockets _ w).
  assert (E1 : w_sockets w1 !! s = Some (so_funs local_socket_ready_ local_socket_close_ so))
    by apply lookup_insert_eq.
  run (sock_at_run _ _ _ E1). apply bind_bounds; [apply bounded_KW, bounded_sendfailmsg|].
  intros ? w2 Hw2%KW_sockets. rewrite <- Hw2 in E1. by eapply close_own_bounded.
Qed.

(** ** What closing does to the table *)

Definition shrinks (w w' : world) : Prop := local_socket_list w' `sublist_of` local_socket_list w.
#[export] Instance shrinks_preorder : PreOrder shrinks.
Proof. split; [intros w; unfold shrinks; reflexivity|]. intros w1 w2 w3 H12 H23. unfold shrinks in *. by etrans. Qed.

Create HintDb shrinks.
Lemma shrinks_FD {A} (m : M fdw A) : keeps shrinks (FD m).
Proof. apply (keeps_zoom (λ _ _, True)); [done|]. intros w f _. unfold shrinks. reflexivity. Qed.
Lemma shrinks_KW {A} (m : M kern A) : keeps shrinks (KW m).
Proof. apply shrinks_FD. Qed.
Lemma shrinks_sock_at s : keeps shrinks (sock_at s).
Proof. apply keeps_deref, _. Qed.
#[export] Hint Resolve shrinks_FD shrinks_KW shrinks_sock_at : shrinks.

Ltac shrink := repeat first
  [ solve [eauto with shrinks] | progress cbn beta iota | keeps_step
  | (apply keeps_modify; intros ?; unfold shrinks; reflexivity) ].

Lemma filter_sublist_of {A} (P : A → Prop) `{∀ x, Decision (P x)} (l : list A) :
  filter P l `sublist_of` l.
Proof.
  induction l as [|x l IH]; [done|]. rewrite filter_cons.
  case_decide; [by apply sublist_skip|by apply sublist_cons].
Qed.

Lemma shrinks_sock_put s f : keeps shrinks (sock_put s f).
Proof. unfold sock_put. shrink. Qed.
Lemma shrinks_put_apacket p : keeps shrinks (put_apacket p).
Proof. unfold put_apacket, pkt_at. shrink. Qed.
#[export] Hint Resolve shrinks_sock_put shrinks_put_apacket : shrinks.
Lemma shrinks_put_apackets l : keeps shrinks (put_apackets l).
Proof. induction l; cbn; shrink. Qed.
Lemma shrinks_remove_socket s : keeps shrinks (remove_socket s).
Proof.
  unfold remove_socket. shrink. apply keeps_modify. intros w. apply filter_sublist_of.
Qed.
Lemma shrinks_free_socket s : keeps shrinks (free_socket s).
Proof. unfold free_socket. shrink. Qed.
#[export] Hint Resolve shrinks_put_apackets shrinks_remove_socket shrinks_free_socket : shrinks.
Lemma shrinks_destroy s : keeps shrinks (local_socket_destroy s).
Proof. unfold local_socket_destroy. shrink. Qed.
Lemma shrinks_send_packet p t : keeps shrinks (send_packet p t).
Proof. unfold send_packet, pkt_at, pkt_put, pkt_at, trans_at, fatal, FATAL. shrink. Qed.
Lemma shrinks_get_apacket : keeps shrinks get_apacket.
Proof. unfold get_apacket, fatal, alloc, FATAL. shrink. Qed.
Lemma shrinks_remove_disconnect t d : keeps shrinks (remove_transport_disconnect t d).
Proof. unfold remove_transport_disconnect, lock_transports, unlock_transports. shrink. Qed.
#[export] Hint Resolve shrinks_destroy shrinks_send_packet shrinks_get_apacket
  shrinks_remove_disconnect : shrinks.

Lemma shrinks_touch o : keeps shrinks (touch o).
Proof. unfold touch. shrink. Qed.
Lemma shrinks_unlink_node l t : keeps shrinks (unlink_node l t).
Proof. induction l; cbn; shrink. Qed.
#[export] Hint Resolve shrinks_touch shrinks_unlink_node : shrinks.

Lemma shrinks_close n b s : keeps shrinks (close_rec n b s).
Proof.
  revert b s. induction n as [|n IH]; intros b s; [apply keeps_fail, _|].
  assert (Hl : ∀ s, keeps shrinks (local_socket_close_locked (close_rec n false) (close_rec n true) s)).
  { intros s'. unfold local_socket_close_locked. shrink. }
  destruct b; [apply Hl|]. rewrite close_rec_call.
  unfold local_socket_close, local_socket_close_notify, remote_socket_close, smart_socket_close,
    jdwp_socket_close, jdwp_tracker_close, device_tracker_close, device_tracker_remove,
    lock_sockets, unlock_sockets, lock_transports, unlock_transports, free_remote, pkt_put, pkt_at.
  shrink.
Qed.

(** a socket that was closed is in the table no longer *)
Lemma bind_Ok_inv {S A B} (m : M S A) (f : A → M S B) s b s' :
  bind m f s = Ok b s' → ∃ a s1, m s = Ok a s1 ∧ f a s1 = Ok b s'.
Proof. unfold bind. destruct (m s) as [a s1| |]; [|done..]. eauto. Qed.
Lemma keeps_Ok {S A} (R : S → S → Prop) (m : M S A) s a s' : keeps R m → m s = Ok a s' → R s s'.
Proof. intros Hk E. specialize (Hk s). by rewrite E in Hk. Qed.

Lemma shrinks_not_in s w w' : s ∉ local_socket_list w → shrinks w w' → s ∉ local_socket_list w'.
Proof. intros Hn Hs Hin. apply Hn. eapply elem_of_submseteq; [done|]. by apply sublist_submseteq. Qed.

Lemma remove_socket_gone s w w' : remove_socket s w = Ok tt w' → s ∉ local_socket_list w'.
Proof.
  unfold remove_socket. intros (so & w1 & [-> E]%sock_at_ok & H)%bind_Ok_inv.
  rewrite (bind_ok get _ w w w) in H by done. case_bool_decide as Hin; [|injection H as <-; tauto].
  unfold modify at 1 2 in H. unfold bind at 1 2 in H.
  eapply shrinks_not_in, keeps_Ok; [|apply shrinks_sock_put|exact H]. cbn.
  rewrite list_elem_of_filter. tauto.
Qed.

Lemma destroy_gone s w w' : local_socket_destroy s w = Ok tt w' → s ∉ local_socket_list w'.
Proof.
  unfold local_socket_destroy. intros (so & w1 & [-> E]%sock_at_ok & H)%bind_Ok_inv.
  apply bind_Ok_inv in H as (? & w2 & _ & H). apply bind_Ok_inv in H as (? & w3 & _ & H).
  apply bind_Ok_inv in H as (? & w4 & _ & H). apply bind_Ok_inv in H as ([] & w5 & Hr & H).
  apply remove_socket_gone in Hr. eapply shrinks_not_in, keeps_Ok; [done| |exact H]. shrink.
Qed.

Lemma close_locked_gone n s w w' : close_rec n true s w = Ok tt w' → s ∉ local_socket_list w'.
Proof.
  destruct n as [|n]; [done|]. rewrite close_rec_locked. unfold local_socket_close_locked.
  intros (so & w1 & _ & H)%bind_Ok_inv. apply bind_Ok_inv in H as (? & w2 & _ & H).
  apply bind_Ok_inv in H as (so2 & w3 & _ & H).
  destruct (s_closing so2 || _); [by apply destroy_gone in H|].
  apply bind_Ok_inv in H as (? & w4 & _ & H). apply bind_Ok_inv in H as (? & w5 & _ & H).
  apply bind_Ok_inv in H as ([] & w6 & Hr%remove_socket_gone & H).
  eapply shrinks_not_in, keeps_Ok; [done| |exact H]. shrink.
Qed.

(** ** close_all_sockets *)

(** the socket or its peer belongs to the transport *)
Definition of_transport (w : world) (t s : Z) : Prop :=
  ∃ so, w_sockets w !! s = Some so ∧ (s_transport so = t ∨
    s_peer so ≠ 0 ∧ ∃ po, w_sockets w !! s_peer so = Some po ∧ s_transport po = t).

Lemma find_of_transport_spec l t w r w' : find_of_transport l t w = Ok r w' →
  w' = w ∧ match r with
           | Some s => s ∈ l ∧ of_transport w t s
           | None => ∀ s, s ∈ l → ¬ of_transport w t s
           end.
Proof.
  induction l as [|s l IH]; cbn [find_of_transport].
  { intros [= <- <-]. split; [done|]. intros s Hs. by apply not_elem_of_nil in Hs. }
  intros (so & w1 & [-> E]%sock_at_ok & H)%bind_Ok_inv.
  apply bind_Ok_inv in H as (m & w1 & Hm & H).
  assert (w1 = w ∧ if m then of_transport w t s else ¬ of_transport w t s) as [-> Hof].
  { unfold of_transport. destruct (Z.eqb_spec (s_transport so) t) as [Ht|Ht].
    { injection Hm as <- <-. eauto 6. }
    destruct (Z.eqb_spec (s_peer so) 0) as [Hp|Hp].
    { injection Hm as <- <-. split; [done|]. intros (so' & ? & [?|[? _]]); simplify_eq. }
    apply bind_Ok_inv in Hm as (po & w2 & [-> Ep]%sock_at_ok & Hm). injection Hm as <- <-.
    split; [done|]. destruct (Z.eqb_spec (s_transport po) t); [eauto 8|].
    intros (so' & ? & [?|(? & po' & ? & ?)]); simplify_eq. }
  destruct m.
  - injection H as <- <-. split_and!; [done|apply list_elem_of_here|done].
  - apply IH in H as [-> H]. split; [done|]. destruct r as [s'|].
    + destruct H as [Hin H]. split; [by apply list_elem_of_further|done].
    + intros s' [->|Hin]%elem_of_cons; [done|]. by apply H.
Qed.

Lemma bounded_find_of_transport l t : bounded (find_of_transport l t).
Proof. induction l as [|s l IH]; cbn [find_of_transport]; bounds. Qed.

(** each restart follows the removal of a socket *)
Lemma close_locked_shorter s w w' : s ∈ local_socket_list w → close_locked s w = Ok tt w' →
  (length (local_socket_list w') < length (local_socket_list w))%nat.
Proof.
  intros Hin H. pose proof (close_locked_gone _ _ _ _ H) as Hn.
  pose proof (keeps_Ok _ _ _ _ _ (shrinks_close _ _ _) H) as Hs.
  destruct (decide (length (local_socket_list w') < length (local_socket_list w))%nat); [done|].
  destruct Hn. rewrite (submseteq_length_Permutation _ _ (sublist_submseteq _ _ Hs)) by lia. done.
Qed.

Lemma close_of_transport_bounds fuel t w : (length (local_socket_list w) ≤ fuel)%nat →
  in_bounds (close_of_transport fuel t w).
Proof.
  revert w. induction fuel as [|fuel IH]; intros w Hl; cbn [close_of_transport];
    rewrite (bind_ok (gets local_socket_list) _ w _ w) by done;
    (apply bind_bounds; [apply bounded_find_of_transport|]);
    intros r ? [-> Hr]%find_of_transport_spec; (destruct r as [s|]; [|done]).
  - destruct Hr as [Hin _]. apply list_elem_of_In in Hin. apply Nat.le_0_r, nil_length_inv in Hl.
    rewrite Hl in Hin. destruct Hin.
  - apply bind_bounds; [apply (close_bounded 4)|]. intros [] w' Hc. apply IH.
    pose proof (close_locked_shorter _ _ _ (proj1 Hr) Hc). lia.
Qed.

Lemma close_of_transport_done fuel t w w' : close_of_transport fuel t w = Ok tt w' →
  ∀ s, s ∈ local_socket_list w' → ¬ of_transport w' t s.
Proof.
  revert w. induction fuel as [|fuel IH]; intros w; cbn [close_of_transport];
    rewrite (bind_ok (gets local_socket_list) _ w _ w) by done;
    intros (r & w1 & [-> Hr]%find_of_transport_spec & H)%bind_Ok_inv; destruct r as [s|]; try done.
  - by injection H as <-.
  - apply bind_Ok_inv in H as (? & w1 & _ & H). by eapply IH.
  - by injection H as <-.
Qed.


(** C13 When close_all_sockets returns, no socket of the local table belongs to
    the transport and none is the peer of a socket that does. *)
Theorem close_all_sockets_complete t w w' : close_all_sockets t w = Ok tt w' →
  ∀ s, s ∈ local_socket_list w' → ¬ of_transport w' t s.
Proof.
  unfold close_all_sockets. intros (? & w1 & _ & H)%bind_Ok_inv.
  rewrite (bind_ok (gets (λ w, length (local_socket_list w))) _ w1 _ w1) in H by done.
  apply bind_Ok_inv in H as ([] & w2 & Hc & H). injection H as <-.
  exact (close_of_transport_done _ _ _ _ Hc).
Qed.

Lemma close_all_sockets_complete_witness : ∃ w',
  close_all_sockets 16 (DemoClosing.world []) = Ok tt w' ∧ local_socket_list (DemoClosing.world []) = [32]
  ∧ ∀ s, s ∈ local_socket_list w' → ¬ of_transport w' 16 s.
Proof.
  exists (final (close_all_sockets 16 (DemoClosing.world []))).
  assert (close_all_sockets 16 (DemoClosing.world [])
    = Ok tt (final (close_all_sockets 16 (DemoClosing.world [])))) as H by (vm_compute; reflexivity).
  split; [exact H|]. split; [reflexivity|]. exact (close_all_sockets_complete _ _ _ H).
Defined.
