(* ===== verification/Streams.v ===== *)
(** * The life of a stream

    The packets OPEN, WRTE, OKAY and CLSE of the host create, use and close
    streams: what each of them does to the state of the daemon, from the
    dispatch in handle_packet to the descriptor of the service. *)

From S2P Require Import Prelude Kernel Packet DList Fdevent World Transport Sockets Adb Flow SocketTable Closing.

(** ** Events *)

(** what registering a descriptor leaves alone *)
Definition io_frame (w w' : fdw) : Prop :=
  k_out (w_kern w') = k_out (w_kern w) ∧ k_wr (w_kern w') = k_wr (w_kern w)
  ∧ next_loc w' = next_loc w ∧ (k_oom (w_kern w) = [] → k_oom (w_kern w') = []).
#[export] Instance io_frame_preorder : PreOrder io_frame.
Proof.
  split; [done|]. intros w1 w2 w3 (A1 & B1 & C1 & D1) (A2 & B2 & C2 & D2).
  split_and!; [by etrans..|auto].
Qed.

Lemma io_frame_malloc : keeps io_frame (K malloc_ok).
Proof.
  intros w. unfold K, zoom, malloc_ok. destruct (k_oom (w_kern w)) eqn:E; cbn; [by destruct w|].
  split_and!; try done. intros H. by rewrite E in H.
Qed.
Lemma install_frame p d fn a : keeps io_frame (fdevent_install p d fn a).
Proof.
  unfold fdevent_install, fdevent_register, fdevent_init, fdevent_connect, fde_put, fde_at, fd_set_check, FATAL.
  repeat first [apply io_frame_malloc | keeps_step | (apply keeps_modify; intros ?; done)
    | (apply (keeps_zoom (λ k k', k_out k' = k_out k ∧ k_wr k' = k_wr k ∧ k_oom k' = k_oom k));
       [intros k; done|]; intros w k (? & ? & Ho); split_and!; [done..|by cbn; rewrite Ho]) ].
Qed.

(** a descriptor that is registered and then watched for input *)
Lemma add_read_run w p f : fd_inv w → fdes w !! p = Some f → active f = true →
  ∃ w', fdevent_add p FDE_READ w = Ok tt w' ∧ only_fde p w w' ∧ watched w' (fd f) FDE_READ.
Proof.
  intros Hi Hf Ha. destruct (fdevent_add_run w p FDE_READ Hi) as (w' & Hrun & Hof); [eauto|].
  exists w'. split_and!; [done..|]. unfold fdevent_add in Hrun.
  rewrite (bind_ok _ _ _ _ _ (fde_at_ok w p f Hf)) in Hrun.
  rewrite (fdevent_set_eq w p f) in Hrun by done. cbv zeta in Hrun. injection Hrun as <-.
  match goal with |- context [if ?a =? ?b then _ else _] => destruct (Z.eqb_spec a b) as [He|_] end.
  - exists p, f. split_and!; try done. apply (f_equal (λ x, Z.testbit x 0)) in He. bits. done.
  - exists p. eexists. split; [apply lookup_insert_eq|]. unfold set_obj, active in *.
    destruct (pending f); [destruct (_ =? 0)|]; cbn [state fd]; split_and!; bits; done.
Qed.

Lemma del_read_run w p f : fd_inv w → fdes w !! p = Some f →
  ∃ w' f', fdevent_del p FDE_READ w = Ok tt w' ∧ only_fde p w w'
    ∧ fdes w' !! p = Some f' ∧ has (state f') FDE_READ = false.
Proof.
  intros Hi Hf. destruct (fdevent_del_run w p FDE_READ Hi) as (w' & Hrun & Hof); [eauto|].
  pose proof Hof as (_ & _ & _ & _ & [f' Hf'] & _). exists w', f'. split_and!; [done..|].
  unfold fdevent_del in Hrun. rewrite (bind_ok _ _ _ _ _ (fde_at_ok w p f Hf)) in Hrun.
  rewrite (fdevent_set_eq w p f) in Hrun by done. cbv zeta in Hrun. injection Hrun as <-.
  match type of Hf' with context [if ?a =? ?b then _ else _] => destruct (Z.eqb_spec a b) as [He|_] end.
  - rewrite Hf in Hf'. injection Hf' as <-. apply (f_equal (λ x, Z.testbit x 0)) in He. bits. done.
  - cbn in Hf'. rewrite lookup_insert_eq in Hf'. injection Hf' as <-. unfold set_obj.
    destruct (pending f); [destruct (_ =? 0)|]; cbn [state]; bits; done.
Qed.

(** ** New sockets *)

(** the addresses from next_loc on are not in use *)
Record heap_fresh (w : world) : Prop := {
  hf_pos : 0 < next_loc (w_fd w);
  hf_sockets a : next_loc (w_fd w) ≤ a → w_sockets w !! a = None;
  hf_packets a : next_loc (w_fd w) ≤ a → w_packets w !! a = None;
  hf_fdes a : next_loc (w_fd w) ≤ a → fdes (w_fd w) !! a = None;
}.

Definition zero_fde : fdevent := mkFde 0 false 0 0 local_socket_event_func_ 0.
Definition allocated (so : asocket) (w : world) : world :=
  let n := next_loc (w_fd w) in
  up_fd (upd_fdes <[fde_of n := zero_fde]> (upd_next_loc (n + 16) (w_fd w)))
    (up_sockets <[n := so]> w).
Lemma alloc_socket_run so w : k_oom (w_kern_of w) = [] →
  alloc_socket so w = Ok (next_loc (w_fd w)) (allocated so w).
Proof. intros H. unfold alloc_socket. by run (KW_malloc_ok w H). Qed.

Definition local_sock (id fd0 fd1 : Z) : asocket :=
  mkSock id false false 0 fd0 fd1 [] local_socket_enqueue_ local_socket_ready_ local_socket_close_ 0 0.
Definition remote_sock (id t : Z) : asocket :=
  mkSock id false false 0 0 0 [] remote_socket_enqueue_ remote_socket_ready_ remote_socket_close_ t 0.

(** the events after a local socket was created *)
Record local_events (n fd0 : Z) (f f' : fdw) : Prop := {
  le_inv : fd_inv f';
  le_fdes : fdes f' = <[fde_of n := mkFde fd0 false FDE_ACTIVE 0 local_socket_event_func_ n]> (fdes f);
  le_io : k_out (w_kern f') = k_out (w_kern f) ∧ k_wr (w_kern f') = k_wr (w_kern f);
  le_next : next_loc f' = n + 16;
  le_oom : k_oom (w_kern f') = [];
}.

Lemma create_local_run fd0 fd1 w :
  let n := next_loc (w_fd w) in let id := local_socket_next_id w in
  k_oom (w_kern_of w) = [] → socket_list_lock w = false → heap_fresh w → fd_inv (w_fd w) →
  0 ≤ fd0 < FD_SETSIZE → ¬ registered (w_fd w) fd0 →
  ∃ f', create_local_socket_pair fd0 fd1 w
      = Ok n (up_fd f' (up_local_list (local_socket_list w ++ [n]) (up_next_id (u32 (id + 1))
          (up_sockets <[n := local_sock id fd0 fd1]> w))))
    ∧ local_events n fd0 (w_fd w) f'.
Proof.
  intros n id Hoom Hl Hh Hi Hr Hreg. pose proof (hf_pos w Hh) as Hpos.
  unfold create_local_socket_pair. run (alloc_socket_run (local_sock 0 fd0 fd1) w Hoom). fold n.
  set (w1 := allocated (local_sock 0 fd0 fd1) w).
  set (w2 := up_local_list (local_socket_list w ++ [n]) (up_next_id (u32 (id + 1))
    (up_sockets <[n := local_sock id fd0 fd1]> (up_fd (w_fd w1) w)))).
  assert (Hins : install_local_socket n w1 = Ok tt w2).
  { unfold install_local_socket. run (lock_sockets_run w1 Hl).
    run (eq_refl : gets local_socket_next_id (up_socket_lock true w1) = Ok id _).
    rewrite (bind_ok _ _ _ _ _ (sock_put_run (up_socket_lock true w1) n (so_id id) (local_sock 0 fd0 fd1)
      (lookup_insert_eq _ _ _))).
    unfold bind, modify, unlock_sockets. f_equal. unfold w2, w1, allocated. destruct w; cbn in *.
    rewrite Hl. unfold up_sockets; cbn. by rewrite insert_insert_eq. }
  run Hins. set (f1 := w_fd w1).
  assert (Hi1 : fd_inv f1).
  { apply fd_inv_fresh; [by apply inv_upd_next_loc| |done..]. apply (hf_fdes w Hh). unfold fde_of. lia. }
  assert (Hf1 : fdes f1 !! fde_of n = Some zero_fde) by apply lookup_insert_eq.
  destruct (fdevent_install_spec f1 (fde_of n) fd0 local_socket_event_func_ n Hi1)
    as [(f' & Hrun & Hi' & Hfd & _ & _)|(f' & _ & Hbad)].
  - unfold fde_of. lia.
  - done.
  - exact Hreg.
  - intros f Hf. rewrite Hf1 in Hf. by injection Hf as <-.
  - run (FD_run w2 _ _ _ Hrun). exists f'. split; [done|].
    pose proof (install_frame (fde_of n) fd0 local_socket_event_func_ n f1) as Hfr.
    rewrite Hrun in Hfr. destruct Hfr as (Ho & Hw & Hn & Hm). split; [done| |done|done|by apply Hm].
    rewrite Hfd. apply insert_insert_eq.
  - change (w_kern f1) with (w_kern_of w) in Hbad. by rewrite Hoom in Hbad.
Qed.

Lemma create_remote_run rid t w :
  let n := next_loc (w_fd w) in
  k_oom (w_kern_of w) = [] → transport_lock w = false → is_Some (w_dislists w !! t) →
  create_remote_socket rid t w
  = Ok n (up_disconnects <[dis_of n := mkDis remote_socket_disconnect_ n]> (alter (λ l, l ++ [dis_of n]) t)
      (allocated (remote_sock rid t) w)).
Proof.
  intros n Hoom Hl [dl Hdl]. unfold create_remote_socket.
  run (alloc_socket_run (remote_sock rid t) w Hoom). fold n. set (w1 := allocated _ w).
  unfold dis_init, modify at 1. rewrite (bind_ok _ _ w1 tt
    (up_disconnects <[dis_of n := mkDis remote_socket_disconnect_ n]> id w1)) by done.
  set (w2 := up_disconnects _ _ w1). unfold add_transport_disconnect. rewrite bind_assoc.
  rewrite (bind_ok lock_transports _ w2 tt (up_transport_lock true w2))
    by (unfold lock_transports, bind, gets; change (transport_lock w2) with (transport_lock w); by rewrite Hl).
  rewrite bind_assoc, (bind_ok (deref _ _) _ (up_transport_lock true w2) dl (up_transport_lock true w2))
    by (unfold deref; change (w_dislists (up_transport_lock true w2)) with (w_dislists w); by rewrite Hdl).
  unfold bind, modify, unlock_transports, ret. f_equal. unfold w2, w1, allocated. destruct w; cbn in *.
  by rewrite Hl.
Qed.

Lemma send_ready_run a0 a1 t tr w :
  k_oom (w_kern_of w) = [] → w_transports w !! t = Some tr → t ≠ 0 →
  (4 ≤ wcap (wr_of (t_transport_write tr) (w_kern_of w)))%nat →
  ∃ w', send_ready a0 a1 t w = Ok tt w' ∧ sent_control A_OKAY a0 a1 tr w w'.
Proof.
  intros Hm Ht H0 Hc. unfold send_ready. run (get_apacket_run w Hm).
  by apply (send_control_run w A_OKAY a0 a1 t tr).
Qed.

(** ** OPEN *)

Section open.
Context {SV : Services} {AU : Auth}.

Definition reserved (name : list Z) : bool :=
  strncmp_eq name (str "root:") 5 || strncmp_eq name (str "usb:") 4 || strncmp_eq name (str "tcpip:") 6.

(** packet [p] asks for the service [name], which answers with the descriptors
    [fd0] and [fd1] and leaves the kernel as [k] *)
Record open_ready (p t : Z) (pk : apacket) (tr : atransport) (name : list Z) (fd0 fd1 : Z)
    (k : kern) (w : world) : Prop := {
  or_packet : w_packets w !! p = Some pk;
  or_command : command (p_msg pk) = A_OPEN;
  or_name : ∃ d, store_byte (Z.to_nat (if 0 <? data_length (p_msg pk)
      then data_length (p_msg pk) - 1 else 0)) 0 (p_data pk) = Some d ∧ cstring d = Some name;
  or_plain : reserved name = false;
  or_transport : w_transports w !! t = Some tr ∧ t ≠ 0 ∧ t_online tr = true;
  or_service : service_to_fd name (w_kern_of w) = Ok (Some (fd0, fd1)) k;
  or_fd : 0 ≤ fd0 < FD_SETSIZE ∧ ¬ registered (w_fd w) fd0;
  or_oom : k_oom k = [];
  or_pipe : (8 ≤ wcap (wr_of (t_transport_write tr) k))%nat;
  or_locks : socket_list_lock w = false ∧ transport_lock w = false;
  or_dislist : is_Some (w_dislists w !! t);
  or_heap : heap_fresh w;
  or_events : fd_inv (w_fd w);
}.

(** the two halves of the new stream *)
Definition new_local (fd0 fd1 : Z) (w : world) : asocket :=
  so_peer (next_loc (w_fd w) + 16) (local_sock (local_socket_next_id w) fd0 fd1).
Definition new_remote (rid t : Z) (w : world) : asocket :=
  so_peer (next_loc (w_fd w)) (remote_sock rid t).

Record opened (p t rid : Z) (tr : atransport) (fd0 fd1 : Z) (k : kern) (w w' : world) : Prop := {
  on_pair : stream_pair (next_loc (w_fd w)) (next_loc (w_fd w) + 16) (new_local fd0 fd1 w)
    (new_remote rid t w) tr w';
  on_sockets : w_sockets w' = <[next_loc (w_fd w) + 16 := new_remote rid t w]>
    (<[next_loc (w_fd w) := new_local fd0 fd1 w]> (w_sockets w));
  on_table : local_socket_list w' = local_socket_list w ++ [next_loc (w_fd w)]
    ∧ local_socket_closing_list w' = local_socket_closing_list w
    ∧ local_socket_next_id w' = u32 (local_socket_next_id w + 1);
  on_packets : w_packets w' = delete p
    (<[next_loc (w_fd w) + 32 := control A_OKAY (local_socket_next_id w) rid]> (w_packets w));
  on_told : out_of (t_transport_write tr) (w_kern_of w')
    = out_of (t_transport_write tr) k ++ le32 (next_loc (w_fd w) + 32);
  on_watched : watched (w_fd w') fd0 FDE_READ;
  on_callback : w_dislists w' = alter (λ l, l ++ [dis_of (next_loc (w_fd w) + 16)]) t (w_dislists w);
  on_transports : w_transports w' = w_transports w;
}.

Lemma service_socket_run name fd0 fd1 k w :
  let n := next_loc (w_fd w) in let id := local_socket_next_id w in
  service_to_fd name (w_kern_of w) = Ok (Some (fd0, fd1)) k → reserved name = false →
  k_oom k = [] → socket_list_lock w = false → heap_fresh w → fd_inv (w_fd w) →
  0 ≤ fd0 < FD_SETSIZE → ¬ registered (w_fd w) fd0 →
  ∃ f', create_local_service_socket name w
      = Ok n (up_fd f' (up_local_list (local_socket_list w ++ [n]) (up_next_id (u32 (id + 1))
          (up_sockets <[n := local_sock id fd0 fd1]> w))))
    ∧ local_events n fd0 (upd_kern k (w_fd w)) f'.
Proof.
  intros n id Hsv Hres Hoom Hl [Hp Hs Hk Hf] Hi Hr Hreg. unfold create_local_service_socket.
  run (KW_run w _ _ _ Hsv).
  destruct (create_local_run fd0 fd1 (up_kern k w)) as (f' & Hrun & Hev); [done|done|by split| |done|done|].
  { by apply inv_upd_kern. }
  exists f'. split; [|done]. apply orb_false_iff in Hres as [Hres Ht]. apply orb_false_iff in Hres as [Hro Hu].
  rewrite Hro, Hu, Ht. cbn [orb when].
  assert (Hc : (if fd0 =? fd1 then create_local_socket fd0 else create_local_socket_pair fd0 fd1)
    = create_local_socket_pair fd0 fd1) by (by destruct (Z.eqb_spec fd0 fd1) as [->|]).
  rewrite Hc. by run Hrun.
Qed.

(** handle_open from the new local socket to the answer *)
Definition connect (s rid t : Z) : M world unit :=
  do r <- create_remote_socket rid t;
  sock_put s (so_peer r);;;
  sock_put r (so_peer s);;;
  do so <- sock_at s;
  do ro <- sock_at r;
  send_ready (s_id so) (s_id ro) t;;;
  call_ready s.

Lemma connect_links rid t tr so s w :
  let r := next_loc (w_fd w) in
  w_sockets w !! s = Some so → s ≠ r → s_peer so = 0 →
  k_oom (w_kern_of w) = [] → transport_lock w = false → is_Some (w_dislists w !! t) →
  w_transports w !! t = Some tr → t ≠ 0 →
  (8 ≤ wcap (wr_of (t_transport_write tr) (w_kern_of w)))%nat →
  let w6 := up_sockets <[r := so_peer s (remote_sock rid t)]> (up_sockets <[s := so_peer r so]>
    (up_disconnects <[dis_of r := mkDis remote_socket_disconnect_ r]> (alter (λ l, l ++ [dis_of r]) t)
      (allocated (remote_sock rid t) w))) in
  ∃ w7, connect s rid t w = call_ready s w7 ∧ sent_control A_OKAY (s_id so) rid tr w6 w7
    ∧ (4 ≤ wcap (wr_of (t_transport_write tr) (w_kern_of w7)))%nat.
Proof.
  intros r Hs Hsr Hp Hoom Hl Hd Ht H0 Hc w6. unfold connect.
  run (create_remote_run rid t w Hoom Hl Hd). fold r. set (w4 := up_disconnects _ _ _) in *.
  assert (Hs4 : w_sockets w4 !! s = Some so) by (cbn; by rewrite lookup_insert_ne).
  rewrite (bind_ok _ _ _ _ _ (sock_put_run w4 s (so_peer r) so Hs4)).
  set (w5 := up_sockets <[s := so_peer r so]> w4) in *.
  assert (Hr5 : w_sockets w5 !! r = Some (remote_sock rid t)).
  { cbn. rewrite lookup_insert_ne by done. apply lookup_insert_eq. }
  rewrite (bind_ok _ _ _ _ _ (sock_put_run w5 r (so_peer s) _ Hr5)). fold w6.
  assert (Hs6 : w_sockets w6 !! s = Some (so_peer r so)).
  { cbn. rewrite lookup_insert_ne by done. apply lookup_insert_eq. }
  run (sock_at_run w6 s _ Hs6). run (sock_at_run w6 r _ (lookup_insert_eq _ _ _)).
  destruct (send_ready_run (s_id so) rid t tr w6) as (w7 & Hrun & Hsc); [done..| |].
  { change (w_kern_of w6) with (w_kern_of w). lia. }
  exists w7. cbn [s_id so_peer remote_sock]. run Hrun. split_and!; [done..|].
  rewrite (sc_cap _ _ _ _ _ _ Hsc). change (w_kern_of w6) with (w_kern_of w). lia.
Qed.

(** the dispatch of handle_packet *)
Lemma handle_open_dispatch p t pk w : w_packets w !! p = Some pk → command (p_msg pk) = A_OPEN →
  handle_packet p t w = (handle_open p t pk;;; put_apacket p) w.
Proof.
  intros Hp Hc. unfold handle_packet. run (pkt_at_run w p pk Hp). cbv zeta. rewrite Hc. reflexivity.
Qed.

(** the new pair in the world [w6] built by connect, from the socket of the
    service in the world [w3], whose events are [f3] *)
Record connected (p t rid fd0 fd1 : Z) (k : kern) (f3 : fdw) (w w6 : world) : Prop := {
  cn_sockets : w_sockets w6 = <[next_loc (w_fd w) + 16 := new_remote rid t w]>
    (<[next_loc (w_fd w) := new_local fd0 fd1 w]> (w_sockets w));
  cn_table : local_socket_list w6 = local_socket_list w ++ [next_loc (w_fd w)]
    ∧ local_socket_closing_list w6 = local_socket_closing_list w
    ∧ local_socket_next_id w6 = u32 (local_socket_next_id w + 1);
  cn_fd : w_fd w6 = upd_fdes <[fde_of (next_loc (w_fd w) + 16) := zero_fde]>
    (upd_next_loc (next_loc (w_fd w) + 32) f3);
  cn_dis : is_Some (w_disconnects w6 !! dis_of (next_loc (w_fd w) + 16))
    ∧ w_dislists w6 = alter (λ l, l ++ [dis_of (next_loc (w_fd w) + 16)]) t (w_dislists w);
  cn_trans : w_transports w6 = w_transports w;
  cn_lock : socket_list_lock w6 = socket_list_lock w;
}.

Lemma connected_events n fd0 k f f3 : (∀ a, n ≤ a → fdes f !! a = None) →
  local_events n fd0 (upd_kern k f) f3 →
  let f6 := upd_fdes <[fde_of (n + 16) := zero_fde]> (upd_next_loc (n + 32) f3) in
  fd_inv f6 ∧ fdes f6 !! fde_of n = Some (mkFde fd0 false FDE_ACTIVE 0 local_socket_event_func_ n)
  ∧ fdes f6 !! fde_of (n + 16) = Some zero_fde.
Proof.
  intros Hf [Le1 Le2 _ _ _] f6. unfold fde_of in *. split_and!.
  - apply fd_inv_fresh; [by apply inv_upd_next_loc| |done..]. cbn. rewrite Le2.
    rewrite lookup_insert_ne by lia. apply Hf. lia.
  - cbn. rewrite lookup_insert_ne by lia. rewrite Le2. apply lookup_insert_eq.
  - apply lookup_insert_eq.
Qed.

(** the answer is sent and the service's output is watched *)
Lemma ready_opened p t rid tr fd0 fd1 k f3 w w6 w7 :
  heap_fresh w → is_Some (w_packets w !! p) → connected p t rid fd0 fd1 k f3 w w6 →
  local_events (next_loc (w_fd w)) fd0 (upd_kern k (w_fd w)) f3 →
  w_transports w !! t = Some tr → t ≠ 0 → socket_list_lock w = false →
  (∃ d, w_packets w6 = <[p := d]> (w_packets w)) →
  sent_control A_OKAY (local_socket_next_id w) rid tr w6 w7 →
  (4 ≤ wcap (wr_of (t_transport_write tr) (w_kern_of w7)))%nat →
  ∃ w', (call_ready (next_loc (w_fd w));;; put_apacket p) w7 = Ok tt w'
    ∧ opened p t rid tr fd0 fd1 k w w'.
Proof.
  intros Hh [pk Hp] Hcn Hev Ht Ht0 Hl (d & Hpk6) Hsc Hcap.
  destruct (connected_events (next_loc (w_fd w)) fd0 k (w_fd w) f3 (hf_fdes w Hh) Hev) as (Hi6 & Hfs & Hfr).
  destruct Hcn as [Cs Ct Cf Cd Ctr Cl]. set (n := next_loc (w_fd w)) in *.
  pose proof (hf_pos w Hh) as Hpos. fold n in Hpos.
  assert (Hpn : p < n).
  { destruct (decide (n ≤ p)) as [Hle|]; [|lia]. apply (hf_packets w Hh) in Hle. congruence. }
  rewrite <- Cf in Hi6, Hfs, Hfr.
  assert (Hw7 : ∀ B (g : world → B), g w7 = g (up_packets (λ _, w_packets w7)
    (up_fd (upd_next_loc (next_loc (w_fd w6) + 16) (upd_kern (w_kern_of w7) (w_fd w6))) w6)))
    by (intros B g; exact (f_equal g (sc_rest _ _ _ _ _ _ Hsc))).
  assert (Hs7 : w_sockets w7 !! n = Some (new_local fd0 fd1 w)).
  { rewrite (Hw7 _ w_sockets). cbn. rewrite Cs. fold n. rewrite lookup_insert_ne by lia. apply lookup_insert_eq. }
  unfold call_ready. rewrite bind_assoc. run (sock_at_run w7 n _ Hs7). cbn [s_ready new_local so_peer local_sock].
  unfold local_socket_ready. rewrite bind_assoc. run (sock_at_run w7 n _ Hs7).
  assert (Hi7 : fd_inv (w_fd w7)).
  { rewrite (Hw7 _ w_fd). cbn. by apply inv_upd_next_loc, inv_upd_kern. }
  assert (Hf7 : ∀ a, fdes (w_fd w7) !! a = fdes (w_fd w6) !! a) by (intros a; by rewrite (Hw7 _ w_fd)).
  destruct (add_read_run (w_fd w7) (fde_of n) (mkFde fd0 false FDE_ACTIVE 0 local_socket_event_func_ n) Hi7)
    as (f8 & Hrun8 & (Hi8 & Hk8 & _ & Hn8 & Hp8 & Hq8) & Hw8); [by rewrite Hf7|done|].
  run (FD_run w7 _ _ _ Hrun8). set (w8 := up_fd f8 w7).
  assert (Hq : next_loc (w_fd w6) = n + 32) by by rewrite Cf.
  assert (Hp7 : w_packets w7 = <[n + 32 := control A_OKAY (local_socket_next_id w) rid]> (<[p := d]> (w_packets w))).
  { by rewrite (sc_packet _ _ _ _ _ _ Hsc), Hpk6, Hq. }
  assert (Hp8' : w_packets w8 !! p = Some d).
  { change (w_packets w8) with (w_packets w7). rewrite Hp7, lookup_insert_ne by lia. apply lookup_insert_eq. }
  rewrite (put_run p d w8 Hp8'). exists (up_packets (delete p) w8). split; [done|].
  assert (Hk6 : w_kern_of w6 = w_kern f3) by (unfold w_kern_of; by rewrite Cf).
  destruct Hev as [_ _ [Hko _] _ Hoom]. cbn in Hko.
  change (w_sockets w7 !! n = Some (new_local fd0 fd1 w)) in Hs7.
  split.
  - fold n. split; try done.
    + change (w_sockets w7 !! (n + 16) = Some (new_remote rid t w)). rewrite (Hw7 _ w_sockets). cbn.
      rewrite Cs. apply lookup_insert_eq.
    + split_and!; unfold fde_of; lia.
    + split; [|done]. change (w_transports w7 !! t = Some tr). rewrite (Hw7 _ w_transports). cbn. by rewrite Ctr.
    + change (is_Some (w_disconnects w7 !! dis_of (n + 16))). rewrite (Hw7 _ w_disconnects). apply Cd.
    + exists zero_fde. change (fdes f8 !! fde_of (n + 16) = Some zero_fde ∧ active zero_fde = false ∧ pending zero_fde = false).
      rewrite Hq8 by (unfold fde_of; lia). by rewrite Hf7.
    + split; [apply NoDup_nil_2|]. intros q Hin. by apply not_elem_of_nil in Hin.
    + apply not_elem_of_nil.
    + change (socket_list_lock w7 = false). rewrite (Hw7 _ socket_list_lock). cbn. congruence.
    + change (k_oom (w_kern f8) = []). rewrite Hk8. change (k_oom (w_kern_of w7) = []).
      by rewrite (sbw_oom _ _ _ (sc_kern _ _ _ _ _ _ Hsc)), Hk6.
    + change (4 ≤ wcap (wr_of (t_transport_write tr) (w_kern f8)))%nat. by rewrite Hk8.
  - change (w_sockets (up_packets (delete p) w8)) with (w_sockets w7). rewrite (Hw7 _ w_sockets). exact Cs.
  - change (local_socket_list w7 = local_socket_list w ++ [n]
      ∧ local_socket_closing_list w7 = local_socket_closing_list w
      ∧ local_socket_next_id w7 = u32 (local_socket_next_id w + 1)).
    by rewrite (Hw7 _ local_socket_list), (Hw7 _ local_socket_closing_list), (Hw7 _ local_socket_next_id).
  - change (w_packets (up_packets (delete p) w8)) with (delete p (w_packets w7)). rewrite Hp7. fold n.
    rewrite !(delete_insert_ne _ p (n + 32)) by lia. by rewrite delete_insert_eq.
  - change (out_of (t_transport_write tr) (w_kern f8) = out_of (t_transport_write tr) k ++ le32 (n + 32)).
    rewrite Hk8. change (w_kern (w_fd w7)) with (w_kern_of w7).
    rewrite (sc_out _ _ _ _ _ _ Hsc), Hq, Hk6. unfold out_of. by rewrite Hko.
  - exact Hw8.
  - change (w_dislists w7 = alter (λ l, l ++ [dis_of (n + 16)]) t (w_dislists w)).
    rewrite (Hw7 _ w_dislists). apply Cd.
  - change (w_transports w7 = w_transports w). by rewrite (Hw7 _ w_transports).
Qed.

Lemma open_run p t pk tr name fd0 fd1 k w :
  open_ready p t pk tr name fd0 fd1 k w →
  ∃ w', handle_packet p t w = Ok tt w' ∧ opened p t (arg0 (p_msg pk)) tr fd0 fd1 k w w'.
Proof.
  intros [Hp Hc (d & Hd & Hname) Hpl (Ht & Ht0 & Hon) Hsv [Hfr Hreg] Hoom Hcap [Hsl Htl] Hdl Hh Hi].
  set (n := next_loc (w_fd w)). pose proof (hf_pos w Hh) as Hpos. fold n in Hpos.
  rewrite (handle_open_dispatch p t pk w Hp Hc). unfold handle_open. rewrite bind_assoc.
  run (trans_at_run w t tr Ht). rewrite Hon. cbn [negb]. rewrite bind_assoc.
  rewrite (bind_ok (deref _ _) _ w d w) by (unfold deref; cbv zeta; by rewrite Hd).
  rewrite bind_assoc. rewrite (bind_ok _ _ _ _ _ (pkt_put_run w p (λ pk, with_data pk d) pk Hp)).
  set (w1 := up_packets _ w). rewrite bind_assoc.
  rewrite (bind_ok (deref _ _) _ w1 name w1) by (unfold deref; by rewrite Hname).
  assert (Hpn : p < n).
  { destruct (decide (n ≤ p)) as [Hle|]; [|lia]. apply (hf_packets w Hh) in Hle. congruence. }
  assert (Hh1 : heap_fresh w1).
  { destruct Hh as [A B C D]. split; [done|done| |done]. intros a Ha. cbn.
    change (next_loc (w_fd w1)) with n in Ha. rewrite lookup_insert_ne by lia. by apply C. }
  destruct (service_socket_run name fd0 fd1 k w1) as (f3 & Hrun3 & Hev); [done..|].
  change (next_loc (w_fd w1)) with n in *. pose proof Hev as [_ _ [_ Hwr] Hnx Hoom3].
  rewrite bind_assoc. run Hrun3. set (w3 := up_fd f3 _). rewrite (proj2 (Z.eqb_neq n 0)) by lia.
  change (local_socket_next_id w1) with (local_socket_next_id w) in w3.
  destruct (connect_links (arg0 (p_msg pk)) t tr (local_sock (local_socket_next_id w) fd0 fd1) n w3)
    as (w7 & Hrun7 & Hsc & Hcap7); try done.
  { apply lookup_insert_eq. } { change (next_loc (w_fd w3)) with (next_loc f3). lia. }
  { change (w_kern_of w3) with (w_kern f3). unfold wr_of. rewrite Hwr. exact Hcap. }
  unfold connect in Hrun7.
  rewrite (bind_same _ (call_ready n) _ w3 w7 Hrun7). change (next_loc (w_fd w3)) with (next_loc f3) in Hsc. rewrite Hnx in Hsc.
  unfold allocated in Hsc. change (next_loc (w_fd w3)) with (next_loc f3) in Hsc. rewrite Hnx in Hsc.
  eapply (ready_opened p t (arg0 (p_msg pk)) tr fd0 fd1 k f3 w _ w7 Hh); try done.
  - split; try done.
    + change (<[n + 16 := new_remote (arg0 (p_msg pk)) t w]> (<[n := new_local fd0 fd1 w]>
        (<[n + 16 := remote_sock (arg0 (p_msg pk)) t]>
          (<[n := local_sock (local_socket_next_id w) fd0 fd1]> (w_sockets w))))
        = <[n + 16 := new_remote (arg0 (p_msg pk)) t w]> (<[n := new_local fd0 fd1 w]> (w_sockets w))).
      rewrite (insert_insert_ne _ n (n + 16)) by lia. by rewrite !insert_insert_eq.
    + change (upd_fdes <[fde_of (n + 16) := zero_fde]> (upd_next_loc (n + 16 + 16) f3)
        = upd_fdes <[fde_of (n + 16) := zero_fde]> (upd_next_loc (n + 32) f3)).
      by replace (n + 16 + 16) with (n + 32) by lia.
    + split; [|done]. cbn. fold n. rewrite lookup_insert_eq. eauto.
  - by exists (with_data pk d).
Qed.
End open.

(** ** Packets for an open stream *)

Section stream.
Context {SV : Services} {AU : Auth}.

(** packet [p] on the transport [t] names the local socket [s] *)
Record addressed (c p t : Z) (pk : apacket) (tr : atransport) (s : Z) (so : asocket) (w : world)
    : Prop := {
  ad_packet : w_packets w !! p = Some pk;
  ad_command : command (p_msg pk) = c;
  ad_transport : w_transports w !! t = Some tr ∧ t ≠ 0 ∧ t_online tr = true;
  ad_table : table_ok w;
  ad_lock : socket_list_lock w = false;
  ad_socket : w_sockets w !! s = Some so ∧ s ∈ local_socket_list w;
  ad_id : arg1 (p_msg pk) = s_id so;
}.

Lemma find_addressed c p t pk tr s so w : addressed c p t pk tr s so w →
  s ≠ 0 ∧ find_local_socket (arg1 (p_msg pk)) w = Ok s w.
Proof.
  intros [_ _ _ Htb Hl [Hs Hin] Hid]. split; [by apply (tb_addr w Htb)|].
  rewrite (find_local_socket_run w _ Htb Hl).
  rewrite (proj2 (socket_table_lookup w (arg1 (p_msg pk)) s Htb)); [done|].
  split; [done|]. unfold id_of. by rewrite Hs, Hid.
Qed.

(** ** CLSE *)

(** C9 A CLSE packet of the host for an idle stream takes the stream down: both
    halves are freed and in no list any more, the event loop forgets the
    descriptor, the transport's callback for the stream is gone, the packet is
    freed, and one CLSE goes back. *)
Theorem clse_closes_stream p t pk tr s r so ro w :
  addressed A_CLSE p t pk tr s so w →
  stream_pair s r so ro tr w → s_pkts so = [] → s_exit_on_close so = false → p < next_loc (w_fd w) →
  ∃ w', handle_packet p t w = Ok tt w'
    ∧ w_sockets w' = delete s (delete r (w_sockets w))
    ∧ s ∉ local_socket_list w' ∧ s ∉ local_socket_closing_list w'
    ∧ fdes (w_fd w') !! fde_of s = None ∧ w_dislists w' = filter (λ x, x ≠ dis_of r) <$> w_dislists w
    ∧ w_packets w' !! p = None
    ∧ out_of (t_transport_write tr) (w_kern_of w')
      = out_of (t_transport_write tr) (w_kern_of w) ++ le32 (next_loc (w_fd w))
    ∧ w_packets w' !! next_loc (w_fd w) = Some (control A_CLSE 0 (s_id ro)).
Proof.
  intros Had Hsp Hq Hex Hpn. destruct (find_addressed _ _ _ _ _ _ _ _ Had) as [Hs0 Hfind].
  destruct Had as [Hp Hc (Ht & Ht0 & Hon) _ _ _ _].
  destruct (close_idle_run s r so ro tr w Hsp Hq Hex) as (w1 & Hrun & Htold & Hs & Hf & Hl1 & Hl2).
  assert (Hd : handle_packet p t w = (call_close s;;; put_apacket p) w).
  { unfold handle_packet. run (pkt_at_run w p pk Hp). cbv zeta. rewrite Hc.
    change (A_CLSE =? A_SYNC) with false. change (A_CLSE =? A_WRTE) with false.
    change (A_CLSE =? A_CNXN) with false. change (A_CLSE =? A_AUTH) with false.
    change (A_CLSE =? A_OPEN) with false. change (A_CLSE =? A_OKAY) with false.
    change (A_CLSE =? A_CLSE) with true. cbv iota. apply bind_same. unfold handle_clse.
    run (trans_at_run w t tr Ht). rewrite Hon. cbn [negb]. run Hfind. by rewrite (proj2 (Z.eqb_neq s 0)). }
  destruct Htold as [To Tp Td _ _ _].
  assert (Hp1 : w_packets w1 !! p = Some pk) by (rewrite Tp, lookup_insert_ne by lia; done).
  rewrite Hd. run Hrun. exists (up_packets (delete p) w1). rewrite (put_run p pk w1 Hp1).
  split_and!; try done.
  - apply lookup_delete_eq.
  - cbn. rewrite lookup_delete_ne by lia. rewrite Tp. apply lookup_insert_eq.
Qed.

(** ** WRTE *)

Lemma wrte_dispatch p t pk tr s so w : addressed A_WRTE p t pk tr s so w →
  handle_packet p t w = (pkt_put p (λ pk, with_len pk (data_length (p_msg pk)));;;
    do r <- call_enqueue s p;
    if r =? 0 then do so <- sock_at s; send_ready (s_id so) (arg0 (p_msg pk)) t else ret tt) w.
Proof.
  intros Had. destruct (find_addressed _ _ _ _ _ _ _ _ Had) as [Hs0 Hfind].
  destruct Had as [Hp Hc (Ht & Ht0 & Hon) _ _ _ _].
  unfold handle_packet. run (pkt_at_run w p pk Hp). cbv zeta. rewrite Hc.
  change (A_WRTE =? A_SYNC) with false. change (A_WRTE =? A_WRTE) with true. cbv iota.
  unfold handle_wrte. rewrite bind_assoc. run (trans_at_run w t tr Ht). rewrite Hon. cbn [negb].
  rewrite bind_assoc. run Hfind. rewrite (proj2 (Z.eqb_neq s 0)) by done. rewrite bind_assoc.
  rewrite (bind_ok _ _ _ _ _ (pkt_put_run w p _ pk Hp)), (bind_ok _ _ _ _ _ (pkt_put_run w p _ pk Hp)).
  rewrite bind_assoc. unfold bind at 1 5. destruct (call_enqueue s p _) as [r w1| |]; [|done..].
  rewrite bind_assoc. destruct (r =? 0).
  - unfold bind. destruct (sock_at s w1) as [so1 w2| |]; [|done..].
    by destruct (send_ready (s_id so1) (arg0 (p_msg pk)) t w2) as [[] ?| |].
  - done.
Qed.

(** the stream can take data: its queue is in order, and an answer can be sent *)
Record takes_data (p : Z) (pk : apacket) (tr : atransport) (s : Z) (so : asocket) (w : world) : Prop := {
  tk_local : s_enqueue so = local_socket_enqueue_;
  tk_queue : queue_ok w (s_pkts so) ∧ p ∉ s_pkts so;
  tk_events : fd_inv (w_fd w) ∧ is_Some (fdes (w_fd w) !! fde_of s);
  tk_oom : k_oom (w_kern_of w) = [];
  tk_pipe : (4 ≤ wcap (wr_of (t_transport_write tr) (w_kern_of w)))%nat;
  tk_other : t_transport_write tr ≠ s_write_fd so;
  tk_heap : p < next_loc (w_fd w);
}.

(** C6 Flow control towards the device.  The bytes of a WRTE packet are appended
    to the stream of the socket it names.  When all of them could be written
    at once the packet is freed and exactly one OKAY goes back, with the local
    identifier and the host's; when some are left they wait in the queue and no
    OKAY is sent, so the host may not send more.  Only when a write fails is the
    socket closed. *)
Theorem wrte_flow_control p t pk tr s so bs w :
  addressed A_WRTE p t pk tr s so w → takes_data p pk tr s so w →
  payload pk (data_length (p_msg pk)) = Some bs →
  (s_pkts so = [] ∧ ∃ n k', (n < length bs)%nat ∧
     out_of (s_write_fd so) k' = out_of (s_write_fd so) (w_kern_of w) ++ take n bs ∧
     handle_packet p t w = call_close s
       (up_packets <[p := advance n (rewound (with_len pk (data_length (p_msg pk))))]> (up_kern k' w))) ∨
  ∃ w' l', handle_packet p t w = Ok tt w' ∧ w_sockets w' = <[s := so_pkts l' so]> (w_sockets w)
    ∧ out_of (s_write_fd so) (w_kern_of w') ++ queue_bytes w' l'
      = (out_of (s_write_fd so) (w_kern_of w) ++ queue_bytes w (s_pkts so)) ++ bs
    ∧ (l' = [] ∧ w_packets w' !! p = None
         ∧ w_packets w' !! next_loc (w_fd w) = Some (control A_OKAY (s_id so) (arg0 (p_msg pk)))
         ∧ out_of (t_transport_write tr) (w_kern_of w')
           = out_of (t_transport_write tr) (w_kern_of w) ++ le32 (next_loc (w_fd w))
       ∨ l' = s_pkts so ++ [p] ∧ out_of (t_transport_write tr) (w_kern_of w')
           = out_of (t_transport_write tr) (w_kern_of w)).
Proof.
  intros Had [Hfn [Hq Hnin] [Hi Hfde] Hoom Hcap Hne Hpn] Hbs. rewrite (wrte_dispatch _ _ _ _ _ _ _ Had).
  destruct Had as [Hp _ (Ht & Ht0 & _) _ _ [Hs _] _].
  rewrite (bind_ok _ _ _ _ _ (pkt_put_run w p (λ pk, with_len pk (data_length (p_msg pk))) pk Hp)).
  set (pk1 := with_len pk (data_length (p_msg pk))). set (w1 := up_packets <[p := pk1]> w).
  assert (Hext : ∀ q, q ∈ s_pkts so → w_packets w1 !! q = w_packets w !! q).
  { intros q Hin. cbn. apply lookup_insert_ne. by intros ->. }
  assert (Hce : ∀ k : Z → M world unit, (do r <- call_enqueue s p; k r) w1
    = (do r <- local_socket_enqueue s p; k r) w1).
  { intros k. unfold call_enqueue. rewrite bind_assoc. run (sock_at_run w1 s so Hs). by rewrite Hfn. }
  rewrite Hce.
  destruct (enqueue_run s p w1 so pk1 bs Hs (queue_ok_ext w w1 _ Hext Hq) Hnin (lookup_insert_eq _ _ _) Hbs Hi Hfde)
    as [(Hnil & n & k' & Hn & Hrun & Ho & _)|(r & w2 & l' & Hrun & Hs2 & Hq2 & Hb2 & Hc & [Hk Hrest Hnx Hi2])].
  - left. split; [done|]. exists n, k'. split_and!; [done..|].
    set (wc := up_packets _ (up_kern k' w1)) in Hrun.
    rewrite (bind_same _ (call_close s;;; ret 1) _ w1 wc Hrun), bind_assoc.
    assert (wc = up_packets <[p := advance n (rewound pk1)]> (up_kern k' w)) as ->
      by (unfold wc, w1, up_packets, up_kern; cbn; by rewrite insert_insert_eq).
    unfold bind. by destruct (call_close s _) as [[] ?| |].
  - right. run Hrun. rewrite (queue_bytes_ext w w1 _ Hext) in Hb2.
    assert (Hpipe : out_of (t_transport_write tr) (w_kern_of w2) = out_of (t_transport_write tr) (w_kern_of w))
      by (by rewrite (sbw_out _ _ _ Hk)).
    destruct Hc as [(-> & -> & Hfree)|[-> ->]].
    + cbn [Z.eqb].
      assert (Hs2' : w_sockets w2 !! s = Some (so_pkts [] so)) by (rewrite Hs2; apply lookup_insert_eq).
      run (sock_at_run w2 s _ Hs2').
      destruct (send_ready_run (s_id so) (arg0 (p_msg pk)) t tr w2) as (w3 & Hrun3 & [S1 S2 S3 S4 _]).
      { by rewrite (sbw_oom _ _ _ Hk). }
      { rewrite Hrest. exact Ht. } { done. }
      { by rewrite (sbw_wr _ _ _ Hk). }
      change (next_loc (w_fd w1)) with (next_loc (w_fd w)) in Hnx. rewrite Hnx in *.
      exists w3, []. cbn [s_id so_pkts]. rewrite Hrun3, S4. split_and!; [done|done| |left; split_and!; [done| | |]].
      * change (w_kern_of (up_packets _ _)) with (w_kern_of w3) at 1.
        rewrite (sbw_out _ _ _ S3) by done. exact Hb2.
      * cbn. rewrite S1. by rewrite lookup_insert_ne by lia.
      * cbn. rewrite S1. apply lookup_insert_eq.
      * change (w_kern_of (up_packets _ _)) with (w_kern_of w3). by rewrite S2, Hpipe.
    + exists w2, (s_pkts so ++ [p]). split_and!; [done..|]. right. done.
Qed.

(** ** From the device to the host *)

Lemma fill_packet_spec fuel d avail acc w :
  (0 < avail)%nat → (length (rd_of d (w_kern_of w)) + 1 ≤ fuel)%nat →
  let st := stream (rd_of d (w_kern_of w)) in
  ∃ r eof k', fill_packet fuel d avail acc w = Ok (acc ++ take avail st, r, eof) (up_kern k' w)
    ∧ same_but_rd d (w_kern_of w) k' ∧ ((avail ≤ length st)%nat → eof = false)
    ∧ (eof = false → (avail ≤ length st)%nat ∨ r = -1).
Proof.
  revert avail acc w. induction fuel as [|fuel IH]; intros avail acc w Ha Hf; [lia|].
  cbn [fill_packet]. pose proof (read_script_spec (rd_of d (w_kern_of w)) avail Ha) as Hv.
  destruct (read_script (rd_of d (w_kern_of w)) avail) as [r s'] eqn:Hr.
  inversion Hv as [e s'' He Hs|s'' Hs|bs s'' Hbs Hs Hle Hl Hd]; subst; clear Hv; rewrite Hs.
  - set (k1 := set_errno e (set_rd d s' (w_kern_of w))).
    assert (Hrd : adb_read d avail (w_kern_of w) = Ok (inr e) k1) by by unfold adb_read; rewrite Hr.
    run (KW_run w _ _ _ Hrd). rewrite (proj2 (Z.eqb_neq e EINTR) He), take_nil, app_nil_r.
    assert (same_but_rd d (w_kern_of w) k1)
      by (etrans; [apply same_but_rd_set_rd|apply same_but_rd_errno]).
    exists (-1), (negb (e =? EAGAIN)), k1. destruct (e =? EAGAIN); split_and!; cbn; auto; lia.
  - set (k1 := set_rd d s' (w_kern_of w)).
    assert (Hrd : adb_read d avail (w_kern_of w) = Ok (inl []) k1) by by unfold adb_read; rewrite Hr.
    run (KW_run w _ _ _ Hrd). rewrite take_nil, app_nil_r. exists 0, true, k1.
    split_and!; [done|apply same_but_rd_set_rd|cbn; lia|done].
  - set (k1 := set_rd d s' (w_kern_of w)).
    assert (Hrd : adb_read d avail (w_kern_of w) = Ok (inl bs) k1) by by unfold adb_read; rewrite Hr.
    run (KW_run w _ _ _ Hrd). destruct bs as [|b bs']; [done|]. set (bs := b :: bs') in *. cbv zeta.
    rewrite length_app. case_decide as Hz.
    + exists (Z.of_nat (length bs)), false, k1. rewrite take_app_le, take_ge by lia.
      split_and!; [done|apply same_but_rd_set_rd|done|lia].
    + destruct (IH (avail - length bs)%nat (acc ++ bs) (up_kern k1 w)) as (r & eof & k' & Hrun & Hk & H1 & H2).
      { lia. } { change (w_kern_of (up_kern k1 w)) with k1. unfold k1. autorewrite with adb. destruct Hd; lia. }
      change (w_kern_of (up_kern k1 w)) with k1 in *. unfold k1 in Hrun, H1, H2. autorewrite with adb in Hrun, H1, H2.
      exists r, eof, k'. rewrite take_app_ge by lia. rewrite app_assoc. split_and!.
      * exact Hrun.
      * etrans; [apply same_but_rd_set_rd|exact Hk].
      * intros. apply H1. lia.
      * intros He. apply H2 in He as [?|?]; [left; lia|by right].
Qed.

(** the packet that carries [bs] from the stream [a0] to the stream [a1] *)
Definition data_packet (a0 a1 : Z) (bs : list Z) : apacket :=
  fill_header (mkPacket (Z.of_nat (length bs)) 0
    (mkMsg A_WRTE a0 a1 (Z.of_nat (length bs)) 0 0) bs) bs.

Lemma remote_enqueue_run r ro po p pk tr w :
  w_sockets w !! r = Some ro → s_enqueue ro = remote_socket_enqueue_ →
  w_sockets w !! s_peer ro = Some po → w_packets w !! p = Some pk →
  p_len pk = Z.of_nat (length (p_data pk)) →
  w_transports w !! s_transport ro = Some tr → s_transport ro ≠ 0 →
  (4 ≤ wcap (wr_of (t_transport_write tr) (w_kern_of w)))%nat →
  ∃ k', call_enqueue r p w
      = Ok 1 (up_packets <[p := fill_header (msg_set A_WRTE (s_id po) (s_id ro) (p_len pk) pk) (p_data pk)]> (up_kern k' w))
    ∧ out_of (t_transport_write tr) k' = out_of (t_transport_write tr) (w_kern_of w) ++ le32 p
    ∧ same_but_wr (t_transport_write tr) (w_kern_of w) k'
    ∧ (wcap (wr_of (t_transport_write tr) k') = wcap (wr_of (t_transport_write tr) (w_kern_of w)) - 4)%nat.
Proof.
  intros Hr Hfn Hpo Hp Hlen Ht Ht0 Hcap. unfold call_enqueue. run (sock_at_run w r ro Hr). rewrite Hfn.
  unfold remote_socket_enqueue. run (sock_at_run w r ro Hr). run (sock_at_run w _ po Hpo).
  rewrite (bind_ok _ _ _ _ _ (pkt_put_run w p (λ pk, msg_set A_WRTE (s_id po) (s_id ro) (p_len pk) pk) pk Hp)).
  set (pk1 := msg_set _ _ _ _ pk). set (w1 := up_packets <[p := pk1]> w).
  destruct (send_packet_run w1 p pk1 (p_data pk) (s_transport ro) tr) as (k' & Hrun & Ho & Hk & Hcp);
    [apply lookup_insert_eq| |done..|].
  { unfold payload. cbn. rewrite Hlen, decide_True by lia. by rewrite Nat2Z.id, firstn_all. }
  run Hrun. exists k'. split_and!; [|done..]. unfold ret, w1, up_packets, up_kern; cbn. by rewrite insert_insert_eq.
Qed.

(** C7 Flow control towards the host.  When the descriptor of a stream is
    readable, as many bytes as are there, at most MAX_PAYLOAD, go out in one
    WRTE packet with the identifiers of both ends and the right checksum, and
    the descriptor is no longer watched for input: at most one packet is
    under way until the host answers.  The socket is closed after this only
    at the end of its input. *)
Theorem readable_sends_one d s r so ro tr w :
  stream_pair s r so ro tr w → s_enqueue ro = remote_socket_enqueue_ →
  let st := stream (rd_of d (w_kern_of w)) in
  let bs := take (Z.to_nat MAX_PAYLOAD) st in
  bs ≠ [] →
  ∃ eof w' f', socket_readable d s w = (when eof (call_close s);;; ret false) w'
    ∧ ((Z.to_nat MAX_PAYLOAD ≤ length st)%nat → eof = false)
    ∧ w_packets w' = <[next_loc (w_fd w) := data_packet (s_id so) (s_id ro) bs]> (w_packets w)
    ∧ out_of (t_transport_write tr) (w_kern_of w')
      = out_of (t_transport_write tr) (w_kern_of w) ++ le32 (next_loc (w_fd w))
    ∧ w_sockets w' = w_sockets w
    ∧ fdes (w_fd w') !! fde_of s = Some f' ∧ has (state f') FDE_READ = false ∧ fd_inv (w_fd w').
Proof.
  intros Hsp Hfn st bs Hbs. destruct Hsp as [Hs Hr (_ & _ & Hr0 & _) [Hp1 Hp2] _ [Ht Ht0] _ Hi [f Hf] _ _ _ _ Hoom Hcap].
  unfold socket_readable. run (get_apacket_run w Hoom). set (q := next_loc (w_fd w)).
  set (w1 := up_packets <[q := zero_packet]> (bumped w)).
  run (eq_refl : gets (λ w, length (rd_of d (w_kern_of w))) w1 = Ok _ w1). cbn beta.
  destruct (fill_packet_spec (2 + length (rd_of d (w_kern_of w1))) d (Z.to_nat MAX_PAYLOAD) [] w1)
    as (x & eof & k1 & Hrun1 & Hk1 & Heof & _); [unfold MAX_PAYLOAD; lia|lia|].
  change (w_kern_of w1) with (w_kern_of w) in *. run Hrun1. cbn [app].
  fold st bs. set (w2 := up_kern k1 w1).
  rewrite (bind_ok _ _ _ _ _ (pkt_put_run w2 q (λ pk, with_data pk bs) zero_packet (lookup_insert_eq _ _ _))).
  set (w3 := up_packets <[q := with_data zero_packet bs]> w2). run (sock_at_run w3 s so Hs).
  rewrite bool_decide_eq_false_2 by done. rewrite Hp1, (proj2 (Z.eqb_neq r 0)) by done. cbn [orb].
  rewrite !bind_assoc.
  rewrite (bind_ok _ _ _ _ _ (pkt_put_run w3 q (λ pk, with_len pk (Z.of_nat (length bs))) _ (lookup_insert_eq _ _ _))).
  set (pk4 := with_len (with_data zero_packet bs) _). set (w4 := up_packets <[q := pk4]> w3).
  destruct (remote_enqueue_run r ro so q pk4 tr w4) as (k5 & Hrun5 & Ho5 & Hk5 & _); try done.
  { by rewrite Hp2. } { apply lookup_insert_eq. }
  { change (w_kern_of w4) with k1. unfold wr_of. by rewrite (sbr_wr _ _ _ Hk1). }
  rewrite bind_assoc. run Hrun5. change (w_kern_of w4) with k1 in *. set (w5 := up_packets _ (up_kern k5 w4)).
  change (1 <? 0) with false. change (0 <? 1) with true. cbn [when]. cbv iota.
  destruct (del_read_run (w_fd w5) (fde_of s) f) as (f6 & f' & Hrun6 & (Hi6 & Hk6 & _) & Hf' & Hno).
  { by apply inv_upd_kern, inv_upd_kern, inv_upd_next_loc. } { exact Hf. }
  rewrite bind_assoc. run (FD_run w5 _ _ _ Hrun6). set (w6 := up_fd f6 w5).
  run (eq_refl : ret (1, false) w6 = Ok (1, false) w6). cbv iota.
  rewrite (bind_ok _ _ w6 f' w6); cycle 1.
  { rewrite (FD_run w6 _ f' f6); [done|]. by apply fde_at_ok. }
  change (1 =? 0) with false. rewrite andb_false_r. cbn [orb].
  exists eof, w6, f'. split_and!; try done.
  - unfold w6, w5, w4, w3, w2, w1. cbn. rewrite !insert_insert_eq. done.
  - change (w_kern_of w6) with (w_kern f6). rewrite Hk6. change (w_kern (w_fd w5)) with k5. rewrite Ho5.
    unfold out_of. by rewrite (sbr_out _ _ _ Hk1).
Qed.


End stream.

(** ** Examples *)

Module DemoStreams.
(** every service is a pipe with descriptor 5 *)
#[local] Instance services : Services := { service_to_fd _ := ret (Some (5, 5)) }.
#[local] Instance auth : Auth := no_auth.

Definition message (c a0 a1 : Z) (bs : list Z) : apacket :=
  fill_header (mkPacket 0 0 (mkMsg c a0 a1 (Z.of_nat (length bs)) 0 0) bs) bs.

(** the stream of sockets 32 and 80 can be read and written *)
Definition stream : world :=
  up_kern (set_rd 5 [RdData (str "hello"); RdErr EAGAIN] (set_wr 5 [WrOk 1; WrErr EAGAIN]
    (w_kern_of (DemoClosing.world [])))) (DemoClosing.world []).
(** packet 96 for it *)
Definition busy (c : Z) (bs : list Z) : world := up_packets <[96 := message c 7 1 bs]> stream.
(** the same without the stream, for a new one *)
Definition idle : world :=
  up_fd (upd_next_loc 112 (initial DemoClosing.kernel)) (up_next_id 2
    (up_disconnects id <[16 := []]> (up_packets <[96 := message A_OPEN 7 0 (str "shell:" ++ [0])]>
      (up_transports <[16 := DemoClosing.transport]> (start_world DemoClosing.kernel))))).
Definition handle : M world unit := handle_packet 96 16.
End DemoStreams.

Lemma demo_addressed c bs :
  addressed c 96 16 (DemoStreams.message c 7 1 bs) DemoClosing.transport 32 (DemoClosing.local_half [])
    (DemoStreams.busy c bs).
Proof.
  split; try reflexivity.
  - split_and!; try reflexivity. discriminate.
  - split; try (vm_compute; congruence).
    + apply NoDup_singleton.
    + intros s ->%list_elem_of_singleton. split; [done|]. vm_compute. eauto.
    + by intros s1 s2 ->%list_elem_of_singleton ->%list_elem_of_singleton.
    + intros s ->%list_elem_of_singleton. vm_compute. split; congruence.
  - split; [reflexivity|apply list_elem_of_here].
Qed.

(** an idle pair does not depend on packets *)
Lemma idle_pair_same s r so ro tr w f k : stream_pair s r so ro tr w → s_pkts so = [] →
  k_oom k = [] → (4 ≤ wcap (wr_of (t_transport_write tr) k))%nat →
  stream_pair s r so ro tr (up_packets f (up_kern k w)).
Proof.
  intros [A1 A2 A3 A4 A5 A6 A7 A8 A9 A10 A11 A12 A13 A14 A15] Hq Hoom Hcap. split; try done.
  - by apply inv_upd_kern.
  - rewrite Hq. by split; [apply NoDup_nil_2|intros q Hin; apply not_elem_of_nil in Hin].
Qed.

Lemma demo_busy_pair f :
  stream_pair 32 80 (DemoClosing.local_half []) DemoClosing.remote_half DemoClosing.transport
    (up_packets f DemoStreams.stream).
Proof.
  apply (idle_pair_same 32 80 _ _ _ (DemoClosing.world [])); [|reflexivity|vm_compute; reflexivity|vm_compute; lia].
  apply demo_pair. left. reflexivity.
Qed.

Lemma clse_closes_stream_witness : ∃ w',
  DemoStreams.handle (DemoStreams.busy A_CLSE []) = Ok tt w' ∧ w_sockets w' = ∅
  ∧ w_packets w' !! 112 = Some (control A_CLSE 0 7).
Proof.
  destruct (clse_closes_stream (SV := DemoStreams.services) (AU := no_auth) 96 16
    (DemoStreams.message A_CLSE 7 1 []) DemoClosing.transport 32 80
    (DemoClosing.local_half []) DemoClosing.remote_half (DemoStreams.busy A_CLSE []))
    as (w' & Hrun & Hs & _ & _ & _ & _ & _ & _ & Hp).
  - apply demo_addressed.
  - apply demo_busy_pair.
  - reflexivity.
  - reflexivity.
  - reflexivity.
  - exists w'. split; [exact Hrun|]. split; [rewrite Hs; vm_compute; reflexivity|exact Hp].
Defined.


(** descriptor 5 takes one byte and blocks: the other one waits *)
Lemma wrte_flow_control_witness : ∃ w',
  DemoStreams.handle (DemoStreams.busy A_WRTE (str "hi")) = Ok tt w'
  ∧ (out_of 5 (w_kern_of w') ++ queue_bytes w' [] = str "hi" ∨ out_of 5 (w_kern_of w') ++ queue_bytes w' [96] = str "hi").
Proof.
  destruct (wrte_flow_control (SV := DemoStreams.services) (AU := no_auth) 96 16
    (DemoStreams.message A_WRTE 7 1 (str "hi")) DemoClosing.transport 32 (DemoClosing.local_half []) (str "hi")
    (DemoStreams.busy A_WRTE (str "hi"))) as [(_ & n & k' & _ & _ & Hrun)|(w' & l' & Hrun & _ & Hb & Hc)].
  - apply demo_addressed.
  - split; try reflexivity.
    + split; [|apply not_elem_of_nil]. exact (sp_queue _ _ _ _ _ _ (demo_busy_pair _)).
    + split; [apply (sp_events _ _ _ _ _ _ (demo_busy_pair _))|].
      apply (sp_fde_s _ _ _ _ _ _ (demo_busy_pair _)).
    + vm_compute. lia.
    + discriminate.
  - vm_compute. reflexivity.
  - assert (∃ w', DemoStreams.handle (DemoStreams.busy A_WRTE (str "hi")) = Ok tt w'
      ∧ out_of 5 (w_kern_of w') ++ queue_bytes w' [96] = str "hi") as (w' & Hw & Hb)
      by (eexists; split; vm_compute; reflexivity).
    exists w'. split; [exact Hw|right; exact Hb].
  - exists w'. split; [exact Hrun|].
    destruct Hc as [(-> & _)|[-> _]]; [left|right]; exact Hb.
Defined.

Lemma readable_sends_one_witness : ∃ eof w',
  socket_readable 5 32 DemoStreams.stream = (when eof (call_close 32);;; ret false) w'
  ∧ w_packets w' !! 112 = Some (data_packet 1 7 (str "hello")).
Proof.
  destruct (readable_sends_one 5 32 80 (DemoClosing.local_half []) DemoClosing.remote_half
    DemoClosing.transport (DemoStreams.stream)) as (eof & w' & f' & Hrun & _ & Hp & _).
  - exact (demo_busy_pair id).
  - reflexivity.
  - vm_compute. discriminate.
  - exists eof, w'. split; [exact Hrun|]. rewrite Hp. apply lookup_insert_eq.
Defined.

Lemma demo_open_ready :
  open_ready (SV := DemoStreams.services) 96 16 (DemoStreams.message A_OPEN 7 0 (str "shell:" ++ [0]))
    DemoClosing.transport (str "shell:") 5 5 DemoClosing.kernel DemoStreams.idle.
Proof.
  split; try reflexivity.
  - eexists. split; vm_compute; reflexivity.
  - split_and!; [reflexivity|discriminate|reflexivity].
  - split; [split; [discriminate|reflexivity]|]. intros (_ & q & Hq & _). done.
  - vm_compute. lia.
  - split; reflexivity.
  - eexists. reflexivity.
  - split; [done|done| |done]. intros a Ha. change (112 ≤ a) in Ha.
    cbn. rewrite lookup_insert_ne by lia. apply lookup_empty.
  - apply inv_upd_next_loc, initial_inv.
Qed.

