(* ===== verification/TransportProps.v ===== *)
(** * Properties of transports

    Which transport acquire_one_transport chooses, how a transport is released
    by its two threads, and which packets the input thread lets through. *)

From S2P Require Import Prelude Kernel Packet DList Fdevent World Transport Sockets Adb Daemon Flow.

(** ** Choosing a transport *)

Section acquire.
Context (ttype : transport_type) (serial : option (list Z)).

(** the transports that may be used and match *)
Definition usable_match (w : world) (t : Z) : bool :=
  match w_transports w !! t with
  | Some tr => negb (t_connection_state tr =? CS_NOPERM) && bool_decide (is_Some (candidate ttype serial tr))
  | None => false
  end.
Definition matching (w : world) (l : list Z) : list Z := filter (λ t, usable_match w t) l.
Definition forbidden (w : world) (t : Z) : bool :=
  match w_transports w !! t with Some tr => t_connection_state tr =? CS_NOPERM | None => false end.

(** the message depends on what was asked for, not on the transports *)
Definition ambiguity : list Z :=
  match serial with
  | Some _ => str "more than one device"
  | None => match ttype with
            | kTransportUsb => str "more than one device"
            | kTransportLocal => str "more than one emulator"
            | _ => str "more than one device and emulator"
            end
  end.
Lemma candidate_message tr msg : candidate ttype serial tr = Some msg → msg = ambiguity.
Proof.
  unfold candidate, ambiguity. destruct serial; [case_match; congruence|].
  repeat case_bool_decide; destruct ttype; naive_solver congruence.
Qed.

(** what the choice has to be *)
Definition chosen (w : world) : Z * option (list Z) :=
  match matching w (transport_list w) with
  | [] => (0, Some (if existsb (forbidden w) (transport_list w)
                    then str "insufficient permissions for device" else str "device not found"))
  | [t] => if bool_decide (t_connection_state <$> w_transports w !! t = Some CS_OFFLINE)
           then (0, Some (str "device offline")) else (t, None)
  | _ :: _ :: _ => (0, Some ambiguity)
  end.

Definition registered (w : world) (l : list Z) : Prop :=
  ∀ t, t ∈ l → t ≠ 0 ∧ is_Some (w_transports w !! t).

Lemma matching_cons w t l : matching w (t :: l) =
  if usable_match w t then t :: matching w l else matching w l.
Proof. unfold matching. rewrite filter_cons. destruct (usable_match w t); by case_decide. Qed.
Lemma usable_value w t tr : w_transports w !! t = Some tr → usable_match w t =
  if t_connection_state tr =? CS_NOPERM then false
  else match candidate ttype serial tr with Some _ => true | None => false end.
Proof.
  intros H. unfold usable_match. rewrite H. destruct (_ =? _); [done|].
  by destruct (candidate ttype serial tr).
Qed.
Lemma registered_cons w t l : registered w (t :: l) →
  t ≠ 0 ∧ (∃ tr, w_transports w !! t = Some tr) ∧ registered w l.
Proof.
  intros Hl. destruct (Hl t) as [Ht Htr]; [apply list_elem_of_here|]. split_and!; [done..|].
  intros t' ?. apply Hl. by apply list_elem_of_further.
Qed.

Lemma pick_found w l t0 e : registered w l → t0 ≠ 0 →
  ∃ e', pick_transport l ttype serial (mkPick t0 false e) w
    = Ok (match matching w l with
          | [] => mkPick t0 false e'
          | _ :: _ => mkPick 0 true (Some ambiguity)
          end) w.
Proof.
  intros Hl H0. revert e. induction l as [|t l IH]; intros e; [by exists e|].
  apply registered_cons in Hl as (Ht & (tr & Htr) & Hl).
  cbn [pick_transport]. run (trans_at_run w t tr Htr).
  rewrite matching_cons, (usable_value w t tr Htr). destruct (_ =? CS_NOPERM); [by apply IH|].
  destruct (candidate ttype serial tr) as [msg|] eqn:Hc; [|by apply IH].
  apply candidate_message in Hc as ->. cbn [pk_result]. rewrite (proj2 (Z.eqb_neq t0 0) H0).
  by exists None.
Qed.

Lemma pick_first w l e : registered w l →
  ∃ e', pick_transport l ttype serial (mkPick 0 false (Some e)) w
    = Ok (match matching w l with
          | [] => mkPick 0 false (Some (if existsb (forbidden w) l
                    then str "insufficient permissions for device" else e))
          | [t] => mkPick t false e'
          | _ :: _ :: _ => mkPick 0 true (Some ambiguity)
          end) w.
Proof.
  intros Hl. revert e. induction l as [|t l IH]; intros e; [by exists None|].
  apply registered_cons in Hl as (Ht & (tr & Htr) & Hl).
  cbn [pick_transport existsb]. run (trans_at_run w t tr Htr).
  rewrite matching_cons, (usable_value w t tr Htr). unfold forbidden at 1. rewrite Htr.
  destruct (_ =? CS_NOPERM).
  { destruct (IH Hl (str "insufficient permissions for device")) as (e' & H). exists e'.
    cbn [orb pk_result pk_ambiguous]. rewrite H. by destruct (existsb _ l). }
  destruct (candidate ttype serial tr) as [msg|] eqn:Hc; [|by apply IH].
  cbn [pk_result pk_ambiguous pk_error Z.eqb negb].
  destruct (pick_found w l t (Some e) Hl Ht) as (e' & ->). exists e'. by destruct (matching w l).
Qed.

Lemma matching_registered w l t : t ∈ matching w l → registered w l →
  t ≠ 0 ∧ ∃ tr, w_transports w !! t = Some tr.
Proof. unfold matching. rewrite list_elem_of_filter. intros [_ Hin] Hl. by apply Hl. Qed.

(** With no state asked for, acquire_one_transport returns the transport
    that matches the serial number or the kind if there is exactly one and it
    is not offline, and otherwise NULL with the message that says why: none,
    none that may be used, several, offline.  It does not wait and leaves the
    daemon as it was. *)
Theorem acquire_any_unique fuel w :
  transport_lock w = false → registered w (transport_list w) →
  acquire_one_transport fuel CS_ANY ttype serial w = Ok (chosen w) w.
Proof.
  intros Hlock Hreg. set (w1 := up_transport_lock true w).
  assert (Hl : lock_transports w = Ok tt w1)
    by (unfold lock_transports, bind, gets; by rewrite Hlock).
  assert (Hw : up_transport_lock false w1 = w) by (destruct w; cbn in *; by subst).
  destruct (pick_first w1 (transport_list w) (str "device not found") Hreg) as (e' & Hp).
  change (matching w1 (transport_list w)) with (matching w (transport_list w)) in Hp.
  change (existsb (forbidden w1)) with (existsb (forbidden w)) in Hp.
  assert (Hpass : acquire_pass CS_ANY ttype serial false w
    = Ok (mkPick (chosen w).1 (match matching w (transport_list w) with _ :: _ :: _ => true | _ => false end)
            (chosen w).2, true) w).
  { unfold acquire_pass. run Hl.
    run (eq_refl : gets transport_list w1 = Ok (transport_list w) w1). run Hp.
    run (eq_refl : unlock_transports w1 = Ok tt (up_transport_lock false w1)). rewrite Hw. unfold chosen.
    pose proof (λ t, matching_registered w (transport_list w) t) as Hm.
    destruct (matching w (transport_list w)) as [|t [|]]; [done| |done].
    destruct (Hm t (list_elem_of_here _ _) Hreg) as [Ht (tr & Htr)]. cbn [pk_result].
    rewrite (proj2 (Z.eqb_neq t 0) Ht), bind_assoc. run (trans_at_run w t tr Htr). rewrite Htr. cbn -[bind].
    destruct (Z.eqb_spec (t_connection_state tr) CS_OFFLINE) as [He|He].
    - by rewrite bool_decide_eq_true_2 by congruence.
    - rewrite bool_decide_eq_false_2 by congruence. cbn -[bind]. unfold bind, ret; cbn.
      by rewrite (proj2 (Z.eqb_neq t 0) Ht). }
  unfold acquire_one_transport. destruct fuel; cbn [acquire_loop]; run Hpass; by destruct (chosen w).
Qed.
End acquire.

(** ** Releasing a transport *)

(** [n] threads ask for the end of the connection *)
Fixpoint kicks (n : nat) (t : Z) : M world unit :=
  match n with O => ret tt | S n' => kick_transport t;;; kicks n' t end.

Definition unref_count (t : Z) : M world unit :=
  trans_put t (λ tr, to_ref_count (t_ref_count tr - 1) tr).

(** the link is shut down once, closed once, and the removal is announced once,
    under the lock *)
Definition release_once (t : Z) : M world unit :=
  trans_put t (to_kicked true);;; remote_kick t;;;
  unref_count t;;;
  lock_transports;;; unref_count t;;; remote_close t;;; remove_transport t;;; unlock_transports.

(** kicked transports with [n] references, and the lock free *)
Definition held (t : Z) (kicked : bool) (n : Z) (w : world) : Prop :=
  transport_lock w = false ∧
  ∃ tr, w_transports w !! t = Some tr ∧ t_kicked tr = kicked ∧ t_ref_count tr = n.

Lemma trans_put_run w t f tr : w_transports w !! t = Some tr →
  trans_put t f w = Ok tt (up_transports <[t := f tr]> w).
Proof.
  intros H. unfold trans_put. run (trans_at_run w t tr H). unfold modify, up_transports.
  do 2 f_equal. apply map_eq. intros t'. destruct (decide (t' = t)) as [->|Hne].
  - by rewrite lookup_alter_eq, lookup_insert_eq, H.
  - by rewrite lookup_alter_ne, lookup_insert_ne.
Qed.

(** the count, the flag and the lock are no business of the link *)
Definition same_life (t : Z) (w w' : world) : Prop :=
  transport_lock w' = transport_lock w ∧
  (λ tr, (t_kicked tr, t_ref_count tr)) <$> w_transports w' !! t
    = (λ tr, (t_kicked tr, t_ref_count tr)) <$> w_transports w !! t.
#[export] Instance same_life_preorder t : PreOrder (same_life t).
Proof. split; [done|]. intros ??? [A1 B1] [A2 B2]. split; by etrans. Qed.

Lemma same_life_FD {A} t (m : M fdw A) : keeps (same_life t) (FD m).
Proof. apply (keeps_zoom (λ _ _, True)); done. Qed.
Lemma same_life_links t h g : keeps (same_life t) (trans_put t (λ tr, to_links (h tr) (g tr) tr)).
Proof.
  unfold trans_put, trans_at. apply keeps_bind; [apply _|apply keeps_deref, _|]. intros _.
  apply keeps_modify. intros w. split; [done|]. cbn. rewrite lookup_alter_eq. by destruct (_ !! t).
Qed.

Lemma kick_keeps_life t : keeps (same_life t) (remote_kick t).
Proof.
  assert (Hu : ∀ h f, keeps (same_life t) (usb_put h f)).
  { intros h f. unfold usb_put, usb_at. repeat keeps_step. by apply keeps_modify. }
  unfold remote_kick, usb_kick, usb_adb_kick, usb_ffs_kick, local_remote_kick, usb_at, trans_at, KW.
  repeat first [apply same_life_FD | apply Hu | apply (same_life_links t t_usb (λ _, -1)) | keeps_step].
Qed.

Lemma same_life_held t b n w w' : same_life t w w' → held t b n w → held t b n w'.
Proof.
  intros [Hl He] (Hlock & tr & Htr & <- & <-). split; [congruence|]. rewrite Htr in He. cbn in He.
  destruct (w_transports w' !! t) as [tr'|]; [|done]. exists tr'. split; [done|]. by injection He.
Qed.

Lemma lock_transports_run w : transport_lock w = false →
  lock_transports w = Ok tt (up_transport_lock true w).
Proof. intros H. unfold lock_transports, bind, gets. by rewrite H. Qed.
Lemma unlock_transports_put f w : transport_lock w = false →
  unlock_transports (up_transports f (up_transport_lock true w)) = Ok tt (up_transports f w).
Proof. intros H. unfold unlock_transports, modify. f_equal. destruct w; cbn in *. by subst. Qed.

Lemma kick_again t n w : t ≠ 0 → held t true n w → kick_transport t w = Ok tt w.
Proof.
  intros H0 (_ & tr & Htr & Hk & _). unfold kick_transport. rewrite (proj2 (Z.eqb_neq t 0) H0).
  run (trans_at_run w t tr Htr). by rewrite Hk.
Qed.
Lemma kicks_again k t n w : t ≠ 0 → held t true n w → kicks k t w = Ok tt w.
Proof. intros H0 Hh. induction k; cbn [kicks]; [done|]. by run (kick_again t n w H0 Hh). Qed.

Definition kick_once (t : Z) : M world unit := trans_put t (to_kicked true);;; remote_kick t.

Lemma kick_first t n w : t ≠ 0 → held t false n w → kick_transport t w = kick_once t w.
Proof.
  intros H0 (Hl & tr & Htr & Hk & _). unfold kick_transport, kick_once. rewrite (proj2 (Z.eqb_neq t 0) H0).
  run (trans_at_run w t tr Htr). rewrite Hk. run (lock_transports_run w Hl).
  run (trans_at_run (up_transport_lock true w) t tr Htr). rewrite Hk. cbn [negb when].
  rewrite (bind_ok _ _ _ _ _ (trans_put_run (up_transport_lock true w) t (to_kicked true) tr Htr)).
  by rewrite (bind_ok _ _ _ _ _ (unlock_transports_put _ w Hl)),
    (bind_ok _ _ _ _ _ (trans_put_run w t (to_kicked true) tr Htr)).
Qed.
Lemma kick_once_held t n w w' : held t false n w → kick_once t w = Ok tt w' → held t true n w'.
Proof.
  intros (Hl & tr & Htr & _ & Hn) H. unfold kick_once in H.
  rewrite (bind_ok _ _ _ _ _ (trans_put_run w t (to_kicked true) tr Htr)) in H.
  pose proof (kick_keeps_life t (up_transports <[t := to_kicked true tr]> w)) as Hk.
  rewrite H in Hk. eapply same_life_held; [exact Hk|]. split; [done|].
  exists (to_kicked true tr). split; [apply lookup_insert_eq|done].
Qed.

(** any number of kicks before the first thread ends, this thread's included *)
Lemma kicks_first {A} k t n (m : M world A) w : t ≠ 0 → held t false n w →
  (kicks k t;;; kick_transport t;;; m) w = (kick_once t;;; m) w.
Proof.
  intros H0 Hh. destruct k as [|k]; cbn [kicks].
  { run (eq_refl : ret tt w = Ok tt w). apply bind_same. by apply (kick_first t n). }
  rewrite bind_assoc, (bind_same _ _ _ w w (kick_first t n w H0 Hh)). unfold bind at 1 4.
  destruct (kick_once t w) as [[] w'| |] eqn:E; [|done..].
  apply (kick_once_held t n w w' Hh) in E as Hh'. run (kicks_again k t n w' H0 Hh').
  by run (kick_again t n w' H0 Hh').
Qed.

Lemma unref_first t n w : t ≠ 0 → held t true n w → n ≠ 1 →
  ∃ w', transport_unref t w = Ok tt w' ∧ unref_count t w = Ok tt w' ∧ held t true (n - 1) w'.
Proof.
  intros H0 (Hl & tr & Htr & Hk & Hn) H1. unfold transport_unref, transport_unref_locked, unref_count.
  rewrite (proj2 (Z.eqb_neq t 0) H0). run (lock_transports_run w Hl). set (w1 := up_transport_lock true w).
  set (f := λ tr, to_ref_count (t_ref_count tr - 1) tr). rewrite !bind_assoc.
  rewrite (bind_ok _ _ _ _ _ (trans_put_run w1 t f tr Htr)), bind_assoc.
  run (trans_at_run (up_transports <[t := f tr]> w1) t (f tr) (lookup_insert_eq _ _ _)).
  change (t_ref_count (f tr)) with (t_ref_count tr - 1). rewrite Hn, (proj2 (Z.eqb_neq (n - 1) 0)) by lia.
  exists (up_transports <[t := f tr]> w). split_and!.
  - exact (unlock_transports_put _ w Hl).
  - by apply trans_put_run.
  - split; [done|]. exists (f tr). split; [apply lookup_insert_eq|]. by rewrite <- Hn.
Qed.

Lemma unref_last t w : t ≠ 0 → held t true 1 w →
  transport_unref t w =
  (lock_transports;;; unref_count t;;; remote_close t;;; remove_transport t;;; unlock_transports) w.
Proof.
  intros H0 (Hl & tr & Htr & Hk & Hn). unfold transport_unref, transport_unref_locked, unref_count.
  rewrite (proj2 (Z.eqb_neq t 0) H0). run (lock_transports_run w Hl). set (w1 := up_transport_lock true w).
  run (lock_transports_run w Hl). fold w1.
  set (f := λ tr, to_ref_count (t_ref_count tr - 1) tr). rewrite !bind_assoc.
  rewrite (bind_ok _ _ _ _ _ (trans_put_run w1 t f tr Htr)), bind_assoc.
  run (trans_at_run (up_transports <[t := f tr]> w1) t (f tr) (lookup_insert_eq _ _ _)).
  rewrite (bind_ok _ _ _ _ _ (trans_put_run w1 t f tr Htr)).
  change (t_ref_count (f tr)) with (t_ref_count tr - 1). change (t_kicked (f tr)) with (t_kicked tr).
  rewrite Hn, Hk. change (1 - 1 =? 0) with true. cbn [negb]. rewrite bind_assoc.
  run (eq_refl : ret tt (up_transports <[t := f tr]> w1) = Ok tt _). by rewrite bind_assoc.
Qed.

(** C17 A transport is released once: however many kicks come from anywhere
    before its first thread ends and between the ends of its two threads, the
    daemon does exactly what [release_once] does, one shutdown of the link, one
    close and one announcement of the removal, also when a step of it fails. *)
Theorem transport_released_once t k1 k2 w : t ≠ 0 → held t false 2 w →
  (kicks k1 t;;; thread_exit t;;; kicks k2 t;;; thread_exit t) w = release_once t w.
Proof.
  intros H0 Hh. unfold thread_exit.
  assert (Ha : ∀ m : M world unit,
    (kicks k1 t;;; (kick_transport t;;; transport_unref t);;; m) w
    = (kicks k1 t;;; kick_transport t;;; transport_unref t;;; m) w).
  { intros m. unfold bind at 1 4. destruct (kicks k1 t w) as [[] w1| |]; [|done..]. apply bind_assoc. }
  rewrite Ha, (kicks_first k1 t 2 _ w H0 Hh). unfold release_once.
  rewrite <- (bind_assoc (trans_put t (to_kicked true)) (λ _, remote_kick t)).
  change (trans_put t (to_kicked true);;; remote_kick t) with (kick_once t).
  unfold bind at 1 5. destruct (kick_once t w) as [[] w1| |] eqn:E; [|done..].
  apply (kick_once_held t 2 w w1 Hh) in E as Hh1.
  destruct (unref_first t 2 w1 H0 Hh1) as (w2 & Hu & Hc & Hh2); [done|].
  run Hu. run Hc. run (kicks_again k2 t _ w2 H0 Hh2). run (kick_again t _ w2 H0 Hh2).
  by apply unref_last.
Qed.

Module DemoTransport.
Definition kernel : kern := mkKern 0 ∅ {[ 20 := [WrOk 40] ]} ∅ [] [] [].
(** a TCP connection on descriptor 9, not yet kicked *)
Definition transport (k : bool) (n : Z) : atransport :=
  mkTrans 10 12 13 11 n 1 CS_DEVICE true kTransportLocal 0 9 (Some (str "host")) None None None None 0
    k (replicate 20 0) 0.
Definition world : world :=
  up_registration 20 21 (up_transport_list [16] (up_transports <[16 := transport false 2]>
    (start_world kernel))).
End DemoTransport.

Lemma transport_released_once_witness :
  (kicks 3 16;;; thread_exit 16;;; kicks 2 16;;; thread_exit 16) DemoTransport.world
    = release_once 16 DemoTransport.world
  ∧ k_trace (w_kern_of (final (release_once 16 DemoTransport.world)))
    = (λ d, Sys d.1 [AZ d.2]) <$> [("shutdown", 9); ("close", 9); ("close", 10); ("close", 12);
        ("close", 13); ("close", 11)]%string.
Proof.
  split; [|vm_compute; reflexivity]. apply transport_released_once; [discriminate|].
  split; [reflexivity|]. exists (DemoTransport.transport false 2). split_and!; reflexivity.
Defined.

Lemma acquire_any_unique_witness :
  acquire_one_transport 0 CS_ANY kTransportAny (Some (str "host")) DemoTransport.world
    = Ok (16, None) DemoTransport.world
  ∧ acquire_one_transport 0 CS_ANY kTransportUsb None DemoTransport.world
    = Ok (0, Some (str "device not found")) DemoTransport.world.
Proof.
  assert (H : registered DemoTransport.world (transport_list DemoTransport.world)).
  { intros t ->%list_elem_of_singleton. split; [discriminate|]. vm_compute. eauto. }
  split; (etransitivity; [apply acquire_any_unique; [reflexivity|exact H]|]); vm_compute; reflexivity.
Defined.

(** ** The input thread

    Packets for the remote end come through a pipe.  Those of an earlier
    connection are still in it when a connection is restarted; a SYNC packet
    with the new token marks where the packets of the new one begin. *)

Fixpoint input_run (n : nat) (t : Z) (active : bool) : M world (option bool) :=
  match n with
  | O => ret (Some active)
  | S n' =>
      do r <- input_thread_step t active;
      match r with None => ret None | Some active => input_run n' t active end
  end.

Definition is_sync (pk : apacket) : bool := command (p_msg pk) =? A_SYNC.
(** the SYNC packet that opens the connection with token [k] *)
Definition opens (k : Z) (pk : apacket) : bool := is_sync pk && (arg1 (p_msg pk) =? k).
Definition wire (pk : apacket) : list Z :=
  msg_bytes (p_msg pk) ++ default [] (payload pk (data_length (p_msg pk))).
(** a packet in the pipe: allocated, its payload written, no end marker *)
Definition queued (w : world) (p : Z) (pk : apacket) : Prop :=
  w_packets w !! p = Some pk ∧ is_Some (payload pk (data_length (p_msg pk))) ∧ 0 ≤ p < 2 ^ 32
  ∧ (is_sync pk = true → arg0 (p_msg pk) ≠ 0).

(** the bytes that go out *)
Fixpoint sent (k : Z) (active : bool) (pks : list apacket) : list Z :=
  match pks with
  | [] => []
  | pk :: pks' =>
      (if active && negb (is_sync pk) then wire pk else []) ++ sent k (active || opens k pk) pks'
  end.

Lemma read_packet_run d p rest k : 0 ≤ p < 2 ^ 32 → stream (rd_of d k) = le32 p ++ rest →
  ∃ k', read_packet d k = Ok (Some p) k' ∧ stream (rd_of d k') = rest ∧ same_but_rd d k k'.
Proof.
  intros Hp Hst. destruct (readx_exact d k _ _ Hst) as (k' & Hr & Hst' & Hs).
  rewrite length_le32 in Hr. exists k'. unfold read_packet. run Hr. split; [|done].
  cbn [fmap option_fmap option_map]. pose proof (get32_le32 p []) as Hg.
  rewrite app_nil_r, u32_id in Hg by done. by rewrite Hg.
Qed.

(** [d] is where the bytes for the remote end go: the socket, or the endpoint of
    a FunctionFS handle *)
Definition link_out (w : world) (tr : atransport) (d : Z) : Prop :=
  match t_type tr with
  | kTransportUsb => ∃ h, w_usb w !! t_usb tr = Some h ∧ Usb.impl h = Usb.usb_ffs ∧ d = Usb.bulk_in h
  | _ => d = t_sfd tr
  end.

Lemma t_write_run w t tr d pk body : w_transports w !! t = Some tr → link_out w tr d →
  payload pk (data_length (p_msg pk)) = Some body →
  let bs := msg_bytes (p_msg pk) ++ body in
  (length bs ≤ wcap (wr_of d (w_kern_of w)))%nat →
  ∃ k', t_write_to_remote pk t w = Ok true (up_kern k' w)
    ∧ out_of d k' = out_of d (w_kern_of w) ++ bs
    ∧ wcap (wr_of d k') = (wcap (wr_of d (w_kern_of w)) - length bs)%nat
    ∧ same_but_wr d (w_kern_of w) k'.
Proof.
  intros Ht Hl Hb bs Hc. unfold t_write_to_remote. run (trans_at_run w t tr Ht). unfold link_out in Hl.
  assert (Hlen : length bs = (sizeof_amessage + length body)%nat) by apply length_app.
  destruct (t_type tr).
  1:{ destruct Hl as (h & Hh & Hi & ->). rewrite Hlen in *.
    destruct (ffs_remote_write_spec h pk body (w_kern_of w) Hi Hb Hc) as (k' & Hw & Hs & Ho & Hc').
    exists k'. run (usb_at_run w _ h Hh). split_and!; [by apply KW_run|done..]. }
  all: subst d; destruct (writex_exact _ _ _ Hc) as (k' & Hw & Ho & Hc' & Hs); exists k';
    (split; [apply KW_run; unfold TransportLocal.remote_write; rewrite Hb; exact Hw|done]).
Qed.

(** what the thread leaves alone *)
Record pumped (p : Z) (w w' : world) : Prop := {
  pm_packets : w_packets w' = delete p (w_packets w);
  pm_transports : w_transports w' = w_transports w;
  pm_usb : w_usb w' = w_usb w;
}.

Lemma input_step t tr d active p pk rest w :
  w_transports w !! t = Some tr → link_out w tr d → queued w p pk →
  stream (rd_of (t_fd_read tr) (w_kern_of w)) = le32 p ++ rest →
  (length (sent (t_sync_token tr) active [pk]) ≤ wcap (wr_of d (w_kern_of w)))%nat →
  ∃ w', input_thread_step t active w = Ok (Some (active || opens (t_sync_token tr) pk)) w'
    ∧ pumped p w w' ∧ stream (rd_of (t_fd_read tr) (w_kern_of w')) = rest
    ∧ out_of d (w_kern_of w')
      = out_of d (w_kern_of w) ++ sent (t_sync_token tr) active [pk]
    ∧ wcap (wr_of d (w_kern_of w'))
      = (wcap (wr_of d (w_kern_of w)) - length (sent (t_sync_token tr) active [pk]))%nat.
Proof.
  intros Ht Hty (Hp & [body Hb] & Hr & Hs) Hst Hcap. cbn [sent] in *. rewrite !app_nil_r in *.
  destruct (read_packet_run _ _ _ _ Hr Hst) as (k1 & Hread & Hst1 & Hk1).
  assert (Hwr : wr_of d k1 = wr_of d (w_kern_of w)) by (unfold wr_of; by rewrite (sbr_wr _ _ _ Hk1)).
  assert (Ho : out_of d k1 = out_of d (w_kern_of w)) by (unfold out_of; by rewrite (sbr_out _ _ _ Hk1)).
  unfold input_thread_step. run (trans_at_run w t tr Ht). run (KW_run w _ _ _ Hread).
  set (w1 := up_kern k1 w). run (pkt_at_run w1 p pk Hp).
  unfold opens. unfold is_sync in *. destruct (Z.eqb_spec (command (p_msg pk)) A_SYNC) as [Hc|Hc].
  - rewrite (proj2 (Z.eqb_neq (arg0 (p_msg pk)) 0)) by auto. run (trans_at_run w1 t tr Ht).
    run (put_run p pk w1 Hp). exists (up_packets (delete p) w1). rewrite andb_false_r. cbn [length].
    split_and!; [|done|done| |].
    + unfold ret. do 2 f_equal. cbn [andb]. destruct active, (_ =? _); done.
    + rewrite app_nil_r. exact Ho.
    + rewrite Nat.sub_0_r, <- Hwr. done.
  - rewrite andb_true_r in *. rewrite orb_false_r. destruct active.
    + unfold wire in *. rewrite Hb in *. cbn [default] in *. rewrite <- Hwr in Hcap.
      destruct (t_write_run w1 t tr d pk body Ht Hty Hb Hcap) as (k2 & Hwrite & Ho2 & Hc2 & Hk2).
      change (w_kern_of w1) with k1 in Ho2, Hc2, Hk2.
      rewrite bind_assoc. run Hwrite. cbn [ret]. run (eq_refl : ret tt (up_kern k2 w1) = Ok tt _).
      run (put_run p pk (up_kern k2 w1) Hp). exists (up_packets (delete p) (up_kern k2 w1)).
      split_and!; [done|done| | |].
      * change (w_kern_of _) with k2. unfold rd_of. rewrite (sbw_rd _ _ _ Hk2). exact Hst1.
      * change (w_kern_of (up_packets _ _)) with k2. by rewrite Ho2, Ho.
      * change (w_kern_of (up_packets _ _)) with k2. by rewrite Hc2, Hwr.
    + run (eq_refl : ret tt w1 = Ok tt w1). run (put_run p pk w1 Hp).
      exists (up_packets (delete p) w1). cbn [andb length]. split_and!; [done|done|done| |].
      * by rewrite app_nil_r.
      * by rewrite Nat.sub_0_r, <- Hwr.
Qed.

Lemma queued_delete w w' p l pks : pumped p w w' → p ∉ l → Forall2 (queued w) l pks →
  Forall2 (queued w') l pks.
Proof.
  intros Hpm Hnin H. induction H as [|q pk l pks (Hq & Hrest) _ IH]; constructor.
  - split; [|done]. rewrite (pm_packets _ _ _ Hpm), lookup_delete_ne; [done|]. intros ->.
    apply Hnin, list_elem_of_here.
  - apply IH. intros Hin. apply Hnin. by apply list_elem_of_further.
Qed.

Lemma input_run_spec t tr d more ps pks :
  ∀ active w, w_transports w !! t = Some tr → link_out w tr d → NoDup ps → Forall2 (queued w) ps pks →
  stream (rd_of (t_fd_read tr) (w_kern_of w)) = concat (le32 <$> ps) ++ more →
  (length (sent (t_sync_token tr) active pks) ≤ wcap (wr_of d (w_kern_of w)))%nat →
  ∃ w', input_run (length ps) t active w
      = Ok (Some (active || existsb (opens (t_sync_token tr)) pks)) w'
    ∧ out_of d (w_kern_of w')
      = out_of d (w_kern_of w) ++ sent (t_sync_token tr) active pks
    ∧ stream (rd_of (t_fd_read tr) (w_kern_of w')) = more
    ∧ (∀ p, w_packets w' !! p = if decide (p ∈ ps) then None else w_packets w !! p)
    ∧ w_transports w' = w_transports w.
Proof.
  revert pks. induction ps as [|p ps IH]; intros pks active w Ht Hl Hnd Hq Hst Hcap.
  { apply Forall2_nil_inv_l in Hq as ->. exists w. cbn. rewrite orb_false_r, app_nil_r. done. }
  apply Forall2_cons_inv_l in Hq as (pk & pks' & Hp & Hq & ->).
  apply list.NoDup_cons in Hnd as [Hnin Hnd]. rewrite fmap_cons in Hst. cbn [concat] in Hst.
  rewrite <- app_assoc in Hst. set (k := t_sync_token tr) in *.
  assert (Hone : sent k active [pk] = if active && negb (is_sync pk) then wire pk else [])
    by (cbn; by rewrite app_nil_r).
  cbn [sent] in Hcap |- *. rewrite <- Hone in Hcap |- *. rewrite length_app in Hcap.
  destruct (input_step t tr d active p pk _ w Ht Hl Hp Hst) as (w1 & Hrun & Hpm & Hst1 & Ho1 & Hc1);
    [fold k; lia|]. fold k in Hrun, Ho1, Hc1.
  destruct (IH pks' (active || opens k pk) w1) as (w2 & Hrun2 & Ho2 & Hst2 & Hp2 & Ht2);
    [by rewrite (pm_transports _ _ _ Hpm)|unfold link_out; by rewrite (pm_usb _ _ _ Hpm)|done|by eapply queued_delete|done|lia|].
  exists w2. cbn [length input_run existsb]. run Hrun. rewrite Hrun2, orb_assoc.
  split_and!; [done|by rewrite Ho2, Ho1, app_assoc|done| |by rewrite Ht2, (pm_transports _ _ _ Hpm)].
  intros q. rewrite Hp2, (pm_packets _ _ _ Hpm). destruct (decide (q = p)) as [->|Hne].
  - rewrite (decide_True (P := p ∈ p :: ps)) by apply list_elem_of_here.
    case_decide; [done|apply lookup_delete_eq].
  - rewrite lookup_delete_ne by done. apply decide_ext. rewrite elem_of_cons. naive_solver.
Qed.

Lemma sent_active k pks : sent k true pks = concat (wire <$> filter (λ pk, is_sync pk = false) pks).
Proof.
  induction pks as [|pk pks IH]; [done|]. cbn [sent orb andb]. rewrite filter_cons, IH.
  destruct (is_sync pk); by case_decide.
Qed.
Lemma sent_gate k pre s post : Forall (λ pk, opens k pk = false) pre → opens k s = true →
  sent k false (pre ++ s :: post) = concat (wire <$> filter (λ pk, is_sync pk = false) post).
Proof.
  intros Hpre Hs. induction Hpre as [|pk pre Hpk _ IH]; cbn [app sent orb andb].
  - by rewrite Hs, sent_active.
  - by rewrite Hpk, IH.
Qed.

(** C16 The input thread of a new connection, over a socket or a FunctionFS
    link, lets nothing of an earlier one through.  With packets in its pipe of which [s] is the first SYNC packet
    with the token of the connection, it drops everything before [s], writes
    the packets after it to the link in order, complete and nothing else, and
    frees every packet once. *)
Theorem input_thread_gate t tr d ps pre s post more w :
  w_transports w !! t = Some tr → link_out w tr d → NoDup ps →
  Forall2 (queued w) ps (pre ++ s :: post) →
  Forall (λ pk, opens (t_sync_token tr) pk = false) pre → opens (t_sync_token tr) s = true →
  stream (rd_of (t_fd_read tr) (w_kern_of w)) = concat (le32 <$> ps) ++ more →
  let data := concat (wire <$> filter (λ pk, is_sync pk = false) post) in
  (length data ≤ wcap (wr_of d (w_kern_of w)))%nat →
  ∃ w', input_run (length ps) t false w = Ok (Some true) w'
    ∧ out_of d (w_kern_of w') = out_of d (w_kern_of w) ++ data
    ∧ stream (rd_of (t_fd_read tr) (w_kern_of w')) = more
    ∧ (∀ p, w_packets w' !! p = if decide (p ∈ ps) then None else w_packets w !! p).
Proof.
  intros Ht Hty Hnd Hq Hpre Hs Hst data Hcap.
  assert (Hd : sent (t_sync_token tr) false (pre ++ s :: post) = data) by by apply sent_gate.
  destruct (input_run_spec t tr d more ps _ false w Ht Hty Hnd Hq Hst) as (w' & Hrun & Ho & Hst' & Hp & _);
    [by rewrite Hd|].
  exists w'. rewrite Hd in Ho. split_and!; [|done..]. rewrite Hrun, existsb_app. cbn [existsb].
  by rewrite Hs, orb_true_r.
Qed.

Module DemoGate.
Definition data (c : Z) : apacket := fill_header (mkPacket 0 0 (mkMsg A_OKAY c 2 0 0 0) []) [].
Definition sync (k : Z) : apacket := sync_msg 1 k zero_packet.
(** an old packet, the marker of connection 1, a new packet *)
Definition packets : list apacket := [data 7; sync 1; data 8].
Definition kernel : kern :=
  mkKern 0 {[ 10 := [RdData (concat (le32 <$> [32; 48; 64]))] ]} {[ 9 := [WrOk 100] ]} ∅ [] [] [].
Definition world : world :=
  up_packets (λ _, list_to_map (zip [32; 48; 64] packets))
    (up_transports <[16 := DemoTransport.transport false 2]> (start_world kernel)).
End DemoGate.

Lemma input_thread_gate_witness : ∃ w',
  input_run 3 16 false DemoGate.world = Ok (Some true) w'
  ∧ out_of 9 (w_kern_of w') = msg_bytes (p_msg (DemoGate.data 8)).
Proof.
  destruct (input_thread_gate 16 (DemoTransport.transport false 2) 9 [32; 48; 64] [DemoGate.data 7]
    (DemoGate.sync 1) [DemoGate.data 8] [] DemoGate.world) as (w' & Hrun & Ho & _).
  - reflexivity.
  - reflexivity.
  - apply (bool_decide_eq_true_1 (NoDup [32; 48; 64])). reflexivity.
  - repeat constructor; cbn; try (vm_compute; congruence); vm_compute; eauto.
  - repeat constructor.
  - reflexivity.
  - reflexivity.
  - vm_compute. lia.
  - exists w'. split; [exact Hrun|]. etransitivity; [exact Ho|]. vm_compute. reflexivity.
Defined.
