(* ===== verification/Pipeline.v ===== *)
(** * From the link to the main thread

    The output thread of a transport turns the bytes of its link into packets
    and hands them, by address, to the main thread through a pipe; the input
    thread of the remote end made those bytes of the packets its own main
    thread had put into its pipe.  This file composes the two: a reference
    parser of the byte stream, the output thread as that parser, and the way
    of the packets from one main thread to the other. *)

From S2P Require Import Prelude Kernel Packet DList Fdevent World Transport Sockets Adb Daemon Flow Closing TransportProps.

(** ** The reference parser *)

(** the payload that follows the header [m], and its checksum *)
Definition body_frame (m : amessage) (rest : list Z) : option (apacket * list Z) :=
  let n := Z.to_nat (data_length m) in
  if (n <=? length rest)%nat && (sum32 (take n rest) =? data_check m)
  then Some (mkPacket 0 0 m (take n rest), drop n rest)
  else None.
Definition next_frame (bs : list Z) : option (apacket * list Z) :=
  let m := msg_of_bytes (take sizeof_amessage bs) in
  if (sizeof_amessage <=? length bs)%nat && (magic m =? Z.lxor (command m) 0xffffffff)
     && (data_length m <=? MAX_PAYLOAD)
  then body_frame m (drop sizeof_amessage bs)
  else None.

(** the packets of a stream up to the first bytes that are none *)
Fixpoint parse_frames (fuel : nat) (bs : list Z) : list apacket :=
  match fuel with
  | O => []
  | S fuel' =>
      match next_frame bs with
      | None => []
      | Some (pk, rest) => pk :: parse_frames fuel' rest
      end
  end.
Definition frames (bs : list Z) : list apacket := parse_frames (S (length bs)) bs.

Lemma body_frame_some m bs pk rest : body_frame m bs = Some (pk, rest) →
  let n := Z.to_nat (data_length m) in (n ≤ length bs)%nat ∧ rest = drop n bs.
Proof.
  unfold body_frame. destruct (_ && _) eqn:E; [|done]. intros [= <- <-].
  apply andb_prop in E as [?%Nat.leb_le _]. done.
Qed.
Lemma next_frame_some bs pk rest : next_frame bs = Some (pk, rest) →
  ∃ n, (0 < n ≤ length bs)%nat ∧ rest = drop n bs.
Proof.
  unfold next_frame. destruct (_ && _) eqn:E; [|done]. intros [Hn ->]%body_frame_some.
  apply andb_prop in E as [[?%Nat.leb_le _]%andb_prop _]. rewrite length_drop in Hn.
  eexists. rewrite drop_drop. split; [|done]. unfold sizeof_amessage in *. lia.
Qed.

(** the parser uses up input *)
Lemma next_frame_shorter bs pk rest : next_frame bs = Some (pk, rest) →
  (length rest < length bs)%nat.
Proof.
  intros (n & H & ->)%next_frame_some. rewrite length_drop. lia.
Qed.
Lemma parse_frames_enough n1 n2 bs : (length bs < n1)%nat → (length bs < n2)%nat →
  parse_frames n1 bs = parse_frames n2 bs.
Proof.
  revert n2 bs. induction n1 as [|n1 IH]; intros [|n2] bs H1 H2; try lia. cbn [parse_frames].
  destruct (next_frame bs) as [[pk rest]|] eqn:E; [|done]. apply next_frame_shorter in E.
  f_equal. apply IH; lia.
Qed.
Lemma frames_eq bs : frames bs =
  match next_frame bs with None => [] | Some (pk, rest) => pk :: frames rest end.
Proof.
  unfold frames at 1. cbn [parse_frames]. destruct (next_frame bs) as [[pk rest]|] eqn:E; [|done].
  apply next_frame_shorter in E. f_equal. apply parse_frames_enough; lia.
Qed.

(** ** Receiving is parsing

    Both links receive alike: the header, then the payload, each by a read of
    a given length ([readx] or the read function of the USB handle). *)

Definition receive (read : nat → M kern (option (list Z))) : M kern (option apacket) :=
  do h <- read sizeof_amessage;
  match h with
  | None => ret None
  | Some bs =>
      let p := with_msg zero_packet (msg_of_bytes bs) in
      if negb (check_header p) then ret None
      else if negb (data_length (p_msg p) =? 0) then
        do d <- read (Z.to_nat (data_length (p_msg p)));
        match d with
        | None => ret None
        | Some body => accept_data (with_data p body)
        end
      else accept_data p
  end.

Lemma local_receives l k : TransportLocal.remote_read l k = receive (readx (TransportLocal.sfd l)) k.
Proof.
  unfold TransportLocal.remote_read, receive. unfold bind at 1 3.
  destruct (readx _ _ k) as [[bs|] k1| |]; [|done..]. cbn [with_msg p_msg].
  destruct (check_header _); [|done]. cbn [negb]. by destruct (Z.eqb_spec (data_length (msg_of_bytes bs)) 0) as [->|].
Qed.
Lemma usb_receives h k : TransportUsb.remote_read h k = receive (usb_read h) k.
Proof. done. Qed.

Section receive.
Context (d : Z) (read : nat → M kern (option (list Z))) (inv : list rd_ev → Prop).
(** what a read of the link does: it takes its bytes off the stream, or fails
    where there are fewer *)
Definition reads : Prop := ∀ len k, (0 < len)%nat → inv (rd_of d k) →
  let st := stream (rd_of d k) in
  ∃ k', same_but_rd d k k' ∧
    if decide (len ≤ length st)%nat
    then read len k = Ok (Some (take len st)) k' ∧ stream (rd_of d k') = drop len st ∧ inv (rd_of d k')
    else read len k = Ok None k'.

Lemma accept_parses m rest k k2 : same_but_rd d k k2 →
  check_header (with_msg zero_packet m) = true → 0 ≤ data_length m →
  let n := Z.to_nat (data_length m) in (n ≤ length rest)%nat →
  stream (rd_of d k2) = drop n rest → inv (rd_of d k2) →
  ∃ k', accept_data (with_data (with_msg zero_packet m) (take n rest)) k2
      = Ok (fst <$> body_frame m rest) k' ∧ same_but_rd d k k'
    ∧ ∀ pk rest', body_frame m rest = Some (pk, rest') → stream (rd_of d k') = rest' ∧ inv (rd_of d k').
Proof.
  intros Hs2 Hch H0 n Hn Hst2 Hi2. unfold body_frame. fold n.
  rewrite (proj2 (Nat.leb_le _ _)) by done. cbn [andb].
  destruct (accept_data_ok m (take n rest) k2 Hch H0) as (r & -> & Hr & Hok);
    [rewrite length_take; subst n; lia|].
  exists k2. destruct (Z.eqb_spec (sum32 (take n rest)) (data_check m)) as [He|Hne].
  - rewrite (Hok He). split_and!; [done..|]. by intros ? ? [= <- <-].
  - destruct Hr as [->|(_ & _ & _ & _ & Hne')]; [by split_and!|done].
Qed.

Lemma receive_parses k : reads → inv (rd_of d k) → Forall is_byte (stream (rd_of d k)) →
  let r := next_frame (stream (rd_of d k)) in
  ∃ k', receive read k = Ok (fst <$> r) k' ∧ same_but_rd d k k'
    ∧ ∀ pk rest, r = Some (pk, rest) → stream (rd_of d k') = rest ∧ inv (rd_of d k').
Proof.
  intros Hread Hi Hb r. subst r. set (st := stream (rd_of d k)) in *. unfold receive.
  destruct (Hread sizeof_amessage k ltac:(unfold sizeof_amessage; lia) Hi) as (k1 & Hs1 & Hr).
  cbv zeta in Hr. fold st in Hr. unfold next_frame. set (m := msg_of_bytes (take sizeof_amessage st)).
  case_decide as Hlen.
  2:{ run Hr. exists k1. rewrite (proj2 (Nat.leb_gt _ _)) by lia. by split_and!. }
  rewrite (proj2 (Nat.leb_le _ _)) by done. destruct Hr as (Hr & Hst1 & Hi1). run Hr. fold m.
  assert (H0 : 0 ≤ data_length m) by (apply get32_range; by apply Forall_drop, Forall_take).
  destruct (check_header (with_msg zero_packet m)) eqn:Hch; cbn [negb].
  2:{ exists k1. unfold check_header in Hch. cbn [p_msg with_msg] in Hch. rewrite Z.gtb_ltb in Hch.
      rewrite Z.leb_antisym. destruct (magic m =? _), (_ <? data_length m); try done; by split_and!. }
  pose proof Hch as [Hm Hl]%check_header_spec. cbn [p_msg with_msg] in *.
  rewrite (proj2 (Z.eqb_eq (magic m) _) Hm), (proj2 (Z.leb_le (data_length m) _) Hl). cbn [andb].
  set (rest := drop sizeof_amessage st) in *.
  destruct (Z.eqb_spec (data_length m) 0) as [Hz|Hz]; cbn [negb].
  - pose proof (accept_parses m rest k k1 Hs1 Hch H0) as Ha. rewrite Hz in Ha.
    apply Ha; [apply Nat.le_0_l|done..].
  - destruct (Hread (Z.to_nat (data_length m)) k1) as (k2 & Hs2 & Hr2); [lia|done|]. cbv zeta in Hr2.
    rewrite Hst1 in Hr2. fold rest in Hr2. case_decide as Hn.
    + destruct Hr2 as (Hr2 & Hst2 & Hi2). run Hr2. by apply accept_parses; [etrans|..].
    + run Hr2. exists k2. unfold body_frame. rewrite (proj2 (Nat.leb_gt _ _)) by lia.
      split_and!; [done|by etrans|done].
Qed.
End receive.

(** [readx] on a socket *)
Lemma readx_reads d : reads d (readx d) (λ _, True).
Proof.
  intros len k _ _ st. destruct (readx_spec d len k) as (k' & Hs & Hr). cbv zeta in Hr.
  exists k'. split; [done|]. fold st in Hr. case_decide; naive_solver.
Qed.

(** A FunctionFS endpoint fails when the host goes away: the stream ends with an
    error.  (At an end of file [bulk_read] would read on for ever.) *)
Fixpoint cut (s : list rd_ev) : bool :=
  match s with
  | [] | RdData [] :: _ => false
  | RdErr e :: s' => if e =? EINTR then cut s' else true
  | RdData (_ :: _) :: s' => cut s'
  end.

Lemma read_script_cut s len : (0 < len)%nat → cut s = true →
  match read_script s len with (inl bs, s') => bs ≠ [] ∧ cut s' = true | (inr _, _) => True end.
Proof.
  intros Hlen. induction s as [|[[|b bs]|e] s IH]; cbn [cut read_script]; [done..| |].
  - intros Hc. case_decide as Hle; [done|]. destruct len as [|len]; [lia|]. cbn [take drop].
    split; [done|]. destruct (drop len bs) eqn:E; [|done]. exfalso. apply Hle.
    apply (f_equal length) in E. rewrite length_drop in E. cbn in *. lia.
  - destruct (e =? EINTR); [exact IH|done].
Qed.

Lemma bulk_read_reads fuel fd len acc k :
  (length acc < len)%nat → cut (rd_of fd k) = true → (length (rd_of fd k) < fuel)%nat →
  let st := stream (rd_of fd k) in
  let n := (len - length acc)%nat in
  ∃ k', same_but_rd fd k k' ∧
    if decide (n ≤ length st)%nat
    then bulk_read fuel fd len acc k = Ok (Some (acc ++ take n st)) k'
         ∧ stream (rd_of fd k') = drop n st ∧ cut (rd_of fd k') = true
    else bulk_read fuel fd len acc k = Ok None k'.
Proof.
  revert acc k. induction fuel as [|fuel IH]; intros acc k Hlt Hcut Hf st n; [lia|].
  simpl bulk_read. fold n. unfold bind, adb_read.
  pose proof (read_script_spec (rd_of fd k) n ltac:(lia)) as Hv.
  pose proof (read_script_cut (rd_of fd k) n ltac:(lia) Hcut) as Hcut1.
  destruct (read_script (rd_of fd k) n) as [r s'] eqn:Hr.
  inversion Hv as [e s'' He Hs|s'' Hs|bs s'' Hbs Hs Hle Hl Hd]; subst r s''; clear Hv; [|naive_solver|].
  - exists (set_errno e (set_rd fd s' k)). rewrite (proj2 (Z.eqb_neq _ _)) by done.
    split; [etrans; [apply same_but_rd_set_rd|apply same_but_rd_errno]|].
    subst st. rewrite Hs. cbn [length]. rewrite decide_False by lia. done.
  - destruct Hcut1 as [_ Hcut1]. subst st. rewrite Hs.
    destruct (decide (length (acc ++ bs) < len)%nat) as [Hc|Hc]; rewrite length_app in Hc.
    + destruct (IH (acc ++ bs) (set_rd fd s' k)) as (k' & Hk & Hb);
        rewrite ?length_app; autorewrite with adb; [lia|done|lia|].
      cbv zeta in Hb. rewrite length_app in Hb. autorewrite with adb in Hb. exists k'.
      split; [etrans; [apply same_but_rd_set_rd|done]|].
      rewrite take_app_ge, drop_app_ge by lia. replace (n - length bs)%nat with (len - (length acc + length bs))%nat by lia.
      rewrite <- app_assoc in Hb. repeat case_decide; rewrite ?length_app in *; [done|lia|lia|done].
    + exists (set_rd fd s' k). assert (n = length bs) as -> by lia.
      rewrite decide_True by (rewrite length_app; lia).
      rewrite take_app_exact, drop_app_exact. autorewrite with adb.
      split; [apply same_but_rd_set_rd|done].
Qed.

Lemma ffs_reads h : Usb.impl h = Usb.usb_ffs →
  reads (Usb.bulk_out h) (usb_read h) (λ s, cut s = true).
Proof.
  intros Hi len k H0 Hcut st. unfold usb_read. rewrite Hi. unfold usb_ffs_read.
  destruct (bulk_read_reads (2 + length (rd_of (Usb.bulk_out h) k)) (Usb.bulk_out h) len [] k)
    as (k' & Hk & Hb); [cbn; lia|done|lia|]. cbv zeta in Hb. cbn [length] in Hb.
  rewrite Nat.sub_0_r in Hb. fold st in Hb. exists k'. split; [done|]. case_decide.
  - destruct Hb as (Hb & Hst & Hc). run Hb. rewrite app_nil_l. split; [|done].
    by rewrite decide_True by (rewrite length_take; lia).
  - by run Hb.
Qed.

(** ** The link of a transport *)

(** [d] is where the bytes of the remote end come in: the socket, or the
    endpoint of a FunctionFS handle whose host goes away at some time *)
Definition link_in (w : world) (tr : atransport) (d : Z) : Prop :=
  match t_type tr with
  | kTransportUsb => ∃ h, w_usb w !! t_usb tr = Some h ∧ Usb.impl h = Usb.usb_ffs
      ∧ d = Usb.bulk_out h ∧ cut (rd_of d (w_kern_of w)) = true
  | _ => d = t_sfd tr
  end.

Lemma t_read_parses w t tr d : w_transports w !! t = Some tr → link_in w tr d →
  Forall is_byte (stream (rd_of d (w_kern_of w))) →
  let r := next_frame (stream (rd_of d (w_kern_of w))) in
  ∃ k', t_read_from_remote t w = Ok (fst <$> r) (up_kern k' w) ∧ same_but_rd d (w_kern_of w) k'
    ∧ ∀ pk rest, r = Some (pk, rest) → stream (rd_of d k') = rest ∧ link_in (up_kern k' w) tr d.
Proof.
  intros Ht Hl Hb r. unfold t_read_from_remote. run (trans_at_run w t tr Ht). unfold link_in in *.
  destruct (t_type tr) eqn:Hty.
  1:{ destruct Hl as (h & Hh & Hi & -> & Hc).
    destruct (receive_parses _ _ _ (w_kern_of w) (ffs_reads h Hi) Hc Hb) as (k' & Hr & Hs & Hst).
    exists k'. run (usb_at_run w _ h Hh). split_and!; [by apply KW_run|done|].
    intros pk rest E. destruct (Hst pk rest E). eauto 10. }
  all: subst d; destruct (receive_parses _ _ _ (w_kern_of w) (readx_reads (t_sfd tr)) I Hb) as (k' & Hr & Hs & Hst);
    exists k'; split_and!; [apply KW_run; by rewrite local_receives|done|naive_solver].
Qed.

(** ** The output thread *)

Fixpoint output_run (n : nat) (t : Z) : M world bool :=
  match n with
  | O => ret true
  | S n' => do go <- output_thread_step t; if go then output_run n' t else ret false
  end.
(** the whole thread, for at most [n] iterations of its loop *)
Definition output_thread (n : nat) (t : Z) : M world bool :=
  do go <- output_thread_start t; if go then output_run n t else ret false.

(** The packets [pks] were put on the heap at the fresh addresses [ps], and the
    addresses written to the pipe [d], in this order; the other packets are
    as before. *)
Record posts (d : Z) (ps : list Z) (pks : list apacket) (w w' : world) : Prop := {
  po_packets : Forall2 (λ p pk, w_packets w' !! p = Some pk) ps pks;
  po_nodup : NoDup ps;
  po_fresh : Forall (λ p, next_loc (w_fd w) ≤ p < next_loc (w_fd w')) ps;
  po_loc : next_loc (w_fd w) ≤ next_loc (w_fd w');
  po_frame : ∀ p, p ∉ ps → w_packets w' !! p = w_packets w !! p;
  po_out : out_of d (w_kern_of w') = out_of d (w_kern_of w) ++ concat (le32 <$> ps);
}.

Lemma posts_trans d ps pks qs qks w1 w2 w3 :
  posts d ps pks w1 w2 → posts d qs qks w2 w3 → posts d (ps ++ qs) (pks ++ qks) w1 w3.
Proof.
  intros [P1 N1 F1 L1 R1 O1] [P2 N2 F2 L2 R2 O2].
  assert (Hsep : ∀ p, p ∈ ps → p ∉ qs).
  { intros p Hp Hq. rewrite list.Forall_forall in F1, F2. specialize (F1 p Hp). specialize (F2 p Hq). lia. }
  split.
  - apply Forall2_app; [|done]. clear R1 O1 N1 F1. induction P1 as [|p pk ps pks Hp P1 IH]; constructor.
    + rewrite R2; [done|]. apply Hsep, list_elem_of_here.
    + apply IH. intros q Hq. by apply Hsep, list_elem_of_further.
  - by apply list.NoDup_app.
  - apply Forall_app. split; eapply Forall_impl; eauto; cbn; lia.
  - lia.
  - intros p [Hn1 Hn2]%not_elem_of_app. by rewrite R2, R1.
  - by rewrite O2, O1, fmap_app, concat_app, app_assoc.
Qed.

(** memory for [n] more packets, in the heap and in the pipe of the transport *)
Record room (t : Z) (tr : atransport) (n : nat) (w : world) : Prop := {
  rm_transport : w_transports w !! t = Some tr;
  rm_oom : k_oom (w_kern_of w) = [];
  rm_cap : (4 * n ≤ wcap (wr_of (t_fd_write tr) (w_kern_of w)))%nat;
  rm_heap : ∀ p, next_loc (w_fd w) ≤ p → w_packets w !! p = None;
}.
Lemma room_less t tr n n' w : room t tr n w → (n' ≤ n)%nat → room t tr n' w.
Proof. intros [] ?. split; try done. lia. Qed.

(** a packet as get_apacket leaves it *)
Definition allocated (w : world) : world :=
  up_packets <[next_loc (w_fd w) := zero_packet]> (bumped w).

(** a new packet is filled and its address written to the pipe, with the link
    read in between *)
Lemma post_one t tr d n w k1 pk :
  room t tr (S n) w → same_but_rd d (w_kern_of w) k1 →
  let p := next_loc (w_fd w) in
  let w1 := up_packets <[p := pk]> (up_kern k1 (allocated w)) in
  ∃ w', KW (write_packet (t_fd_write tr) p) w1 = Ok true w'
    ∧ posts (t_fd_write tr) [p] [pk] w w' ∧ room t tr n w'
    ∧ w_transports w' = w_transports w ∧ next_loc (w_fd w') = p + 16
    ∧ stream (rd_of d (w_kern_of w')) = stream (rd_of d k1)
    ∧ (link_in (up_kern k1 w) tr d → link_in w' tr d).
Proof.
  intros [Ht Ho Hc Hh] Hk p w1. set (f := t_fd_write tr) in *.
  assert (Hwr : wr_of f k1 = wr_of f (w_kern_of w)) by (unfold wr_of; by rewrite (sbr_wr _ _ _ Hk)).
  destruct (writex_exact f (le32 p) k1) as (k2 & Hw & Hout & Hcap & Hs);
    [rewrite length_le32, Hwr; lia|].
  rewrite length_le32, Hwr in Hcap.
  exists (up_kern k2 w1). split; [by apply KW_run|].
  assert (Hp : w_packets (up_kern k2 w1) = <[p := pk]> (w_packets w)) by apply insert_insert_eq.
  split; [|split_and!; [|done..| |]].
  - split.
    + constructor; [|constructor]. rewrite Hp. apply lookup_insert_eq.
    + apply list.NoDup_singleton.
    + constructor; [|constructor]. cbn. subst p. lia.
    + cbn. lia.
    + intros q Hq. rewrite Hp, lookup_insert_ne; [done|]. intros ->. apply Hq, list_elem_of_here.
    + change (w_kern_of (up_kern k2 w1)) with k2. rewrite Hout. unfold out_of at 1.
      by rewrite (sbr_out _ _ _ Hk).
  - split; [done| | |].
    + change (k_oom k2 = []). by rewrite (sbw_oom _ _ _ Hs), (sbr_oom _ _ _ Hk).
    + fold f. change (w_kern_of (up_kern k2 w1)) with k2. rewrite Hcap. lia.
    + intros q Hq. rewrite Hp. change (p + 16 ≤ q) in Hq. rewrite lookup_insert_ne by lia.
      apply Hh. subst p. lia.
  - change (w_kern_of (up_kern k2 w1)) with k2. unfold rd_of. by rewrite (sbw_rd _ _ _ Hs).
  - unfold link_in. destruct (t_type tr); [|done..]. change (w_kern_of (up_kern k2 w1)) with k2.
    change (w_kern_of (up_kern k1 w)) with k1. unfold rd_of. by rewrite (sbw_rd _ _ _ Hs).
Qed.

Section link.
Context (t : Z) (tr : atransport) (d : Z).

(** an iteration that finds a packet *)
Lemma output_step_packet n w pk rest :
  room t tr (S n) w → link_in w tr d → Forall is_byte (stream (rd_of d (w_kern_of w))) →
  next_frame (stream (rd_of d (w_kern_of w))) = Some (pk, rest) →
  ∃ w', output_thread_step t w = Ok true w'
    ∧ posts (t_fd_write tr) [next_loc (w_fd w)] [pk] w w' ∧ room t tr n w'
    ∧ w_transports w' = w_transports w ∧ next_loc (w_fd w') = next_loc (w_fd w) + 16
    ∧ stream (rd_of d (w_kern_of w')) = rest ∧ link_in w' tr d.
Proof.
  intros Hroom Hlink Hb Hn. pose proof Hroom as [Ht Ho _ _]. unfold output_thread_step.
  run (get_apacket_run w Ho). fold (allocated w). set (p := next_loc (w_fd w)).
  destruct (t_read_parses (allocated w) t tr d Ht Hlink Hb) as (k1 & Hr & Hk & Hst).
  change (w_kern_of (allocated w)) with (w_kern_of w) in Hr, Hk, Hst. rewrite Hn in Hr, Hst.
  destruct (Hst _ _ eq_refl) as [Hst1 Hlink1]. cbn [fmap option_fmap option_map fst] in Hr. run Hr.
  run (pkt_put_run (up_kern k1 (allocated w)) p (λ _, pk) zero_packet (lookup_insert_eq _ _ _)).
  destruct (post_one t tr d n w k1 pk Hroom Hk) as (w' & Hw & Hpo & Hro & Htr & Hl & Hs & Hlk).
  run (trans_at_run (up_packets <[p := pk]> (up_kern k1 (allocated w))) t tr Ht). run Hw.
  exists w'. rewrite Hs. split_and!; [done..|by apply Hlk].
Qed.

(** an iteration that finds none: the marker of the end is sent, and the thread
    lets go of the transport *)
Lemma output_step_end w :
  room t tr 1 w → link_in w tr d → Forall is_byte (stream (rd_of d (w_kern_of w))) →
  next_frame (stream (rd_of d (w_kern_of w))) = None →
  ∃ p w', output_thread_step t w = (thread_exit t;;; ret false) w'
    ∧ posts (t_fd_write tr) [p] [sync_msg 0 0 zero_packet] w w' ∧ w_transports w' = w_transports w
    ∧ next_loc (w_fd w') = next_loc (w_fd w) + 32.
Proof.
  intros Hroom Hlink Hb Hn. pose proof Hroom as [Ht Ho Hc Hh]. unfold output_thread_step.
  run (get_apacket_run w Ho). fold (allocated w). set (p := next_loc (w_fd w)).
  destruct (t_read_parses (allocated w) t tr d Ht Hlink Hb) as (k1 & Hr & Hk & _).
  change (w_kern_of (allocated w)) with (w_kern_of w) in Hr, Hk. rewrite Hn in Hr. cbn [fmap option_fmap option_map] in Hr.
  run Hr.
  run (put_run p zero_packet (up_kern k1 (allocated w)) (lookup_insert_eq _ _ _)).
  set (w1 := up_packets (delete p) (up_kern k1 (allocated w))).
  assert (Hp1 : w_packets w1 = w_packets w).
  { cbn. rewrite delete_insert_id; [done|]. apply Hh. subst p. lia. }
  assert (Hroom1 : room t tr 1 w1).
  { split; [done| | |].
    - change (k_oom k1 = []). by rewrite (sbr_oom _ _ _ Hk).
    - change (w_kern_of w1) with k1. unfold wr_of. by rewrite (sbr_wr _ _ _ Hk).
    - intros q Hq. rewrite Hp1. apply Hh. change (next_loc (w_fd w) + 16 ≤ q) in Hq. lia. }
  destruct (post_one t tr d 0 w1 (w_kern_of w1) (sync_msg 0 0 zero_packet) Hroom1)
    as (w2 & Hw & Hpo & _ & Htr & Hl & _); [reflexivity|].
  unfold output_thread_end. rewrite !bind_assoc. run (get_apacket_run w1 (rm_oom _ _ _ _ Hroom1)).
  fold (allocated w1). set (q := next_loc (w_fd w1)) in *. rewrite !bind_assoc.
  run (pkt_put_run (allocated w1) q (sync_msg 0 0) zero_packet (lookup_insert_eq _ _ _)).
  rewrite !bind_assoc. run (trans_at_run (up_packets <[q := sync_msg 0 0 zero_packet]> (allocated w1)) t tr Ht).
  rewrite !bind_assoc. run Hw. rewrite !bind_assoc. run (eq_refl : ret tt w2 = Ok tt w2).
  exists q, w2. split_and!; [done| |by rewrite Htr|rewrite Hl; change q with (p + 16); subst p; lia]. destruct Hpo as [P N F L R O].
  change (next_loc (w_fd w1)) with (p + 16) in F, L. split; [done..| | | |].
  - eapply list.Forall_impl; [exact F|]. cbn. subst p. lia.
  - subst p. lia.
  - intros x Hx. by rewrite R, Hp1.
  - rewrite O. change (w_kern_of w1) with k1. unfold out_of at 1. by rewrite (sbr_out _ _ _ Hk).
Qed.
End link.

(** The loop: the packets of the stream in order, then the marker. *)
Lemma output_run_spec t tr d n : ∀ w,
  let st := stream (rd_of d (w_kern_of w)) in
  room t tr (S (length (frames st))) w → link_in w tr d → Forall is_byte st → (length (frames st) < n)%nat →
  ∃ ps w', output_run n t w = (thread_exit t;;; ret false) w'
    ∧ posts (t_fd_write tr) ps (frames st ++ [sync_msg 0 0 zero_packet]) w w'
    ∧ w_transports w' = w_transports w
    ∧ next_loc (w_fd w') = next_loc (w_fd w) + 16 * (Z.of_nat (length (frames st)) + 2).
Proof.
  induction n as [|n IH]; intros w st Hroom Hlink Hb Hn; [lia|]. cbn [output_run].
  rewrite frames_eq in Hroom, Hn |- *. destruct (next_frame st) as [[pk rest]|] eqn:E; cbn [length] in *.
  - destruct (output_step_packet t tr d _ w pk rest Hroom Hlink Hb E)
      as (w1 & Hrun & Hpo & Hro & Htr & Hl & Hst & Hlink1).
    run Hrun. destruct (IH w1) as (ps & w2 & Hrun2 & Hpo2 & Htr2 & Hl2); rewrite ?Hst; [done..| |lia|].
    { apply next_frame_some in E as (? & _ & ->). by apply Forall_drop. }
    exists (next_loc (w_fd w) :: ps), w2. rewrite Hst in Hpo2, Hl2. split_and!; [done| |congruence|lia].
    exact (posts_trans _ [_] [_] _ _ _ _ _ Hpo Hpo2).
  - destruct (output_step_end t tr d w Hroom Hlink Hb E) as (p & w1 & Hrun & Hpo & Htr & Hl).
    exists [p], w1. split_and!; [|done..|lia]. unfold bind at 1. rewrite Hrun. unfold bind.
    by destruct (thread_exit t w1).
Qed.

(** The whole thread. *)
Lemma output_thread_run n t tr d w : link_in w tr d →
  let st := stream (rd_of d (w_kern_of w)) in
  let k := u32 (t_sync_token tr + 1) in
  room t tr (2 + length (frames st)) w → Forall is_byte st → (length (frames st) < n)%nat →
  ∃ ps w', output_thread n t w = (thread_exit t;;; ret false) w'
    ∧ posts (t_fd_write tr) ps
        (sync_msg 1 k zero_packet :: frames st ++ [sync_msg 0 0 zero_packet]) w w'
    ∧ w_transports w' = <[t := to_sync_token k tr]> (w_transports w)
    ∧ next_loc (w_fd w') = next_loc (w_fd w) + 16 * (Z.of_nat (length (frames st)) + 3).
Proof.
  intros Hlink st k Hroom Hb Hn. pose proof Hroom as [Ht Ho Hc Hh].
  unfold output_thread, output_thread_start. rewrite bind_assoc. run (get_apacket_run w Ho).
  fold (allocated w). set (p := next_loc (w_fd w)). rewrite bind_assoc.
  run (trans_put_run (allocated w) t (λ tr, to_sync_token (u32 (t_sync_token tr + 1)) tr) tr Ht).
  fold k. set (tr' := to_sync_token k tr). set (w1 := up_transports <[t := tr']> w).
  change (up_transports <[t := tr']> (allocated w)) with (allocated w1). rewrite bind_assoc.
  assert (Ht' : w_transports w1 !! t = Some tr') by apply lookup_insert_eq.
  run (trans_at_run (allocated w1) t tr' Ht'). rewrite bind_assoc.
  run (pkt_put_run (allocated w1) p (sync_msg 1 (t_sync_token tr')) zero_packet (lookup_insert_eq _ _ _)).
  assert (Hroom1 : room t tr' (2 + length (frames st)) w1) by by split.
  destruct (post_one t tr' d _ w1 (w_kern_of w1) (sync_msg 1 k zero_packet) Hroom1)
    as (w2 & Hw & Hpo & Hro & Htr & Hl & Hst & Hlk); [reflexivity|].
  change (next_loc (w_fd w1)) with p in Hl.
  change (stream (rd_of d (w_kern_of w1))) with st in Hst.
  rewrite bind_assoc. run Hw. cbn [ret]. run (eq_refl : ret true w2 = Ok true w2).
  destruct (output_run_spec t tr' d n w2) as (ps & w3 & Hrun & Hpo3 & Htr3 & Hl3);
    rewrite ?Hst; [done|by apply Hlk|done..|].
  rewrite Hst in Hpo3, Hl3. exists (p :: ps), w3. split_and!; [done| |by rewrite Htr3, Htr|subst p; lia].
  destruct (posts_trans _ _ _ _ _ _ _ _ Hpo Hpo3) as [P N F L R O]. by split.
Qed.

(** ** The other end of the pipe *)

(** [n] packets read by the main thread *)
Fixpoint read_packets (n : nat) (d : Z) : M kern (list (option Z)) :=
  match n with
  | O => ret []
  | S n' => do p <- read_packet d; do ps <- read_packets n' d; ret (p :: ps)
  end.

Lemma read_packets_run d ps : ∀ k, Forall (λ p, 0 ≤ p < 2 ^ 32) ps →
  stream (rd_of d k) = concat (le32 <$> ps) →
  ∃ k', read_packets (length ps) d k = Ok (Some <$> ps) k' ∧ stream (rd_of d k') = [].
Proof.
  induction ps as [|p ps IH]; intros k Hps Hst; [by exists k|].
  apply list.Forall_cons in Hps as [Hp Hps].
  destruct (read_packet_run d p _ k Hp Hst) as (k1 & Hr & Hst1 & _).
  destruct (IH k1 Hps Hst1) as (k2 & Hr2 & Hst2). exists k2. cbn [length read_packets].
  run Hr. by run Hr2.
Qed.

(** C23 The output thread is the reference parser.  For every sequence of
    bytes the link delivers, in pieces of any size, the thread ends, and it has
    handed over exactly the SYNC packet with the next token, the packets of the
    stream up to the first bytes that are none (a short header or payload, a
    wrong magic, length or checksum), in order, and the SYNC packet that ends
    the connection; then it lets go of the transport.  No other packet has
    changed, and the main thread reads these addresses, in this order, from
    the pipe. *)
Theorem output_thread_delivers n t tr d w : link_in w tr d →
  let st := stream (rd_of d (w_kern_of w)) in
  let k := u32 (t_sync_token tr + 1) in
  let len := length (frames st) in
  room t tr (2 + len) w → Forall is_byte st → (len < n)%nat →
  0 ≤ next_loc (w_fd w) → next_loc (w_fd w) + 16 * (Z.of_nat len + 3) ≤ 2 ^ 32 →
  ∃ ps w', output_thread n t w = (thread_exit t;;; ret false) w'
    ∧ posts (t_fd_write tr) ps
        (sync_msg 1 k zero_packet :: frames st ++ [sync_msg 0 0 zero_packet]) w w'
    ∧ w_transports w' = <[t := to_sync_token k tr]> (w_transports w)
    ∧ ∀ e k1, stream (rd_of e k1) = concat (le32 <$> ps) →
        ∃ k2, read_packets (length ps) e k1 = Ok (Some <$> ps) k2 ∧ stream (rd_of e k2) = [].
Proof.
  intros Hty st k len Hroom Hb Hn H0 Hmax.
  destruct (output_thread_run n t tr d w Hty Hroom Hb Hn) as (ps & w' & Hrun & Hpo & Htr & Hl).
  exists ps, w'. split_and!; [done..|]. intros e k1. apply read_packets_run.
  eapply list.Forall_impl; [exact (po_fresh _ _ _ _ _ Hpo)|]. 
  fold st len in Hl. rewrite Hl. intros q Hq. lia.
Qed.

(** ** From one main thread to the other *)

(** a packet as send_packet writes it into the pipe *)
Definition sendable (pk : apacket) : Prop := ∃ q body, pk = fill_header q body
  ∧ payload q (data_length (p_msg q)) = Some body ∧ msg_ok (p_msg q)
  ∧ data_length (p_msg q) ≤ MAX_PAYLOAD ∧ Forall is_byte body.
(** the packet that arrives *)
Definition received (pk : apacket) : apacket :=
  mkPacket 0 0 (p_msg pk) (default [] (payload pk (data_length (p_msg pk)))).

Lemma le32_bytes n : Forall is_byte (le32 n).
Proof. unfold le32. decompose_Forall; by apply Z.mod_pos_bound. Qed.
Lemma msg_bytes_bytes m : Forall is_byte (msg_bytes m).
Proof. unfold msg_bytes. rewrite !Forall_app. split_and!; apply le32_bytes. Qed.
Lemma payload_fill q body n : payload (fill_header q body) n = payload q n.
Proof. done. Qed.
Lemma wire_bytes pk : sendable pk → Forall is_byte (wire pk).
Proof.
  intros (q & body & -> & Hp & _ & _ & Hb). unfold wire.
  rewrite payload_fill, (Hp : payload q (data_length (p_msg (fill_header q body))) = _).
  apply Forall_app. split; [apply msg_bytes_bytes|done].
Qed.

Lemma next_frame_wire pk rest : sendable pk →
  next_frame (wire pk ++ rest) = Some (received pk, rest).
Proof.
  intros (q & body & -> & Hp & Hm & Hl & _). unfold wire, received. set (pk := fill_header q body).
  assert (Hpay : payload pk (data_length (p_msg pk)) = Some body) by done.
  rewrite Hpay. cbn [default id]. rewrite <- app_assoc. unfold next_frame.
  rewrite <- (length_msg_bytes (p_msg pk)), take_app_exact, drop_app_exact.
  pose proof (msg_of_msg_bytes (p_msg pk) [] (fill_header_msg_ok q body Hm)) as Hmm.
  rewrite app_nil_r in Hmm. rewrite Hmm. unfold body_frame.
  pose proof (payload_length _ _ _ Hpay) as Hlen. rewrite <- Hlen. rewrite !Nat2Z.id.
  rewrite take_app_exact, drop_app_exact, !length_app, length_msg_bytes.
  rewrite !(proj2 (Nat.leb_le _ _) (Nat.le_add_r _ _)), !Z.eqb_refl, Hlen.
  by rewrite (proj2 (Z.leb_le (data_length (p_msg pk)) _) Hl).
Qed.
Lemma frames_wire pks : Forall sendable pks →
  frames (concat (wire <$> pks)) = received <$> pks ∧ Forall is_byte (concat (wire <$> pks)).
Proof.
  induction 1 as [|pk pks Hpk _ [IH1 IH2]]; [done|]. rewrite !fmap_cons. cbn [concat].
  rewrite frames_eq, (next_frame_wire _ _ Hpk), IH1. split; [done|].
  apply Forall_app. split; [by apply wire_bytes|done].
Qed.

(** C24 Packets cross a link unchanged.  Of the packets in the pipe of an input
    thread, those that follow the SYNC packet of its connection go out; when
    their bytes, cut into any pieces, are what the link at the other end
    delivers before it closes, the output thread there hands to its main
    thread the same packets, in the same order and with the same payload,
    between its two markers, and ends. *)
Theorem packets_cross_link t tr d ps pre s post more w n t2 tr2 d2 w2 :
  w_transports w !! t = Some tr → link_out w tr d → NoDup ps →
  Forall2 (queued w) ps (pre ++ s :: post) →
  Forall (λ pk, opens (t_sync_token tr) pk = false) pre → opens (t_sync_token tr) s = true →
  stream (rd_of (t_fd_read tr) (w_kern_of w)) = concat (le32 <$> ps) ++ more →
  let pks := filter (λ pk, is_sync pk = false) post in
  let data := concat (wire <$> pks) in
  Forall sendable pks →
  (length data ≤ wcap (wr_of d (w_kern_of w)))%nat →
  link_in w2 tr2 d2 → stream (rd_of d2 (w_kern_of w2)) = data →
  room t2 tr2 (2 + length pks) w2 → (length pks < n)%nat →
  let k := u32 (t_sync_token tr2 + 1) in
  ∃ w' qs w2', input_run (length ps) t false w = Ok (Some true) w'
    ∧ out_of d (w_kern_of w') = out_of d (w_kern_of w) ++ data
    ∧ output_thread n t2 w2 = (thread_exit t2;;; ret false) w2'
    ∧ posts (t_fd_write tr2) qs
        (sync_msg 1 k zero_packet :: (received <$> pks) ++ [sync_msg 0 0 zero_packet]) w2 w2'.
Proof.
  intros Ht Hty Hnd Hq Hpre Hs Hst pks data Hsend Hcap Hty2 Hst2 Hroom Hn k.
  assert (Hd : sent (t_sync_token tr) false (pre ++ s :: post) = data) by by apply sent_gate.
  destruct (input_run_spec t tr d more ps _ false w Ht Hty Hnd Hq Hst) as (w' & Hrun & Ho & _);
    [by rewrite Hd|].
  destruct (frames_wire pks Hsend) as [Hf Hb]. fold data in Hf, Hb.
  destruct (output_thread_run n t2 tr2 d2 w2 Hty2) as (qs & w2' & Hrun2 & Hpo & _);
    rewrite ?Hst2, ?Hf, ?length_fmap; [done..|].
  rewrite Hst2, Hf in Hpo. rewrite Hd in Ho. exists w', qs, w2'. split_and!; [|done..].
  rewrite Hrun, existsb_app. cbn [existsb]. by rewrite Hs, orb_true_r.
Qed.

Module DemoLink.
Definition stream_of (bs : list Z) (last : rd_ev) : list rd_ev :=
  [RdData (take 7 bs); RdErr EINTR; RdData (drop 7 bs); last].
Definition kernel (d : Z) (evs : list rd_ev) : kern :=
  mkKern 0 {[ d := evs ]} {[ 12 := [WrOk 100] ]} ∅ [] [] [].
Definition tr : atransport := DemoTransport.transport false 2.
Definition world (bs : list Z) : world :=
  up_transports <[16 := tr]> (start_world (kernel 9 (stream_of bs (RdData [])))).
(** the same over FunctionFS, where the host is unplugged (ESHUTDOWN) *)
Definition usb_tr : atransport :=
  mkTrans 10 12 13 11 2 1 CS_DEVICE true kTransportUsb 24 (-1) None None None None None 0 false
    (replicate 20 0) 0.
Definition usb_world (bs : list Z) : World.world :=
  up_usb <[24 := Usb.mkUsb Usb.usb_ffs (-1) 3 7 5]>
    (up_transports <[16 := usb_tr]> (start_world (kernel 7 (stream_of bs (RdErr 108))))).
Definition frame (c : Z) : list Z := wire (DemoGate.data c).
(** two packets, then a header whose magic is wrong *)
Definition input : list Z := frame 8 ++ frame 9 ++ replicate 30 1.
End DemoLink.

Lemma output_thread_delivers_witness : ∃ ps w',
  output_thread 5 16 (DemoLink.world DemoLink.input) = (thread_exit 16;;; ret false) w'
  ∧ posts 12 ps [DemoGate.sync 2; received (DemoGate.data 8); received (DemoGate.data 9);
      sync_msg 0 0 zero_packet] (DemoLink.world DemoLink.input) w'.
Proof.
  destruct (output_thread_delivers 5 16 DemoLink.tr 9 (DemoLink.world DemoLink.input))
    as (ps & w' & Hrun & Hpo & _).
  - reflexivity.
  - split; [reflexivity|reflexivity|vm_compute; lia|reflexivity].
  - vm_compute. repeat constructor; discriminate.
  - vm_compute. lia.
  - vm_compute. discriminate.
  - vm_compute. discriminate.
  - exists ps, w'. split; [exact Hrun|exact Hpo].
Defined.

Lemma packets_cross_link_witness : ∃ w' qs w2',
  input_run 3 16 false DemoGate.world = Ok (Some true) w'
  ∧ out_of 9 (w_kern_of w') = DemoLink.frame 8
  ∧ output_thread 2 16 (DemoLink.usb_world (DemoLink.frame 8)) = (thread_exit 16;;; ret false) w2'
  ∧ posts 12 qs [DemoGate.sync 2; received (DemoGate.data 8); sync_msg 0 0 zero_packet]
      (DemoLink.usb_world (DemoLink.frame 8)) w2'.
Proof.
  destruct (packets_cross_link 16 (DemoTransport.transport false 2) 9 [32; 48; 64] [DemoGate.data 7]
    (DemoGate.sync 1) [DemoGate.data 8] [] DemoGate.world 2 16 DemoLink.usb_tr 7
    (DemoLink.usb_world (DemoLink.frame 8))) as (w' & qs & w2' & Hrun & Ho & Hrun2 & Hpo).
  - reflexivity.
  - reflexivity.
  - apply (bool_decide_eq_true_1 (NoDup [32; 48; 64])). reflexivity.
  - repeat constructor; cbn; try (vm_compute; congruence); vm_compute; eauto.
  - repeat constructor.
  - reflexivity.
  - reflexivity.
  - constructor; [|constructor]. eexists _, []. split; [reflexivity|].
    split_and!; [reflexivity| |discriminate|constructor]. vm_compute. intuition congruence.
  - vm_compute. lia.
  - eexists. split_and!; reflexivity.
  - reflexivity.
  - split; [reflexivity|reflexivity|vm_compute; lia|reflexivity].
  - vm_compute. lia.
  - exists w', qs, w2'. split; [exact Hrun|]. split; [etransitivity; [exact Ho|]; vm_compute; reflexivity|].
    split; [exact Hrun2|exact Hpo].
Defined.
