(* ===== verification/UsbLock.v ===== *)
(** * The lock of the USB handle (adbd/src/usb_linux_client.c)

    The handle is shared by the thread that opens the device
    (usb_adb_open_thread, usb_ffs_open_thread), the kick functions
    (usb_adb_kick, usb_ffs_kick), which a thread of a transport calls when the
    connection is over, and the threads that read and write.  The model has one
    step per access to the lock, the condition variable or the handle; the steps
    of the threads interleave in any order.

    A read or write is one step, since it takes the descriptor out of the handle
    once; so is the ioctl that usb_ffs_kick makes before it locks.  The closes of a
    kick are one step, under the lock.  [Transport] has the same functions as
    computations of one thread.

    The descriptors of an open handle are a list: [h->fd] for the driver of old
    kernels, [h->control], [h->bulk_out] and [h->bulk_in] for FunctionFS; the
    handle is closed (its first field is -1) when the list is empty. *)

From S2P Require Import Prelude.

(** where the opening thread is *)
Inductive opener :=
| OLock       (* before adb_mutex_lock *)
| OTest       (* holds the lock, before the test of the loop *)
| OAsleep     (* in adb_cond_wait *)
| OWoken      (* in adb_cond_wait, to lock again *)
| OOpen       (* opening the device *)
| ORegister.  (* before register_usb_transport *)
(** where the kick of a transport is *)
Inductive kick :=
| KLive       (* t->kicked is 0 *)
| KLock       (* before adb_mutex_lock *)
| KHeld       (* before adb_close *)
| KClosed     (* before h->fd = -1 *)
| KCleared    (* before adb_cond_signal *)
| KSignalled  (* before adb_mutex_unlock *)
| KDone.
Inductive owner := ByOpener | ByKick (i : nat).
Inductive event :=
| EClose (i : nat) (ds : list Z)   (* the kick of transport [i] closes these *)
| EFail (ds : list Z)              (* an attempt to open failed and closes these *)
| EUse (i : nat) (ds : list Z).    (* a thread of transport [i] reads or writes *)

#[export] Instance opener_eq_dec : EqDecision opener.
Proof. solve_decision. Defined.
#[export] Instance kick_eq_dec : EqDecision kick.
Proof. solve_decision. Defined.
#[export] Instance owner_eq_dec : EqDecision owner.
Proof. solve_decision. Defined.

(** a registered transport: the descriptors it was registered with, its kick *)
Record session := mkSession { se_ds : list Z; se_kick : kick }.
Record ustate := mkU {
  u_ds : list Z;
  u_lock : option owner;
  u_open : opener;
  u_sessions : list session;       (* in the order of registration *)
  u_log : list event;
}.
Definition initial_handle : ustate := mkU [] None OLock [] [].

(** ** Steps; None: the thread cannot go on now *)

Definition lock_by (o : owner) (s : ustate) : option ustate :=
  match u_lock s with
  | None => Some (mkU (u_ds s) (Some o) (u_open s) (u_sessions s) (u_log s))
  | Some _ => None
  end.
Definition opener_at (x : opener) (s : ustate) : ustate :=
  mkU (u_ds s) (u_lock s) x (u_sessions s) (u_log s).

(** the opening thread, up to the opening itself *)
Definition opener_step (s : ustate) : option ustate :=
  match u_open s with
  | OLock | OWoken => opener_at OTest <$> lock_by ByOpener s
  | OTest =>
      Some (mkU (u_ds s) None (if bool_decide (u_ds s = []) then OOpen else OAsleep) (u_sessions s) (u_log s))
  | ORegister => Some (mkU (u_ds s) (u_lock s) OLock (u_sessions s ++ [mkSession (u_ds s) KLive]) (u_log s))
  | OAsleep | OOpen => None
  end.
(** a wake-up without a signal *)
Definition spurious_step (s : ustate) : option ustate :=
  match u_open s with OAsleep => Some (opener_at OWoken s) | _ => None end.

(** [n]: how many descriptors the handle has (1 or 3).  One more is opened; the
    standard descriptors are in use, so that it is not 0 *)
Definition open_step (n : nat) (d : Z) (s : ustate) : option ustate :=
  match u_open s with
  | OOpen =>
      if bool_decide (0 < d ∧ d ∉ u_ds s) then
        let ds := u_ds s ++ [d] in
        Some (mkU ds (u_lock s) (if (length ds <? n)%nat then OOpen else ORegister) (u_sessions s) (u_log s))
      else None
  | _ => None
  end.
(** the device cannot be opened: what was opened is closed, last first *)
Definition fail_step (s : ustate) : option ustate :=
  match u_open s with
  | OOpen => Some (mkU [] (u_lock s) OOpen (u_sessions s) (u_log s ++ [EFail (rev (u_ds s))]))
  | _ => None
  end.

Definition kick_to (i : nat) (k : kick) (s : ustate) : ustate :=
  mkU (u_ds s) (u_lock s) (u_open s) (alter (λ x, mkSession (se_ds x) k) i (u_sessions s)) (u_log s).
(** kick_transport and the kick function of the handle *)
Definition kick_step (i : nat) (s : ustate) : option ustate :=
  match se_kick <$> u_sessions s !! i with
  | Some KLive => Some (kick_to i KLock s)
  | Some KLock => kick_to i KHeld <$> lock_by (ByKick i) s
  | Some KHeld =>
      Some (kick_to i KClosed (mkU (u_ds s) (u_lock s) (u_open s) (u_sessions s) (u_log s ++ [EClose i (u_ds s)])))
  | Some KClosed => Some (kick_to i KCleared (mkU [] (u_lock s) (u_open s) (u_sessions s) (u_log s)))
  | Some KCleared =>
      Some (kick_to i KSignalled (opener_at (if decide (u_open s = OAsleep) then OWoken else u_open s) s))
  | Some KSignalled => Some (kick_to i KDone (mkU (u_ds s) None (u_open s) (u_sessions s) (u_log s)))
  | Some KDone | None => None
  end.
(** a thread of transport [i] calls usb_read or usb_write *)
Definition use_step (i : nat) (s : ustate) : option ustate :=
  if bool_decide (is_Some (u_sessions s !! i))
  then Some (mkU (u_ds s) (u_lock s) (u_open s) (u_sessions s) (u_log s ++ [EUse i (u_ds s)])) else None.

Inductive label := LOpener | LSpurious | LOpen (d : Z) | LFail | LKick (i : nat) | LUse (i : nat).
Definition usb_step (n : nat) (l : label) (s : ustate) : option ustate :=
  match l with
  | LOpener => opener_step s
  | LSpurious => spurious_step s
  | LOpen d => open_step n d s
  | LFail => fail_step s
  | LKick i => kick_step i s
  | LUse i => use_step i s
  end.
Fixpoint usb_run (n : nat) (ls : list label) (s : ustate) : option ustate :=
  match ls with
  | [] => Some s
  | l :: ls' => usb_step n l s ≫= usb_run n ls'
  end.
Definition reachable (n : nat) (s : ustate) : Prop := ∃ ls, usb_run n ls initial_handle = Some s.

(** two sessions of a handle with one descriptor *)
Definition two_sessions : list label :=
  [LOpener; LOpener; LOpen 5; LOpener] ++ replicate 6 (LKick 0) ++ [LOpener; LOpener; LOpen 6; LOpener].
Example two_sessions_run : usb_run 1 two_sessions initial_handle
  = Some (mkU [6] None OLock [mkSession [5] KDone; mkSession [6] KLive] [EClose 0 [5]]).
Proof. vm_compute. reflexivity. Qed.

(** ** The invariant *)

Definition held (k : kick) : bool := match k with KHeld | KClosed | KCleared | KSignalled => true | _ => false end.
(** the kick has still to clear the handle *)
Definition uncleared (k : kick) : bool := match k with KLive | KLock | KHeld | KClosed => true | _ => false end.
Definition has_closed (k : kick) : bool :=
  match k with KClosed | KCleared | KSignalled | KDone => true | _ => false end.
Definition opening (o : opener) : bool := match o with OOpen | ORegister => true | _ => false end.

Definition closes (log : list event) : list (nat * list Z) :=
  omap (λ e, match e with EClose i ds => Some (i, ds) | _ => None end) log.
(** the closes there have to be: one per transport whose kick got that far *)
Definition due (l : list session) : list (nat * list Z) := imap (λ i x, (i, se_ds x)) l.

(** [past]: the transports whose kick is over; [cur]: the one that is left *)
Record inv (s : ustate) (past : list session) (cur : option session) : Prop := {
  iv_sessions : u_sessions s = past ++ option_list cur;
  iv_past : Forall (λ x, se_kick x = KDone) past;
  iv_cur x : cur = Some x → se_kick x ≠ KDone ∧ se_ds x ≠ [] ∧ opening (u_open s) = false
    ∧ u_ds s = if uncleared (se_kick x) then se_ds x else [];
  iv_none : cur = None → opening (u_open s) = false → u_ds s = [];
  iv_register : u_open s = ORegister → u_ds s ≠ [];
  iv_lock : u_lock s = match cur with
    | Some x => if held (se_kick x) then Some (ByKick (length past))
                else if decide (u_open s = OTest) then Some ByOpener else None
    | None => if decide (u_open s = OTest) then Some ByOpener else None
    end;
  iv_excl x : cur = Some x → held (se_kick x) = true → u_open s ≠ OTest;
  iv_asleep : u_open s = OAsleep → ∃ x, cur = Some x ∧ se_kick x ≠ KSignalled;
  iv_log : closes (u_log s)
    = due (past ++ match cur with Some x => if has_closed (se_kick x) then [x] else [] | None => [] end);
}.

Lemma inv_initial : inv initial_handle [] None.
Proof. by split. Qed.

Lemma kick_index s past cur i x : inv s past cur → u_sessions s !! i = Some x → se_kick x ≠ KDone →
  i = length past ∧ cur = Some x.
Proof.
  intros Hi Hx Hk. rewrite (iv_sessions _ _ _ Hi) in Hx. apply lookup_app_Some in Hx as [Hx|[Hle Hx]].
  - exfalso. apply Hk. by eapply (Forall_lookup_1 _ _ _ _ (iv_past _ _ _ Hi)).
  - destruct cur as [y|]; cbn in Hx; [|done]. destruct (i - length past)%nat eqn:E; [|done].
    injection Hx as ->. split; [lia|done].
Qed.
Lemma alter_current past x k :
  alter (λ x, mkSession (se_ds x) k) (length past) (past ++ [x]) = past ++ [mkSession (se_ds x) k].
Proof. induction past as [|y past IH]; [done|]. cbn. by rewrite <- IH. Qed.
Lemma closes_app l1 l2 : closes (l1 ++ l2) = closes l1 ++ closes l2.
Proof. apply omap_app. Qed.
Lemma due_app l x : due (l ++ [x]) = due l ++ [(length l, se_ds x)].
Proof. unfold due. rewrite imap_app. cbn. by rewrite Nat.add_0_r. Qed.

(** a step of the opening thread *)
Lemma inv_opener s past cur s' : inv s past cur → opener_step s = Some s' →
  ∃ cur', inv s' past cur' ∧ u_log s' = u_log s.
Proof.
  intros Hi. pose proof Hi as [H1 H2 H3 H4 H5 H6 H7 H8 H9]. unfold opener_step, lock_by.
  destruct (u_open s) eqn:Ho; [| |done| |done|].
  1,3: destruct (u_lock s) eqn:El; [done|]; intros [= <-]; exists cur; split; [|done];
    split; cbn; try done;
    [destruct cur as [x|]; [|done]; destruct (held (se_kick x)); done
    |intros x -> Hh; by rewrite Hh in H6].
  - intros [= <-]. exists cur. split; [|done]. destruct (bool_decide_reflect (u_ds s = [])) as [Hn|Hn].
    + destruct cur as [x|].
      * destruct (H3 x eq_refl) as (Hk & Hne & _ & Hd). exfalso.
        destruct (held (se_kick x)) eqn:Hh; [by apply (H7 x eq_refl)|].
        destruct (se_kick x); cbn in *; congruence.
      * by split.
    + assert (∃ x, cur = Some x ∧ se_kick x ≠ KSignalled) as (x & -> & Hs).
      { destruct cur as [x|]; [|by rewrite H4 in Hn]. exists x. split; [done|]. intros E.
        destruct (H3 x eq_refl) as (_ & _ & _ & Hd). by rewrite E in Hd. }
      destruct (H3 x eq_refl) as (Hk & Hne & _ & Hd).
      assert (Hh : held (se_kick x) = false) by (destruct (held (se_kick x)) eqn:Hh; [by destruct (H7 x eq_refl Hh)|done]).
      split; cbn; try done; [by rewrite Hh|eauto].
  - intros [= <-]. assert (cur = None) as ->.
    { destruct cur as [x|]; [|done]. by destruct (H3 x eq_refl) as (_ & _ & Hf & _). }
    exists (Some (mkSession (u_ds s) KLive)). split; [|done].
    split; cbn; try done; [by rewrite H1, app_nil_r|].
    intros x [= <-]. cbn. by split_and!; [|apply H5|..].
Qed.

(** the opening itself: no transport is left, so that nothing else changes the handle *)
Lemma opening_alone s past cur : inv s past cur → opening (u_open s) = true → cur = None.
Proof.
  intros Hi Ho. destruct cur as [x|]; [|done].
  destruct (iv_cur _ _ _ Hi x eq_refl) as (_ & _ & Hf & _). congruence.
Qed.
Lemma inv_open n d s past cur s' : inv s past cur → open_step n d s = Some s' →
  inv s' past cur ∧ u_log s' = u_log s.
Proof.
  intros Hi. unfold open_step. destruct (u_open s) eqn:Ho; try done. case_bool_decide as Hd; [|done]. intros [= <-].
  assert (cur = None) as -> by (apply (opening_alone s past); [done|by rewrite Ho]).
  destruct Hi as [H1 H2 H3 H4 H5 H6 H7 H8 H9]. rewrite Ho in *.
  split; [|done]. destruct (length (u_ds s ++ [d]) <? n)%nat; split; cbn; try done; by destruct (u_ds s).
Qed.
Lemma inv_fail s past cur s' : inv s past cur → fail_step s = Some s' → inv s' past cur.
Proof.
  intros Hi. unfold fail_step. destruct (u_open s) eqn:Ho; try done. intros [= <-].
  assert (cur = None) as -> by (apply (opening_alone s past); [done|by rewrite Ho]).
  destruct Hi as [H1 H2 H3 H4 H5 H6 H7 H8 H9]. rewrite Ho in *.
  split; cbn; try done. by rewrite closes_app, H9, app_nil_r.
Qed.
Lemma inv_spurious s past cur s' : inv s past cur → spurious_step s = Some s' → inv s' past cur.
Proof.
  intros [H1 H2 H3 H4 H5 H6 H7 H8 H9]. unfold spurious_step. destruct (u_open s) eqn:Ho; try done.
  intros [= <-]. by split.
Qed.
Lemma inv_use i s past cur s' : inv s past cur → use_step i s = Some s' → inv s' past cur.
Proof.
  intros [H1 H2 H3 H4 H5 H6 H7 H8 H9]. unfold use_step. case_bool_decide; [|done]. intros [= <-].
  split; cbn; try done. by rewrite closes_app, H9, app_nil_r.
Qed.

(** a kick moves: the transport it belongs to is the last one *)
Lemma inv_kick i s past cur s' : inv s past cur → kick_step i s = Some s' → ∃ past' cur', inv s' past' cur'.
Proof.
  intros Hi. unfold kick_step. destruct (u_sessions s !! i) as [x|] eqn:Hx; cbn; [|done].
  destruct (decide (se_kick x = KDone)) as [->|Hk]; [done|].
  destruct (kick_index _ _ _ _ _ Hi Hx Hk) as [-> ->].
  destruct Hi as [H1 H2 H3 H4 H5 H6 H7 H8 H9]. cbn in H1.
  destruct (H3 x eq_refl) as (_ & Hne & Hop & Hds).
  assert (Hu : ∀ ds lk op lg k, k ≠ KDone →
    ds = (if uncleared k then se_ds x else []) →
    opening op = false →
    lk = (if held k then Some (ByKick (length past)) else if decide (op = OTest) then Some ByOpener else None) →
    (held k = true → op ≠ OTest) → (op = OAsleep → k ≠ KSignalled) →
    closes lg = due (past ++ if has_closed k then [mkSession (se_ds x) k] else []) →
    inv (mkU ds lk op (past ++ [mkSession (se_ds x) k]) lg) past (Some (mkSession (se_ds x) k))).
  { intros ds lk op lg k A1 A2 A3 A4 A5 A6 A7. split; cbn; try done.
    - intros y [= <-]. done.
    - intros ->. done.
    - intros y [= <-]. done.
    - intros E. eexists. split; [done|]. by apply A6. }
  unfold kick_to, lock_by, opener_at. destruct (se_kick x) eqn:Ek; cbn in *; try done; rewrite H1.
  - intros [= <-]. cbn. rewrite alter_current. eexists _, _. apply Hu; try done.
  - destruct (u_lock s) eqn:El; [done|]. intros [= <-]. cbn. rewrite alter_current. eexists _, _. apply Hu; try done.
    intros _ E. by rewrite E in H6.
  - intros [= <-]. cbn. rewrite alter_current. eexists _, _. apply Hu; try done.
    + intros _. apply (H7 x eq_refl). by rewrite Ek.
    + rewrite closes_app, H9, app_nil_r. cbn. by rewrite due_app, Hds.
  - intros [= <-]. cbn. rewrite alter_current. eexists _, _. apply Hu; try done.
    + intros _. apply (H7 x eq_refl). by rewrite Ek.
    + rewrite H9. cbn. by rewrite !due_app.
  - intros [= <-]. cbn. rewrite alter_current. eexists _, _. apply Hu; try done.
    + by destruct (decide (u_open s = OAsleep)).
    + intros _. destruct (decide (u_open s = OAsleep)); [done|]. apply (H7 x eq_refl). by rewrite Ek.
    + by destruct (decide (u_open s = OAsleep)).
    + rewrite H9. cbn. by rewrite !due_app.
  - intros [= <-]. cbn. rewrite alter_current. exists (past ++ [mkSession (se_ds x) KDone]), None. split; cbn; try done.
    + by rewrite app_nil_r.
    + apply list.Forall_app. split; [done|]. by constructor.
    + rewrite decide_False by (apply (H7 x eq_refl); by rewrite Ek). done.
    + intros E. destruct (H8 E) as (y & [= <-] & Hy). by rewrite Ek in Hy.
    + rewrite app_nil_r. etrans; [exact H9|]. by rewrite !due_app.
Qed.

Lemma inv_run n ls : ∀ s past cur s', inv s past cur → usb_run n ls s = Some s' → ∃ past' cur', inv s' past' cur'.
Proof.
  induction ls as [|l ls IH]; intros s past cur s' Hi; cbn.
  - intros [= <-]. eauto.
  - intros Hr. apply bind_Some in Hr as (s1 & H1 & Hr).
    assert (∃ p c, inv s1 p c) as (p & c & Hi1); [|by apply (IH s1 p c)].
    destruct l; cbn in H1.
    + apply inv_opener with (past := past) (cur := cur) in H1 as (c & ? & _); eauto.
    + apply inv_spurious with (past := past) (cur := cur) in H1; eauto.
    + apply inv_open with (past := past) (cur := cur) in H1 as [? _]; eauto.
    + apply inv_fail with (past := past) (cur := cur) in H1; eauto.
    + apply inv_kick with (past := past) (cur := cur) in H1; eauto.
    + apply inv_use with (past := past) (cur := cur) in H1; eauto.
Qed.
Lemma inv_reachable n s : reachable n s → ∃ past cur, inv s past cur.
Proof. intros [ls Hr]. by apply (inv_run n ls _ [] None _ inv_initial Hr). Qed.

(** ** What the lock gives *)

(** what the kicks of these transports have closed: each the descriptors its transport was registered with *)
Definition closed_by (l : list session) : list (nat * list Z) :=
  omap id (imap (λ i x, if has_closed (se_kick x) then Some (i, se_ds x) else None) l).

Lemma closed_by_done l : Forall (λ x, se_kick x = KDone) l → closed_by l = due l.
Proof.
  induction l as [|x l IH] using rev_ind; [done|]. intros Hf. apply list.Forall_app in Hf as [Hl Hx].
  assert (Ek : se_kick x = KDone) by (by inversion Hx). unfold closed_by.
  rewrite imap_app, omap_app, due_app, <- (IH Hl). cbn. by rewrite Ek, Nat.add_0_r.
Qed.
Lemma closed_by_current past x : Forall (λ x, se_kick x = KDone) past →
  closed_by (past ++ [x]) = due (past ++ if has_closed (se_kick x) then [x] else []).
Proof.
  intros Hp. unfold closed_by. rewrite imap_app, omap_app. fold (closed_by past). rewrite closed_by_done by done.
  cbn. rewrite Nat.add_0_r. destruct (has_closed (se_kick x)); cbn; [by rewrite due_app|by rewrite !app_nil_r].
Qed.
Lemma inv_closes s past cur : inv s past cur → closes (u_log s) = closed_by (u_sessions s).
Proof.
  intros [H1 H2 _ _ _ _ _ _ H9]. rewrite H9, H1. destruct cur as [x|]; cbn.
  - by rewrite closed_by_current.
  - rewrite app_nil_r. by rewrite closed_by_done.
Qed.
Lemma inv_last s past cur i x : inv s past cur → u_sessions s !! i = Some x → se_kick x ≠ KDone →
  S i = length (u_sessions s).
Proof.
  intros Hi Hx Hk. destruct (kick_index _ _ _ _ _ Hi Hx Hk) as [-> ->].
  rewrite (iv_sessions _ _ _ Hi), length_app. cbn. lia.
Qed.

(** C18 In every state the threads can reach: the device is opened only when the kick of every earlier transport
    is over; the kicks closed exactly the descriptors their own transports were registered with, once each and
    in the order of registration; only the last transport can still be kicked, and the handle keeps its
    descriptors until that kick clears it; a kick that holds the lock excludes the test of the opening thread;
    and the opening thread sleeps only while a signal is still to come. *)
Theorem usb_handle_protocol n s : reachable n s →
  (opening (u_open s) = true → Forall (λ x, se_kick x = KDone) (u_sessions s)) ∧
  closes (u_log s) = closed_by (u_sessions s) ∧
  (∀ i x, u_sessions s !! i = Some x → se_kick x ≠ KDone →
     S i = length (u_sessions s) ∧
     u_ds s = (if uncleared (se_kick x) then se_ds x else []) ∧
     (held (se_kick x) = true → u_lock s = Some (ByKick i) ∧ u_open s ≠ OTest)) ∧
  (u_open s = OAsleep →
     ∃ i x, u_sessions s !! i = Some x ∧ se_kick x ∈ [KLive; KLock; KHeld; KClosed; KCleared]).
Proof.
  intros (past & cur & Hi)%inv_reachable. split_and!.
  - intros Ho. rewrite (iv_sessions _ _ _ Hi). rewrite (opening_alone _ _ _ Hi Ho). cbn.
    rewrite app_nil_r. apply Hi.
  - by eapply inv_closes.
  - intros i x Hx Hk. split; [by eapply inv_last|]. destruct (kick_index _ _ _ _ _ Hi Hx Hk) as [-> ->].
    destruct (iv_cur _ _ _ Hi x eq_refl) as (_ & _ & _ & Hd). split; [done|]. intros Hh. split.
    + rewrite (iv_lock _ _ _ Hi). by rewrite Hh.
    + by apply (iv_excl _ _ _ Hi x).
  - intros Ho. destruct (iv_asleep _ _ _ Hi Ho) as (x & -> & Hs). exists (length past), x.
    rewrite (iv_sessions _ _ _ Hi). split; [by rewrite lookup_app_r, Nat.sub_diag by lia|].
    destruct (iv_cur _ _ _ Hi x eq_refl) as (Hk & _). destruct (se_kick x); try done; set_solver.
Qed.
Lemma usb_handle_protocol_witness :
  closes [EClose 0 [5]] = closed_by [mkSession [5] KDone; mkSession [6] KLive].
Proof.
  apply (usb_handle_protocol 1 (mkU [6] None OLock [mkSession [5] KDone; mkSession [6] KLive] [EClose 0 [5]])).
  exists two_sessions. vm_compute. reflexivity.
Defined.

(** ** Progress *)

Lemma kick_current i past ds lk op d k lg : i = length past →
  kick_step i (mkU ds lk op (past ++ [mkSession d k]) lg)
  = match k with
    | KLive => Some (mkU ds lk op (past ++ [mkSession d KLock]) lg)
    | KLock =>
        match lk with
        | None => Some (mkU ds (Some (ByKick i)) op (past ++ [mkSession d KHeld]) lg) | Some _ => None
        end
    | KHeld => Some (mkU ds lk op (past ++ [mkSession d KClosed]) (lg ++ [EClose i ds]))
    | KClosed => Some (mkU [] lk op (past ++ [mkSession d KCleared]) lg)
    | KCleared =>
        Some (mkU ds lk (if decide (op = OAsleep) then OWoken else op) (past ++ [mkSession d KSignalled]) lg)
    | KSignalled => Some (mkU ds None op (past ++ [mkSession d KDone]) lg)
    | KDone => None
    end.
Proof.
  intros ->. unfold kick_step. cbn. rewrite lookup_app_r, Nat.sub_diag by lia. cbn.
  unfold kick_to, lock_by, opener_at. destruct k; cbn; rewrite ?alter_current; try done.
  destruct lk; cbn; [done|]. by rewrite alter_current.
Qed.

(** how many steps a kick still takes *)
Definition kick_left (k : kick) : nat :=
  match k with
  | KLive => 6 | KLock => 5 | KHeld => 4 | KClosed => 3 | KCleared => 2 | KSignalled => 1 | KDone => 0
  end.
Lemma kick_finishes n s past x : inv s past (Some x) → u_open s ≠ OTest →
  ∃ lg, usb_run n (replicate (kick_left (se_kick x)) (LKick (length past))) s
    = Some (mkU [] None (if decide (u_open s = OAsleep) then OWoken else u_open s)
              (past ++ [mkSession (se_ds x) KDone]) lg).
Proof.
  intros [H1 _ H3 _ _ H6 _ H8 _] Ho. destruct (H3 x eq_refl) as (Hk & _ & _ & Hd).
  destruct s as [ds lk op l lg], x as [d k]; cbn in *. subst l.
  assert (Hlk : held k = false → lk = None) by (intros Hh; rewrite Hh, decide_False in H6; done).
  assert (Hs : k = KSignalled → op ≠ OAsleep) by (intros -> E; by destruct (H8 E) as (? & [= <-] & ?)).
  destruct k; cbn in *; try done; try rewrite (Hlk eq_refl);
    rewrite ?Hd; repeat (rewrite kick_current by done; cbn); try by eexists.
  rewrite decide_False by (by apply Hs). by eexists.
Qed.

(** the steps the kick of the last transport still takes *)
Definition kicks_left (s : ustate) : list label :=
  let i := pred (length (u_sessions s)) in
  match u_sessions s !! i with Some x => replicate (kick_left (se_kick x)) (LKick i) | None => [] end.
(** a schedule that brings the opening thread to the next opening *)
Definition reopen_schedule (s : ustate) : list label :=
  match u_open s with
  | OOpen => []
  | ORegister => LOpener :: replicate 6 (LKick (length (u_sessions s))) ++ [LOpener; LOpener]
  | OTest => LOpener :: (if bool_decide (u_ds s = []) then [] else kicks_left s ++ [LOpener; LOpener])
  | OLock | OAsleep | OWoken => kicks_left s ++ [LOpener; LOpener]
  end.

Lemma usb_run_app n ls1 ls2 s : usb_run n (ls1 ++ ls2) s = usb_run n ls1 s ≫= usb_run n ls2.
Proof.
  revert s. induction ls1 as [|l ls1 IH]; intros s; cbn; [done|]. destruct (usb_step n l s); cbn; [apply IH|done].
Qed.
Lemma kicks_left_current s past x : inv s past (Some x) →
  kicks_left s = replicate (kick_left (se_kick x)) (LKick (length past)).
Proof.
  intros Hi. unfold kicks_left. rewrite (iv_sessions _ _ _ Hi), length_app. cbn.
  replace (pred (length past + 1)) with (length past) by lia. by rewrite lookup_app_r, Nat.sub_diag by lia.
Qed.
Lemma kicks_left_none s past : inv s past None → kicks_left s = [].
Proof.
  intros Hi. unfold kicks_left. rewrite (iv_sessions _ _ _ Hi), app_nil_r.
  destruct (past !! pred (length past)) as [x|] eqn:E; [|done].
  by rewrite (list.Forall_lookup_1 _ _ _ _ (iv_past _ _ _ Hi) E).
Qed.
(** the handle is closed and the lock is free: the opening thread goes ahead *)
Lemma opener_goes_ahead n op l lg : op ∈ [OLock; OWoken] →
  usb_run n [LOpener; LOpener] (mkU [] None op l lg) = Some (mkU [] None OOpen l lg).
Proof. destruct op; try done; set_solver. Qed.
Lemma reopen_waiting n s past cur : inv s past cur → u_open s ∈ [OLock; OAsleep; OWoken] →
  ∃ s', usb_run n (kicks_left s ++ [LOpener; LOpener]) s = Some s' ∧ u_open s' = OOpen.
Proof.
  intros Hi Ho. assert (Ht : u_open s ≠ OTest) by (intros E; rewrite E in Ho; set_solver). destruct cur as [x|].
  - destruct (kick_finishes n s past x Hi Ht) as [lg Hr].
    rewrite (kicks_left_current s past x), usb_run_app, Hr by done.
    eexists. split; [eapply (opener_goes_ahead n)|done]. destruct (u_open s); cbn; set_solver.
  - rewrite (kicks_left_none s past) by done. pose proof (iv_lock _ _ _ Hi) as Hl. rewrite decide_False in Hl by done.
    assert (Hd : u_ds s = []) by (apply (iv_none _ _ _ Hi); [done|destruct (u_open s); set_solver]).
    pose proof (iv_asleep _ _ _ Hi) as Ha. destruct s as [ds lk op l lg]; cbn in *. subst.
    eexists. split; [eapply (opener_goes_ahead n)|done]. destruct op; set_solver.
Qed.

Lemma kicks_left_labels s :
  (length (kicks_left s) ≤ 6)%nat ∧ Forall (λ l, l = LOpener ∨ ∃ i, l = LKick i) (kicks_left s).
Proof.
  unfold kicks_left. destruct (u_sessions s !! _) as [x|]; [|by split; [cbn; lia|]].
  rewrite length_replicate. split; [destruct (se_kick x); cbn; lia|]. apply list.Forall_replicate. eauto.
Qed.
Lemma reopen_schedule_labels s :
  (length (reopen_schedule s) ≤ 9)%nat ∧ Forall (λ l, l = LOpener ∨ ∃ i, l = LKick i) (reopen_schedule s).
Proof.
  destruct (kicks_left_labels s) as [Hl Hf]. unfold reopen_schedule.
  destruct (u_open s); [| |..|by split; [cbn; lia|]|];
    try case_bool_decide; cbn; rewrite ?length_app; cbn;
    (split; [lia|]); repeat (apply list.Forall_cons; split; [by eauto|]); try apply list.Forall_app; by eauto 10.
Qed.
Lemma reopen_run n s past cur : inv s past cur →
  ∃ s', usb_run n (reopen_schedule s) s = Some s' ∧ u_open s' = OOpen.
Proof.
  intros Hi. unfold reopen_schedule. destruct (u_open s) eqn:Ho;
    [apply (reopen_waiting n s past cur); [done|rewrite Ho; set_solver]
    | |apply (reopen_waiting n s past cur); [done|rewrite Ho; set_solver]
    |apply (reopen_waiting n s past cur); [done|rewrite Ho; set_solver]|by eexists|].
  - assert (Hs : opener_step s = Some (mkU (u_ds s) None (if bool_decide (u_ds s = []) then OOpen else OAsleep)
      (u_sessions s) (u_log s))) by (unfold opener_step; by rewrite Ho).
    case_bool_decide as Hd; cbn; rewrite Hs; [by eexists|].
    destruct (inv_opener _ _ _ _ Hi Hs) as (cur' & Hi' & _). eapply (reopen_waiting n _ _ _ Hi'). cbn. set_solver.
  - assert (Hs : opener_step s = Some (mkU (u_ds s) (u_lock s) OLock (u_sessions s ++ [mkSession (u_ds s) KLive])
      (u_log s))) by (unfold opener_step; by rewrite Ho).
    destruct (inv_opener _ _ _ _ Hi Hs) as (cur' & Hi' & _).
    destruct (reopen_waiting n _ _ _ Hi') as (s' & Hr & ?); [cbn; set_solver|]. exists s'. split; [|done].
    cbn [usb_run usb_step]. rewrite Hs. rewrite <- Hr. unfold kicks_left. cbn [u_sessions].
    rewrite length_app. cbn [length]. replace (pred (length (u_sessions s) + 1)) with (length (u_sessions s)) by lia.
    by rewrite lookup_app_r, Nat.sub_diag by lia.
Qed.

(** C19 From every state the threads can reach, at most nine steps of the opening thread and of the kick of one
    transport bring the opening thread to the next opening of the device: no deadlock, whatever happened before. *)
Theorem usb_handle_reopens n s : reachable n s →
  (length (reopen_schedule s) ≤ 9)%nat ∧
  Forall (λ l, l = LOpener ∨ ∃ i, l = LKick i) (reopen_schedule s) ∧
  ∃ s', usb_run n (reopen_schedule s) s = Some s' ∧ u_open s' = OOpen.
Proof.
  intros (past & cur & Hi)%inv_reachable. destruct (reopen_schedule_labels s). split_and!; [done..|].
  by eapply reopen_run.
Qed.
Lemma usb_handle_reopens_witness :
  ∃ s', usb_run 1 (replicate 6 (LKick 1) ++ [LOpener; LOpener])
    (mkU [6] None OLock [mkSession [5] KDone; mkSession [6] KLive] [EClose 0 [5]]) = Some s' ∧ u_open s' = OOpen.
Proof.
  apply (usb_handle_reopens 1 (mkU [6] None OLock [mkSession [5] KDone; mkSession [6] KLive] [EClose 0 [5]])).
  exists two_sessions. vm_compute. reflexivity.
Defined.

(** ** What the lock does not give

    The readers and writers take no lock and all transports share the one handle: a thread of a transport
    whose kick is over, late for its read, reads with the descriptor of the next one. *)
Theorem late_reader_uses_next_session : ∃ s, reachable 1 s ∧
  u_sessions s = [mkSession [5] KDone; mkSession [6] KLive] ∧ EUse 0 [6] ∈ u_log s.
Proof.
  eexists. split_and!; [exists (two_sessions ++ [LUse 0]); vm_compute; reflexivity|done|cbn; set_solver].
Qed.
