(* ===== verification/JdwpProps.v ===== *)
(** * Theorems on the processes that can be debugged

    The texts a process and the daemon exchange (the pid of a process, the list
    of pids), the invariant of the list of processes, the queue of descriptors
    of a process as a bounded queue, what the trackers receive, and the flaws. *)

From S2P Require Import Prelude Kernel Packet DList Fdevent World Transport Listing Sockets Jdwp ListingProps Flow SocketTable Closing Teardown Streams.

(** ** Runs *)

Lemma proc_put_run w a f pr : jdwp_procs (w_jdwp w) !! a = Some pr →
  proc_put a f w = Ok tt (up_procs <[a := f pr]> w).
Proof.
  intros H. unfold proc_put. run (proc_at_run w a pr H). unfold modify, up_procs. do 3 f_equal.
  apply map_eq. intros b. destruct (decide (b = a)) as [->|Hne].
  - by rewrite lookup_alter_eq, lookup_insert_eq, H.
  - by rewrite lookup_alter_ne, lookup_insert_ne.
Qed.
Lemma up_procs_id w a pr : jdwp_procs (w_jdwp w) !! a = Some pr → up_procs <[a := pr]> w = w.
Proof. intros H. destruct w as [? ? ? ? ? ? ? ? ? ? ? ? ? ? ? ? ? ? ? ? ? ? [] ?]. unfold up_procs, up_jdwp; cbn in *. by rewrite insert_id. Qed.

(** ** The first message of a process *)

(** the bytes that arrive before the connection blocks, ends or fails *)
Fixpoint arrives (s : list rd_ev) : list Z * received :=
  match s with
  | [] => ([], Broken)
  | RdErr e :: s' =>
      if e =? EINTR then arrives s' else ([], if e =? EAGAIN then WouldBlock else Broken)
  | RdData [] :: _ => ([], Broken)
  | RdData bs :: s' => let '(r, e) := arrives s' in (bs ++ r, e)
  end.

Lemma arrives_stops s bs e : arrives s = (bs, e) → e ≠ Complete.
Proof.
  revert bs. induction s as [|[[|b d]|er] s IH]; intros bs; cbn; [by intros [= _ <-]..| |].
  - destruct (arrives s) as [r e']. intros [= _ <-]. by eapply IH.
  - destruct (er =? EINTR); [apply IH|]. intros [= _ <-]. by destruct (er =? EAGAIN).
Qed.

(** what one call of recv meets *)
Definition stopped (r : list Z + Z) : received :=
  match r with inl _ => Broken | inr e => if e =? EAGAIN then WouldBlock else Broken end.
Inductive recv_view (s : Z) (size : nat) (w : world) : Prop :=
| rv_stop r k' : KW (recv s size) w = Ok r (up_kern k' w) → same_but_rd s (w_kern_of w) k' →
    arrives (rd_of s (w_kern_of w)) = ([], stopped r) → (r = inl [] ∨ ∃ e, r = inr e ∧ e ≠ EINTR) →
    recv_view s size w
| rv_again k' : KW (recv s size) w = Ok (inr EINTR) (up_kern k' w) → same_but_rd s (w_kern_of w) k' →
    arrives (rd_of s (w_kern_of w)) = arrives (rd_of s k') →
    (length (rd_of s k') < length (rd_of s (w_kern_of w)))%nat →
    (script_size (rd_of s k') < script_size (rd_of s (w_kern_of w)))%nat → recv_view s size w
| rv_some got k' : KW (recv s size) w = Ok (inl got) (up_kern k' w) → same_but_rd s (w_kern_of w) k' →
    got ≠ [] → (length got ≤ size)%nat →
    arrives (rd_of s (w_kern_of w)) = (got ++ (arrives (rd_of s k')).1, (arrives (rd_of s k')).2) →
    (length (rd_of s k') < length (rd_of s (w_kern_of w))
     ∨ length got = size ∧ length (rd_of s k') ≤ length (rd_of s (w_kern_of w)))%nat →
    (script_size (rd_of s k') < script_size (rd_of s (w_kern_of w)))%nat → recv_view s size w.

Lemma recv_spec s size w : (0 < size)%nat → recv_view s size w.
Proof.
  intros Hsz. destruct (rd_of s (w_kern_of w)) as [|[d|er] rest] eqn:Hs.
  - apply (rv_stop _ _ _ (inl []) (w_kern_of w)); [|done|by rewrite Hs|by left].
    apply KW_run. unfold recv. by rewrite Hs.
  - destruct d as [|b d].
    { apply (rv_stop _ _ _ (inl []) (set_rd s rest (w_kern_of w)));
        [|apply same_but_rd_set_rd|by rewrite Hs|by left].
      apply KW_run. unfold recv. rewrite Hs. cbn [length]. by rewrite decide_True by lia. }
    set (d' := b :: d) in *.
    set (rest' := if decide (length d' ≤ size)%nat then rest else RdData (drop size d') :: rest).
    apply (rv_some _ _ _ (take size d') (set_rd s rest' (w_kern_of w))).
    + apply KW_run. unfold recv. rewrite Hs. fold d'. unfold rest'. case_decide; [by rewrite take_ge|done].
    + apply same_but_rd_set_rd.
    + unfold d'. by destruct size; [lia|].
    + rewrite length_take. lia.
    + rewrite rd_of_set_rd, Hs. unfold rest'. cbn [arrives]. fold d'. case_decide as Hd.
      * rewrite take_ge by done. by destruct (arrives rest).
      * destruct (drop size d') as [|x xs] eqn:Hx.
        { apply (f_equal length) in Hx. rewrite length_drop in Hx. change (length []) with 0%nat in Hx. lia. }
        cbn [arrives]. destruct (arrives rest). cbn [fst snd]. by rewrite app_assoc, <- Hx, take_drop.
    + rewrite rd_of_set_rd, Hs. unfold rest'. rewrite length_take. case_decide; cbn [length]; lia.
    + rewrite rd_of_set_rd, Hs. unfold rest'. cbn [script_size]. fold d'. case_decide; cbn [script_size]; [lia|].
      rewrite length_drop. lia.
  - destruct (decide (er = EINTR)) as [->|Her].
    + set (k' := set_errno EINTR (set_rd s rest (w_kern_of w))).
      assert (Hk : rd_of s k' = rest) by (unfold k', rd_of; cbn; by rewrite lookup_insert_eq).
      apply (rv_again _ _ _ k'); rewrite ?Hk, ?Hs; [|..|cbn; lia|cbn; lia].
      * apply KW_run. unfold recv. by rewrite Hs.
      * etrans; [apply same_but_rd_set_rd|apply same_but_rd_errno].
      * done.
    + apply (rv_stop _ _ _ (inr er) (set_errno er (set_rd s rest (w_kern_of w)))).
      * apply KW_run. unfold recv. by rewrite Hs.
      * etrans; [apply same_but_rd_set_rd|apply same_but_rd_errno].
      * rewrite Hs. cbn. by rewrite (proj2 (Z.eqb_neq er EINTR)).
      * right. eauto.
Qed.

Lemma pr_in_id pr : pr_in (in_buff pr) pr = pr.
Proof. by destruct pr. Qed.

(** [proc] has read the first four characters, or all that there were *)
Definition read_to (proc : Z) (pr : JdwpProcess) (k' : kern) (bs : list Z) (w : world) : world :=
  up_procs <[proc := pr_in (take 4 (in_buff pr ++ bs)) pr]> (up_kern k' w).
Definition read_end (n : nat) (e : received) : received := if decide (4 ≤ n)%nat then Complete else e.

Lemma read_to_nil proc pr k' bs w : jdwp_procs (w_jdwp w) !! proc = Some pr →
  length (in_buff pr) = 4%nat ∨ (length (in_buff pr) ≤ 4)%nat ∧ bs = [] →
  read_to proc pr k' bs w = up_kern k' w.
Proof.
  intros Hp H. unfold read_to. assert (take 4 (in_buff pr ++ bs) = in_buff pr) as ->.
  { destruct H as [H|[H ->]]; [rewrite take_app_le, take_ge by lia; done|].
    by rewrite app_nil_r, take_ge by lia. }
  rewrite pr_in_id. by apply up_procs_id.
Qed.

Lemma read_pid_spec fuel s proc pr w :
  jdwp_procs (w_jdwp w) !! proc = Some pr → (length (in_buff pr) ≤ 4)%nat →
  (length (rd_of s (w_kern_of w)) + (if decide (4 ≤ length (in_buff pr)) then 0 else 1) ≤ fuel)%nat →
  let '(bs, e) := arrives (rd_of s (w_kern_of w)) in
  ∃ k', same_but_rd s (w_kern_of w) k'
    ∧ read_pid fuel s proc w = Ok (read_end (length (in_buff pr ++ bs)) e) (read_to proc pr k' bs w).
Proof.
  revert pr w. induction fuel as [|fuel IH]; intros pr w Hp Hl Hf;
    destruct (arrives (rd_of s (w_kern_of w))) as [bs e] eqn:Ha; cbn [read_pid];
    run (proc_at_run w proc pr Hp); cbv zeta;
    (destruct (decide (4 - length (in_buff pr) = 0)%nat) as [Hz|Hz];
     [clear Hf|rewrite decide_False in Hf by lia; try lia]).
  1, 2: exists (w_kern_of w); split; [done|]; rewrite read_to_nil, up_kern_id by (done || lia);
    unfold read_end; (case_decide as Hn; [done|]); rewrite length_app in Hn; lia.
  set (size := (4 - length (in_buff pr))%nat) in *.
  destruct (recv_spec s size w ltac:(lia)) as [r k' Hr Hsm Hst Hcase|k' Hr Hsm Heq Hlt _|got k' Hr Hsm Hne Hle Heq Hlt _];
    run Hr; rewrite Ha in *.
  - injection Hst as -> ->. exists k'. split; [done|]. rewrite read_to_nil by (done || (right; split; [lia|done])).
    rewrite app_nil_r. unfold read_end. rewrite decide_False by lia.
    destruct Hcase as [->|(er & -> & Her)]; [done|]. rewrite (proj2 (Z.eqb_neq er EINTR)) by done.
    cbn. by destruct (er =? EAGAIN).
  - cbn [Z.eqb]. specialize (IH pr (up_kern k' w) Hp Hl).
    change (w_kern_of (up_kern k' w)) with k' in IH. rewrite <- Heq in IH.
    destruct IH as (k2 & Hs2 & Hrun); [case_decide; lia|]. exists k2. split; [by etrans|exact Hrun].
  - destruct got as [|g gs] eqn:Hg; [done|]. rewrite <- Hg in *.
    rewrite (bind_ok _ _ _ _ _ (proc_put_run (up_kern k' w) proc (pr_in (in_buff pr ++ got)) pr Hp)).
    set (w2 := up_procs _ (up_kern k' w)).
    specialize (IH (pr_in (in_buff pr ++ got) pr) w2 (lookup_insert_eq _ _ _)).
    change (w_kern_of w2) with k' in IH. destruct (arrives (rd_of s k')) as [bs2 e2]. injection Heq as -> ->.
    destruct IH as (k2 & Hs2 & Hrun); cbn [in_buff pr_in] in *; rewrite ?length_app in *; [lia|case_decide; lia|].
    exists k2. split; [by etrans|]. rewrite Hrun, ?length_app, Nat.add_assoc. f_equal.
    unfold read_to, w2, up_procs, up_jdwp, up_kern; cbn. by rewrite insert_insert_eq, app_assoc.
Qed.

(** the number in the four characters *)
Definition decode_pid (got : list Z) : option Z := scan_04x (default [] (cstring (got ++ [0]))).
Lemma decode_fmt n : 0 ≤ n < 65536 → decode_pid (fmt_04x n) = Some n.
Proof.
  intros Hn. unfold decode_pid. rewrite cstring_app by by apply fmt_04x_no_nul. by apply scan_fmt.
Qed.

(** C32 The first message of a process.  The characters of its pid may arrive in
    pieces, over several events and interrupted by signals: what is there is
    kept, up to four characters; with four, they are decoded, the pid that a
    process prints with %04x is the one it gets, and the trackers are told; an
    end of the connection, an error or a text that is no number frees the
    process. *)
Theorem process_handshake s proc pr w :
  jdwp_procs (w_jdwp w) !! proc = Some pr → pid pr < 0 → (length (in_buff pr) ≤ 4)%nat →
  let '(bs, e) := arrives (rd_of s (w_kern_of w)) in
  let got := take 4 (in_buff pr ++ bs) in
  ∃ k', same_but_rd s (w_kern_of w) k'
    ∧ jdwp_process_readable s proc w =
      (if decide (length got < 4)%nat then
         match e with
         | WouldBlock => ret false
         | _ => jdwp_process_free proc;;; ret false
         end (up_procs <[proc := pr_in got pr]> (up_kern k' w))
       else
         match decode_pid got with
         | None => (jdwp_process_free proc;;; ret false) (up_procs <[proc := pr_in got pr]> (up_kern k' w))
         | Some n => (jdwp_process_list_updated;;; ret true)
                       (up_procs <[proc := pr_pid n (pr_in got pr)]> (up_kern k' w))
         end)
    ∧ (∀ n, 0 ≤ n < 65536 → got = fmt_04x n → decode_pid got = Some n).
Proof.
  intros Hp Hpid Hl. destruct (arrives (rd_of s (w_kern_of w))) as [bs e] eqn:Ha. cbv zeta.
  set (n := length (rd_of s (w_kern_of w))).
  pose proof (read_pid_spec (2 + n) s proc pr w Hp Hl) as Hrd. rewrite Ha in Hrd.
  destruct Hrd as (k' & Hsm & Hrd); [fold n; case_decide; lia|].
  exists k'. split_and!; [done| |intros ? ? ->; by apply decode_fmt].
  unfold jdwp_process_readable. run (proc_at_run w proc pr Hp). rewrite (proj2 (Z.ltb_lt _ 0)) by done.
  rewrite (bind_ok _ _ w n w) by done. run Hrd.
  assert (He : length (take 4 (in_buff pr ++ bs)) = Nat.min 4 (length (in_buff pr ++ bs))) by apply length_take.
  unfold read_end. destruct (decide (4 ≤ length (in_buff pr ++ bs))%nat) as [Hc|Hc].
  - rewrite decide_False by lia. set (got := take 4 _) in *.
    unfold read_to. fold got. set (w1 := up_procs _ _).
    assert (Hp1 : jdwp_procs (w_jdwp w1) !! proc = Some (pr_in got pr)) by apply lookup_insert_eq.
    run (proc_at_run w1 proc _ Hp1). cbn [in_buff pr_in]. fold (decode_pid got).
    destruct (decode_pid got) as [m|]; [|done]. run (proc_put_run w1 proc (pr_pid m) _ Hp1).
    unfold w1, up_procs, up_jdwp; cbn. by rewrite insert_insert_eq.
  - rewrite decide_True by lia. unfold read_to. apply arrives_stops in Ha. by destruct e.
Qed.

(** ** The descriptors of a process as a bounded queue *)

Record proc_ok (pr : JdwpProcess) : Prop := {
  po_fds : length (out_fds pr) = 4%nat;
  po_count : 0 ≤ out_count pr ≤ MAX_OUT_FDS;
  po_in : (length (in_buff pr) ≤ 4)%nat;
}.

(** the descriptors under way to the process, oldest first *)
Definition queued (pr : JdwpProcess) : list Z := take (Z.to_nat (out_count pr)) (out_fds pr).

Lemma length_queued pr : proc_ok pr → Z.of_nat (length (queued pr)) = out_count pr.
Proof. intros [H1 H2 _]. unfold queued, MAX_OUT_FDS in *. rewrite length_take. lia. Qed.

(** out_fds[out_count++] = d *)
Lemma queued_push pr d : proc_ok pr → out_count pr < MAX_OUT_FDS →
  let pr' := pr_out (<[Z.to_nat (out_count pr) := d]> (out_fds pr)) (out_count pr + 1) pr in
  queued pr' = queued pr ++ [d] ∧ proc_ok pr'.
Proof.
  intros [H1 H2 H3] Hlt. unfold queued, MAX_OUT_FDS in *. cbn [out_fds out_count pr_out]. split.
  - replace (Z.to_nat (out_count pr + 1)) with (S (Z.to_nat (out_count pr))) by lia.
    rewrite (take_S_r _ _ d) by (apply list_lookup_insert_eq; lia). f_equal. apply take_insert_ge. lia.
  - split; cbn [out_fds out_count in_buff pr_out]; [by rewrite length_insert|unfold MAX_OUT_FDS; lia|done].
Qed.

(** the loop moves the others up *)
Lemma queued_pop pr d q : proc_ok pr → queued pr = d :: q →
  let pr' := pr_out (shift_fds (Z.to_nat (out_count pr) - 1) 1 (out_fds pr)) (out_count pr - 1) pr in
  out_fds pr !! 0%nat = Some d ∧ queued pr' = q ∧ proc_ok pr'.
Proof.
  intros [H1 H2 H3] Hq. destruct pr as [pd so fe ib [|d0 [|d1 [|d2 [|d3 [|? ?]]]]] n]; try done.
  unfold queued, MAX_OUT_FDS in *. cbn [out_fds out_count in_buff pr_out] in *.
  assert (n = 0 ∨ n = 1 ∨ n = 2 ∨ n = 3 ∨ n = 4) as [-> | [-> | [-> | [-> | ->]]]] by lia; cbn in Hq; try done;
    injection Hq as <- <-; split_and!; try done; split; cbn; unfold MAX_OUT_FDS; (done || lia).
Qed.

(** the first process of the list with the pid *)
Definition proc_of (j : jdwp_state) (n : Z) : option Z :=
  head (filter (λ a, pid <$> jdwp_procs j !! a = Some n) (jdwp_list j)).

Lemma find_pid_run l n w : 0 ∉ l → (∀ a, a ∈ l → is_Some (jdwp_procs (w_jdwp w) !! a)) →
  find_pid l n w
  = Ok (default 0 (head (filter (λ a, pid <$> jdwp_procs (w_jdwp w) !! a = Some n) l))) w.
Proof.
  induction l as [|a l IH]; intros H0 Hl; [done|]. cbn [find_pid].
  destruct (Hl a ltac:(set_solver)) as [pr Hpr]. run (proc_at_run w a pr Hpr).
  destruct (Z.eqb_spec (pid pr) n) as [He|He].
  - rewrite filter_cons_True by (rewrite Hpr; cbn; by f_equal). done.
  - rewrite filter_cons_False by (rewrite Hpr; cbn; congruence). apply IH; set_solver.
Qed.

Lemma add_write_run w p f : fd_inv w → fdes w !! p = Some f → active f = true →
  ∃ w', fdevent_add p FDE_WRITE w = Ok tt w' ∧ only_fde p w w' ∧ watched w' (fd f) FDE_WRITE.
Proof.
  intros Hi Hf Ha. destruct (fdevent_add_run w p FDE_WRITE Hi) as (w' & Hrun & Hof); [eauto|].
  exists w'. split_and!; [done..|]. unfold fdevent_add in Hrun.
  rewrite (bind_ok _ _ _ _ _ (fde_at_ok w p f Hf)) in Hrun.
  rewrite (fdevent_set_eq w p f) in Hrun by done. cbv zeta in Hrun. injection Hrun as <-.
  match goal with |- context [if ?a =? ?b then _ else _] => destruct (Z.eqb_spec a b) as [He|_] end.
  - exists p, f. split_and!; try done. apply (f_equal (λ x, Z.testbit x 1)) in He. bits. done.
  - exists p. eexists. split; [apply lookup_insert_eq|]. unfold set_obj, active in *.
    destruct (pending f); [destruct (_ =? 0)|]; cbn [state fd]; split_and!; bits; done.
Qed.

(** ** The list of processes *)

Record jdwp_inv (w : world) : Prop := {
  ji_nodup : NoDup (jdwp_list (w_jdwp w));
  ji_dom a : a ∈ jdwp_list (w_jdwp w) ↔ is_Some (jdwp_procs (w_jdwp w) !! a);
  ji_next : 0 < next_loc (w_fd w);
  ji_addr a : is_Some (jdwp_procs (w_jdwp w) !! a) → 0 < a < next_loc (w_fd w);
  ji_proc a pr : jdwp_procs (w_jdwp w) !! a = Some pr → proc_ok pr;
}.

Lemma find_proc_run n w : jdwp_inv w →
  find_pid (jdwp_list (w_jdwp w)) n w = Ok (default 0 (proc_of (w_jdwp w) n)) w.
Proof.
  intros Hi. apply find_pid_run; [|intros a; apply (ji_dom w Hi)].
  intros H0%(ji_dom w Hi). apply (ji_addr w Hi) in H0. lia.
Qed.
Lemma proc_of_spec w n a : jdwp_inv w → proc_of (w_jdwp w) n = Some a →
  a ≠ 0 ∧ ∃ pr, jdwp_procs (w_jdwp w) !! a = Some pr ∧ pid pr = n ∧ proc_ok pr.
Proof.
  intros Hi Ha. unfold proc_of in Ha.
  assert (a ∈ filter (λ a, pid <$> jdwp_procs (w_jdwp w) !! a = Some n) (jdwp_list (w_jdwp w)))
    as [Hp Hin]%list_elem_of_filter.
  { destruct (filter _ _); [done|]. injection Ha as ->. apply list_elem_of_here. }
  apply (ji_dom w Hi) in Hin as Hs. pose proof (ji_addr w Hi a Hs). destruct Hs as [pr Hpr].
  rewrite Hpr in Hp. injection Hp as Hn. split; [lia|]. exists pr. split_and!; [done..|].
  by eapply (ji_proc w Hi).
Qed.

(** the socket pair is a pipe: its ends are read from the answer *)
Lemma socketpair_run w rc e fds rest : k_sys (w_kern_of w) = SysRes rc e fds :: rest →
  ∃ k', KW adb_socketpair w = Ok (if rc <? 0 then -1 else 0, fds) (up_kern k' w) ∧ k_sys k' = rest.
Proof.
  intros Hs. unfold adb_socketpair. destruct (rc <? 0) eqn:Hrc.
  - eexists. split; [apply KW_run; unfold bind, sys; rewrite Hs; cbn [sr_ret sr_out]; by rewrite Hrc|done].
  - eexists. split; [apply KW_run; unfold bind, sys; rewrite Hs; cbn [sr_ret sr_out]; by rewrite Hrc|done].
Qed.

(** the other processes, and the list, are as before *)
Definition only_proc (a : Z) (pr' : JdwpProcess) (w w' : world) : Prop :=
  jdwp_procs (w_jdwp w') = <[a := pr']> (jdwp_procs (w_jdwp w))
  ∧ jdwp_list (w_jdwp w') = jdwp_list (w_jdwp w).

(** C33 A request for a connection to a process.  Without a process of that pid,
    with four descriptors under way already, or without a socket pair it is
    refused and no process changes.  Otherwise one end is returned and the other
    is last in the queue of the first process with the pid; the process is
    watched until it can take a descriptor as soon as one is queued. *)
Theorem connection_queues n w rc e fds rest : jdwp_inv w → fd_inv (w_fd w) →
  (∀ a pr, jdwp_procs (w_jdwp w) !! a = Some pr → ∃ f, fdes (w_fd w) !! jp_fde pr = Some f ∧ active f = true) →
  k_sys (w_kern_of w) = SysRes rc e fds :: rest →
  match proc_of (w_jdwp w) n with
  | None => create_jdwp_connection_fd n w = Ok (-1) w
  | Some a => ∃ pr, jdwp_procs (w_jdwp w) !! a = Some pr ∧ pid pr = n ∧
      if decide (length (queued pr) = 4%nat) then create_jdwp_connection_fd n w = Ok (-1) w
      else if rc <? 0 then ∃ k', create_jdwp_connection_fd n w = Ok (-1) (up_kern k' w)
      else ∃ w' pr', create_jdwp_connection_fd n w = Ok (default 0 (fds !! 0%nat)) w'
        ∧ only_proc a pr' w w' ∧ proc_ok pr' ∧ pid pr' = n
        ∧ queued pr' = queued pr ++ [default 0 (fds !! 1%nat)]
        ∧ (queued pr = [] → ∃ f, fdes (w_fd w) !! jp_fde pr = Some f ∧ watched (w_fd w') (fd f) FDE_WRITE)
  end.
Proof.
  intros Hi Hfi Hev Hsys. unfold create_jdwp_connection_fd.
  rewrite (bind_ok _ _ w (jdwp_list (w_jdwp w)) w) by done. run (find_proc_run n w Hi).
  destruct (proc_of (w_jdwp w) n) as [a|] eqn:Ha; [|done]. cbn [default].
  destruct (proc_of_spec w n a Hi Ha) as (Ha0 & pr & Hpr & Hn & Hok). exists pr. split_and!; [done..|].
  unfold id. rewrite (proj2 (Z.eqb_neq a 0)) by done. run (proc_at_run w a pr Hpr).
  pose proof (length_queued pr Hok) as Hlq. pose proof (po_count pr Hok) as Hcnt. unfold MAX_OUT_FDS in *.
  case_decide as H4; [by rewrite (proj2 (Z.leb_le 4 _)) by lia|].
  rewrite (proj2 (Z.leb_gt 4 _)) by (destruct (decide (out_count pr = 4)); lia).
  destruct (socketpair_run w rc e fds rest Hsys) as (k' & Hsp & _). run Hsp.
  destruct (rc <? 0); [by exists k'|]. cbn [Z.ltb Z.compare].
  destruct (queued_push pr (default 0 (fds !! 1%nat)) Hok ltac:(unfold MAX_OUT_FDS; lia)) as [Hq' Hok'].
  set (pr' := pr_out _ _ pr) in *.
  rewrite (bind_ok _ _ _ _ _ (proc_put_run (up_kern k' w) a (λ p, pr_out _ _ p) pr Hpr)). fold pr'.
  set (w1 := up_procs _ _). destruct (Hev a pr Hpr) as (f & Hf & Hact).
  destruct (Z.eqb_spec (out_count pr + 1) 1) as [H1|H1]; cbn [when].
  - destruct (add_write_run (w_fd w1) (jp_fde pr) f) as (f' & Hadd & _ & Hw); [by apply inv_upd_kern|done..|].
    run (FD_run w1 _ _ _ Hadd). do 2 eexists. split_and!; [done|split; done|done|done|done|].
    intros _. exists f. done.
  - do 2 eexists. split_and!; [done|split; done|done|done|done|].
    intros He. rewrite He in Hlq. cbn in Hlq. lia.
Qed.

(** ** Passing a descriptor *)

Lemma KW_sys_next n a w r rest : k_sys (w_kern_of w) = r :: rest →
  ∃ k', KW (sys_ n a) w = Ok (sr_ret r) (up_kern k' w) ∧ k_sys k' = rest
    ∧ k_trace k' = k_trace (w_kern_of w) ++ [Sys n a].
Proof.
  intros H. eexists. split; [apply KW_run; unfold sys_, bind, sys; rewrite H; reflexivity|].
  by destruct (sr_ret r <? 0).
Qed.

Definition interrupted (r : sysres) : Prop := sr_ret r < 0 ∧ sr_errno r = EINTR.
Definition send_call (s d : Z) : syscall := Sys "sendmsg:SCM_RIGHTS" [AZ s; AZ d; AS (str "!")].

Lemma send_fd_run s d ints r rest : Forall interrupted ints → 0 ≤ sr_ret r → ∀ fuel k,
  k_sys k = ints ++ r :: rest → (length ints < fuel)%nat →
  ∃ k', send_fd fuel s d k = Ok true k' ∧ k_sys k' = rest
    ∧ k_trace k' = k_trace k ++ replicate (S (length ints)) (send_call s d) ++ [Sys "close" [AZ d]].
Proof.
  intros Hints Hr. induction Hints as [|i ints [Hi He] _ IH]; intros fuel k Hk Hf; (destruct fuel as [|fuel]; [lia|]);
    cbn [send_fd].
  - eexists. split_and!; [unfold bind at 1, sys_, bind, sys; rewrite Hk; cbn;
      rewrite (proj2 (Z.leb_le 0 _)) by done; reflexivity|..]; rewrite (proj2 (Z.ltb_ge _ 0)) by done; [done|].
    cbn. by rewrite <- app_assoc.
  - set (k1 := set_errno EINTR (set_sys (ints ++ r :: rest) (add_trace (send_call s d) k))).
    assert (E : sys_ "sendmsg:SCM_RIGHTS" [AZ s; AZ d; AS (str "!")] k = Ok (sr_ret i) k1).
    { unfold sys_, bind, sys. rewrite Hk. cbn. by rewrite (proj2 (Z.ltb_lt _ 0)), He by done. }
    run E. rewrite (proj2 (Z.leb_gt 0 _)) by done. run (eq_refl : gets k_errno k1 = Ok EINTR k1).
    cbn [Z.eqb]. destruct (IH fuel k1 eq_refl ltac:(cbn in Hf; lia)) as (k' & Hrun & Hs & Ht).
    exists k'. split_and!; [done..|]. rewrite Ht. cbn [k1 k_trace set_errno set_sys add_trace length replicate].
    by rewrite <- app_assoc.
Qed.

Lemma del_write_run w p f : fd_inv w → fdes w !! p = Some f → active f = true →
  ∃ w', fdevent_del p FDE_WRITE w = Ok tt w' ∧ only_fde p w w' ∧ ¬ watched w' (fd f) FDE_WRITE.
Proof.
  intros Hi Hf Ha. destruct (fdevent_del_run w p FDE_WRITE Hi) as (w' & Hrun & Hof); [eauto|].
  exists w'. split_and!; [done..|]. destruct Hof as (Hi' & _). unfold fdevent_del in Hrun.
  rewrite (bind_ok _ _ _ _ _ (fde_at_ok w p f Hf)) in Hrun.
  rewrite (fdevent_set_eq w p f) in Hrun by done. cbv zeta in Hrun. injection Hrun as Hw'.
  assert (∃ f', fdes w' !! p = Some f' ∧ fd f' = fd f ∧ active f' = true ∧ has (state f') FDE_WRITE = false)
    as (f' & Hf' & Hfd & Ha' & Hno).
  { revert Hw'. match goal with |- context [if ?a =? ?b then _ else _] => destruct (Z.eqb_spec a b) as [He|_] end;
      intros <-.
    - exists f. split_and!; try done. apply (f_equal (λ x, Z.testbit x 1)) in He. revert He. bits. done.
    - eexists. split; [apply lookup_insert_eq|]. unfold set_obj, active in *.
      destruct (pending f); [destruct (_ =? 0)|]; cbn [state fd]; split_and!; bits; done. }
  intros (q & g & Hg & Hga & Hgd & Hgw).
  assert (q = p) as -> by (apply (active_inj w' q p g f'); congruence). congruence.
Qed.

(** the calls of a hand-over: blocking mode on, the message (again after every
    signal), the daemon's copy closed, the mode restored *)
Definition handover_calls (s flags d : Z) (ints : list sysres) : list syscall :=
  [Sys "fcntl" [AZ s; AS (str "F_GETFL")];
   Sys "fcntl" [AZ s; AS (str "F_SETFL"); AZ (Z.land flags (Z.lnot O_NONBLOCK))]]
  ++ replicate (S (length ints)) (send_call s d) ++ [Sys "close" [AZ d]]
  ++ [Sys "fcntl" [AZ s; AS (str "F_SETFL"); AZ flags]].

(** C34 A process that can be written to is handed the descriptor that waited
    longest, once, however often the call is interrupted; the daemon closes its
    copy, the flags of the connection are as before, the others keep their order,
    and when the queue is empty the process is no longer watched for output. *)
Theorem descriptor_handed_over proc pr d q w r1 r2 ints r3 r4 rest f :
  jdwp_procs (w_jdwp w) !! proc = Some pr → proc_ok pr → queued pr = d :: q →
  fd_inv (w_fd w) → fdes (w_fd w) !! jp_fde pr = Some f → active f = true →
  k_sys (w_kern_of w) = r1 :: r2 :: ints ++ r3 :: r4 :: rest →
  Forall interrupted ints → sr_ret r1 ≠ -1 → sr_ret r2 ≠ -1 → 0 ≤ sr_ret r3 → sr_ret r4 ≠ -1 →
  ∃ w' pr', jdwp_process_writable proc w = Ok tt w' ∧ only_proc proc pr' w w'
    ∧ queued pr' = q ∧ proc_ok pr' ∧ pid pr' = pid pr
    ∧ k_trace (w_kern_of w') = k_trace (w_kern_of w) ++ handover_calls (socket pr) (sr_ret r1) d ints
    ∧ (q = [] → ¬ watched (w_fd w') (fd f) FDE_WRITE).
Proof.
  intros Hp Hok Hq Hi Hf Hact Hsys Hints H1 H2 H3 H4. unfold jdwp_process_writable.
  pose proof (length_queued pr Hok) as Hlq. rewrite Hq in Hlq. cbn [length] in Hlq.
  destruct (queued_pop pr d q Hok Hq) as (Hd & Hq' & Hok'). set (pr' := pr_out _ _ pr) in *.
  run (proc_at_run w proc pr Hp). rewrite (proj2 (Z.leb_gt _ 0)) by lia.
  rewrite (bind_ok _ _ w d w) by (unfold deref; by rewrite Hd).
  destruct (KW_sys_next "fcntl" [AZ (socket pr); AS (str "F_GETFL")] w _ _ Hsys) as (k1 & E1 & S1 & T1).
  run E1. rewrite (proj2 (Z.eqb_neq _ (-1))) by done. set (flags := sr_ret r1) in *.
  destruct (KW_sys_next "fcntl" [AZ (socket pr); AS (str "F_SETFL"); AZ (Z.land flags (Z.lnot O_NONBLOCK))]
    (up_kern k1 w) _ _ S1) as (k2 & E2 & S2 & T2).
  run E2. rewrite (proj2 (Z.eqb_neq _ (-1))) by done. change (up_kern k2 (up_kern k1 w)) with (up_kern k2 w).
  set (n := length (k_sys (w_kern_of (up_kern k2 w)))). rewrite (bind_ok _ _ (up_kern k2 w) n _) by done.
  destruct (send_fd_run (socket pr) d ints r3 (r4 :: rest) Hints H3 (2 + n) k2 S2) as (k3 & E3 & S3 & T3).
  { unfold n. change (w_kern_of (up_kern k2 w)) with k2. rewrite S2, length_app. lia. }
  run (KW_run (up_kern k2 w) _ _ _ E3). cbn [negb]. change (up_kern k3 (up_kern k2 w)) with (up_kern k3 w).
  rewrite (bind_ok _ _ _ _ _ (proc_put_run (up_kern k3 w) proc (λ p, pr_out _ _ p) pr Hp)).
  set (w3 := up_procs _ (up_kern k3 w)).
  destruct (KW_sys_next "fcntl" [AZ (socket pr); AS (str "F_SETFL"); AZ flags] w3 _ _ S3) as (k4 & E4 & S4 & T4).
  run E4. rewrite (proj2 (Z.eqb_neq _ (-1))) by done. set (w4 := up_kern k4 w3).
  rewrite (bind_ok _ _ _ _ _ (proc_put_run w4 proc _ _ (lookup_insert_eq _ _ _))).
  set (w5 := up_procs _ w4).
  assert (Hw5 : only_proc proc pr' w w5) by (split; [apply insert_insert_eq|done]).
  assert (Htr : k_trace (w_kern_of w5) = k_trace (w_kern_of w) ++ handover_calls (socket pr) flags d ints).
  { change (k_trace (w_kern_of w5)) with (k_trace k4). rewrite T4. change (w_kern_of w3) with k3.
    rewrite T3, T2. change (w_kern_of (up_kern k1 w)) with k1. rewrite T1. unfold handover_calls.
    rewrite <- !app_assoc. done. }
  assert (Hpid : pid pr' = pid pr) by done.
  destruct (Z.eqb_spec (out_count pr - 1) 0) as [Hz|Hz]; cbn [when].
  - destruct (del_write_run (w_fd w5) (jp_fde pr) f) as (f' & Hdel & Hof & Hno); [by do 2 apply inv_upd_kern|done..|].
    rewrite (FD_run w5 _ _ _ Hdel). exists (up_fd f' w5), pr'. split; [done|]. split; [exact Hw5|].
    destruct Hof as (_ & Hk & _). split_and!; [done..| |done].
    change (w_kern_of (up_fd f' w5)) with (w_kern f'). by rewrite Hk.
  - exists w5, pr'. split; [done|]. split; [exact Hw5|]. split_and!; [done..|]. intros ->. cbn in Hlq. lia.
Qed.

(** ** Examples *)

Module DemoJdwp.
Definition kernel (answers : list sysres) (input : list rd_ev) : kern :=
  mkKern 0 {[ 6 := input ]} {[ 11 := [WrOk 64] ]} ∅ answers [] [].
Definition events (k : kern) : fdw :=
  upd_next_loc 128 (final (fdevent_install 33 6 jdwp_process_event_ 32 (initial k))).
Definition proc (n : Z) (text : list Z) (fds : list Z) (count : Z) : JdwpProcess := mkProc n 6 33 text fds count.
(** the process 32 on descriptor 6, the tracker 48 with the remote socket 80 of
    the transport 16 *)
Definition tracker : asocket :=
  mkSock 1 false false 80 0 0 [] jdwp_tracker_enqueue_ jdwp_tracker_ready_ jdwp_tracker_close_ 0 0.
Definition remote : asocket :=
  mkSock 7 false false 48 0 0 [] remote_socket_enqueue_ remote_socket_ready_ remote_socket_close_ 16 0.
Definition world (k : kern) (pr : JdwpProcess) : world :=
  up_fd (events k) (up_jdwp (mkJdwp {[ 32 := pr ]} [32] [48] 5 0)
    (up_transports <[16 := DemoClosing.transport]>
      (up_sockets (λ _, {[ 48 := tracker; 80 := remote ]}) (start_world k)))).
End DemoJdwp.

Lemma demo_jdwp_events k pr : k_oom k = [] → fd_inv (w_fd (DemoJdwp.world k pr)).
Proof.
  intros Hk. cbn. apply inv_upd_next_loc.
  apply (run_op_Ok_inv (initial k) (OpInstall 33 6 jdwp_process_event_ 32)).
  - apply initial_inv.
  - split_and!; try done. intros (_ & p & Hp & _). done.
  - destruct k as [e r w o s t m]. cbn in Hk. subst m. vm_compute. reflexivity.
Qed.
Lemma demo_jdwp_inv k pr : proc_ok pr → k_oom k = [] → jdwp_inv (DemoJdwp.world k pr).
Proof.
  intros Hok Hk. assert (Hd : jdwp_procs (w_jdwp (DemoJdwp.world k pr)) = {[ 32 := pr ]}) by reflexivity.
  split.
  - apply NoDup_singleton.
  - intros a. rewrite Hd. change (jdwp_list _) with [32]. rewrite list_elem_of_singleton.
    destruct (decide (a = 32)) as [->|Hne]; [rewrite lookup_singleton_eq; by split|].
    rewrite lookup_singleton_ne by done. split; [done|by intros []].
  - cbn. lia.
  - intros a. rewrite Hd. intros [q [<- _]%lookup_singleton_Some]. cbn. lia.
  - intros a q. rewrite Hd. by intros [_ <-]%lookup_singleton_Some.
Qed.

Lemma process_handshake_witness :
  let k := DemoJdwp.kernel [] [RdData (str "01"); RdErr EINTR; RdData (str "a4"); RdErr EAGAIN] in
  let w := DemoJdwp.world k (DemoJdwp.proc (-1) [] [0; 0; 0; 0] 0) in
  ∃ w', jdwp_process_readable 6 32 w = (jdwp_process_list_updated;;; ret true) w'
    ∧ pid <$> jdwp_procs (w_jdwp w') !! 32 = Some 420.
Proof.
  intros k w. pose proof (process_handshake 6 32 (DemoJdwp.proc (-1) [] [0; 0; 0; 0] 0) w) as H.
  change (arrives (rd_of 6 (w_kern_of w))) with (str "01a4", WouldBlock) in H.
  destruct H as (k' & _ & Hrun & _); [reflexivity|cbn; lia|cbn; lia|].
  eexists. split; [exact Hrun|]. reflexivity.
Defined.

Lemma connection_queues_witness :
  let w := DemoJdwp.world (DemoJdwp.kernel [SysRes 0 0 [8; 9]] []) (DemoJdwp.proc 420 (str "01a4") [7; 0; 0; 0] 1) in
  ∃ w' pr', create_jdwp_connection_fd 420 w = Ok 8 w'
    ∧ only_proc 32 pr' w w' ∧ queued pr' = [7; 9].
Proof.
  intros w. pose proof (connection_queues 420 w 0 0 [8; 9] []) as H.
  change (proc_of (w_jdwp w) 420) with (Some 32) in H.
  destruct H as (pr & Hpr & _ & H).
  - apply demo_jdwp_inv; [|reflexivity]. split; cbn; unfold MAX_OUT_FDS; [reflexivity|lia|lia].
  - apply demo_jdwp_events. reflexivity.
  - intros a pr Hp. change (jdwp_procs (w_jdwp w)) with ({[ 32 := DemoJdwp.proc 420 (str "01a4") [7; 0; 0; 0] 1 ]} : gmap Z JdwpProcess) in Hp.
    apply lookup_singleton_Some in Hp as [_ <-]. eexists. split; vm_compute; reflexivity.
  - reflexivity.
  - injection Hpr as <-. cbn in H. destruct H as (w' & pr' & Hrun & Ho & _ & _ & Hq & _).
    exists w', pr'. split; [exact Hrun|]. split; [exact Ho|exact Hq].
Defined.

Lemma descriptor_handed_over_witness :
  let w := DemoJdwp.world (DemoJdwp.kernel
    [SysRes 2050 0 []; SysRes 0 0 []; SysRes (-1) EINTR []; SysRes 1 0 []; SysRes 0 0 []] [])
    (DemoJdwp.proc 420 (str "01a4") [7; 9; 0; 0] 2) in
  ∃ w' pr', jdwp_process_writable 32 w = Ok tt w' ∧ only_proc 32 pr' w w' ∧ queued pr' = [9].
Proof.
  intros w. destruct (descriptor_handed_over 32 (DemoJdwp.proc 420 (str "01a4") [7; 9; 0; 0] 2) 7 [9] w
    (SysRes 2050 0 []) (SysRes 0 0 []) [SysRes (-1) EINTR []] (SysRes 1 0 []) (SysRes 0 0 []) []
    (mkFde 6 false FDE_ACTIVE 0 jdwp_process_event_ 32))
    as (w' & pr' & Hrun & Ho & Hq & _).
  - reflexivity.
  - split; cbn; unfold MAX_OUT_FDS; [reflexivity|lia|lia].
  - reflexivity.
  - apply demo_jdwp_events. reflexivity.
  - vm_compute. reflexivity.
  - reflexivity.
  - reflexivity.
  - constructor; [split; reflexivity|constructor].
  - discriminate.
  - discriminate.
  - cbn. lia.
  - discriminate.
  - exists w', pr'. split; [exact Hrun|]. split; [exact Ho|exact Hq].
Defined.
