(* ===== verification/JdwpInv.v ===== *)
(** * The invariant of the processes that can be debugged

    What the sockets and the event loop leave alone, the operations that change
    the list of processes, and the invariant in every reachable state. *)

From S2P Require Import Prelude Kernel Packet DList Fdevent World Transport Listing Sockets Jdwp ListingProps Flow SocketTable Closing Teardown Streams JdwpProps.

(** ** What the sockets leave alone *)

(** addresses are not used twice *)
Definition fd_grows (f f' : fdw) : Prop := next_loc f ≤ next_loc f'.
#[export] Instance fd_grows_preorder : PreOrder fd_grows.
Proof. split; [intros f; unfold fd_grows; lia|]. intros f g h. unfold fd_grows. lia. Qed.

Create HintDb procs.
Ltac fd_grow := repeat first
  [ solve [eauto with procs] | progress cbn beta iota | keeps_step
  | (apply keeps_modify; intros ?; unfold fd_grows; cbn; lia) ].

Lemma grows_K {A} (m : M kern A) : keeps fd_grows (K m).
Proof. apply (keeps_zoom (λ _ _, True)); [done|]. intros. unfold fd_grows; cbn. lia. Qed.
Lemma grows_fde_at p : keeps fd_grows (fde_at p).
Proof. apply keeps_deref, _. Qed.
Lemma grows_plist_remove p : keeps fd_grows (fdevent_plist_remove p).
Proof. intros w. unfold fdevent_plist_remove. case_bool_decide; unfold fd_grows; cbn; lia. Qed.
Lemma grows_fd_set_check d : keeps fd_grows (fd_set_check d).
Proof. unfold fd_set_check. fd_grow. Qed.
Lemma grows_fd_table_at i : keeps fd_grows (fd_table_at i).
Proof. apply keeps_deref, _. Qed.
Lemma grows_FATAL {A} : keeps fd_grows (FATAL : M fdw A).
Proof. apply keeps_exit, _. Qed.
#[export] Hint Resolve grows_K grows_fde_at grows_plist_remove grows_fd_set_check grows_fd_table_at
  grows_FATAL : procs.
Lemma grows_fde_put p f : keeps fd_grows (fde_put p f).
Proof. unfold fde_put. fd_grow. Qed.
#[export] Hint Resolve grows_fde_put : procs.
Lemma grows_last_registered n i m : keeps fd_grows (last_registered n i m).
Proof. revert i m. induction n; intros; cbn [last_registered]; fd_grow. Qed.
#[export] Hint Resolve grows_last_registered : procs.
Lemma grows_remove p : keeps fd_grows (fdevent_remove p).
Proof. unfold fdevent_remove, fdevent_disconnect, fdevent_unregister. fd_grow. Qed.
Lemma grows_set p ev : keeps fd_grows (fdevent_set p ev).
Proof. unfold fdevent_set, set_events_asked, fdevent_update. fd_grow. Qed.
#[export] Hint Resolve grows_remove grows_set : procs.
Lemma grows_add p ev : keeps fd_grows (fdevent_add p ev).
Proof. unfold fdevent_add. fd_grow. Qed.
Lemma grows_del p ev : keeps fd_grows (fdevent_del p ev).
Proof. unfold fdevent_del. fd_grow. Qed.
Lemma grows_destroy p : keeps fd_grows (fdevent_destroy p).
Proof. unfold fdevent_destroy. fd_grow. Qed.
Lemma grows_install p d fn a : keeps fd_grows (fdevent_install p d fn a).
Proof. unfold fdevent_install, fdevent_register, fdevent_connect, fdevent_init. fd_grow. Qed.
#[export] Hint Resolve grows_add grows_del grows_destroy grows_install : procs.
Lemma grows_create d fn a : keeps fd_grows (fdevent_create d fn a).
Proof.
  intros f. unfold fdevent_create. unfold bind at 1. pose proof (grows_K malloc_ok f) as Hm.
  destruct (K malloc_ok f) as [ok f1| |]; cbn in Hm; [|done..]. etrans; [exact Hm|].
  destruct ok; cbn [negb]; [|unfold fd_grows; cbn; lia]. run (eq_refl : gets next_loc f1 = Ok (next_loc f1) f1).
  set (f2 := upd_next_loc (next_loc f1 + 1) f1). run (eq_refl : modify (upd_next_loc (next_loc f1 + 1)) f1 = Ok tt f2).
  trans f2; [unfold fd_grows; cbn; lia|]. set (p := next_loc f1) in *.
  assert (Hk : keeps fd_grows (fdevent_install p d fn a;;;
    fde_put p (λ f0, set_state (Z.lor (state f0) FDE_CREATED) f0);;; ret p)) by fd_grow.
  apply Hk.
Qed.
#[export] Hint Resolve grows_create : procs.

Record same_procs (w w' : world) : Prop := {
  sp_procs : jdwp_procs (w_jdwp w') = jdwp_procs (w_jdwp w);
  sp_list : jdwp_list (w_jdwp w') = jdwp_list (w_jdwp w);
  sp_next : next_loc (w_fd w) ≤ next_loc (w_fd w');
}.
#[export] Instance same_procs_preorder : PreOrder same_procs.
Proof.
  split; [intros w; split; [done..|lia]|]. intros w1 w2 w3 [] []. split; [congruence..|lia].
Qed.
Ltac procs := repeat first
  [ solve [eauto with procs] | progress cbn beta iota | keeps_step
  | (apply keeps_modify; intros ?; split; cbn; [reflexivity..|lia]) ].

Lemma procs_FD {A} (m : M fdw A) : keeps fd_grows m → keeps same_procs (FD m).
Proof. intros Hm. apply (keeps_zoom fd_grows); [done|]. intros w f Hf. by split. Qed.
Lemma procs_KW {A} (m : M kern A) : keeps same_procs (KW m).
Proof. apply procs_FD, grows_K. Qed.
Lemma procs_fatal {A} : keeps same_procs (fatal : M world A).
Proof. apply keeps_exit, _. Qed.
Lemma procs_fdes g : keeps fd_grows (modify (upd_fdes g)).
Proof. fd_grow. Qed.
#[export] Hint Resolve procs_FD procs_KW procs_fatal procs_fdes : procs.
Lemma procs_alloc : keeps same_procs alloc.
Proof. intros w. unfold alloc, bind, FD, zoom; cbn. split; cbn; [done..|lia]. Qed.
Lemma procs_sock_at s : keeps same_procs (sock_at s).
Proof. apply keeps_deref, _. Qed.
Lemma procs_pkt_at p : keeps same_procs (pkt_at p).
Proof. apply keeps_deref, _. Qed.
Lemma procs_trans_at p : keeps same_procs (trans_at p).
Proof. apply keeps_deref, _. Qed.
Lemma procs_proc_at p : keeps same_procs (proc_at p).
Proof. apply keeps_deref, _. Qed.
#[export] Hint Resolve procs_alloc procs_sock_at procs_pkt_at procs_trans_at procs_proc_at : procs.

Lemma procs_lock1 : keeps same_procs lock_sockets.
Proof. unfold lock_sockets. procs. Qed.
Lemma procs_lock2 : keeps same_procs unlock_sockets.
Proof. unfold unlock_sockets. procs. Qed.
Lemma procs_lock3 : keeps same_procs lock_transports.
Proof. unfold lock_transports. procs. Qed.
Lemma procs_lock4 : keeps same_procs unlock_transports.
Proof. unfold unlock_transports. procs. Qed.
Lemma procs_sock_put s f : keeps same_procs (sock_put s f).
Proof. unfold sock_put. procs. Qed.
Lemma procs_pkt_put s f : keeps same_procs (pkt_put s f).
Proof. unfold pkt_put. procs. Qed.
Lemma procs_trans_put s f : keeps same_procs (trans_put s f).
Proof. unfold trans_put. procs. Qed.
Lemma procs_free_socket s : keeps same_procs (free_socket s).
Proof. unfold free_socket. procs. Qed.
#[export] Hint Resolve procs_lock1 procs_lock2 procs_lock3 procs_lock4 procs_sock_put procs_pkt_put
  procs_trans_put procs_free_socket : procs.
Lemma procs_get_apacket : keeps same_procs get_apacket.
Proof. unfold get_apacket. procs. Qed.
Lemma procs_put_apacket p : keeps same_procs (put_apacket p).
Proof. unfold put_apacket. procs. Qed.
Lemma procs_send_packet p t : keeps same_procs (send_packet p t).
Proof. unfold send_packet. procs. Qed.
Lemma procs_remove_dis t d : keeps same_procs (remove_transport_disconnect t d).
Proof. unfold remove_transport_disconnect. procs. Qed.
Lemma procs_remove_socket s : keeps same_procs (remove_socket s).
Proof. unfold remove_socket. procs. Qed.
Lemma procs_touch o : keeps same_procs (touch o).
Proof. unfold touch. procs. Qed.
Lemma procs_unlink_node l t : keeps same_procs (unlink_node l t).
Proof. induction l; cbn; procs. Qed.
#[export] Hint Resolve procs_get_apacket procs_put_apacket procs_send_packet procs_remove_dis
  procs_remove_socket procs_touch procs_unlink_node : procs.
Lemma procs_put_apackets l : keeps same_procs (put_apackets l).
Proof. induction l; cbn; procs. Qed.
#[export] Hint Resolve procs_put_apackets : procs.
Lemma procs_destroy s : keeps same_procs (local_socket_destroy s).
Proof. unfold local_socket_destroy. procs. Qed.
#[export] Hint Resolve procs_destroy : procs.

Lemma procs_close_rec n b s : keeps same_procs (close_rec n b s).
Proof.
  revert b s. induction n as [|n IH]; intros b s; [apply keeps_fail, _|]. cbn [close_rec].
  unfold local_socket_close, local_socket_close_locked, local_socket_close_notify,
    remote_socket_close, free_remote, smart_socket_close, jdwp_socket_close, jdwp_tracker_close,
    device_tracker_close, device_tracker_remove.
  procs.
Qed.
Lemma procs_call_close s : keeps same_procs (call_close s).
Proof. apply procs_close_rec. Qed.
#[export] Hint Resolve procs_call_close : procs.

Lemma procs_drain_packet n e d p : keeps same_procs (drain_packet n e d p).
Proof. induction n as [|n IH]; cbn; procs. Qed.
Lemma procs_pick_transport l ty sn st : keeps same_procs (pick_transport l ty sn st).
Proof. revert st. induction l as [|t l IH]; intros st; cbn; procs. Qed.
#[export] Hint Resolve procs_drain_packet procs_pick_transport : procs.
Lemma procs_acquire n st ty sn : keeps same_procs (acquire_one_transport n st ty sn).
Proof.
  unfold acquire_one_transport. generalize false.
  induction n as [|n IH]; intros b; cbn; unfold acquire_pass; procs.
Qed.
#[export] Hint Resolve procs_acquire : procs.
Lemma procs_call_enqueue s p : keeps same_procs (call_enqueue s p).
Proof.
  unfold call_enqueue, local_socket_enqueue, remote_socket_enqueue, smart_socket_enqueue, smart_gather, smart_connect,
    smart_forward, terminate_request,    smart_fail, connect_to_remote, jdwp_socket_enqueue, jdwp_tracker_enqueue, device_tracker_enqueue,
    device_tracker_close, device_tracker_remove.
  procs.
Qed.
#[export] Hint Resolve procs_call_enqueue : procs.
Lemma procs_list_pids l n : keeps same_procs (list_pids l n).
Proof. revert n. induction l; intros; cbn; procs. Qed.
#[export] Hint Resolve procs_list_pids : procs.
Lemma procs_list_msg n : keeps same_procs (jdwp_process_list_msg n).
Proof. unfold jdwp_process_list_msg, jdwp_process_list. procs. Qed.
Lemma procs_send_list s p bs : keeps same_procs (send_list s p bs).
Proof. unfold send_list. procs. Qed.
#[export] Hint Resolve procs_list_msg procs_send_list : procs.
Lemma procs_notify n t bs : keeps same_procs (notify_trackers n t bs).
Proof. revert t. induction n as [|n IH]; intros [t|]; cbn; procs. Qed.
#[export] Hint Resolve procs_notify : procs.
Lemma procs_list_updated : keeps same_procs jdwp_process_list_updated.
Proof. unfold jdwp_process_list_updated. procs. Qed.
Lemma procs_close_fds l : keeps same_procs (close_fds l).
Proof. induction l; cbn; procs. Qed.
Lemma procs_touch_proc o : keeps same_procs (touch_proc o).
Proof. unfold touch_proc. procs. Qed.
Lemma procs_find_pid l n : keeps same_procs (find_pid l n).
Proof. induction l; cbn; procs. Qed.
Lemma procs_drop_input n s : keeps same_procs (drop_input n s).
Proof. induction n as [|n IH]; cbn [drop_input]; procs. Qed.
#[export] Hint Resolve procs_list_updated procs_close_fds procs_touch_proc procs_find_pid
  procs_drop_input : procs.
Lemma procs_install_local_socket s : keeps same_procs (install_local_socket s).
Proof. unfold install_local_socket. procs. Qed.
Lemma procs_new_socket so : keeps same_procs (new_socket so).
Proof. unfold new_socket. procs. Qed.
#[export] Hint Resolve procs_install_local_socket procs_new_socket : procs.
Lemma procs_format t n b : keeps same_procs (format_transport t n b).
Proof. unfold format_transport, add_qual, print_to. procs. Qed.
#[export] Hint Resolve procs_format : procs.
Lemma procs_list_lines l n b : keeps same_procs (list_lines l n b).
Proof. revert n. induction l; intros; cbn; procs. Qed.
#[export] Hint Resolve procs_list_lines : procs.
Lemma procs_call_ready s : keeps same_procs (call_ready s).
Proof.
  unfold call_ready, local_socket_ready_notify, local_socket_ready, remote_socket_ready,
    smart_socket_ready, jdwp_socket_ready, jdwp_tracker_ready, device_tracker_ready,
    device_tracker_send, list_transports_msg, list_transports, jdwp_process_list.
  procs.
Qed.
#[export] Hint Resolve procs_call_ready : procs.

(** ** The invariant *)

(** [m] keeps the invariant whenever it returns *)
Definition preserves {A} (m : M world A) : Prop :=
  ∀ w a w', m w = Ok a w' → jdwp_inv w → jdwp_inv w'.

Lemma same_procs_inv w w' : same_procs w w' → jdwp_inv w → jdwp_inv w'.
Proof.
  intros [H1 H2 H3] [I1 I2 I3 I4 I5]. split.
  - by rewrite H2.
  - intros a. by rewrite H1, H2.
  - lia.
  - intros a. rewrite H1. intros Ha%I4. lia.
  - intros a pr. rewrite H1. apply I5.
Qed.
Lemma preserves_keeps {A} (m : M world A) : keeps same_procs m → preserves m.
Proof. intros Hk w a w' E. apply same_procs_inv. exact (keeps_Ok _ _ _ _ _ Hk E). Qed.
Lemma preserves_bind {A B} (m : M world A) (f : A → M world B) :
  preserves m → (∀ a, preserves (f a)) → preserves (bind m f).
Proof. intros Hm Hf w b w' (a & w1 & H1 & H2)%bind_Ok_inv Hi. exact (Hf _ _ _ _ H2 (Hm _ _ _ H1 Hi)). Qed.
Lemma preserves_when b m : preserves m → preserves (when b m).
Proof. destruct b; [done|]. intros _. apply (preserves_keeps (ret tt)). procs. Qed.

Ltac preserve_step :=
  lazymatch goal with
  | |- preserves (bind _ _) => apply preserves_bind; [|intros ?]
  | |- preserves (when _ _) => apply preserves_when
  | |- preserves (match ?x with _ => _ end) => destruct x
  end.
Ltac preserve := repeat first
  [ solve [eauto with procs] | solve [apply preserves_keeps; procs] | progress cbn beta iota | preserve_step ].

(** the object at [a] is replaced by one that is as good *)
Lemma inv_replace w a pr pr' : jdwp_procs (w_jdwp w) !! a = Some pr → (proc_ok pr → proc_ok pr') →
  jdwp_inv w → jdwp_inv (up_procs <[a := pr']> w).
Proof.
  intros Hp Hok [I1 I2 I3 I4 I5].
  assert (Hsome : ∀ b, is_Some (<[a := pr']> (jdwp_procs (w_jdwp w)) !! b) ↔ is_Some (jdwp_procs (w_jdwp w) !! b)).
  { intros b. destruct (decide (b = a)) as [->|Hne]; [|by rewrite lookup_insert_ne].
    rewrite lookup_insert_eq, Hp. split; eauto. }
  split; cbn; [done|..|done| |].
  - intros b. rewrite Hsome. apply I2.
  - intros b. rewrite Hsome. apply I4.
  - intros b q [[<- <-]|[_ Hq]]%lookup_insert_Some; eauto.
Qed.
Lemma preserves_proc_put a f : (∀ pr, proc_ok pr → proc_ok (f pr)) → preserves (proc_put a f).
Proof.
  intros Hf w ? w' E Hi. destruct (jdwp_procs (w_jdwp w) !! a) as [pr|] eqn:Hp.
  - rewrite (proc_put_run w a f pr Hp) in E. injection E as _ <-. by apply (inv_replace w a pr); auto.
  - unfold proc_put, bind, proc_at, deref in E. by rewrite Hp in E.
Qed.

Lemma proc_at_ok a w pr w' : proc_at a w = Ok pr w' → w' = w ∧ jdwp_procs (w_jdwp w) !! a = Some pr.
Proof. unfold proc_at, deref. destruct (jdwp_procs (w_jdwp w) !! a); [|done]. by intros [= <- <-]. Qed.

Lemma inv_remove w a : jdwp_inv w →
  jdwp_inv (up_procs (delete a) (up_jdwp_list (filter (λ x, x ≠ a) (jdwp_list (w_jdwp w))) w)).
Proof.
  intros [I1 I2 I3 I4 I5]. split; cbn.
  - by apply list.NoDup_filter.
  - intros b. rewrite list_elem_of_filter, I2. destruct (decide (b = a)) as [->|Hne].
    + rewrite lookup_delete_eq. split; [tauto|by intros []].
    + rewrite lookup_delete_ne by done. tauto.
  - done.
  - intros b [q [_ Hq]%lookup_delete_Some]. apply I4. eauto.
  - intros b q [_ Hq]%lookup_delete_Some. eauto.
Qed.

Lemma preserves_free a : preserves (jdwp_process_free a).
Proof.
  unfold jdwp_process_free. destruct (a =? 0); [preserve|].
  intros w ? w' (pr & w1 & H1 & H)%bind_Ok_inv Hi.
  apply proc_at_ok in H1 as [-> _].
  rewrite (bind_ok _ _ w (jdwp_list (w_jdwp w)) w) in H by done.
  apply bind_Ok_inv in H as (? & w2 & Ht1%(keeps_Ok same_procs) & H); [|procs].
  apply bind_Ok_inv in H as (? & w3 & Ht2%(keeps_Ok same_procs) & H); [|procs].
  set (l := filter (λ x, x ≠ a) (jdwp_list (w_jdwp w))) in *.
  rewrite (bind_ok _ _ w3 tt (up_jdwp_list l w3)) in H by done.
  apply bind_Ok_inv in H as (? & w4 & Hc1%(keeps_Ok same_procs) & H); [|procs].
  apply bind_Ok_inv in H as (? & w5 & Hc2%(keeps_Ok same_procs) & H); [|procs].
  apply bind_Ok_inv in H as (? & w6 & Hc3%(keeps_Ok same_procs) & H); [|procs].
  rewrite (bind_ok _ _ w6 tt (up_procs (delete a) w6)) in H by done.
  apply (keeps_Ok same_procs) in H; [|procs]. apply (same_procs_inv _ _ H).
  assert (Hs : same_procs (up_jdwp_list l w) w6).
  { trans (up_jdwp_list l w3); [|by do 2 (etrans; [eassumption|])].
    assert (same_procs w w3) as [E1 E2 E3] by by etrans. by split. }
  apply (same_procs_inv (up_procs (delete a) (up_jdwp_list l w))); [|by apply inv_remove].
  destruct Hs as [E1 E2 E3]. split; cbn in *; [by rewrite E1|done..].
Qed.

Lemma recv_length s n w bs w' : KW (recv s n) w = Ok (inl bs) w' →
  (length bs ≤ n)%nat ∧ w_jdwp w' = w_jdwp w.
Proof.
  unfold KW, FD, K, zoom, recv. destruct (rd_of s (w_kern (w_fd w))) as [|[d|e] r]; cbn.
  - intros [= <- <-]. split; [cbn; lia|done].
  - case_decide; intros [= <- <-]; (split; [rewrite ?length_take; lia|done]).
  - done.
Qed.

Lemma preserves_read_pid n s a : preserves (read_pid n s a).
Proof.
  induction n as [|n IH]; cbn [read_pid]; intros w r w' (pr & w1 & H1 & H)%bind_Ok_inv Hi;
    apply proc_at_ok in H1 as [-> Hp];
    cbv zeta in H; destruct (decide (4 - length (in_buff pr) = 0)%nat); try done; try by injection H as <- <-.
  apply bind_Ok_inv in H as (rv & w2 & Hr & H). pose proof (preserves_keeps _ (procs_KW _) _ _ _ Hr Hi) as Hi2.
  destruct rv as [[|b bs]|e]; [by injection H as <- <-| |].
  - destruct (recv_length _ _ _ _ _ Hr) as [Hl Hj].
    assert (Hp2 : jdwp_procs (w_jdwp w2) !! a = Some pr) by by rewrite Hj.
    rewrite (bind_ok _ _ _ _ _ (proc_put_run w2 a (pr_in (in_buff pr ++ b :: bs)) pr Hp2)) in H.
    apply (IH _ _ _ H), (inv_replace w2 a pr); [done| |done]. intros [O1 O2 O3].
    split; [done..|]. cbn [in_buff pr_in]. rewrite length_app. lia.
  - destruct (e =? EINTR); [by apply (IH _ _ _ H)|]. destruct (e =? EAGAIN); by injection H as <- <-.
Qed.
#[export] Hint Resolve preserves_free preserves_read_pid : procs.

(** fields that the invariant does not constrain *)
Lemma proc_ok_pid pr n : proc_ok pr → proc_ok (pr_pid n pr).
Proof. intros []. by split. Qed.
Lemma length_shift k n l : length (shift_fds k n l) = length l.
Proof.
  revert n l. induction k as [|k IH]; intros n l; cbn; [done|]. rewrite IH. case_match; [|done].
  apply length_insert.
Qed.
Lemma proc_ok_shift pr k c : 0 ≤ c ≤ MAX_OUT_FDS → proc_ok pr → proc_ok (pr_out (shift_fds k 1 (out_fds pr)) c pr).
Proof. intros Hc []. split; cbn; [by rewrite length_shift|done..]. Qed.

Lemma preserves_readable s a : preserves (jdwp_process_readable s a).
Proof. unfold jdwp_process_readable. preserve. apply preserves_proc_put. intros; by apply proc_ok_pid. Qed.

(** a computation that starts by looking at a process *)
Lemma preserves_proc_at {A} a (f : JdwpProcess → M world A) :
  (∀ pr w x w', jdwp_procs (w_jdwp w) !! a = Some pr → f pr w = Ok x w' → jdwp_inv w → jdwp_inv w') →
  preserves (bind (proc_at a) f).
Proof.
  intros Hf w x w' (pr & w1 & [-> Hp]%proc_at_ok & H)%bind_Ok_inv Hi. eauto.
Qed.

Lemma preserves_writable a : preserves (jdwp_process_writable a).
Proof.
  apply preserves_proc_at. intros pr w x w' Hp H Hi. pose proof (ji_proc w Hi a pr Hp) as Hok.
  destruct (Z.leb_spec (out_count pr) 0) as [|Hc]; [by injection H as _ <-|].
  apply bind_Ok_inv in H as (d & w1 & H1 & H). apply (keeps_Ok same_procs) in H1; [|procs].
  apply bind_Ok_inv in H as (fl & w2 & H2 & H). apply (keeps_Ok same_procs) in H2; [|procs].
  assert (H02 : same_procs w w2) by by etrans. destruct (fl =? -1); [by eapply preserves_free, same_procs_inv|].
  apply bind_Ok_inv in H as (r & w3 & H3 & H). apply (keeps_Ok same_procs) in H3; [|procs].
  assert (H03 : same_procs w w3) by by etrans. destruct (r =? -1); [by eapply preserves_free, same_procs_inv|].
  apply bind_Ok_inv in H as (n & w4 & H4 & H). apply (keeps_Ok same_procs) in H4; [|procs].
  apply bind_Ok_inv in H as (sent & w5 & H5 & H). apply (keeps_Ok same_procs) in H5; [|procs].
  assert (H05 : same_procs w w5) by by do 2 (etrans; [eassumption|]).
  destruct sent; cbn [negb] in H; [|by eapply preserves_free, same_procs_inv].
  assert (Hp5 : jdwp_procs (w_jdwp w5) !! a = Some pr) by by rewrite (sp_procs _ _ H05).
  rewrite (bind_ok _ _ _ _ _ (proc_put_run w5 a (λ p, pr_out _ _ p) pr Hp5)) in H.
  set (pr6 := pr_out _ _ pr) in H. set (w6 := up_procs _ w5) in H.
  assert (Hi6 : jdwp_inv w6).
  { apply (inv_replace w5 a pr); [done| |by eapply same_procs_inv]. apply proc_ok_shift, (po_count pr Hok). }
  apply bind_Ok_inv in H as (r7 & w7 & H7 & H). apply (keeps_Ok same_procs) in H7; [|procs].
  destruct (r7 =? -1); [by eapply preserves_free, same_procs_inv|].
  assert (Hp7 : jdwp_procs (w_jdwp w7) !! a = Some pr6) by (rewrite (sp_procs _ _ H7); apply lookup_insert_eq).
  rewrite (bind_ok _ _ _ _ _ (proc_put_run w7 a (λ p, pr_out _ _ p) pr6 Hp7)) in H.
  apply (keeps_Ok same_procs) in H; [|procs]. eapply same_procs_inv; [exact H|].
  apply (inv_replace w7 a pr6); [done| |by eapply same_procs_inv].
  intros [O1 O2 O3]. split; cbn in *; [done| |done]. unfold MAX_OUT_FDS in *. lia.
Qed.
#[export] Hint Resolve preserves_readable preserves_writable : procs.

Lemma preserves_event s ev a : preserves (jdwp_process_event s ev a).
Proof. unfold jdwp_process_event. preserve. Qed.

Lemma preserves_connection n : preserves (create_jdwp_connection_fd n).
Proof.
  unfold create_jdwp_connection_fd. apply preserves_bind; [preserve|]. intros l.
  apply preserves_bind; [preserve|]. intros a. destruct (a =? 0); [preserve|].
  apply preserves_proc_at. intros pr w x w' Hp H Hi. pose proof (ji_proc w Hi a pr Hp) as Hok.
  destruct (Z.leb_spec MAX_OUT_FDS (out_count pr)) as [|Hc]; [by injection H as _ <-|].
  apply bind_Ok_inv in H as ([r fds] & w1 & H1 & H). apply (keeps_Ok same_procs) in H1; [|procs].
  pose proof (same_procs_inv _ _ H1 Hi) as Hi1. destruct (r <? 0); [by injection H as _ <-|].
  assert (Hp1 : jdwp_procs (w_jdwp w1) !! a = Some pr) by by rewrite (sp_procs _ _ H1).
  rewrite (bind_ok _ _ _ _ _ (proc_put_run w1 a (λ p, pr_out _ _ p) pr Hp1)) in H.
  apply (keeps_Ok same_procs) in H; [|procs]. eapply same_procs_inv; [exact H|].
  apply (inv_replace w1 a pr); [done| |done]. intros _.
  exact (proj2 (queued_push pr (default 0 (fds !! 1%nat)) Hok Hc)).
Qed.

Lemma inv_add w a pr l : jdwp_inv w → jdwp_procs (w_jdwp w) !! a = None → 0 < a < next_loc (w_fd w) → proc_ok pr →
  l = jdwp_list (w_jdwp w) → jdwp_inv (up_jdwp_list (l ++ [a]) (up_procs <[a := pr]> w)).
Proof.
  intros [I1 I2 I3 I4 I5] Ha Hr Hok ->. split; cbn.
  - apply list.NoDup_app. split_and!; [done| |apply list.NoDup_singleton].
    intros b Hb ->%list_elem_of_singleton. apply I2 in Hb. rewrite Ha in Hb. by destruct Hb.
  - intros b. rewrite elem_of_app, list_elem_of_singleton, I2. destruct (decide (b = a)) as [->|Hne].
    + rewrite lookup_insert_eq. split; eauto.
    + rewrite lookup_insert_ne by done. naive_solver.
  - done.
  - intros b [q [[<- <-]|[_ Hq]]%lookup_insert_Some]; [done|]. apply I4. eauto.
  - intros b q [[<- <-]|[_ Hq]]%lookup_insert_Some; eauto.
Qed.

Lemma preserves_alloc s : preserves (jdwp_process_alloc s).
Proof.
  unfold jdwp_process_alloc. apply preserves_bind; [preserve|]. intros ok. destruct ok; cbn [negb]; [|preserve].
  intros w x w' (a & w1 & H1 & H)%bind_Ok_inv Hi. rewrite alloc_run in H1. injection H1 as <- <-.
  set (a := next_loc (w_fd w)) in *.
  apply bind_Ok_inv in H as (fde & w2 & H2 & H). apply (keeps_Ok same_procs) in H2; [|procs].
  assert (Hi2 : jdwp_inv w2).
  { apply (same_procs_inv (bumped w)); [done|]. apply (same_procs_inv w); [|done]. split; [done..|]. cbn. lia. }
  destruct (fde =? 0); [by injection H as _ <-|].
  apply bind_Ok_inv in H as (? & w3 & H3 & H). apply (keeps_Ok same_procs) in H3; [|procs].
  pose proof (same_procs_inv _ _ H3 Hi2) as Hi3. set (pr := mkProc _ _ _ _ _ _) in H.
  rewrite (bind_ok _ _ w3 tt (up_procs <[a := pr]> w3)) in H by done. set (w4 := up_procs _ w3) in H.
  rewrite (bind_ok _ _ w4 (jdwp_list (w_jdwp w4)) w4) in H by done.
  apply bind_Ok_inv in H as (? & w5 & H5 & H).
  assert (w5 = w4) as ->.
  { unfold touch_proc in H5. destruct (list.last _); [|by injection H5 as _ <-].
    by apply bind_Ok_inv in H5 as (? & w6 & [-> _]%proc_at_ok & [= _ <-]). }
  rewrite (bind_ok _ _ w4 tt (up_jdwp_list (jdwp_list (w_jdwp w4) ++ [a]) w4)) in H by done.
  apply (keeps_Ok same_procs) in H; [|procs]. eapply same_procs_inv; [exact H|].
  apply inv_add; [done| | |split; cbn; unfold MAX_OUT_FDS; [done|lia|lia]|done].
  - rewrite (sp_procs _ _ H3), (sp_procs _ _ H2). cbn. destruct (jdwp_procs (w_jdwp w) !! a) eqn:E; [|done].
    assert (0 < a < next_loc (w_fd w)) by (apply (ji_addr w Hi); by eexists). unfold a in *. lia.
  - pose proof (sp_next _ _ H3). pose proof (sp_next _ _ H2). cbn in *. pose proof (ji_next w Hi). unfold a in *. lia.
Qed.
#[export] Hint Resolve preserves_event preserves_connection preserves_alloc : procs.

Lemma preserves_control ev : preserves (jdwp_control_event ev).
Proof. unfold jdwp_control_event. preserve. Qed.

(** the operations on processes and on the sockets that show them *)
Inductive jdwp_op :=
| OpControl (ev : Z)            (* a connection on the control socket *)
| OpEvent (s ev a : Z)          (* an event on a process *)
| OpConnection (n : Z)          (* "jdwp:<n>" *)
| OpList                        (* "jdwp" *)
| OpTrack                       (* "track-jdwp" *)
| OpReady (s : Z)
| OpEnqueue (s p : Z)
| OpClose (s : Z).
Definition run_jdwp (op : jdwp_op) : M world unit :=
  match op with
  | OpControl ev => jdwp_control_event ev
  | OpEvent s ev a => jdwp_process_event s ev a
  | OpConnection n => do _ <- create_jdwp_connection_fd n; ret tt
  | OpList => do _ <- create_jdwp_service_socket; ret tt
  | OpTrack => do _ <- create_jdwp_tracker_service_socket; ret tt
  | OpReady s => call_ready s
  | OpEnqueue s p => do _ <- call_enqueue s p; ret tt
  | OpClose s => call_close s
  end.

Lemma preserves_op op : preserves (run_jdwp op).
Proof.
  destruct op; cbn [run_jdwp]; try (unfold create_jdwp_service_socket, create_jdwp_tracker_service_socket);
    try apply preserves_control; preserve.
Qed.

(** from start-up on; in between the rest of the daemon may do anything that
    leaves the processes alone *)
Inductive jdwp_reachable : world → Prop :=
| jr_init k r w : init_jdwp (start_world k) = Ok r w → jdwp_reachable w
| jr_op w op w' : jdwp_reachable w → run_jdwp op w = Ok tt w' → jdwp_reachable w'
| jr_other w w' : jdwp_reachable w → same_procs w w' → jdwp_reachable w'.

Lemma init_inv k r w : init_jdwp (start_world k) = Ok r w → jdwp_inv w.
Proof.
  unfold init_jdwp. set (w0 := up_trackers [] (up_jdwp_list [] (start_world k))).
  rewrite (bind_ok _ _ _ tt (up_jdwp_list [] (start_world k))), (bind_ok _ _ _ tt w0) by done.
  intros H. assert (Hk : keeps same_procs (jdwp_control_init JDWP_CONTROL_NAME)).
  { unfold jdwp_control_init. procs. }
  apply (same_procs_inv w0 w (keeps_Ok _ _ _ _ _ Hk H)). split; cbn.
  - apply NoDup_nil_2.
  - intros a. rewrite lookup_empty. split; [by intros ?%not_elem_of_nil|by intros []].
  - lia.
  - intros a. rewrite lookup_empty. by intros [].
  - intros a pr. by rewrite lookup_empty.
Qed.

(** C31 In every state that start-up, connections, events, requests and the calls
    of sockets can reach, with any answers of the system, the list of processes
    holds every process object once and nothing else, and each object is well
    formed: the array has its four places, out_count is the number of descriptors
    queued, never more than four, and at most the four characters of a pid have
    been read. *)
Theorem jdwp_reachable_wf w : jdwp_reachable w →
  NoDup (jdwp_list (w_jdwp w)) ∧ (∀ a, a ∈ jdwp_list (w_jdwp w) ↔ is_Some (jdwp_procs (w_jdwp w) !! a))
  ∧ ∀ a pr, jdwp_procs (w_jdwp w) !! a = Some pr →
      length (out_fds pr) = 4%nat ∧ Z.of_nat (length (queued pr)) = out_count pr ∧ 0 ≤ out_count pr ≤ MAX_OUT_FDS
      ∧ (length (in_buff pr) ≤ 4)%nat.
Proof.
  intros Hr. assert (Hi : jdwp_inv w).
  { induction Hr as [k r w H|w op w' _ IH H|w w' _ IH Hs].
    - by eapply init_inv.
    - by apply (preserves_op op w tt w').
    - by eapply same_procs_inv. }
  split_and!; [apply Hi..|]. intros a pr Hp. pose proof (ji_proc w Hi a pr Hp) as Hok.
  split_and!; [apply Hok|by apply length_queued|apply Hok..].
Qed.

(** ** Example *)

Module DemoReach.
(** the control socket 5, then a connection 6 whose pid arrives *)
Definition kernel : kern :=
  mkKern 0 {[ 6 := [RdData (str "00"); RdData (str "2a")] ]} ∅ ∅
    [SysRes 5 0 []; SysRes 0 0 []; SysRes 0 0 []; SysRes 6 0 []] [] [].
Definition w1 : world := final (init_jdwp (start_world kernel)).
Definition w2 : world := final (run_jdwp (OpControl FDE_READ) w1).
Definition w3 : world := final (run_jdwp (OpEvent 6 FDE_READ 17) w2).
End DemoReach.

Lemma jdwp_reachable_wf_witness : jdwp_list (w_jdwp DemoReach.w3) = [17]
  ∧ pid <$> jdwp_procs (w_jdwp DemoReach.w3) !! 17 = Some 42
  ∧ NoDup (jdwp_list (w_jdwp DemoReach.w3)).
Proof.
  split; [vm_compute; reflexivity|]. split; [vm_compute; reflexivity|].
  apply jdwp_reachable_wf. apply (jr_op DemoReach.w2 (OpEvent 6 FDE_READ 17)); [|vm_compute; reflexivity].
  apply (jr_op DemoReach.w1 (OpControl FDE_READ)); [|vm_compute; reflexivity].
  apply (jr_init DemoReach.kernel 0). vm_compute. reflexivity.
Defined.
