(* ===== verification/JdwpTrack.v ===== *)
(** * Trackers of the processes that can be debugged

    What the trackers receive when the list of processes changes, and the flaws
    of the code: a tracker whose connection is torn down stays in the list, a
    failed fcntl closes descriptors twice, a negative pid is never left, a
    process that cannot be registered leaks its connection. *)

From S2P Require Import Prelude Kernel Packet DList Fdevent World Transport Listing Sockets Jdwp ListingProps Flow SocketTable Closing Teardown Streams JdwpProps JdwpInv.

(** ** The trackers *)

(** a tracker and the remote socket it is connected to *)
Record tracker_pair (w : world) (t : Z) (so ro : asocket) (tr : atransport) : Prop := {
  tp_s : w_sockets w !! t = Some so;
  tp_r : w_sockets w !! s_peer so = Some ro;
  tp_peer : s_peer ro = t;
  tp_fn : s_enqueue ro = remote_socket_enqueue_;
  tp_trans : w_transports w !! s_transport ro = Some tr;
  tp_nonnull : s_transport ro ≠ 0;
}.
Definition tracked (w : world) (t : Z) : Prop := ∃ so ro tr, tracker_pair w t so ro tr.

(** the pipe towards the transport of a tracker *)
Definition pipe_of (w : world) (t : Z) : option Z :=
  so ← w_sockets w !! t; ro ← w_sockets w !! s_peer so;
  t_transport_write <$> w_transports w !! s_transport ro.
Lemma pipe_of_pair w t so ro tr : tracker_pair w t so ro tr → pipe_of w t = Some (t_transport_write tr).
Proof. intros []. unfold pipe_of. by simplify_option_eq. Qed.

(** the addresses written to [d] when the trackers get packets from [a] on *)
Fixpoint addresses (w : world) (d a : Z) (l : list Z) : list Z :=
  match l with
  | [] => []
  | t :: l' => (if decide (pipe_of w t = Some d) then le32 a else []) ++ addresses w d (a + 16) l'
  end.
(** every pipe has room for that many addresses *)
Definition room_for (n : nat) (w : world) (l : list Z) : Prop :=
  ∀ t d, t ∈ l → pipe_of w t = Some d → (4 * n ≤ wcap (wr_of d (w_kern_of w)))%nat.

Lemma next_of_app pre t suf : t ∉ pre → next_of t (pre ++ t :: suf) = head suf.
Proof.
  induction pre as [|x pre IH]; intros Hn; cbn; [by rewrite Z.eqb_refl|].
  rewrite (proj2 (Z.eqb_neq x t)) by set_solver. apply IH. set_solver.
Qed.

(** one tracker is sent the list *)
Record sent_one (t : Z) (so ro : asocket) (tr : atransport) (bs : list Z) (w w' : world) : Prop := {
  so_packets : w_packets w' = <[next_loc (w_fd w) := data_packet (s_id so) (s_id ro) bs]> (w_packets w);
  so_out : out_of (t_transport_write tr) (w_kern_of w')
    = out_of (t_transport_write tr) (w_kern_of w) ++ le32 (next_loc (w_fd w));
  so_kern : same_but_wr (t_transport_write tr) (w_kern_of w) (w_kern_of w');
  so_cap : (wcap (wr_of (t_transport_write tr) (w_kern_of w'))
    = wcap (wr_of (t_transport_write tr) (w_kern_of w)) - 4)%nat;
  so_frame : w_sockets w' = w_sockets w ∧ w_transports w' = w_transports w ∧ w_jdwp w' = w_jdwp w
    ∧ next_loc (w_fd w') = next_loc (w_fd w) + 16;
}.

Lemma send_one_run t so ro tr bs w : tracker_pair w t so ro tr → k_oom (w_kern_of w) = [] →
  (4 ≤ wcap (wr_of (t_transport_write tr) (w_kern_of w)))%nat →
  ∃ w', (do p <- get_apacket; send_list t p bs) w = Ok 1 w' ∧ sent_one t so ro tr bs w w'.
Proof.
  intros [Hs Hr Hp Hfn Ht H0] Hoom Hcap. run (get_apacket_run w Hoom). set (p := next_loc (w_fd w)).
  set (w1 := up_packets _ _). unfold send_list. run (sock_at_run w1 t so Hs).
  rewrite (bind_ok _ _ _ _ _ (pkt_put_run w1 p _ zero_packet (lookup_insert_eq _ _ _))).
  set (pk := with_len (with_data zero_packet bs) (Z.of_nat (length bs))). set (w2 := up_packets _ w1).
  destruct (remote_enqueue_run (s_peer so) ro so p pk tr w2) as (k' & Hrun & Ho & Hk & Hc); try done.
  { by rewrite Hp. } { apply lookup_insert_eq. }
  eexists. split; [exact Hrun|]. split; [|done..|by split_and!].
  cbn. by rewrite !insert_insert_eq.
Qed.

(** the trackers [l] were sent [bs] in packets from the address of [w] on *)
Record notified (l : list Z) (bs : list Z) (w w' : world) : Prop := {
  no_packet i t so ro tr : l !! i = Some t → tracker_pair w t so ro tr →
    w_packets w' !! (next_loc (w_fd w) + 16 * Z.of_nat i) = Some (data_packet (s_id so) (s_id ro) bs);
  no_old q : q < next_loc (w_fd w) → w_packets w' !! q = w_packets w !! q;
  no_out d : out_of d (w_kern_of w') = out_of d (w_kern_of w) ++ addresses w d (next_loc (w_fd w)) l;
  no_frame : w_sockets w' = w_sockets w ∧ w_jdwp w' = w_jdwp w
    ∧ k_trace (w_kern_of w') = k_trace (w_kern_of w);
}.

Lemma notified_nil bs w : notified [] bs w w.
Proof. split; [done..| |done]. intros d. cbn. by rewrite app_nil_r. Qed.

Lemma pipe_of_frame w w' t : w_sockets w' = w_sockets w → w_transports w' = w_transports w →
  pipe_of w' t = pipe_of w t.
Proof. intros H1 H2. unfold pipe_of. by rewrite H1, H2. Qed.
Lemma addresses_frame w w' d a l : w_sockets w' = w_sockets w → w_transports w' = w_transports w →
  addresses w' d a l = addresses w d a l.
Proof.
  intros H1 H2. revert a. induction l as [|t l IH]; intros a; cbn; [done|].
  rewrite IH. f_equal. destruct (decide _) as [E|E]; rewrite (pipe_of_frame w w') in E by done; by case_decide.
Qed.
Lemma pair_frame w w' t so ro tr : w_sockets w' = w_sockets w → w_transports w' = w_transports w →
  tracker_pair w t so ro tr → tracker_pair w' t so ro tr.
Proof. intros H1 H2 []. split; rewrite ?H1, ?H2; done. Qed.

Lemma notified_cons t l so ro tr bs w w1 w' : tracker_pair w t so ro tr → sent_one t so ro tr bs w w1 →
  notified l bs w1 w' → notified (t :: l) bs w w'.
Proof.
  intros Hp [S1 S2 S3 _ (F1 & F2 & F3 & F4)] [N1 N2 N3 (G1 & G2 & G3)]. split.
  - intros [|i] t' so' ro' tr' Hi Hp'.
    + injection Hi as <-. assert (so' = so ∧ ro' = ro) as [-> ->].
      { destruct Hp, Hp'. split; congruence. }
      rewrite N2, Z.add_0_r, S1 by lia. apply lookup_insert_eq.
    + rewrite <- (N1 i t' so' ro' tr'); [f_equal; lia|done|]. by eapply pair_frame; [..|exact Hp'].
  - intros q Hq. rewrite N2, S1 by lia. rewrite lookup_insert_ne by lia. done.
  - intros d. rewrite N3, (addresses_frame w w1), F4 by done. cbn [addresses].
    rewrite (pipe_of_pair w t so ro tr Hp). destruct (decide (t_transport_write tr = d)) as [<-|Hne].
    + rewrite decide_True by done. by rewrite S2, app_assoc.
    + rewrite decide_False by congruence. by rewrite (sbw_out _ _ _ S3) by congruence.
  - split_and!; [congruence..|]. by rewrite G3, (sbw_trace _ _ _ S3).
Qed.

Lemma notify_run suf : ∀ pre bs w, jdwp_trackers_list (w_jdwp w) = pre ++ suf → NoDup (pre ++ suf) →
  k_oom (w_kern_of w) = [] → (∀ t, t ∈ suf → tracked w t) → room_for (length suf) w suf →
  ∃ w', notify_trackers (length suf) (head suf) bs w = Ok tt w' ∧ notified suf bs w w'.
Proof.
  induction suf as [|t suf IH]; intros pre bs w Hl Hnd Hoom Htr Hroom.
  { exists w. split; [done|apply notified_nil]. }
  cbn [length head notify_trackers]. destruct (Htr t ltac:(set_solver)) as (so & ro & tr & Hp).
  pose proof (Hroom t _ ltac:(set_solver) (pipe_of_pair _ _ _ _ _ Hp)) as Hc. cbn [length] in Hc.
  destruct (send_one_run t so ro tr bs w Hp Hoom ltac:(lia)) as (w1 & Hrun & Hone).
  rewrite <- bind_assoc. run Hrun. pose proof Hone as [_ _ S3 S4 (F1 & F2 & F3 & F4)].
  assert (Hs1 : w_sockets w1 !! t = Some so) by (rewrite F1; apply Hp). run (sock_at_run w1 t so Hs1).
  rewrite (bind_ok _ _ w1 (pre ++ t :: suf) w1) by (unfold gets; by rewrite F3, Hl).
  apply list.NoDup_app in Hnd as (Hn1 & Hn2 & Hn3).
  rewrite next_of_app by (intros Hin; apply (Hn2 t Hin); set_solver).
  destruct (IH (pre ++ [t]) bs w1) as (w' & Hrest & Hnot).
  - by rewrite F3, Hl, <- app_assoc.
  - rewrite <- app_assoc. by apply list.NoDup_app.
  - by rewrite (sbw_oom _ _ _ S3).
  - intros t' Ht'. destruct (Htr t' ltac:(set_solver)) as (a & b & c & Hp').
    exists a, b, c. by eapply pair_frame; [..|exact Hp'].
  - intros t' d Ht' Hd. rewrite (pipe_of_frame w w1) in Hd by done.
    pose proof (Hroom t' d ltac:(set_solver) Hd) as Hw. cbn [length] in Hw.
    destruct (decide (d = t_transport_write tr)) as [->|Hne]; [lia|].
    rewrite (sbw_wr _ _ _ S3) by done. lia.
  - exists w'. split; [exact Hrest|]. by eapply notified_cons.
Qed.

(** C35 When a process appears or goes, every tracker is sent the list: one
    packet each, in the order of their registration, for the stream of that
    tracker, with the same message, which is the longest prefix of the pids that
    fits; its address goes to the pipe of the tracker's own transport and
    nothing else does. *)
Theorem trackers_notified w : let l := jdwp_trackers_list (w_jdwp w) in
  NoDup l → k_oom (w_kern_of w) = [] → (∀ t, t ∈ l → tracked w t) → room_for (length l) w l →
  (∀ a, a ∈ jdwp_list (w_jdwp w) → is_Some (jdwp_procs (w_jdwp w) !! a)) →
  ∃ msg w', jdwp_process_list_updated w = Ok tt w'
    ∧ counted_list 1024 (pid_line <$> live_pids (w_jdwp w)) msg ∧ notified l msg w w'.
Proof.
  intros l Hnd Hoom Htr Hroom Hpr. unfold jdwp_process_list_updated. run (KW_malloc_ok w Hoom). cbn [negb].
  destruct (list_msg_run w 1024 ltac:(lia) Hpr) as (msg & Hm & Hc).
  run Hm. rewrite (bind_ok _ _ w l w) by done.
  destruct (notify_run l [] msg w eq_refl Hnd Hoom Htr Hroom) as (w' & Hrun & Hno).
  exists msg, w'. split_and!; done.
Qed.

Lemma trackers_notified_witness :
  let w := DemoJdwp.world (DemoJdwp.kernel [] []) (DemoJdwp.proc 420 (str "01a4") [0; 0; 0; 0] 0) in
  ∃ msg w', jdwp_process_list_updated w = Ok tt w'
    ∧ counted_list 1024 (pid_line <$> live_pids (w_jdwp w)) msg
    ∧ w_packets w' !! 128 = Some (data_packet 1 7 msg) ∧ out_of 11 (w_kern_of w') = le32 128.
Proof.
  intros w. destruct (trackers_notified w) as (msg & w' & Hrun & Hc & Hn).
  - apply NoDup_singleton.
  - reflexivity.
  - intros t Ht. apply list_elem_of_singleton in Ht as ->.
    exists DemoJdwp.tracker, DemoJdwp.remote, DemoClosing.transport. split; (reflexivity || discriminate).
  - intros t d Ht Hd. apply list_elem_of_singleton in Ht as ->. vm_compute in Hd. injection Hd as <-.
    vm_compute. lia.
  - intros a Ha. apply list_elem_of_singleton in Ha as ->. eexists. reflexivity.
  - exists msg, w'. split; [exact Hrun|]. split; [exact Hc|]. split.
    + apply (no_packet _ _ _ _ Hn 0 48 DemoJdwp.tracker DemoJdwp.remote DemoClosing.transport); [reflexivity|].
      split; (reflexivity || discriminate).
    + rewrite (no_out _ _ _ _ Hn 11). vm_compute. reflexivity.
Defined.

(** ** Flaws *)

(** jdwp_process_event on a process that sent "-001": the number is accepted, so
    the process has a negative pid and still counts as unknown.  Its four
    characters are there already, so the connection is never read again: the
    end of the stream is not noticed, the process is never freed, and every
    round of the loop sends the list to all trackers. *)
Theorem negative_pid_spins s proc pr w :
  jdwp_procs (w_jdwp w) !! proc = Some pr → in_buff pr = str "-001" → pid pr = -1 →
  jdwp_process_readable s proc w = (jdwp_process_list_updated;;; ret true) w.
Proof.
  intros Hp Hb Hpid. unfold jdwp_process_readable. run (proc_at_run w proc pr Hp). rewrite Hpid. cbn [Z.ltb Z.compare].
  set (n := length (rd_of s (w_kern_of w))). rewrite (bind_ok _ _ w n w) by done.
  rewrite (bind_ok _ _ w Complete w); cycle 1.
  { cbn [Nat.add read_pid]. run (proc_at_run w proc pr Hp). cbv zeta. by rewrite Hb, decide_True by done. }
  run (proc_at_run w proc pr Hp). rewrite Hb. change (scan_04x _) with (Some (-1)). cbv iota.
  run (proc_put_run w proc (pr_pid (-1)) pr Hp). rewrite up_procs_id; [done|].
  rewrite Hp. destruct pr. cbn in Hpid. by rewrite Hpid.
Qed.

(** close_all_sockets, which every end of a connection runs, closes each local
    socket as if it were bound to a descriptor: a tracker is freed and stays in
    the list of trackers, so the next process that comes or goes reads freed
    memory. *)
Module DemoDangling.
Definition events (k : kern) : fdw :=
  upd_fdes (λ m, <[49 := mkFde 0 false 0 0 local_socket_event_func_ 0]>
    (<[81 := mkFde 0 false 0 0 local_socket_event_func_ 0]> m)) (DemoJdwp.events k).
Definition world : world :=
  let k := DemoJdwp.kernel [] [] in
  up_fd (events k) (up_local_list [48]
    (up_disconnects <[82 := mkDis remote_socket_disconnect_ 80]> <[16 := [82]]>
      (DemoJdwp.world k (DemoJdwp.proc 420 (str "01a4") [0; 0; 0; 0] 0)))).
End DemoDangling.

Theorem torn_down_tracker_dangles :
  jdwp_process_list_updated DemoDangling.world = Ok tt (final (jdwp_process_list_updated DemoDangling.world))
  ∧ ∃ w', close_all_sockets 16 DemoDangling.world = Ok tt w'
    ∧ w_sockets w' !! 48 = None ∧ 48 ∈ jdwp_trackers_list (w_jdwp w')
    ∧ ∃ w'', jdwp_process_list_updated w' = Fault UseAfterFree w''.
Proof.
  split; [vm_compute; reflexivity|].
  exists (final (close_all_sockets 16 DemoDangling.world)). split; [vm_compute; reflexivity|].
  split; [vm_compute; reflexivity|]. split; [apply (bool_decide_eq_true_1 _); vm_compute; reflexivity|].
  eexists. vm_compute. reflexivity.
Qed.

(** When the descriptor was sent and the flags cannot be restored, the process is
    freed with the descriptor still counted: it is closed a second time, when
    another thread may have been given its number. *)
Theorem handed_over_closed_twice :
  let w := DemoJdwp.world (DemoJdwp.kernel
    [SysRes 2050 0 []; SysRes 0 0 []; SysRes 1 0 []; SysRes (-1) EBADF []] [])
    (DemoJdwp.proc 420 (str "01a4") [7; 0; 0; 0] 1) in
  ∃ w' pre mid post, jdwp_process_writable 32 (up_jdwp (mkJdwp (jdwp_procs (w_jdwp w)) [32] [] 5 0)
      (up_fd (upd_fdes (alter (λ f, set_state (Z.lor (state f) (Z.lor FDE_CREATED FDE_DONT_CLOSE)) f) 33) (w_fd w)) w))
      = Ok tt w'
    ∧ k_trace (w_kern_of w') = pre ++ [Sys "close" [AZ 7]] ++ mid ++ [Sys "close" [AZ 7]] ++ post.
Proof.
  intros w. eexists _, _, _, _. split; [vm_compute; reflexivity|].
  instantiate (1 := []). rewrite app_nil_r.
  instantiate (2 := [_; _; _; _]). instantiate (1 := [_; _; _]). vm_compute. reflexivity.
Qed.

(** When the event of a new connection cannot be created, the connection is
    neither served nor closed. *)
Theorem refused_process_leaks w s rest oom : control_listen_socket (w_jdwp w) = 5 →
  k_sys (w_kern_of w) = SysRes s 0 [] :: rest → 0 ≤ s → k_oom (w_kern_of w) = true :: oom →
  ∃ w', jdwp_control_event FDE_READ w = Ok tt w' ∧ w_jdwp w' = w_jdwp w
    ∧ k_trace (w_kern_of w') = k_trace (w_kern_of w) ++ [Sys "accept" [AZ 5]; Sys "cloexec" [AZ s]].
Proof.
  intros Hc Hs H0 Hoom. unfold jdwp_control_event. change (negb (has FDE_READ FDE_READ)) with false. cbv iota.
  rewrite (bind_ok _ _ w 5 w) by (unfold gets; by rewrite Hc).
  set (n := length (k_sys (w_kern_of w))). rewrite (bind_ok _ _ w n w) by done.
  set (k1 := add_trace (Sys "cloexec" [AZ s]) (set_sys rest (add_trace (Sys "accept" [AZ 5]) (w_kern_of w)))).
  assert (Hacc : accept_loop (2 + n) 5 (w_kern_of w) = Ok (Some s) k1).
  { cbn [Nat.add accept_loop].
    assert (Ha : adb_socket_accept 5 (w_kern_of w) = Ok s k1).
    { unfold adb_socket_accept, sys_, sys, bind. rewrite Hs. cbn.
      by rewrite (proj2 (Z.ltb_ge s 0)), (proj2 (Z.leb_le 0 s)) by done. }
    run Ha. by rewrite (proj2 (Z.ltb_ge s 0)) by done. }
  run (KW_run w _ _ _ Hacc). unfold jdwp_process_alloc. rewrite bind_assoc.
  set (k2 := mkKern (k_errno k1) (k_rd k1) (k_wr k1) (k_out k1) (k_sys k1) (k_trace k1) oom).
  rewrite (bind_ok _ _ (up_kern k1 w) false (up_kern k2 (up_kern k1 w))); cycle 1.
  { apply KW_run. unfold malloc_ok. change (w_kern_of (up_kern k1 w)) with k1. by unfold k1; cbn; rewrite Hoom. }
  eexists. split; [reflexivity|]. split; [done|]. cbn. by rewrite <- app_assoc.
Qed.
