(* ===== verification/Protocol.v ===== *)
(** * Theorems on the protocol engine

    Which packets can bring a transport online, and what a transport that is
    not online can do. *)

From S2P Require Import Prelude Kernel Packet DList Fdevent World Transport Listing Sockets Jdwp Adb Daemon.

(** ** Nothing goes online behind our back *)

(** no transport is online that was not, and authentication stays required *)
Record no_new_online (w w' : world) : Prop := {
  nno_online t tr' : w_transports w' !! t = Some tr' → t_online tr' = true →
    ∃ tr, w_transports w !! t = Some tr ∧ t_online tr = true;
  nno_auth : auth_enabled w' = auth_enabled w;
}.

#[export] Instance no_new_online_preorder : PreOrder no_new_online.
Proof.
  split; [split; eauto|]. intros w1 w2 w3 [A1 A2] [B1 B2]. split; [|congruence].
  intros t tr3 H3 Ho. destruct (B1 t tr3 H3 Ho) as (tr2 & H2 & Ho2). eauto.
Qed.

Create HintDb online.

(** an update that leaves transports and configuration alone *)
Lemma nno_same w w' : w_transports w' = w_transports w → auth_enabled w' = auth_enabled w →
  no_new_online w w'.
Proof. intros H1 H2. split; [|done]. rewrite H1. eauto. Qed.

Lemma keeps_FD {A} (m : M fdw A) : keeps no_new_online (FD m).
Proof. apply (keeps_zoom (λ _ _, True)); [done|]. intros. by apply nno_same. Qed.
Lemma keeps_KW {A} (m : M kern A) : keeps no_new_online (KW m).
Proof. apply keeps_FD. Qed.
Lemma keeps_fatal {A} : keeps no_new_online (fatal : M world A).
Proof. apply keeps_exit, _. Qed.
#[export] Hint Resolve keeps_FD keeps_KW keeps_fatal : online.

Lemma keeps_trans_put t f : (∀ tr, t_online (f tr) = true → t_online tr = true) →
  keeps no_new_online (trans_put t f).
Proof.
  intros Hf. unfold trans_put, trans_at. apply keeps_bind; [apply _|apply keeps_deref, _|].
  intros _. apply keeps_modify. intros w. split; [|done]. cbn. intros t' tr' H' Ho.
  destruct (decide (t' = t)) as [->|Hne].
  - rewrite lookup_alter_eq in H'. destruct (w_transports w !! t) as [tr|]; [|done].
    injection H' as <-. eauto.
  - rewrite lookup_alter_ne in H' by done. eauto.
Qed.

(** the structural steps, the updates, the lemmas of the operations called *)
Ltac keeps_online :=
  repeat first
    [ progress cbn beta iota
    | solve [eauto with online]
    | keeps_step
    | (apply keeps_modify; intros ?; apply nno_same; reflexivity)
    | (apply keeps_trans_put; intros ? ?; (assumption || discriminate)) ].

Lemma keeps_locks : keeps no_new_online lock_sockets ∧ keeps no_new_online unlock_sockets
  ∧ keeps no_new_online lock_transports ∧ keeps no_new_online unlock_transports.
Proof.
  unfold lock_sockets, unlock_sockets, lock_transports, unlock_transports.
  split_and!; keeps_online.
Qed.
Lemma keeps_lock1 : keeps no_new_online lock_sockets. Proof. apply keeps_locks. Qed.
Lemma keeps_lock2 : keeps no_new_online unlock_sockets. Proof. apply keeps_locks. Qed.
Lemma keeps_lock3 : keeps no_new_online lock_transports. Proof. apply keeps_locks. Qed.
Lemma keeps_lock4 : keeps no_new_online unlock_transports. Proof. apply keeps_locks. Qed.
#[export] Hint Resolve keeps_lock1 keeps_lock2 keeps_lock3 keeps_lock4 : online.

Lemma keeps_sock_at s : keeps no_new_online (sock_at s).
Proof. apply keeps_deref, _. Qed.
Lemma keeps_pkt_at p : keeps no_new_online (pkt_at p).
Proof. apply keeps_deref, _. Qed.
Lemma keeps_trans_at t : keeps no_new_online (trans_at t).
Proof. apply keeps_deref, _. Qed.
Lemma keeps_listener_at l : keeps no_new_online (listener_at l).
Proof. apply keeps_deref, _. Qed.
#[export] Hint Resolve keeps_sock_at keeps_pkt_at keeps_trans_at keeps_listener_at : online.
Lemma keeps_sock_put s f : keeps no_new_online (sock_put s f).
Proof. unfold sock_put. keeps_online. Qed.
Lemma keeps_pkt_put p f : keeps no_new_online (pkt_put p f).
Proof. unfold pkt_put. keeps_online. Qed.
Lemma keeps_alloc : keeps no_new_online alloc.
Proof. unfold alloc. keeps_online. Qed.
Lemma keeps_free_socket s : keeps no_new_online (free_socket s).
Proof. unfold free_socket. keeps_online. Qed.
#[export] Hint Resolve keeps_sock_put keeps_pkt_put keeps_alloc keeps_free_socket : online.
Lemma keeps_get_apacket : keeps no_new_online get_apacket.
Proof. unfold get_apacket. keeps_online. Qed.
Lemma keeps_put_apacket p : keeps no_new_online (put_apacket p).
Proof. unfold put_apacket. keeps_online. Qed.
#[export] Hint Resolve keeps_get_apacket keeps_put_apacket : online.
Lemma keeps_put_apackets l : keeps no_new_online (put_apackets l).
Proof. induction l; cbn; keeps_online. Qed.
Lemma keeps_send_packet p t : keeps no_new_online (send_packet p t).
Proof. unfold send_packet. keeps_online. Qed.
Lemma keeps_dis_init d f o : keeps no_new_online (dis_init d f o).
Proof. unfold dis_init. keeps_online. Qed.
Lemma keeps_add_dis t d : keeps no_new_online (add_transport_disconnect t d).
Proof. unfold add_transport_disconnect. keeps_online. Qed.
Lemma keeps_remove_dis t d : keeps no_new_online (remove_transport_disconnect t d).
Proof. unfold remove_transport_disconnect. keeps_online. Qed.
#[export] Hint Resolve keeps_put_apackets keeps_send_packet keeps_dis_init keeps_add_dis
  keeps_remove_dis : online.

(** *** Closing *)

Lemma keeps_remove_socket s : keeps no_new_online (remove_socket s).
Proof. unfold remove_socket. keeps_online. Qed.
#[export] Hint Resolve keeps_remove_socket : online.
Lemma keeps_local_socket_destroy s : keeps no_new_online (local_socket_destroy s).
Proof. unfold local_socket_destroy. keeps_online. Qed.
Lemma keeps_free_remote s : keeps no_new_online (free_remote s).
Proof. unfold free_remote. keeps_online. Qed.
#[export] Hint Resolve keeps_local_socket_destroy keeps_free_remote : online.

Lemma keeps_touch o : keeps no_new_online (touch o).
Proof. unfold touch. keeps_online. Qed.
Lemma keeps_unlink_node l t : keeps no_new_online (unlink_node l t).
Proof. induction l; cbn; keeps_online. Qed.
#[export] Hint Resolve keeps_touch keeps_unlink_node : online.

Lemma keeps_close_rec n b s : keeps no_new_online (close_rec n b s).
Proof.
  revert b s. induction n as [|n IH]; intros b s; [apply keeps_fail, _|]. cbn [close_rec].
  unfold local_socket_close, local_socket_close_locked, local_socket_close_notify,
    remote_socket_close, smart_socket_close, jdwp_socket_close, jdwp_tracker_close,
    device_tracker_close, device_tracker_remove.
  keeps_online.
Qed.
Lemma keeps_call_close s : keeps no_new_online (call_close s).
Proof. apply keeps_close_rec. Qed.
#[export] Hint Resolve keeps_close_rec keeps_call_close : online.

Lemma keeps_free_listener l : keeps no_new_online (free_listener l).
Proof. unfold free_listener. keeps_online. Qed.
#[export] Hint Resolve keeps_free_listener : online.
Lemma keeps_call_disconnect f o t : keeps no_new_online (call_disconnect f o t).
Proof. unfold call_disconnect, remote_socket_disconnect, listener_disconnect. keeps_online. Qed.
#[export] Hint Resolve keeps_call_disconnect : online.
Lemma keeps_run_disconnects n t d :
  keeps no_new_online (run_disconnects call_disconnect n t d).
Proof. revert d. induction n as [|n IH]; intros [d|]; cbn; keeps_online. Qed.
#[export] Hint Resolve keeps_run_disconnects : online.
Lemma keeps_handle_offline t : keeps no_new_online (handle_offline t).
Proof. unfold handle_offline, run_transport_disconnects. keeps_online. Qed.
#[export] Hint Resolve keeps_handle_offline : online.

(** *** Reading, writing and creating sockets *)

Lemma keeps_find_id l i : keeps no_new_online (find_id l i).
Proof. induction l; cbn; keeps_online. Qed.
#[export] Hint Resolve keeps_find_id : online.
Lemma keeps_find_local_socket i : keeps no_new_online (find_local_socket i).
Proof. unfold find_local_socket. keeps_online. Qed.
Lemma keeps_install_local_socket s : keeps no_new_online (install_local_socket s).
Proof. unfold install_local_socket. keeps_online. Qed.
#[export] Hint Resolve keeps_find_local_socket keeps_install_local_socket : online.
Lemma keeps_alloc_socket so : keeps no_new_online (alloc_socket so).
Proof. unfold alloc_socket. keeps_online. Qed.
#[export] Hint Resolve keeps_alloc_socket : online.
Lemma keeps_create_local_socket_pair a b : keeps no_new_online (create_local_socket_pair a b).
Proof. unfold create_local_socket_pair. keeps_online. Qed.
Lemma keeps_create_remote_socket i t : keeps no_new_online (create_remote_socket i t).
Proof. unfold create_remote_socket. keeps_online. Qed.
#[export] Hint Resolve keeps_create_local_socket_pair keeps_create_remote_socket : online.
Lemma keeps_create_local_service_socket `{Services} name :
  keeps no_new_online (create_local_service_socket name).
Proof. unfold create_local_service_socket, create_local_socket. keeps_online. Qed.
#[export] Hint Resolve keeps_create_local_service_socket : online.

Lemma keeps_drain_packet n e d p : keeps no_new_online (drain_packet n e d p).
Proof. induction n as [|n IH]; cbn; keeps_online. Qed.
#[export] Hint Resolve keeps_drain_packet : online.
Lemma keeps_pick_transport l ty sn st : keeps no_new_online (pick_transport l ty sn st).
Proof. revert st. induction l as [|t l IH]; intros st; cbn; keeps_online. Qed.
#[export] Hint Resolve keeps_pick_transport : online.
Lemma keeps_acquire_one_transport n st ty sn :
  keeps no_new_online (acquire_one_transport n st ty sn).
Proof.
  unfold acquire_one_transport. generalize false.
  induction n as [|n IH]; intros b; cbn; unfold acquire_pass; keeps_online.
Qed.
#[export] Hint Resolve keeps_acquire_one_transport : online.
Lemma keeps_connect_to_remote s d : keeps no_new_online (connect_to_remote s d).
Proof. unfold connect_to_remote. keeps_online. Qed.
Lemma keeps_smart_fail s : keeps no_new_online (smart_fail s).
Proof. unfold smart_fail. keeps_online. Qed.
#[export] Hint Resolve keeps_connect_to_remote keeps_smart_fail : online.
Lemma keeps_smart_connect s p n : keeps no_new_online (smart_connect s p n).
Proof. unfold smart_connect, smart_forward, terminate_request. keeps_online. Qed.
#[export] Hint Resolve keeps_smart_connect : online.
Lemma keeps_call_enqueue s p : keeps no_new_online (call_enqueue s p).
Proof.
  unfold call_enqueue, local_socket_enqueue, remote_socket_enqueue, smart_socket_enqueue, smart_gather,
    jdwp_socket_enqueue, jdwp_tracker_enqueue, device_tracker_enqueue, device_tracker_close,
    device_tracker_remove.
  keeps_online.
Qed.
#[export] Hint Resolve keeps_call_enqueue : online.

Lemma keeps_proc_at a : keeps no_new_online (proc_at a).
Proof. apply keeps_deref, _. Qed.
#[export] Hint Resolve keeps_proc_at : online.
Lemma keeps_list_pids l n : keeps no_new_online (list_pids l n).
Proof. revert n. induction l; intros; cbn; keeps_online. Qed.
Lemma keeps_format_transport t n b : keeps no_new_online (format_transport t n b).
Proof. unfold format_transport, add_qual, print_to. keeps_online. Qed.
#[export] Hint Resolve keeps_list_pids keeps_format_transport : online.
Lemma keeps_list_lines l n b : keeps no_new_online (list_lines l n b).
Proof. revert n. induction l; intros; cbn; keeps_online. Qed.
#[export] Hint Resolve keeps_list_lines : online.
Lemma keeps_send_list s p bs : keeps no_new_online (send_list s p bs).
Proof. unfold send_list. keeps_online. Qed.
Lemma keeps_jdwp_process_list_msg n : keeps no_new_online (jdwp_process_list_msg n).
Proof. unfold jdwp_process_list_msg, jdwp_process_list. keeps_online. Qed.
Lemma keeps_list_transports_msg n : keeps no_new_online (list_transports_msg n).
Proof. unfold list_transports_msg, list_transports. keeps_online. Qed.
#[export] Hint Resolve keeps_send_list keeps_jdwp_process_list_msg keeps_list_transports_msg : online.

Lemma keeps_call_ready s : keeps no_new_online (call_ready s).
Proof.
  unfold call_ready, local_socket_ready_notify, local_socket_ready, remote_socket_ready,
    smart_socket_ready, jdwp_socket_ready, jdwp_tracker_ready, device_tracker_ready,
    device_tracker_send, jdwp_process_list.
  keeps_online.
Qed.
#[export] Hint Resolve keeps_call_ready : online.

(** *** The handlers *)

Lemma keeps_send_ready a b t : keeps no_new_online (send_ready a b t).
Proof. unfold send_ready. keeps_online. Qed.
Lemma keeps_send_close a b t : keeps no_new_online (send_close a b t).
Proof. unfold send_close. keeps_online. Qed.
Lemma keeps_send_connect t : keeps no_new_online (send_connect t).
Proof. unfold send_connect, fill_connect_data. keeps_online. Qed.
Lemma keeps_qual_overwrite s : keeps no_new_online (qual_overwrite s).
Proof. unfold qual_overwrite, strdup. keeps_online. Qed.
#[export] Hint Resolve keeps_send_ready keeps_send_close keeps_send_connect
  keeps_qual_overwrite : online.
Lemma keeps_parse_props l t : keeps no_new_online (parse_props l t).
Proof. induction l; cbn; keeps_online. Qed.
#[export] Hint Resolve keeps_parse_props : online.
Lemma keeps_parse_banner b t : keeps no_new_online (parse_banner b t).
Proof. unfold parse_banner. keeps_online. Qed.
#[export] Hint Resolve keeps_parse_banner : online.

(** what the protocol engine relies on: producing a token, checking a
    signature and asking for a key bring no transport online by themselves *)
Class AuthLaws `{Auth} : Prop := {
  keeps_generate_token tok : keeps no_new_online (adb_auth_generate_token tok);
  keeps_verify tok sig : keeps no_new_online (adb_auth_verify tok sig);
  keeps_confirm_key key t : keeps no_new_online (adb_auth_confirm_key key t);
}.
#[export] Hint Resolve keeps_generate_token keeps_verify keeps_confirm_key : online.

#[export] Instance no_auth_laws : @AuthLaws no_auth.
Proof. split; intros; cbn; keeps_online. Qed.

(** transports other than [t] *)
Definition no_new_online_but (t : Z) (w w' : world) : Prop :=
  ∀ t' tr', t' ≠ t → w_transports w' !! t' = Some tr' → t_online tr' = true →
    ∃ tr, w_transports w !! t' = Some tr ∧ t_online tr = true.
#[export] Instance no_new_online_but_preorder t : PreOrder (no_new_online_but t).
Proof.
  split; [intros w; unfold no_new_online_but; eauto|]. intros w1 w2 w3 H1 H2 t' tr3 Hne H3 Ho.
  destruct (H2 t' tr3 Hne H3 Ho) as (tr2 & ? & ?). eauto.
Qed.
Lemma keeps_but {A} t (m : M world A) : keeps no_new_online m → keeps (no_new_online_but t) m.
Proof. intros H w t' tr' _. apply H. Qed.

(** while authentication is required *)
Definition no_new_online_auth (w w' : world) : Prop :=
  auth_enabled w = true → no_new_online w w'.
#[export] Instance no_new_online_auth_preorder : PreOrder no_new_online_auth.
Proof.
  split; [intros w _; reflexivity|]. intros w1 w2 w3 H1 H2 Ha.
  etrans; [by apply H1|]. apply H2. by rewrite (nno_auth _ _ (H1 Ha)).
Qed.
Lemma keeps_auth {A} (m : M world A) : keeps no_new_online m → keeps no_new_online_auth m.
Proof. intros H w _. apply H. Qed.

Section handlers.
Context `{Services} `{AuthLaws}.

Lemma keeps_send_auth_request t : keeps no_new_online (send_auth_request t).
Proof. unfold send_auth_request. keeps_online. Qed.
Hint Resolve keeps_send_auth_request : online.

Lemma keeps_handle_sync p t pk : keeps no_new_online (handle_sync p t pk).
Proof. unfold handle_sync. keeps_online. Qed.
Lemma keeps_handle_open p t pk : keeps no_new_online (handle_open p t pk).
Proof. unfold handle_open. keeps_online. Qed.
Lemma keeps_handle_okay t pk : keeps no_new_online (handle_okay t pk).
Proof. unfold handle_okay. keeps_online. Qed.
Lemma keeps_handle_clse t pk : keeps no_new_online (handle_clse t pk).
Proof. unfold handle_clse. keeps_online. Qed.
Lemma keeps_handle_wrte p t pk : keeps no_new_online (handle_wrte p t pk).
Proof. unfold handle_wrte. keeps_online. Qed.
Hint Resolve keeps_handle_sync keeps_handle_open keeps_handle_okay keeps_handle_clse
  keeps_handle_wrte : online.

(** a CNXN packet is answered by an authentication request *)
Lemma keeps_handle_cnxn t pk : keeps no_new_online_auth (handle_cnxn t pk).
Proof.
  unfold handle_cnxn.
  do 4 (apply keeps_bind; [apply _|apply keeps_auth; keeps_online|intros ?]).
  intros w Ha. unfold bind, gets. rewrite Ha. cbn [negb]. apply keeps_send_auth_request.
Qed.

(** the signature in the packet at [p] is good for the token of [t] *)
Definition verified (p t : Z) (w : world) : Prop :=
  ∃ pk tr sig w1, w_packets w !! p = Some pk ∧ w_transports w !! t = Some tr
    ∧ command (p_msg pk) = A_AUTH ∧ arg0 (p_msg pk) = ADB_AUTH_SIGNATURE
    ∧ payload pk (data_length (p_msg pk)) = Some sig
    ∧ adb_auth_verify (t_token tr) sig w = Ok true w1.

(** an AUTH packet brings [t] online if its signature is good, or nothing *)
Lemma handle_auth_online p t pk w :
  w_packets w !! p = Some pk → command (p_msg pk) = A_AUTH →
  no_new_online w (final (handle_auth t pk w))
  ∨ verified p t w ∧ no_new_online_but t w (final (handle_auth t pk w)).
Proof.
  intros Hpk Hc. unfold handle_auth.
  destruct (arg0 (p_msg pk) =? ADB_AUTH_TOKEN) eqn:E1.
  { left. revert w Hpk. unfold send_auth_publickey. cut (∀ w : world, no_new_online w
      (final ((do _ <- trans_at t; do p <- get_apacket; put_apacket p)%adb w))); [eauto|].
    change (keeps no_new_online (do _ <- trans_at t; do p <- get_apacket; put_apacket p)).
    keeps_online. }
  destruct (arg0 (p_msg pk) =? ADB_AUTH_SIGNATURE) eqn:E2; cycle 1.
  { left. case_match; [|reflexivity]. unfold bind, deref.
    destruct (payload pk _); [|reflexivity]. apply keeps_confirm_key. }
  apply Z.eqb_eq in E2.
  destruct (w_transports w !! t) as [tr|] eqn:Ht; cycle 1.
  { left. unfold bind, trans_at, deref. rewrite Ht. reflexivity. }
  erewrite (bind_ok (trans_at t)) by by unfold trans_at, deref; rewrite Ht.
  destruct (payload pk _) as [sig|] eqn:Hs; [|left; reflexivity].
  erewrite (bind_ok (deref _ _)) by done.
  pose proof (keeps_verify (t_token tr) sig w) as Hv.
  destruct (adb_auth_verify (t_token tr) sig w) as [[] w1|c w1|f w1] eqn:Ev; cbn in Hv;
    [right|left..]; [| |unfold bind; by rewrite Ev..];
    rewrite (bind_ok _ _ _ _ _ Ev).
  - split; [exists pk, tr, sig, w1; done|].
    etrans; [intros t' tr' _; apply Hv|].
    unfold adb_auth_verified, handle_online.
    set (m := bind _ _). enough (Hm : keeps (no_new_online_but t) m) by apply Hm. subst m.
    apply keeps_bind; [apply _|apply keeps_bind; [apply _| |intros _]|intros _].
    + unfold trans_put. apply keeps_bind; [apply _|apply keeps_deref, _|intros _].
      apply keeps_modify. intros w2 t' tr' Hne. cbn. rewrite lookup_alter_ne by done. eauto.
    + apply keeps_but. keeps_online.
    + apply keeps_but. keeps_online.
  - etrans; [apply Hv|]. set (m := bind _ _).
    enough (Hm : keeps no_new_online m) by apply Hm. subst m. keeps_online.
Qed.

(** the whole dispatch *)
Lemma handle_packet_online p t w :
  auth_enabled w = true →
  no_new_online w (final (handle_packet p t w))
  ∨ verified p t w ∧ no_new_online_but t w (final (handle_packet p t w)).
Proof.
  intros Ha. unfold handle_packet.
  destruct (w_packets w !! p) as [pk|] eqn:Hpk; cycle 1.
  { left. unfold bind, pkt_at, deref. rewrite Hpk. reflexivity. }
  erewrite !(bind_ok (pkt_at p)) by by unfold pkt_at, deref; rewrite Hpk.
  cbv zeta.
  destruct (command (p_msg pk) =? A_SYNC) eqn:E1; [left; apply keeps_handle_sync|].
  destruct (command (p_msg pk) =? A_WRTE) eqn:E2.
  { left. set (m := bind _ _). enough (Hm : keeps no_new_online m) by apply Hm. subst m.
    keeps_online. }
  destruct (command (p_msg pk) =? A_CNXN) eqn:E3.
  { left. set (m := bind _ _). enough (Hm : keeps no_new_online_auth m) by by apply Hm. subst m.
    apply keeps_bind; [apply _|apply keeps_handle_cnxn|intros _].
    apply keeps_auth. keeps_online. }
  destruct (command (p_msg pk) =? A_AUTH) eqn:E4; cycle 1.
  { left. set (m := bind _ _). enough (Hm : keeps no_new_online m) by apply Hm. subst m.
    keeps_online. }
  apply Z.eqb_eq in E4. destruct (handle_auth_online p t pk w Hpk E4) as [Hn|[Hv Hn]].
  - left. unfold bind. destruct (handle_auth t pk w) as [[] w1| |]; cbn in Hn |- *; [|done..].
    etrans; [done|apply keeps_put_apacket].
  - right. split; [done|].
    unfold bind. destruct (handle_auth t pk w) as [[] w1| |]; cbn in Hn |- *; [|done..].
    etrans; [done|]. intros t' tr' _. apply keeps_put_apacket.
Qed.
End handlers.

(** ** The whole daemon *)

(** authentication that accepts nothing *)
Class AuthRefuses `{Auth} : Prop := {
  verify_refuses tok sig w w' : adb_auth_verify tok sig w ≠ Ok true w';
  keeps_auth_event d ev t : keeps no_new_online (adb_auth_event d ev t);
  keeps_auth_listener d : keeps no_new_online (adb_auth_listener d);
}.
#[export] Hint Resolve keeps_auth_event keeps_auth_listener : online.

#[export] Instance no_auth_refuses : @AuthRefuses no_auth.
Proof. split; intros; cbn; [done|keeps_online..]. Qed.

Lemma keeps_find_of_transport l t : keeps no_new_online (find_of_transport l t).
Proof. induction l; cbn; keeps_online. Qed.
#[export] Hint Resolve keeps_find_of_transport : online.
Lemma keeps_close_locked s : keeps no_new_online (close_locked s).
Proof. apply keeps_close_rec. Qed.
#[export] Hint Resolve keeps_close_locked : online.
Lemma keeps_close_of_transport n t : keeps no_new_online (close_of_transport n t).
Proof. induction n; cbn [close_of_transport]; keeps_online. Qed.
#[export] Hint Resolve keeps_close_of_transport : online.
Lemma keeps_close_all_sockets t : keeps no_new_online (close_all_sockets t).
Proof. unfold close_all_sockets. keeps_online. Qed.
#[export] Hint Resolve keeps_close_all_sockets : online.

Lemma keeps_drain_queue n s : keeps no_new_online (drain_queue n s).
Proof. induction n; cbn; keeps_online. Qed.
Lemma keeps_fill_packet n d a acc : keeps no_new_online (fill_packet n d a acc).
Proof. revert a acc. induction n; intros; cbn; keeps_online. Qed.
#[export] Hint Resolve keeps_drain_queue keeps_fill_packet : online.
Lemma keeps_local_socket_event_func d ev s : keeps no_new_online (local_socket_event_func d ev s).
Proof. unfold local_socket_event_func, socket_writable, socket_readable. keeps_online. Qed.
Lemma keeps_ss_listener d ev : keeps no_new_online (ss_listener_event_func d ev).
Proof.
  unfold ss_listener_event_func, connect_to_smartsocket, create_smart_socket, create_local_socket.
  keeps_online.
Qed.
Lemma keeps_listener d ev l : keeps no_new_online (listener_event_func d ev l).
Proof. unfold listener_event_func, create_local_socket. keeps_online. Qed.
#[export] Hint Resolve keeps_local_socket_event_func keeps_ss_listener keeps_listener : online.

(** *** Debugging *)

Lemma keeps_notify_trackers n t bs : keeps no_new_online (notify_trackers n t bs).
Proof. revert t. induction n as [|n IH]; intros [t|]; cbn; keeps_online. Qed.
#[export] Hint Resolve keeps_notify_trackers : online.
Lemma keeps_list_updated : keeps no_new_online jdwp_process_list_updated.
Proof. unfold jdwp_process_list_updated. keeps_online. Qed.
Lemma keeps_touch_proc o : keeps no_new_online (touch_proc o).
Proof. unfold touch_proc. keeps_online. Qed.
Lemma keeps_close_fds l : keeps no_new_online (close_fds l).
Proof. induction l; cbn; keeps_online. Qed.
Lemma keeps_proc_put a f : keeps no_new_online (proc_put a f).
Proof. unfold proc_put. keeps_online. Qed.
#[export] Hint Resolve keeps_list_updated keeps_touch_proc keeps_close_fds keeps_proc_put : online.
Lemma keeps_jdwp_process_free a : keeps no_new_online (jdwp_process_free a).
Proof. unfold jdwp_process_free. keeps_online. Qed.
Lemma keeps_read_pid n s a : keeps no_new_online (read_pid n s a).
Proof. induction n as [|n IH]; cbn [read_pid]; cbv zeta; keeps_online. Qed.
Lemma keeps_drop_input n s : keeps no_new_online (drop_input n s).
Proof. induction n as [|n IH]; cbn [drop_input]; keeps_online. Qed.
#[export] Hint Resolve keeps_jdwp_process_free keeps_read_pid keeps_drop_input : online.
Lemma keeps_jdwp_process_event s ev a : keeps no_new_online (jdwp_process_event s ev a).
Proof. unfold jdwp_process_event, jdwp_process_readable, jdwp_process_writable. keeps_online. Qed.
Lemma keeps_jdwp_control_event ev : keeps no_new_online (jdwp_control_event ev).
Proof. unfold jdwp_control_event, jdwp_process_alloc. keeps_online. Qed.
#[export] Hint Resolve keeps_jdwp_process_event keeps_jdwp_control_event : online.

Lemma keeps_thread_create n t : keeps no_new_online (thread_create n t).
Proof. unfold thread_create. keeps_online. Qed.
#[export] Hint Resolve keeps_thread_create : online.
Lemma keeps_transport_start t : keeps no_new_online (transport_start t).
Proof. unfold transport_start, pipe. keeps_online. Qed.
Lemma keeps_free_transport t : keeps no_new_online (free_transport t).
Proof.
  unfold free_transport. repeat (apply keeps_bind; [apply _| |intros _]); try solve [keeps_online].
  apply keeps_modify. intros w. split; [|done]. cbn. intros t' tr'.
  rewrite lookup_delete_Some. intros [_ ?]. eauto.
Qed.
#[export] Hint Resolve keeps_transport_start keeps_free_transport : online.
Lemma keeps_transport_remove t : keeps no_new_online (transport_remove t).
Proof. unfold transport_remove, run_transport_disconnects. keeps_online. Qed.
#[export] Hint Resolve keeps_transport_remove : online.
Lemma keeps_transport_registration_func d ev :
  keeps no_new_online (transport_registration_func d ev).
Proof. unfold transport_registration_func. keeps_online. Qed.
#[export] Hint Resolve keeps_transport_registration_func : online.

Section daemon.
Context `{Services} `{AuthLaws} `{!AuthRefuses}.

Lemma keeps_handle_packet p t : keeps no_new_online_auth (handle_packet p t).
Proof.
  intros w Ha. destruct (handle_packet_online p t w Ha) as [?|[Hv _]]; [done|].
  destruct Hv as (pk & tr & sig & w1 & _ & _ & _ & _ & _ & Hv). by apply verify_refuses in Hv.
Qed.

Lemma keeps_F {A} (m : M fdw A) : keeps no_new_online_auth (F w_fd up_fd m).
Proof. apply keeps_auth, keeps_FD. Qed.

Lemma keeps_subproc n d ev :
  (∀ c, keeps no_new_online_auth (dispatch n c)) →
  keeps no_new_online_auth (fdevent_subproc_event_func w_fd up_fd (dispatch n) d ev).
Proof.
  intros IH. unfold fdevent_subproc_event_func, fdevent_call_fdfunc, FATAL.
  repeat first [progress cbn beta iota zeta | apply keeps_F | apply IH | keeps_step].
Qed.

Lemma keeps_dispatch n c : keeps no_new_online_auth (dispatch n c).
Proof.
  revert c. induction n as [|n IH]; intros c; [apply keeps_fail, _|]. cbn [dispatch].
  destruct (c_func c); try solve [apply keeps_auth; keeps_online]; [by apply keeps_subproc|].
  unfold transport_socket_events. case_match; [apply keeps_ret, _|].
  apply keeps_bind; [apply _|apply keeps_auth; keeps_online|intros [p|]].
  - apply keeps_handle_packet.
  - apply keeps_ret, _.
Qed.

Lemma keeps_drain n : keeps no_new_online_auth (drain w_fd up_fd (dispatch DISPATCH_DEPTH) n).
Proof.
  induction n as [|n IH]; cbn [drain]; unfold fdevent_call_fdfunc;
    repeat first [apply keeps_F | apply keeps_dispatch | apply IH | keeps_step].
Qed.
End daemon.


(** ** A transport that is not online *)

Lemma put_apacket_run p w : is_Some (w_packets w !! p) →
  put_apacket p w = Ok tt (up_packets (delete p) w).
Proof. intros [pk Hp]. unfold put_apacket, bind, pkt_at, deref. by rewrite Hp. Qed.

(** C4 Until a transport is online its peer cannot reach the sockets or the
    services: an OPEN, OKAY, CLSE or WRTE packet on it is freed and nothing
    else happens, whatever its arguments. *)
Theorem offline_packets_dropped `{Services} `{Auth} p t w pk tr :
  w_packets w !! p = Some pk → w_transports w !! t = Some tr → t_online tr = false →
  command (p_msg pk) ∈ [A_OPEN; A_OKAY; A_CLSE; A_WRTE] →
  handle_packet p t w = Ok tt (up_packets (delete p) w).
Proof.
  intros Hp Ht Ho Hc. unfold handle_packet.
  rewrite (bind_ok (pkt_at p) _ w pk w) by by unfold pkt_at, deref; rewrite Hp.
  assert (Htr : ∀ A (k : atransport → M world A), bind (trans_at t) k w = k tr w)
    by by intros; apply bind_ok; unfold trans_at, deref; rewrite Ht.
  pose proof (put_apacket_run p w ltac:(eauto)) as Hput.
  rewrite !elem_of_cons, elem_of_nil in Hc.
  destruct Hc as [->|[->|[->|[->|[]]]]]; cbn -[put_apacket handle_open handle_okay handle_clse
    handle_wrte bind]; rewrite (bind_ok _ _ w tt w) || rewrite (bind_ok _ _ w false w);
    try done; unfold handle_open, handle_okay, handle_clse, handle_wrte; by rewrite Htr, Ho.
Qed.

(** ** Examples *)

Module Demo.
(** transport 16 writes to descriptor 11 *)
Definition transport (on : bool) : atransport :=
  mkTrans 10 12 13 11 2 1 CS_DEVICE on kTransportUsb 0 0 (Some (str "host")) None None None None 0
    false (replicate 20 7) 0.
Definition kernel : kern :=
  mkKern 0 ∅ {[ 11 := [WrOk 400] ]} ∅ [] [] [].
Definition world (auth on : bool) (pk : apacket) : world :=
  up_config auth false (str "device")
    (up_disconnects id <[16 := []]>
      (up_packets <[48 := pk]> (up_transports <[16 := transport on]> (
        up_fd (upd_next_loc 64 (initial kernel)) (start_world kernel))))).
Definition packet (c a0 a1 : Z) (d : list Z) : apacket :=
  mkPacket 0 0 (mkMsg c a0 a1 (Z.of_nat (length d)) (sum32 d) (Z.lxor c 0xffffffff)) d.
(** no services *)
Definition services : Services := {| service_to_fd := λ _, ret None |}.
End Demo.


Lemma offline_packets_dropped_witness :
  @handle_packet Demo.services no_auth 48 16 (Demo.world true false (Demo.packet A_OPEN 1 0 (str "shell:")))
  = Ok tt (up_packets (delete 48) (Demo.world true false (Demo.packet A_OPEN 1 0 (str "shell:")))).
Proof.
  apply (@offline_packets_dropped Demo.services no_auth 48 16 _
    (Demo.packet A_OPEN 1 0 (str "shell:")) (Demo.transport false));
    [vm_compute; reflexivity..|left].
Defined.
