(* ===== verification/AuthClient.v ===== *)
(** * Authentication on the device (adbd/src/adb_auth_client.c)

    The keys the device trusts, the tokens it sends, the signatures it
    accepts and the confirmation by the framework.  This is the
    implementation of the interface [Auth] of Adb.v in a build without
    ADBD_NO_AUTH.  RSA_verify (mincrypt, not in the repository) is a
    parameter.

    A stream opened by fopen is the list of bytes left to read; fopen returns
    the contents as the extra result of the call. *)

From S2P Require Import Prelude Kernel Packet Base64 DList Fdevent World Transport Sockets Adb Protocol.

Definition RSANUMBYTES : Z := 256.
Definition RSANUMWORDS : Z := 64.
(** sizeof(RSAPublicKey): len, n0inv, n, rr, exponent *)
Definition RSAPUBLICKEY_SIZE : nat := 524.

(** the bytes of the key, the signature, the token *)
Class Mincrypt := { RSA_verify : list Z → list Z → list Z → bool }.

(** ** C library *)

(** fgets: at most [n] bytes, up to and with a newline *)
Fixpoint fgets (n : nat) (s : list Z) : list Z * list Z :=
  match n, s with
  | O, _ => ([], s)
  | _, [] => ([], [])
  | S n', c :: s' =>
      if c =? 10 then ([c], s') else let '(l, r) := fgets n' s' in (c :: l, r)
  end.

(** the string up to the first blank or tab *)
Fixpoint cut_blank (s : list Z) : list Z :=
  match s with
  | [] => []
  | c :: s' => if (c =? 32) || (c =? 9) then [] else c :: cut_blank s'
  end.

(** fopen(file, "r"): None for NULL *)
Definition fopen (file : list Z) : M world (option (list Z)) :=
  do '(r, bytes) <- KW (sys "fopen" [AS file]);
  if r =? 0 then ret None else ret (Some bytes).
Definition fclose : M world unit := KW (note "fclose" []).

(** run on an array that is not part of [world] *)
Definition on_array {A} (m : M (list Z) A) (a : list Z) : M world (A * list Z) := λ w,
  match m a with
  | Ok x a' => Ok (x, a') w
  | Exit c _ => Exit c w
  | Fault f _ => Fault f w
  end.

(** ** Keys *)

(** one line of a key file: the key, if it is one *)
Definition parse_key (line : list Z) : M world (option (list Z)) :=
  do buf <- deref OutOfBounds (λ _, cstring (line ++ [0]));
  do '(r, target) <- on_array (adb_b64_pton (cut_blank buf) (RSAPUBLICKEY_SIZE + 4))
                       (replicate (RSAPUBLICKEY_SIZE + 4) 0);
  if negb (r =? Z.of_nat RSAPUBLICKEY_SIZE) then ret None
  else if negb (get32 target =? RSANUMWORDS) then ret None
  else ret (Some (take RSAPUBLICKEY_SIZE target)).

(** the keys are added at the end of [list]; each line consumes a byte *)
Fixpoint read_lines (fuel : nat) (f : list Z) (keys : list (list Z)) : M world (list (list Z)) :=
  match f with
  | [] => ret keys
  | _ =>
      match fuel with
      | O => fail OutOfFuel
      | S fuel' =>
          let '(line, f') := fgets (Z.to_nat MAX_PAYLOAD - 1) f in
          do ok <- KW malloc_ok;
          if negb ok then ret keys
          else
            do k <- parse_key line;
            read_lines fuel' f' (keys ++ option_list k)
      end
  end.

Definition read_keys (file : list Z) (keys : list (list Z)) : M world (list (list Z)) :=
  do ok <- KW malloc_ok;
  if negb ok then ret keys
  else
    do f <- fopen file;
    match f with
    | None => ret keys
    | Some bytes =>
        do keys <- read_lines (length bytes) bytes keys;
        fclose;;; ret keys
    end.

Definition key_paths : list (list Z) := [str "/adb_keys"; str "/data/misc/adb/adb_keys"].

Definition set_keys (ks : list (list Z)) : M world unit :=
  modify (λ w, up_auth ks (framework_fd w) w).
Definition set_framework_fd (d : Z) : M world unit := modify (λ w, up_auth (key_list w) d w).

(** every node is unlinked and freed *)
Definition free_keys : M world unit := set_keys [].

Fixpoint load_paths (paths : list (list Z)) : M world unit :=
  match paths with
  | [] => ret tt
  | path :: paths' =>
      do r <- KW (sys_ "stat" [AS path]);
      (if r =? 0 then
         do ks <- gets key_list;
         do ks <- read_keys path ks;
         set_keys ks
       else ret tt);;;
      load_paths paths'
  end.

Definition adb_auth_reload_keys : M world unit := free_keys;;; load_paths key_paths.

(** ** Tokens and signatures *)

(** fread of one object: a short stream fills the buffer in part *)
Definition generate_token (token : list Z) : M world (list Z * bool) :=
  do f <- fopen (str "/dev/urandom");
  match f with
  | None => ret (token, false)
  | Some bytes =>
      let got := take (length token) bytes in
      fclose;;;
      ret (got ++ drop (length got) token, bool_decide (length got = length token))
  end.

Section client.
Context `{Mincrypt}.

Fixpoint verify_any (keys : list (list Z)) (token sig : list Z) : bool :=
  match keys with
  | [] => false
  | k :: keys' => if RSA_verify k sig token then true else verify_any keys' token sig
  end.
Definition auth_verify (token sig : list Z) : M world bool :=
  if negb (Z.of_nat (length sig) =? RSANUMBYTES) then ret false
  else do ks <- gets key_list; ret (verify_any ks token sig).

(** ** The framework *)

Definition auth_event (d ev t : Z) : M world unit :=
  if negb (has ev FDE_READ) then ret tt
  else
    do r <- KW (adb_read d 2);
    match r with
    | inr _ => FD (fdevent_remove (auth_fde_of t));;; set_framework_fd (-1)
    | inl bs =>
        if bool_decide (bs = str "OK") then adb_auth_reload_keys;;; adb_auth_verified t
        else ret tt
    end.

Definition auth_confirm_key (key : list Z) (t : Z) : M world unit :=
  do ok <- KW malloc_ok;
  if negb ok then ret tt
  else
    do d <- gets framework_fd;
    if d <? 0 then ret tt
    else
      do c <- deref OutOfBounds (λ _, list.last key);
      if negb (c =? 0) then ret tt
      else
        do k <- deref OutOfBounds (λ _, cstring key);
        let msg := str "PK" ++ k in
        if MAX_PAYLOAD <=? Z.of_nat (length msg) then ret tt
        else
          do r <- KW (adb_write d msg);
          match r with
          | inr _ => ret tt
          | inl _ =>
              FD (fdevent_install (auth_fde_of t) d adb_auth_event_ t);;;
              FD (fdevent_add (auth_fde_of t) FDE_READ)
          end.

Definition auth_listener (d : Z) : M world unit :=
  do s <- KW (adb_socket_accept d);
  if s <? 0 then ret tt else set_framework_fd s.

(** the static object listener_fde *)
Definition listener_fde : Z := 2.

Definition auth_init : M world unit :=
  set_keys [];;;
  adb_auth_reload_keys;;;
  do d <- KW (sys_ "android_get_control_socket" [AS (str "adbd")]);
  if d <? 0 then ret tt
  else
    do r <- KW (sys_ "listen" [AZ d; AZ 4]);
    if r <? 0 then ret tt
    else
      FD (fdevent_install listener_fde d adb_auth_listener_ 0);;;
      FD (fdevent_add listener_fde FDE_READ).

Definition device_auth : Auth := {|
  adb_auth_generate_token := generate_token;
  adb_auth_verify := auth_verify;
  adb_auth_confirm_key := auth_confirm_key;
  adb_auth_event := auth_event;
  adb_auth_listener := auth_listener;
  adb_auth_init := auth_init |}.
End client.

(** ** Nothing here brings a transport online, except the framework *)

Lemma keeps_set_keys ks : keeps no_new_online (set_keys ks).
Proof. unfold set_keys. keeps_online. Qed.
Lemma keeps_set_framework_fd d : keeps no_new_online (set_framework_fd d).
Proof. unfold set_framework_fd. keeps_online. Qed.
Lemma keeps_fopen f : keeps no_new_online (fopen f).
Proof. unfold fopen. keeps_online. Qed.
Lemma keeps_fclose : keeps no_new_online fclose.
Proof. unfold fclose. keeps_online. Qed.
#[export] Hint Resolve keeps_set_keys keeps_set_framework_fd keeps_fopen keeps_fclose : online.

#[export] Instance device_auth_laws `{Mincrypt} : @AuthLaws device_auth.
Proof.
  split; intros; cbn; [unfold generate_token|unfold auth_verify|unfold auth_confirm_key];
    keeps_online.
Qed.

(** ** Reading keys *)

(** what parse_key accepts: the bytes of an RSAPublicKey of 2048 bits *)
Definition wf_key (k : list Z) : Prop :=
  length k = RSAPUBLICKEY_SIZE ∧ Forall is_byte k ∧ get32 k = RSANUMWORDS.

Lemma cstring_total l : ∃ s, cstring (l ++ [0]) = Some s ∧ 0 ∉ s.
Proof.
  induction l as [|c l (s & IH & Hs)]; cbn; [eexists; split; [done|set_solver]|].
  destruct (Z.eqb_spec c 0); [eexists; split; [done|set_solver]|].
  rewrite IH. eexists. split; [done|set_solver].
Qed.

Lemma cut_blank_sub c s : c ∈ cut_blank s → c ∈ s.
Proof. induction s as [|x s IH]; cbn; [done|]. case_match; set_solver. Qed.

Lemma get32_take n t : (4 ≤ n)%nat → (n ≤ length t)%nat → get32 (take n t) = get32 t.
Proof.
  intros Hn Ht. destruct t as [|b0 [|b1 [|b2 [|b3 t]]]]; cbn in Ht; try lia.
  destruct n as [|[|[|[|n]]]]; try lia. done.
Qed.

(** a line is a key exactly when its first word is the text of one *)
Lemma parse_key_spec line w : ∃ s o, cstring (line ++ [0]) = Some s ∧ parse_key line w = Ok o w ∧
  match o with
  | Some k => wf_key k ∧ strip (cut_blank s) = encode k
  | None => ∀ k, wf_key k → strip (cut_blank s) ≠ encode k
  end.
Proof.
  destruct (cstring_total line) as (s & Hs & H0).
  destruct (pton_correct (cut_blank s) (RSAPUBLICKEY_SIZE + 4) (replicate (RSAPUBLICKEY_SIZE + 4) 0))
    as (r & t & Heq & Hl & Hsound & Hcomp).
  { intros Hin. by apply H0, cut_blank_sub. } { rewrite length_replicate. done. }
  rewrite length_replicate in Hl.
  assert (Hrej : (∀ k, wf_key k → strip (cut_blank s) = encode k →
      r = Z.of_nat RSAPUBLICKEY_SIZE ∧ take RSAPUBLICKEY_SIZE t = k)).
  { intros k (Hkl & Hkb & _) Hk. rewrite <- Hkl at 1 2. apply Hcomp; [done..|].
    rewrite Hkl. lia. }
  exists s.
  assert (Hrun : parse_key line w = (if negb (r =? Z.of_nat RSAPUBLICKEY_SIZE) then ret None
    else if negb (get32 t =? RSANUMWORDS) then ret None
    else ret (Some (take RSAPUBLICKEY_SIZE t))) w).
  { unfold parse_key, bind, deref, on_array. rewrite Hs, Heq. done. }
  destruct (Z.eqb_spec r (Z.of_nat RSAPUBLICKEY_SIZE)) as [->|Hr]; cbn [negb] in Hrun; cycle 1.
  { exists None. split_and!; [done..|]. intros k Hk Hs'. by destruct (Hrej k Hk Hs') as [-> _]. }
  destruct (Z.eqb_spec (get32 t) RSANUMWORDS) as [H32|H32]; cbn [negb] in Hrun; cycle 1.
  { exists None. split_and!; [done..|]. intros k Hk Hs'. destruct (Hrej k Hk Hs') as [_ <-].
    destruct Hk as (_ & _ & Hk). rewrite get32_take in Hk; [done|vm_compute; lia|rewrite Hl; lia]. }
  exists (Some (take RSAPUBLICKEY_SIZE t)). split_and!; [done..| |].
  - destruct Hsound as [Hr|(n & Hn & Hle & Hb & _)]; [vm_compute in Hr; lia|].
    assert (n = RSAPUBLICKEY_SIZE) as -> by lia. split_and!; [|done|].
    + rewrite length_take. lia.
    + rewrite get32_take; [done|vm_compute; lia|done].
  - destruct Hsound as [Hr|(n & Hn & Hle & Hb & He)]; [vm_compute in Hr; lia|].
    assert (n = RSAPUBLICKEY_SIZE) as -> by lia. done.
Qed.

(** only the state below the heap changed *)
Definition only_kernel (w w' : world) : Prop := w' = up_fd (w_fd w') w.
#[export] Instance only_kernel_preorder : PreOrder only_kernel.
Proof.
  split; [intros []; done|]. intros w1 w2 w3 H1 H2. unfold only_kernel in *.
  rewrite H2, H1. done.
Qed.
Lemma KW_only_kernel {A} (m : M kern A) w a k :
  m (w_kern_of w) = Ok a k → ∃ w', KW m w = Ok a w' ∧ only_kernel w w' ∧ w_kern_of w' = k.
Proof.
  intros Hm. unfold KW, FD, K, zoom. unfold w_kern_of in Hm. rewrite Hm.
  eexists. split; [done|]. split; done.
Qed.

Lemma malloc_total k : ∃ b k', malloc_ok k = Ok b k'.
Proof. unfold malloc_ok. destruct (k_oom k) as [|b l]; eauto. Qed.
Lemma sys_total name args k : ∃ r k', sys name args k = Ok r k'.
Proof. unfold sys. destruct (k_sys k); eauto. Qed.

Lemma fgets_le n f : (length (fgets n f).2 ≤ length f)%nat.
Proof.
  revert f. induction n as [|n IH]; intros [|c f]; cbn; [lia..|].
  case_match; cbn; [lia|]. specialize (IH f). destruct (fgets n f). cbn in *. lia.
Qed.
Lemma fgets_shrinks n f : f ≠ [] → (length (fgets (S n) f).2 < length f)%nat.
Proof.
  destruct f as [|c f]; [done|]. intros _. cbn. case_match; cbn; [lia|].
  pose proof (fgets_le n f). destruct (fgets n f). cbn in *. lia.
Qed.

Lemma read_lines_spec fuel f keys w : (length f ≤ fuel)%nat →
  ∃ ks w', read_lines fuel f keys w = Ok (keys ++ ks) w' ∧ Forall wf_key ks ∧ only_kernel w w'.
Proof.
  revert f keys w. induction fuel as [|fuel IH]; intros f keys w Hf.
  - destruct f; [|cbn in Hf; lia]. exists [], w. rewrite app_nil_r. by repeat split.
  - destruct (decide (f = [])) as [->|Hne].
    { exists [], w. rewrite app_nil_r. by repeat split. }
    pose proof (fgets_shrinks (Z.to_nat MAX_PAYLOAD - 2) f Hne) as Hs.
    change (S (Z.to_nat MAX_PAYLOAD - 2)) with (Z.to_nat MAX_PAYLOAD - 1)%nat in Hs.
    destruct (malloc_total (w_kern_of w)) as (b & k & Hm).
    destruct (KW_only_kernel _ w _ _ Hm) as (w1 & Hw1 & Ho1 & _).
    assert (Hrun : read_lines (S fuel) f keys w =
      (let '(line, f') := fgets (Z.to_nat MAX_PAYLOAD - 1) f in
       if negb b then ret keys else
         do k <- parse_key line; read_lines fuel f' (keys ++ option_list k)) w1).
    { destruct f; [done|]. cbn [read_lines]. destruct (fgets _ _) as [line f'].
      by rewrite (bind_ok _ _ _ _ _ Hw1). }
    rewrite Hrun. clear Hrun. destruct (fgets _ f) as [line f']. cbn in Hs.
    destruct b; cbn [negb].
    + destruct (parse_key_spec line w1) as (s & o & _ & Hp & Ho). rewrite (bind_ok _ _ _ _ _ Hp).
      destruct (IH f' (keys ++ option_list o) w1 ltac:(lia)) as (ks & w2 & -> & Hks & Ho2).
      exists (option_list o ++ ks), w2. rewrite <- app_assoc. split_and!; [done| |by etrans].
      destruct o; cbn; [apply Forall_cons_2; [apply Ho|done]|done].
    + exists [], w1. rewrite app_nil_r. by repeat split.
Qed.

Lemma read_keys_spec file keys w :
  ∃ ks w', read_keys file keys w = Ok (keys ++ ks) w' ∧ Forall wf_key ks ∧ only_kernel w w'.
Proof.
  destruct (malloc_total (w_kern_of w)) as (b & k & Hm).
  destruct (KW_only_kernel _ w _ _ Hm) as (w1 & Hw1 & Ho1 & _).
  unfold read_keys. rewrite (bind_ok _ _ _ _ _ Hw1). destruct b; cbn [negb]; cycle 1.
  { exists [], w1. rewrite app_nil_r. by repeat split. }
  destruct (sys_total "fopen" [AS file] (w_kern_of w1)) as ([r bytes] & k2 & Hs).
  destruct (KW_only_kernel _ w1 _ _ Hs) as (w2 & Hw2 & Ho2 & _).
  unfold fopen. rewrite bind_assoc, (bind_ok _ _ _ _ _ Hw2).
  destruct (r =? 0).
  { exists [], w2. rewrite app_nil_r. split_and!; [done..|by etrans]. }
  destruct (read_lines_spec (length bytes) bytes keys w2) as (ks & w3 & Hr & Hks & Ho3); [done|].
  rewrite (bind_ok _ _ _ _ _ (eq_refl : ret (Some bytes) w2 = Ok _ _)), (bind_ok _ _ _ _ _ Hr).
  destruct (KW_only_kernel (note "fclose" []) w3 tt _ eq_refl) as (w4 & Hw4 & Ho4 & _).
  unfold fclose. rewrite (bind_ok _ _ _ _ _ Hw4).
  exists ks, w4. split_and!; [done..|]. etrans; [done|]. etrans; [done|]. by etrans.
Qed.

Lemma load_paths_spec paths w : Forall wf_key (key_list w) →
  ∃ w', load_paths paths w = Ok tt w' ∧ Forall wf_key (key_list w')
    ∧ w' = up_auth (key_list w') (framework_fd w) (up_fd (w_fd w') w).
Proof.
  revert w. induction paths as [|path paths IH]; intros w Hw.
  - exists w. split_and!; [done..|]. by destruct w.
  - destruct (sys_total "stat" [AS path] (w_kern_of w)) as ([r o] & k & Hs).
    destruct (KW_only_kernel (sys_ "stat" [AS path]) w r k) as (w1 & Hw1 & Ho1 & _).
    { unfold sys_. by rewrite (bind_ok _ _ _ _ _ Hs). }
    cbn [load_paths]. rewrite (bind_ok _ _ _ _ _ Hw1). destruct (r =? 0).
    + destruct (read_keys_spec path (key_list w1) w1) as (ks & w2 & Hr & Hks & Ho2).
      rewrite bind_assoc.
      rewrite (bind_ok _ _ _ _ _ (eq_refl : gets key_list w1 = Ok _ _)), bind_assoc.
      rewrite (bind_ok _ _ _ _ _ Hr). unfold set_keys.
      rewrite (bind_ok _ _ _ _ _ (eq_refl : modify _ w2 = Ok tt _)).
      rewrite Ho1 in Ho2. edestruct IH as (w3 & -> & H3 & H3'); cycle 1.
      * exists w3. split_and!; [done..|]. rewrite H3', Ho2. done.
      * cbn. apply Forall_app. split; [|done]. rewrite Ho1. done.
    + rewrite (bind_ok _ _ _ _ _ (eq_refl : ret tt w1 = Ok _ _)).
      destruct (IH w1) as (w3 & -> & H3 & H3'); [by rewrite Ho1|].
      exists w3. split_and!; [done..|]. rewrite H3', Ho1. done.
Qed.

(** Reloading the keys always returns, whatever files exist and whatever
    they contain (lines that are too long, are not base64, or hold a key of
    another size): it touches nothing but the key list, and afterwards every
    key RSA_verify can be given is a complete 2048-bit key. *)
Theorem reload_keys_wf w : ∃ w', adb_auth_reload_keys w = Ok tt w'
  ∧ Forall wf_key (key_list w')
  ∧ w' = up_auth (key_list w') (framework_fd w) (up_fd (w_fd w') w).
Proof.
  unfold adb_auth_reload_keys, free_keys, set_keys.
  rewrite (bind_ok _ _ _ _ _ (eq_refl : modify _ w = Ok tt _)).
  destruct (load_paths_spec key_paths (up_auth [] (framework_fd w) w)) as (w' & -> & Hk & Hw).
  - done.
  - exists w'. split_and!; [done..|]. rewrite Hw. done.
Qed.

(** *** Key files written by a host *)

(** a line of adb_keys: the key in base64, a blank, the user's name *)
Definition key_line (e : list Z * list Z) : list Z := encode e.1 ++ 32 :: e.2 ++ [10].
(** the text and its newline fit the buffer *)
Definition wf_entry (e : list Z * list Z) : Prop :=
  wf_key e.1 ∧ 10 ∉ e.2 ∧ 0 ∉ e.2 ∧ (length (key_line e) < Z.to_nat MAX_PAYLOAD)%nat.

Lemma encode_chars bs : Forall is_byte bs → Forall (λ c, isspace c = false ∧ 32 < c) (encode bs).
Proof.
  intros Hb. rewrite encode_enc6. apply Forall_app. split.
  - apply Forall_fmap, (list.Forall_impl sextet); [by apply enc6_sextet|]. intros v Hv. cbn.
    pose proof (sextet_forallb (λ v, negb (isspace (b64 v)) && (32 <? b64 v)) ltac:(vm_compute; done) v Hv)
      as H. apply andb_prop in H as [H1 H2]. by apply negb_true_iff in H1; apply Z.ltb_lt in H2.
  - destruct (pads_cases bs) as [->|[->| ->]]; repeat constructor.
Qed.

Lemma strip_id s : Forall (λ c, isspace c = false ∧ 32 < c) s → strip s = s.
Proof.
  induction 1 as [|c s [Hc _] _ IH]; [done|]. rewrite strip_cons, Hc. by rewrite IH.
Qed.
Lemma cut_blank_app s r : Forall (λ c, isspace c = false ∧ 32 < c) s → cut_blank (s ++ 32 :: r) = s.
Proof.
  induction 1 as [|c s [_ Hc] _ IH]; [done|]. cbn.
  rewrite (proj2 (Z.eqb_neq c 32)), (proj2 (Z.eqb_neq c 9)) by lia. cbn. by rewrite IH.
Qed.
Lemma fgets_line n l f : 10 ∉ l → (length l < n)%nat → fgets n (l ++ 10 :: f) = (l ++ [10], f).
Proof.
  revert n. induction l as [|c l IH]; intros [|n] Hl Hn; cbn in *; try lia; [done|].
  destruct (Z.eqb_spec c 10); [set_solver|]. rewrite IH; [done|set_solver|lia].
Qed.

Lemma parse_key_line e w : wf_entry e → parse_key (key_line e) w = Ok (Some e.1) w.
Proof.
  intros (Hk & H10 & H0 & _). destruct (Hk) as (Hkl & Hkb & _).
  pose proof (encode_chars _ Hkb) as Hc.
  destruct (parse_key_spec (key_line e) w) as (s & o & Hs & -> & Ho).
  assert (Hs' : cstring (key_line e ++ [0]) = Some (key_line e)).
  { apply cstring_app. unfold key_line. rewrite elem_of_app, elem_of_cons, elem_of_app.
    intros [Hin|[Hin|[Hin|Hin]]]; [|done..|set_solver].
    rewrite list.Forall_forall in Hc. apply Hc in Hin. lia. }
  rewrite Hs in Hs'. injection Hs' as ->. revert Ho. unfold key_line.
  rewrite cut_blank_app, strip_id by done. destruct o as [k|]; intros Ho.
  - destruct Ho as ((_ & Hb & _) & He). do 2 f_equal. by apply encode_inj.
  - by destruct (Ho e.1 Hk).
Qed.

Lemma KW_malloc w : k_oom (w_kern_of w) = [] → KW malloc_ok w = Ok true w.
Proof.
  intros H. unfold KW, FD, K, zoom, malloc_ok. unfold w_kern_of in H. rewrite H.
  destruct w as [[]]. done.
Qed.

Lemma read_lines_file es fuel keys w : Forall wf_entry es → k_oom (w_kern_of w) = [] →
  (length es ≤ fuel)%nat →
  read_lines fuel (concat (key_line <$> es)) keys w = Ok (keys ++ es.*1) w.
Proof.
  intros Hes Hm. revert fuel keys. induction Hes as [|e es He _ IH]; intros fuel keys Hf.
  { cbn. rewrite app_nil_r. by destruct fuel. }
  destruct fuel as [|fuel]; cbn in Hf; [lia|].
  destruct He as ((Hkl & Hkb & Hk32) & H10 & H0 & Hlen).
  set (f := concat (key_line <$> es)) in *.
  assert (Hfg : fgets (Z.to_nat MAX_PAYLOAD - 1) (key_line e ++ f) = (key_line e, f)).
  { set (l := encode e.1 ++ 32 :: e.2).
    assert (Hl : key_line e = l ++ [10]) by by unfold key_line, l; rewrite <- app_assoc.
    rewrite Hl in Hlen |- *. rewrite length_app in Hlen. cbn [length] in Hlen.
    rewrite <- app_assoc. cbn [app]. apply fgets_line; [|lia].
    subst l. rewrite elem_of_app, elem_of_cons. intros [Hin|[Hin|Hin]]; [|done..].
    pose proof (encode_chars _ Hkb) as Hc. rewrite list.Forall_forall in Hc. apply Hc in Hin. lia. }
  transitivity ((do k <- parse_key (key_line e); read_lines fuel f (keys ++ option_list k)) w).
  - cbn [fmap list_fmap concat]. fold f. destruct (key_line e ++ f) as [|c r] eqn:Hkf.
    { unfold key_line in Hkf. destruct (encode e.1); discriminate. }
    cbn [read_lines]. rewrite Hfg. by rewrite (bind_ok _ _ _ _ _ (KW_malloc w Hm)).
  - rewrite (bind_ok _ _ _ _ _ (parse_key_line e w ltac:(by repeat split))).
    rewrite IH by lia. by rewrite <- app_assoc.
Qed.

Lemma key_lines_length es : (length es ≤ length (concat (key_line <$> es)))%nat.
Proof.
  induction es as [|e es IH]; cbn; [lia|]. unfold key_line at 1. rewrite !length_app. cbn. lia.
Qed.

(** C38 A key file is read back: whatever well-formed keys and comments a host
    appended line by line, read_keys adds exactly these keys, in order, and
    changes nothing else (fopen finds the file, no allocation fails). *)
Theorem key_file_roundtrip file es keys w rest :
  Forall wf_entry es →
  k_oom (w_kern_of w) = [] →
  k_sys (w_kern_of w) = SysRes 1 0 (concat (key_line <$> es)) :: rest →
  ∃ w', read_keys file keys w = Ok (keys ++ es.*1) w' ∧ only_kernel w w'.
Proof.
  intros Hes Hm Hs. unfold read_keys. rewrite (bind_ok _ _ _ _ _ (KW_malloc w Hm)). cbn [negb].
  set (bytes := concat _) in *.
  set (k1 := set_sys rest (add_trace (Sys "fopen" [AS file]) (w_kern_of w))).
  assert (Hf : sys "fopen" [AS file] (w_kern_of w) = Ok (1, bytes) k1)
    by by unfold sys; rewrite Hs.
  destruct (KW_only_kernel _ w _ _ Hf) as (w1 & Hw1 & Ho1 & Hk1).
  unfold fopen. rewrite bind_assoc, (bind_ok _ _ _ _ _ Hw1). cbn [Z.eqb].
  rewrite (bind_ok _ _ _ _ _ (eq_refl : ret (Some bytes) w1 = Ok _ _)).
  rewrite (bind_ok _ _ _ _ _ (read_lines_file es _ keys w1 Hes ltac:(by rewrite Hk1) ltac:(apply key_lines_length))).
  destruct (KW_only_kernel (note "fclose" []) w1 tt _ eq_refl) as (w2 & Hw2 & Ho2 & _).
  unfold fclose. rewrite (bind_ok _ _ _ _ _ Hw2). exists w2. split; [done|by etrans].
Qed.

(** ** Which packets bring a transport online *)

Lemma verify_any_true `{Mincrypt} ks token sig :
  verify_any ks token sig = true ↔ ∃ k, k ∈ ks ∧ RSA_verify k sig token = true.
Proof.
  induction ks as [|k ks IH]; cbn; [set_solver|]. destruct (RSA_verify k sig token) eqn:E.
  - split; [|done]. intros _. exists k. split; [set_solver|done].
  - rewrite IH. split; intros (k' & Hk & Hv); exists k'; split; try done; [set_solver|].
    apply elem_of_cons in Hk as [->|]; [congruence|done].
Qed.


(** ** Examples *)

Module DemoAuth.
(** accepts signatures that start with the first byte of the token *)
Definition rsa : Mincrypt := {| RSA_verify := λ _ sig token, bool_decide (head sig = head token) |}.
Definition key : list Z := 64 :: replicate 523 0.
Definition signature : list Z := replicate 256 7.
Definition before : world :=
  up_auth [key] (-1) (Demo.world true false (Demo.packet A_AUTH ADB_AUTH_SIGNATURE 0 signature)).
Definition kernel : kern :=
  mkKern 0 ∅ ∅ ∅ [SysRes 1 0 (concat (key_line <$> [(key, str "user@host"); (key, [])]))] [] [].
End DemoAuth.

Lemma demo_entry c : 10 ∉ c → 0 ∉ c → (length c < 3000)%nat → wf_entry (DemoAuth.key, c).
Proof.
  intros H10 H0 Hl. split_and!; [|done..|].
  - split; [vm_compute; reflexivity|]. split; [|vm_compute; reflexivity].
    repeat constructor; vm_compute; congruence.
  - unfold key_line. rewrite !length_app. cbn [fst snd length]. rewrite length_app.
    replace (length (encode DemoAuth.key)) with 700%nat by (vm_compute; reflexivity).
    cbn [length]. change (Z.to_nat MAX_PAYLOAD) with 4096%nat. lia.
Qed.


Lemma key_file_roundtrip_witness : ∃ w',
  read_keys (str "/adb_keys") [] (start_world DemoAuth.kernel) = Ok [DemoAuth.key; DemoAuth.key] w'.
Proof.
  destruct (key_file_roundtrip (str "/adb_keys") [(DemoAuth.key, str "user@host"); (DemoAuth.key, [])]
    [] (start_world DemoAuth.kernel) []) as (w' & H & _).
  - apply Forall_cons_2; [|apply Forall_cons_2; [|apply Forall_nil_2]]; apply demo_entry;
      try (vm_compute; lia); apply (bool_decide_unpack _); vm_compute; exact I.
  - vm_compute; reflexivity.
  - vm_compute; reflexivity.
  - exists w'. exact H.
Defined.
