(* ===== verification/FileSync.v ===== *)
(** * The file synchronisation service (adbd/src/file_sync_service.c)

    The service runs in a thread of its own on two descriptors: requests
    (STAT, LIST, SEND, RECV, QUIT) come from [rfd], answers go to [wfd].  Files
    are descriptors like any other: open, lstat, readdir, symlink and the like
    are answered by the script of the kernel, reads and writes by the scripts
    of the descriptors.

    A function that returns 0 or -1 in C returns true or false here. *)

From S2P Require Import Prelude Kernel Packet.

Definition MKID (a b c d : Z) : Z :=
  Z.lor (Z.lor (Z.lor a (Z.shiftl b 8)) (Z.shiftl c 16)) (Z.shiftl d 24).
Definition ID_STAT : Z := MKID 83 84 65 84.
Definition ID_LIST : Z := MKID 76 73 83 84.
Definition ID_SEND : Z := MKID 83 69 78 68.
Definition ID_RECV : Z := MKID 82 69 67 86.
Definition ID_DENT : Z := MKID 68 69 78 84.
Definition ID_DONE : Z := MKID 68 79 78 69.
Definition ID_DATA : Z := MKID 68 65 84 65.
Definition ID_OKAY : Z := MKID 79 75 65 89.
Definition ID_FAIL : Z := MKID 70 65 73 76.
Definition ID_QUIT : Z := MKID 81 85 73 84.
Definition SYNC_DATA_MAX : Z := 65536.

(** the members of syncmsg of two words: req, data, status *)
Definition syncmsg2 (id n : Z) : list Z := le32 id ++ le32 n.
Definition syncmsg_stat (id mode size time : Z) : list Z :=
  le32 id ++ le32 mode ++ le32 size ++ le32 time.
Definition syncmsg_dent (id mode size time namelen : Z) : list Z :=
  syncmsg_stat id mode size time ++ le32 namelen.

Definition adb_mkdir (name : list Z) (mode : Z) : M kern Z := sys_ "mkdir" [AS name; AZ mode].
Definition adb_unlink (path : list Z) : M kern unit := do _ <- sys_ "unlink" [AS path]; ret tt.
Definition adb_open_mode (path : list Z) (flags : string) (mode : Z) : M kern Z :=
  sys_ "open" [AS path; AS (str flags); AZ mode].

(** ** Directories and attributes *)

(** every slash of [rest] ends the name of a directory; [pre] is before it *)
Fixpoint mkdirs_from (pre rest : list Z) : M kern Z :=
  match rest with
  | [] => ret 0
  | c :: rest' =>
      if c =? 47 then
        do r <- adb_mkdir pre 0x1fd;
        do e <- gets k_errno;
        if (r <? 0) && negb (e =? EEXIST) then ret r else mkdirs_from (pre ++ [c]) rest'
      else mkdirs_from (pre ++ [c]) rest'
  end.
Definition mkdirs (name : list Z) : M kern Z :=
  match name with
  | 47 :: rest => mkdirs_from [47] rest
  | _ => ret (-1)
  end.

(** lstat: None when it fails; the low words of mode, size and time *)
Definition lstat (path : list Z) : M kern (option (Z * Z * Z)) :=
  do '(r, st) <- sys "lstat" [AS path];
  ret (if r =? 0 then Some (default 0 (st !! 0%nat), default 0 (st !! 1%nat), default 0 (st !! 2%nat))
       else None).

Definition do_stat (s : Z) (path : list Z) : M kern bool :=
  do st <- lstat path;
  let '(mode, size, time) := default (0, 0, 0) st in
  writex s (syncmsg_stat ID_STAT mode size time).

(** readdir: None at the end *)
Definition readdir (d : Z) : M kern (option (list Z)) :=
  do '(r, name) <- sys "readdir" [AZ d];
  ret (if 0 <? r then Some name else None).

(** false when a write failed; each entry takes an answer from the script *)
Fixpoint list_entries (fuel : nat) (s d : Z) (path : list Z) : M kern bool :=
  match fuel with
  | O => fail OutOfFuel
  | S fuel' =>
      do de <- readdir d;
      match de with
      | None => ret true
      | Some name =>
          let len := Z.of_nat (length name) in
          if 256 <=? len then list_entries fuel' s d path
          else
            do st <- lstat (path ++ [47] ++ name);
            match st with
            | None => list_entries fuel' s d path
            | Some (mode, size, time) =>
                do ok <- writex s (syncmsg_dent ID_DENT mode size time len);
                do ok <- (if ok then writex s name else ret false);
                if ok then list_entries fuel' s d path else ret false
            end
      end
  end.

Definition do_list (s : Z) (path : list Z) : M kern bool :=
  do ok <- malloc_ok;
  if negb ok then ret false
  else
    do d <- sys_ "opendir" [AS path];
    do ok <- (if 0 <? d then
                do n <- gets (λ k, length (k_sys k));
                do ok <- list_entries (S n) s d path;
                note "closedir" [AZ d];;;
                ret ok
              else ret true);
    if negb ok then ret false
    else writex s (syncmsg_dent ID_DONE 0 0 0 0).

(** ** Failures *)

Definition fail_message (s : Z) (reason : list Z) : M kern bool :=
  do ok <- writex s (syncmsg2 ID_FAIL (Z.of_nat (length reason)));
  if ok then writex s reason else ret false.

Section messages.
(** the C library's messages *)
Variable strerror : Z → list Z.

Definition fail_errno (s : Z) : M kern bool :=
  do e <- gets k_errno; fail_message s (strerror e).

(** ** SEND *)

(** readx(rfd, buffer, n): the bytes and the buffer afterwards; the buffer is
    the part of the array that has been written so far *)
Definition read_buffer (rfd : Z) (n : nat) (buffer : list Z) : M kern (option (list Z * list Z)) :=
  do r <- readx rfd n;
  ret (match r with None => None | Some bs => Some (bs, bs ++ drop n buffer) end).

(** how the loop of handle_send_file ends *)
Inductive send_end := GotoFail | ReturnError | Finished (timestamp : Z).

Fixpoint send_loop (fuel : nat) (rfd wfd : Z) (path : list Z) (fd : Z) (buffer : list Z)
  : M kern (send_end * Z * list Z) :=
  match fuel with
  | O => fail OutOfFuel
  | S fuel' =>
      do r <- readx rfd 8;
      match r with
      | None => ret (GotoFail, fd, buffer)
      | Some h =>
          let id := get32 h in
          let size := get32 (drop 4 h) in
          if negb (id =? ID_DATA) then
            if id =? ID_DONE then ret (Finished size, fd, buffer)
            else
              do _ <- fail_message wfd (str "invalid data message");
              ret (GotoFail, fd, buffer)
          else if SYNC_DATA_MAX <? size then
            do _ <- fail_message wfd (str "oversize data message");
            ret (GotoFail, fd, buffer)
          else
            do d <- read_buffer rfd (Z.to_nat size) buffer;
            match d with
            | None => ret (GotoFail, fd, buffer)
            | Some (bs, buffer) =>
                if fd <? 0 then send_loop fuel' rfd wfd path fd buffer
                else
                  do ok <- writex fd bs;
                  if ok then send_loop fuel' rfd wfd path fd buffer
                  else
                    do saved_errno <- gets k_errno;
                    adb_close fd;;;
                    adb_unlink path;;;
                    modify (set_errno saved_errno);;;
                    do ok <- fail_errno wfd;
                    if ok then send_loop fuel' rfd wfd path (-1) buffer
                    else ret (ReturnError, -1, buffer)
            end
      end
  end.

(** every iteration takes something from the script of the descriptor *)
Definition read_fuel (rfd : Z) (k : kern) : nat := S (script_size (rd_of rfd k)).

Definition open_send (path : list Z) (mode : Z) : M kern Z :=
  do fd <- adb_open_mode path "O_WRONLY|O_CREAT|O_EXCL" mode;
  do e <- gets k_errno;
  do fd <- (if (fd <? 0) && (e =? ENOENT) then
              do _ <- mkdirs path; adb_open_mode path "O_WRONLY|O_CREAT|O_EXCL" mode
            else ret fd);
  do e <- gets k_errno;
  if (fd <? 0) && (e =? EEXIST) then adb_open_mode path "O_WRONLY" mode else ret fd.

Definition handle_send_file (rfd wfd : Z) (path : list Z) (mode : Z) (buffer : list Z)
  : M kern (bool * list Z) :=
  do fd <- open_send path mode;
  do ok <- (if fd <? 0 then fail_errno wfd else ret true);
  if negb ok then ret (false, buffer)
  else
    do n <- gets (read_fuel rfd);
    do '(e, fd, buffer) <- send_loop n rfd wfd path (if fd <? 0 then -1 else fd) buffer;
    match e with
    | ReturnError => ret (false, buffer)
    | GotoFail =>
        when (0 <=? fd) (adb_close fd);;;
        adb_unlink path;;;
        ret (false, buffer)
    | Finished timestamp =>
        if fd <? 0 then ret (true, buffer)
        else
          adb_close fd;;;
          note "utime" [AS path; AZ timestamp; AZ timestamp];;;
          do ok <- writex wfd (syncmsg2 ID_OKAY 0);
          ret (ok, buffer)
    end.

Definition symlink (target path : list Z) : M kern Z := sys_ "symlink" [AS target; AS path].

Definition handle_send_link (rfd wfd : Z) (path buffer : list Z) : M kern (bool * list Z) :=
  do r <- readx rfd 8;
  match r with
  | None => ret (false, buffer)
  | Some h =>
      if negb (get32 h =? ID_DATA) then
        do _ <- fail_message wfd (str "invalid data message: expected ID_DATA");
        ret (false, buffer)
      else if SYNC_DATA_MAX <? get32 (drop 4 h) then
        do _ <- fail_message wfd (str "oversize data message");
        ret (false, buffer)
      else
        do d <- read_buffer rfd (Z.to_nat (get32 (drop 4 h))) buffer;
        match d with
        | None => ret (false, buffer)
        | Some (_, buffer) =>
            do target <- deref Uninitialised (λ _, cstring buffer);
            do r <- symlink target path;
            do e <- gets k_errno;
            do r <- (if negb (r =? 0) && (e =? ENOENT) then do _ <- mkdirs path; symlink target path
                     else ret r);
            if negb (r =? 0) then do _ <- fail_errno wfd; ret (false, buffer)
            else
              do m <- readx rfd 8;
              match m with
              | None => ret (false, buffer)
              | Some h =>
                  if get32 h =? ID_DONE then
                    do ok <- writex wfd (syncmsg2 ID_OKAY 0); ret (ok, buffer)
                  else
                    do _ <- fail_message wfd (str "invalid data message: expected ID_DONE");
                    ret (false, buffer)
              end
        end
  end.

(** the parts before and after the last [c] *)
Fixpoint strrchr (s : list Z) (c : Z) : option (list Z * list Z) :=
  match s with
  | [] => None
  | x :: s' =>
      match strrchr s' c with
      | Some (a, b) => Some (x :: a, b)
      | None => if x =? c then Some ([], s') else None
      end
  end.

(** strtoul(s, NULL, 0) with a 32-bit unsigned long: the value, and whether
    errno was set to ERANGE *)
Definition digit_val (c : Z) : option Z :=
  if (48 <=? c) && (c <=? 57) then Some (c - 48)
  else if (97 <=? c) && (c <=? 122) then Some (c - 87)
  else if (65 <=? c) && (c <=? 90) then Some (c - 55)
  else None.
Fixpoint strtoul_digits (base : Z) (s : list Z) (acc : Z) : Z :=
  match s with
  | [] => acc
  | c :: s' =>
      match digit_val c with
      | Some d => if d <? base then strtoul_digits base s' (acc * base + d) else acc
      | None => acc
      end
  end.
Definition is_hex (c : Z) : bool :=
  match digit_val c with Some d => d <? 16 | None => false end.
Definition strtoul_abs (s : list Z) : Z :=
  match s with
  | 48 :: x :: c :: s' =>
      if ((x =? 120) || (x =? 88)) && is_hex c then strtoul_digits 16 (c :: s') 0
      else strtoul_digits 8 (x :: c :: s') 0
  | 48 :: s' => strtoul_digits 8 s' 0
  | _ => strtoul_digits 10 s 0
  end.
Definition strtoul (s : list Z) : Z * bool :=
  let '(neg, s) := match skip_spaces s with
                   | 45 :: s' => (true, s')
                   | 43 :: s' => (false, s')
                   | s' => (false, s')
                   end in
  let v := strtoul_abs s in
  if 2 ^ 32 <=? v then (2 ^ 32 - 1, true) else (u32 (if (neg : bool) then - v else v), false).

Definition S_ISLNK (mode : Z) : bool := Z.land mode 0xf000 =? 0xa000.

(** the path, the permissions and whether a symbolic link is sent *)
Definition send_spec (arg : list Z) : list Z * Z * bool :=
  match strrchr arg 44 with
  | None => (arg, 0x1a4, false)
  | Some (path, tmp) =>
      let '(mode, range) := strtoul tmp in
      if (range : bool) then (path, 0x1a4, false)
      else (path, Z.land mode 0x1ff, S_ISLNK mode)
  end.

Definition spread_mode (mode : Z) : Z :=
  let mode := Z.lor mode (Z.land (Z.shiftr mode 3) 0x38) in
  Z.lor mode (Z.land (Z.shiftr mode 3) 0x7).

Definition do_send (rfd wfd : Z) (arg buffer : list Z) : M kern (bool * list Z) :=
  let '(path, mode, is_link) := send_spec arg in
  adb_unlink path;;;
  if (is_link : bool) then handle_send_link rfd wfd path buffer
  else handle_send_file rfd wfd path (spread_mode mode) buffer.

(** ** RECV *)

Inductive recv_end := RecvEof | RecvReadError | RecvWriteError.

Fixpoint recv_loop (fuel : nat) (s fd : Z) (buffer : list Z) : M kern (recv_end * list Z) :=
  match fuel with
  | O => fail OutOfFuel
  | S fuel' =>
      do r <- adb_read fd (Z.to_nat SYNC_DATA_MAX);
      match r with
      | inl [] => ret (RecvEof, buffer)
      | inr e => if e =? EINTR then recv_loop fuel' s fd buffer else ret (RecvReadError, buffer)
      | inl bs =>
          let buffer := bs ++ drop (length bs) buffer in
          do ok <- writex s (syncmsg2 ID_DATA (Z.of_nat (length bs)));
          do ok <- (if ok then writex s bs else ret false);
          if ok then recv_loop fuel' s fd buffer else ret (RecvWriteError, buffer)
      end
  end.

Definition do_recv (s : Z) (path buffer : list Z) : M kern (bool * list Z) :=
  do fd <- adb_open path;
  if fd <? 0 then do ok <- fail_errno s; ret (ok, buffer)
  else
    do n <- gets (read_fuel fd);
    do '(e, buffer) <- recv_loop n s fd buffer;
    match e with
    | RecvReadError => do ok <- fail_errno s; adb_close fd;;; ret (ok, buffer)
    | RecvWriteError => adb_close fd;;; ret (false, buffer)
    | RecvEof =>
        adb_close fd;;;
        do ok <- writex s (syncmsg2 ID_DONE 0); ret (ok, buffer)
    end.

(** ** The service *)

(** one request with the header [h]; the buffer when the service goes on *)
Definition sync_command (rfd wfd : Z) (h buffer : list Z) : M kern (option (list Z)) :=
  let id := get32 h in
  let namelen := get32 (drop 4 h) in
  if 1024 <? namelen then do _ <- fail_message wfd (str "invalid namelen"); ret None
  else
    do r <- readx rfd (Z.to_nat namelen);
    match r with
    | None => do _ <- fail_message wfd (str "filename read failure"); ret None
    | Some bs =>
        do name <- deref OutOfBounds (λ _, cstring (bs ++ [0]));
        if id =? ID_STAT then do ok <- do_stat wfd name; ret (if ok then Some buffer else None)
        else if id =? ID_LIST then do ok <- do_list wfd name; ret (if ok then Some buffer else None)
        else if id =? ID_SEND then
          do '(ok, buffer) <- do_send rfd wfd name buffer; ret (if (ok : bool) then Some buffer else None)
        else if id =? ID_RECV then
          do '(ok, buffer) <- do_recv wfd name buffer; ret (if (ok : bool) then Some buffer else None)
        else if id =? ID_QUIT then ret None
        else do _ <- fail_message wfd (str "unknown command"); ret None
    end.
Definition sync_request (rfd wfd : Z) (buffer : list Z) : M kern (option (list Z)) :=
  do r <- readx rfd 8;
  match r with
  | None => do _ <- fail_message wfd (str "command read failure"); ret None
  | Some h => sync_command rfd wfd h buffer
  end.

Fixpoint sync_loop (fuel : nat) (rfd wfd : Z) (buffer : list Z) : M kern unit :=
  match fuel with
  | O => fail OutOfFuel
  | S fuel' =>
      do r <- sync_request rfd wfd buffer;
      match r with None => ret tt | Some buffer => sync_loop fuel' rfd wfd buffer end
  end.

Definition file_sync_service (rfd wfd : Z) : M kern unit :=
  do ok <- malloc_ok;
  do ok <- (if ok then malloc_ok else ret false);
  (if ok then do n <- gets (read_fuel rfd); sync_loop n rfd wfd [] else ret tt);;;
  adb_close rfd;;;
  adb_close wfd.
End messages.
