(* ===== verification/FileSyncProps.v ===== *)
(** * Theorems on the file synchronisation service

    Every request is answered and the service ends; what a push writes and
    what a pull sends; a pulled file can be pushed back. *)

From S2P Require Import Prelude Kernel Packet FileSync.

(** ** The service ends

    [ends m]: [m] returns, and adds nothing to the scripts; the only fault
    it can commit is to use bytes of the buffer that were never written. *)

Record shrinks (k k' : kern) : Prop := {
  sh_rd d : (script_size (rd_of d k') ≤ script_size (rd_of d k))%nat;
  sh_sys : (length (k_sys k') ≤ length (k_sys k))%nat;
}.
#[export] Instance shrinks_preorder : PreOrder shrinks.
Proof.
  split; [by split|]. intros k1 k2 k3 [H1 G1] [H2 G2].
  split; [intros d; specialize (H1 d); specialize (H2 d)|]; lia.
Qed.

Definition ends_at {A} (m : M kern A) (k : kern) : Prop :=
  match m k with
  | Ok _ k' => shrinks k k'
  | Exit _ _ => False
  | Fault f k' => f = Uninitialised ∧ shrinks k k'
  end.
Definition ends {A} (m : M kern A) : Prop := ∀ k, ends_at m k.

Create HintDb ends.

Lemma ends_at_bind {A B} (m : M kern A) (f : A → M kern B) k :
  ends_at m k → (∀ a k', m k = Ok a k' → shrinks k k' → ends_at (f a) k') → ends_at (bind m f) k.
Proof.
  unfold ends_at, bind. intros Hm Hf. destruct (m k) as [a k'|c k'|e k'] eqn:E; [|done..].
  specialize (Hf a k' eq_refl Hm). destruct (f a k') as [b k2|c k2|e k2]; [by etrans|done|].
  destruct Hf. split; [done|by etrans].
Qed.
Lemma ends_here {A} (m : M kern A) k : ends m → ends_at m k.
Proof. intros H. apply H. Qed.
Lemma ends_bind {A B} (m : M kern A) (f : A → M kern B) :
  ends m → (∀ a, ends (f a)) → ends (bind m f).
Proof. intros Hm Hf k. apply ends_at_bind; [apply Hm|]. intros; apply Hf. Qed.
Lemma ends_ret {A} (a : A) : ends (ret a).
Proof. intros k. unfold ends_at, ret. reflexivity. Qed.
Lemma ends_gets {A} (f : kern → A) : ends (gets f).
Proof. intros k. unfold ends_at, gets. reflexivity. Qed.
Lemma ends_errno e : ends (modify (set_errno e)).
Proof. intros k. by split. Qed.
Lemma ends_note n a : ends (note n a).
Proof. intros k. by split. Qed.
Lemma ends_close d : ends (adb_close d).
Proof. apply ends_note. Qed.
Lemma ends_malloc : ends malloc_ok.
Proof. intros k. unfold ends_at, malloc_ok. destruct (k_oom k); by split. Qed.
Lemma ends_sys n a : ends (sys n a).
Proof.
  intros k. unfold ends_at, sys. destruct (k_sys k) as [|r l] eqn:E; [by split|].
  destruct (sr_ret r <? 0); (split; [done|]); rewrite E; cbn; lia.
Qed.
Lemma ends_buffer {A} (o : option A) : ends (deref Uninitialised (λ _, o)).
Proof. intros k. unfold ends_at, deref. destruct o; [reflexivity|split; [done|reflexivity]]. Qed.
#[export] Hint Resolve ends_ret ends_gets ends_errno ends_note ends_close ends_malloc ends_sys
  ends_buffer : ends.

(** one step of a structural proof *)
Ltac ends_step :=
  match goal with
  | |- ends (bind _ _) => apply ends_bind; [|intros ?]
  | |- ends (match ?x with _ => _ end) => destruct x
  | |- ends (let _ := _ in _) => cbv zeta
  | |- ends (when ?b _) => destruct b; cbn [when]
  end.
Ltac ends_tac := repeat first [solve [eauto with ends] | progress cbn beta iota | ends_step].

Lemma ends_sys_ n a : ends (sys_ n a).
Proof. unfold sys_. ends_tac. Qed.
Lemma ends_writex d bs : ends (writex d bs).
Proof.
  intros k. unfold ends_at. destruct (writex_spec d bs k) as (k' & Hs & -> & _).
  split; [intros d'; unfold rd_of; by rewrite (sbw_rd _ _ _ Hs)|by rewrite (sbw_sys _ _ _ Hs)].
Qed.
#[export] Hint Resolve ends_sys_ ends_writex : ends.

Lemma adb_read_size d n k :
  match adb_read d n k with
  | Ok (inl bs) k' => script_size (rd_of d k') + length bs ≤ script_size (rd_of d k)
  | Ok (inr _) k' => script_size (rd_of d k') ≤ script_size (rd_of d k)
  | _ => False
  end%nat.
Proof.
  unfold adb_read. pose proof (read_script_size (rd_of d k) n) as H.
  destruct (read_script (rd_of d k) n) as [[bs|e] s']; rewrite ?rd_of_set_rd; [done|].
  change (rd_of d (set_errno e (set_rd d s' k))) with (rd_of d (set_rd d s' k)).
  by rewrite rd_of_set_rd.
Qed.
Lemma adb_read_no_eintr d n k k' : (0 < n)%nat → adb_read d n k ≠ Ok (inr EINTR) k'.
Proof.
  intros Hn. unfold adb_read. pose proof (read_script_spec (rd_of d k) n Hn) as Hv.
  destruct (read_script (rd_of d k) n) as [r s']. inversion Hv; subst; try done. congruence.
Qed.
Lemma shrinks_set_rd d s' k : (script_size s' ≤ script_size (rd_of d k))%nat → shrinks k (set_rd d s' k).
Proof.
  intros H. split; [|done]. intros d'. destruct (decide (d' = d)) as [->|Hne]; [by rewrite rd_of_set_rd|].
  by rewrite (sbr_rd _ _ _ (same_but_rd_set_rd d s' k)).
Qed.
Lemma ends_adb_read d n : ends (adb_read d n).
Proof.
  intros k. unfold ends_at, adb_read. pose proof (read_script_size (rd_of d k) n) as H.
  destruct (read_script (rd_of d k) n) as [[bs|e] s'].
  - apply shrinks_set_rd. lia.
  - destruct (shrinks_set_rd d s' k H) as [H1 H2]. by split.
Qed.
#[export] Hint Resolve ends_adb_read : ends.

Lemma readx_size d n k : match readx d n k with
  | Ok (Some _) k' => (script_size (rd_of d k') + n ≤ script_size (rd_of d k))%nat
  | _ => True
  end.
Proof.
  unfold readx. generalize (2 + length (rd_of d k))%nat (@nil Z). intros fuel acc.
  revert n k acc. induction fuel as [|fuel IH]; intros n k acc; [done|]. cbn [readx_loop].
  case_decide as Hn; [subst; cbn; lia|]. unfold bind. pose proof (adb_read_size d n k) as H.
  destruct (adb_read d n k) as [[[|b bs]|e] k'| |] eqn:E; [done| |cbn in H|done..].
  - assert (Hle : (length (b :: bs) ≤ n)%nat).
    { unfold adb_read in E. pose proof (read_script_spec (rd_of d k) n ltac:(lia)) as Hv.
      destruct (read_script (rd_of d k) n) as [r s']. inversion Hv; subst; simplify_eq; done. }
    specialize (IH (n - length (b :: bs))%nat k' (acc ++ b :: bs)).
    destruct (readx_loop fuel d _ _ k') as [[?|]| |]; [|done..]. lia.
  - destruct (e =? EINTR); [|done]. specialize (IH n k' acc).
    destruct (readx_loop fuel d n acc k') as [[?|]| |]; [|done..]. lia.
Qed.
Lemma ends_readx d n : ends (readx d n).
Proof.
  unfold readx. intros k. change (ends_at (readx_loop (2 + length (rd_of d k)) d n []) k).
  destruct (readx_spec d n k) as (k0 & _ & Hr). cbv zeta in Hr.
  assert (Hok : ∃ r, readx d n k = Ok r k0) by (case_decide; [destruct Hr|]; eauto).
  destruct Hok as [r Hok]. unfold readx in Hok.
  assert (Hk : keeps shrinks (readx_loop (2 + length (rd_of d k)) d n [])).
  { generalize (2 + length (rd_of d k))%nat (@nil Z). intros fuel. clear. revert n.
    induction fuel as [|fuel IH]; intros n acc; cbn [readx_loop]; [apply keeps_fail, _|].
    case_decide; [apply keeps_ret, _|]. apply keeps_bind; [apply _| |].
    - intros k. pose proof (ends_adb_read d n k) as Hrd. unfold ends_at in Hrd.
      destruct (adb_read d n k); [done|done|by destruct Hrd].
    - intros [[|b bs]|e]; [apply keeps_ret, _|apply IH|]. case_match; [apply IH|apply keeps_ret, _]. }
  specialize (Hk k). unfold ends_at. rewrite Hok in *. exact Hk.
Qed.
#[export] Hint Resolve ends_readx : ends.

(** the operations *)
Lemma ends_unlink p : ends (adb_unlink p).
Proof. unfold adb_unlink. ends_tac. Qed.
Lemma ends_fail_message s r : ends (fail_message s r).
Proof. unfold fail_message. ends_tac. Qed.
Lemma ends_open p : ends (adb_open p).
Proof. unfold adb_open, close_on_exec. ends_tac. Qed.
Lemma ends_mkdirs name : ends (mkdirs name).
Proof.
  assert (Hf : ∀ rest pre, ends (mkdirs_from pre rest)).
  { induction rest as [|c rest IH]; intros pre; cbn [mkdirs_from]; unfold adb_mkdir; ends_tac. }
  unfold mkdirs. ends_tac.
Qed.
Lemma ends_lstat p : ends (lstat p).
Proof. unfold lstat. ends_tac. Qed.
#[export] Hint Resolve ends_unlink ends_fail_message ends_open ends_mkdirs ends_lstat : ends.

Section service.
Variable strerror : Z → list Z.

Lemma ends_fail_errno s : ends (fail_errno strerror s).
Proof. unfold fail_errno. ends_tac. Qed.
Hint Resolve ends_fail_errno : ends.
Lemma ends_open_send p m : ends (open_send p m).
Proof. unfold open_send, adb_open_mode. ends_tac. Qed.
Lemma ends_send_link rfd wfd p b : ends (handle_send_link strerror rfd wfd p b).
Proof. unfold handle_send_link, read_buffer, symlink. ends_tac. Qed.
Lemma ends_do_stat s p : ends (do_stat s p).
Proof. unfold do_stat. ends_tac. Qed.
Hint Resolve ends_open_send ends_send_link ends_do_stat : ends.

(** the loop over a directory: each round uses up an answer *)
Lemma sys_answers n a k r k' : sys n a k = Ok r k' → (length (k_sys k') = length (k_sys k) - 1)%nat.
Proof.
  unfold sys. destruct (k_sys k) as [|x l] eqn:E; intros [= _ <-]; cbn; [by rewrite E|].
  destruct (sr_ret x <? 0); cbn; lia.
Qed.
Lemma readdir_answers d k r k' : readdir d k = Ok r k' →
  (length (k_sys k') = length (k_sys k) - 1)%nat ∧ (k_sys k = [] → r = None).
Proof.
  unfold readdir, bind. destruct (sys "readdir" [AZ d] k) as [[v o] k1| |] eqn:E; [|done..].
  intros [= <- <-]. split; [by eapply sys_answers|]. intros Hn. unfold sys in E. rewrite Hn in E.
  by injection E as <- <- _.
Qed.
Lemma list_entries_ends fuel s d path k : (length (k_sys k) < fuel)%nat →
  ends_at (list_entries fuel s d path) k.
Proof.
  revert k. induction fuel as [|fuel IH]; intros k Hf; [lia|]. cbn [list_entries].
  apply ends_at_bind; [apply ends_here; unfold readdir; ends_tac|].
  intros [name|] k1 Hr Hs; [|apply ends_ret]. apply readdir_answers in Hr as [Hlen Hnil].
  assert (Hpos : k_sys k ≠ []) by (intros E; by apply Hnil in E).
  assert (Hf1 : ∀ k2, shrinks k1 k2 → (length (k_sys k2) < fuel)%nat).
  { intros k2 [_ H2]. destruct (k_sys k); [done|]. cbn in *. lia. }
  case_match; [apply IH, Hf1; reflexivity|].
  apply ends_at_bind; [apply ends_lstat|]. intros [[[mode size] time]|] k2 _ Hs2; [|by apply IH, Hf1].
  apply ends_at_bind; [apply ends_writex|]. intros ok k3 _ Hs3.
  apply ends_at_bind; [destruct ok; [apply ends_writex|apply ends_ret]|]. intros ok' k4 _ Hs4.
  destruct ok'; [|apply ends_ret]. apply IH, Hf1. by do 2 (etrans; [done|]).
Qed.
Lemma ends_do_list s p : ends (do_list s p).
Proof.
  unfold do_list. ends_step; [ends_tac|]. ends_step; [ends_tac|]. ends_step; [ends_tac|].
  ends_step; [|ends_tac]. ends_step; [|ends_tac].
  intros k. apply ends_at_bind; [apply ends_gets|]. intros n k1 [= <- <-] _.
  apply ends_at_bind; [apply list_entries_ends; lia|]. intros ok k2 _ _.
  apply ends_here. ends_tac.
Qed.

(** the loops over a descriptor *)
Lemma send_loop_ends fuel rfd wfd path fd b k : (script_size (rd_of rfd k) < fuel)%nat →
  ends_at (send_loop strerror fuel rfd wfd path fd b) k.
Proof.
  revert fd b k. induction fuel as [|fuel IH]; intros fd b k Hf; [lia|]. cbn [send_loop].
  apply ends_at_bind; [apply ends_readx|]. intros [h|] k1 Hr Hs; [|apply ends_ret].
  pose proof (readx_size rfd 8 k) as Hsz. rewrite Hr in Hsz.
  assert (Hf1 : ∀ k2, shrinks k1 k2 → (script_size (rd_of rfd k2) < fuel)%nat).
  { intros k2 [H2 _]. specialize (H2 rfd). lia. }
  case_match; [apply ends_here; ends_tac|]. case_match; [apply ends_here; ends_tac|].
  unfold read_buffer. apply ends_at_bind; [apply ends_here; ends_tac|].
  intros [[bs b']|] k2 _ Hs2; [|apply ends_ret]. case_match; [by apply IH, Hf1|].
  apply ends_at_bind; [apply ends_writex|]. intros ok k3 _ Hs3.
  destruct ok; [apply IH, Hf1; by etrans|].
  apply ends_at_bind; [apply ends_gets|]. intros e k4 _ Hs4.
  apply ends_at_bind; [apply ends_close|]. intros _ k5 _ Hs5.
  apply ends_at_bind; [apply ends_unlink|]. intros _ k6 _ Hs6.
  apply ends_at_bind; [apply ends_errno|]. intros _ k7 _ Hs7.
  apply ends_at_bind; [apply ends_fail_errno|]. intros ok k8 _ Hs8.
  destruct ok; [|apply ends_ret]. apply IH, Hf1. by repeat (etrans; [eassumption|]).
Qed.
Lemma ends_send_file rfd wfd p m b : ends (handle_send_file strerror rfd wfd p m b).
Proof.
  unfold handle_send_file. ends_step; [ends_tac|]. ends_step; [ends_tac|]. ends_step; [ends_tac|].
  intros k. apply ends_at_bind; [apply ends_gets|]. intros n k1 [= <- <-] _.
  apply ends_at_bind; [apply send_loop_ends; unfold read_fuel; lia|].
  intros [[e fd] b'] k2 _ _. apply ends_here. ends_tac.
Qed.
Hint Resolve ends_do_list ends_send_file : ends.
Lemma ends_do_send rfd wfd a b : ends (do_send strerror rfd wfd a b).
Proof. unfold do_send. ends_tac. Qed.

Lemma recv_loop_ends fuel s fd b k : (script_size (rd_of fd k) < fuel)%nat →
  ends_at (recv_loop fuel s fd b) k.
Proof.
  revert b k. induction fuel as [|fuel IH]; intros b k Hf; [lia|]. cbn [recv_loop].
  apply ends_at_bind; [apply ends_adb_read|]. intros r k1 Hr Hs.
  pose proof (adb_read_size fd (Z.to_nat SYNC_DATA_MAX) k) as Hsz. rewrite Hr in Hsz.
  destruct r as [[|c bs]|e]; [apply ends_ret| |].
  - assert (Hf1 : ∀ k2, shrinks k1 k2 → (script_size (rd_of fd k2) < fuel)%nat).
    { intros k2 [H2 _]. specialize (H2 fd). cbn in Hsz. lia. }
    apply ends_at_bind; [apply ends_writex|]. intros ok k2 _ Hs2.
    apply ends_at_bind; [destruct ok; [apply ends_writex|apply ends_ret]|]. intros ok' k3 _ Hs3.
    destruct ok'; [|apply ends_ret]. apply IH, Hf1. by etrans.
  - destruct (Z.eqb_spec e EINTR) as [->|]; [|apply ends_ret]. exfalso.
    apply adb_read_no_eintr in Hr; [done|]. unfold SYNC_DATA_MAX. lia.
Qed.
Lemma ends_do_recv s p b : ends (do_recv strerror s p b).
Proof.
  unfold do_recv. ends_step; [ends_tac|]. ends_step; [ends_tac|].
  intros k. apply ends_at_bind; [apply ends_gets|]. intros n k1 [= <- <-] _.
  apply ends_at_bind; [apply recv_loop_ends; unfold read_fuel; lia|].
  intros [e b'] k2 _ _. apply ends_here. ends_tac.
Qed.
Hint Resolve ends_do_send ends_do_recv : ends.

Lemma sync_name_ends bs : ends (deref OutOfBounds (λ _ : kern, cstring (bs ++ [0]))).
Proof.
  intros k. unfold ends_at, deref. destruct (cstring (bs ++ [0])) as [n|] eqn:E; [reflexivity|].
  exfalso. revert E. induction bs as [|c bs IH]; cbn; [done|]. case_match; [done|].
  destruct (cstring (bs ++ [0])); [done|auto].
Qed.
Hint Resolve sync_name_ends : ends.
Lemma ends_sync_command rfd wfd h b : ends (sync_command strerror rfd wfd h b).
Proof. unfold sync_command. ends_tac. Qed.
Hint Resolve ends_sync_command : ends.
Lemma ends_sync_request rfd wfd b : ends (sync_request strerror rfd wfd b).
Proof. unfold sync_request. ends_tac. Qed.

(** a request takes eight bytes *)
Lemma sync_request_size rfd wfd b k b' k' : sync_request strerror rfd wfd b k = Ok (Some b') k' →
  (script_size (rd_of rfd k') < script_size (rd_of rfd k))%nat.
Proof.
  unfold sync_request. intros Hr.
  pose proof (readx_size rfd 8 k) as Hsz. pose proof (ends_readx rfd 8 k) as He.
  unfold ends_at in He. revert Hr. unfold bind at 1.
  destruct (readx rfd 8 k) as [[h|] k1| |] eqn:E; [|intros Hr|done..]; cycle 1.
  { unfold bind, ret in Hr. by destruct (fail_message wfd _ k1). }
  intros Hr. pose proof (ends_sync_command rfd wfd h b k1) as Hm. unfold ends_at in Hm.
  rewrite Hr in Hm. destruct Hm as [Hm _]. specialize (Hm rfd). lia.
Qed.

Lemma sync_loop_ends fuel rfd wfd b k : (script_size (rd_of rfd k) < fuel)%nat →
  ends_at (sync_loop strerror fuel rfd wfd b) k.
Proof.
  revert b k. induction fuel as [|fuel IH]; intros b k Hf; [lia|]. cbn [sync_loop].
  apply ends_at_bind; [apply ends_sync_request|]. intros [b'|] k1 Hr Hs; [|apply ends_ret].
  apply IH. apply sync_request_size in Hr. lia.
Qed.

Lemma sync_fuel_ends rfd wfd : ends (do n <- gets (read_fuel rfd); sync_loop strerror n rfd wfd []).
Proof.
  intros k. apply ends_at_bind; [apply ends_gets|]. intros n k1 [= <- <-] _.
  apply sync_loop_ends. unfold read_fuel. lia.
Qed.

(** C28 The sync service ends for every sequence of bytes a host may send, every
    content and size of files and directories and every failure of the
    kernel or of malloc, and it then closes both of its descriptors; the only
    undefined behaviour it can run into is a symbolic link whose target is
    sent without a NUL (the buffer is read beyond what was written). *)
Theorem file_sync_service_ends rfd wfd k :
  match file_sync_service strerror rfd wfd k with
  | Ok _ k' => ∃ tr, k_trace k' = tr ++ [Sys "close" [AZ rfd]; Sys "close" [AZ wfd]]
  | Exit _ _ => False
  | Fault f _ => f = Uninitialised
  end.
Proof.
  assert (He : ends (do ok <- malloc_ok; do ok <- (if ok then malloc_ok else ret false);
    if ok then do n <- gets (read_fuel rfd); sync_loop strerror n rfd wfd [] else ret tt)).
  { ends_step; [ends_tac|]. ends_step; [ends_tac|]. ends_step; [apply sync_fuel_ends|ends_tac]. }
  specialize (He k). unfold ends_at in He. unfold file_sync_service.
  assert (Hassoc : ∀ A B C D (m : M kern A) (f : A → M kern B) (g : B → M kern C) (h : C → M kern D),
    bind m (λ a, bind (f a) (λ b, bind (g b) h)) k = bind (bind m (λ a, bind (f a) g)) h k).
  { intros. unfold bind. destruct (m k) as [a k1| |]; [|done..]. destruct (f a k1); done. }
  rewrite Hassoc. unfold bind at 1.
  destruct (bind malloc_ok _ k) as [[] k1|c k1|f k1]; [|done|by destruct He].
  cbn. exists (k_trace k1). by rewrite <- app_assoc.
Qed.
End service.

(** ** Transfers

    The bytes of a file on the wire: DATA messages with at most 64 KiB each and
    a DONE message with the time stamp. *)

Definition data_frame (c : list Z) : list Z := syncmsg2 ID_DATA (Z.of_nat (length c)) ++ c.
Definition transfer (cs : list (list Z)) (ts : Z) : list Z :=
  concat (data_frame <$> cs) ++ syncmsg2 ID_DONE ts.
Definition chunk_ok (c : list Z) : Prop := Z.of_nat (length c) ≤ SYNC_DATA_MAX.

(** only reads from [rfd] and writes to [fd] *)
Record only_rw (rfd fd : Z) (k k' : kern) : Prop := {
  rw_rd d : d ≠ rfd → rd_of d k' = rd_of d k;
  rw_wr d : d ≠ fd → wr_of d k' = wr_of d k;
  rw_out d : d ≠ fd → out_of d k' = out_of d k;
  rw_sys : k_sys k' = k_sys k; rw_trace : k_trace k' = k_trace k; rw_oom : k_oom k' = k_oom k;
}.
#[export] Instance only_rw_preorder rfd fd : PreOrder (only_rw rfd fd).
Proof.
  split; [by split|]. intros k1 k2 k3 H1 H2.
  split; intros; (etrans; [by apply H2|by apply H1]).
Qed.
Lemma only_rw_rd rfd fd k k' : same_but_rd rfd k k' → only_rw rfd fd k k'.
Proof.
  intros [Hw Ho Hs Ht Hm Hr]. split; try done; intros d _; unfold wr_of, out_of; by rewrite ?Hw, ?Ho.
Qed.
Lemma only_rw_wr rfd fd k k' : same_but_wr fd k k' → only_rw rfd fd k k'.
Proof. intros [Hr Hs Ht Hm Hw Ho]. split; try done. intros d _. unfold rd_of. by rewrite Hr. Qed.


Lemma length_syncmsg2 a b : length (syncmsg2 a b) = 8%nat.
Proof. unfold syncmsg2. by rewrite length_app, !length_le32. Qed.
Lemma syncmsg2_words a b : get32 (syncmsg2 a b) = u32 a ∧ get32 (drop 4 (syncmsg2 a b)) = u32 b.
Proof.
  unfold syncmsg2. split; [apply get32_le32|].
  rewrite <- (length_le32 a) at 1. rewrite drop_app_exact, <- (app_nil_r (le32 b)). apply get32_le32.
Qed.

Section transfers.
Variable strerror : Z → list Z.

Lemma send_loop_push cs ts more fuel rfd wfd path fd b k :
  Forall chunk_ok cs → 0 ≤ ts < 2 ^ 32 → 0 ≤ fd →
  stream (rd_of rfd k) = transfer cs ts ++ more →
  (length (concat cs) ≤ wcap (wr_of fd k))%nat → (script_size (rd_of rfd k) < fuel)%nat →
  ∃ b' k', send_loop strerror fuel rfd wfd path fd b k = Ok (Finished ts, fd, b') k'
    ∧ stream (rd_of rfd k') = more ∧ out_of fd k' = out_of fd k ++ concat cs ∧ only_rw rfd fd k k'.
Proof.
  intros Hcs Hts Hfd. revert fuel b k.
  induction Hcs as [|c cs Hc _ IH]; intros fuel b k Hst Hcap Hfuel;
    (destruct fuel as [|fuel]; [lia|]); cbn [send_loop].
  - unfold transfer in Hst. cbn [fmap list_fmap concat app] in Hst.
    destruct (readx_exact rfd k _ _ Hst) as (k' & Hr & Hst' & Hk).
    rewrite length_syncmsg2 in Hr. rewrite (bind_ok _ _ _ _ _ Hr).
    destruct (syncmsg2_words ID_DONE ts) as [-> ->].
    change (negb (u32 ID_DONE =? ID_DATA)) with true. change (u32 ID_DONE =? ID_DONE) with true.
    cbv iota. rewrite (u32_id ts) by done.
    exists b, k'. cbn [concat]. rewrite app_nil_r. split_and!; [done|done| |by apply only_rw_rd].
    unfold out_of. by rewrite (sbr_out _ _ _ Hk).
  - unfold chunk_ok in Hc. unfold transfer in Hst. cbn [fmap list_fmap concat] in Hst.
    unfold data_frame at 1 in Hst. rewrite <- !app_assoc in Hst.
    destruct (readx_exact rfd k _ _ Hst) as (k1 & Hr1 & Hst1 & Hk1).
    pose proof (readx_size rfd 8 k) as Hsz1.
    rewrite length_syncmsg2 in Hr1. rewrite (bind_ok _ _ _ _ _ Hr1). rewrite Hr1 in Hsz1.
    destruct (syncmsg2_words ID_DATA (Z.of_nat (length c))) as [-> ->].
    change (negb (u32 ID_DATA =? ID_DATA)) with false. cbv iota.
    rewrite u32_id by (unfold SYNC_DATA_MAX in Hc; lia).
    rewrite (proj2 (Z.ltb_ge SYNC_DATA_MAX (Z.of_nat (length c)))) by done. rewrite Nat2Z.id.
    destruct (readx_exact rfd k1 _ _ Hst1) as (k2 & Hr2 & Hst2 & Hk2).
    pose proof (readx_size rfd (length c) k1) as Hsz2. rewrite Hr2 in Hsz2.
    unfold read_buffer. rewrite bind_assoc, (bind_ok _ _ _ _ _ Hr2).
    rewrite (bind_ok _ _ _ _ _ (eq_refl : ret _ k2 = Ok _ k2)).
    rewrite (proj2 (Z.ltb_ge fd 0)) by lia.
    assert (Hwr : wr_of fd k2 = wr_of fd k).
    { unfold wr_of. by rewrite (sbr_wr _ _ _ Hk2), (sbr_wr _ _ _ Hk1). }
    assert (Hou : out_of fd k2 = out_of fd k).
    { unfold out_of. by rewrite (sbr_out _ _ _ Hk2), (sbr_out _ _ _ Hk1). }
    cbn [concat] in Hcap. rewrite length_app in Hcap.
    destruct (writex_exact fd c k2) as (k3 & Hw & Ho & Hcap' & Hk3); [rewrite Hwr; lia|].
    rewrite (bind_ok _ _ _ _ _ Hw).
    assert (Hrd3 : rd_of rfd k3 = rd_of rfd k2) by (unfold rd_of; by rewrite (sbw_rd _ _ _ Hk3)).
    destruct (IH fuel (c ++ drop (length c) b) k3) as (b' & k' & -> & Hst' & Ho' & Hk').
    { rewrite Hrd3, Hst2. unfold transfer. by rewrite <- app_assoc. }
    { rewrite Hcap', Hwr. lia. } { rewrite Hrd3. lia. }
    exists b', k'. split_and!; [done..| |].
    + rewrite Ho', Ho, Hou. cbn [concat]. by rewrite app_assoc.
    + etrans; [by apply only_rw_rd|]. etrans; [by apply only_rw_rd|]. etrans; [by apply only_rw_wr|done].
Qed.

(** a complete push *)
Lemma push_run cs ts more rfd wfd path mode b k fd e o rest :
  Forall chunk_ok cs → 0 ≤ ts < 2 ^ 32 →
  stream (rd_of rfd k) = transfer cs ts ++ more →
  k_sys k = SysRes fd e o :: rest → 0 ≤ fd → fd ≠ wfd →
  (length (concat cs) ≤ wcap (wr_of fd k))%nat → (8 ≤ wcap (wr_of wfd k))%nat →
  ∃ b' k', handle_send_file strerror rfd wfd path mode b k = Ok (true, b') k'
    ∧ out_of fd k' = out_of fd k ++ concat cs
    ∧ out_of wfd k' = out_of wfd k ++ syncmsg2 ID_OKAY 0
    ∧ stream (rd_of rfd k') = more
    ∧ k_trace k' = k_trace k ++
        [Sys "open" [AS path; AS (str "O_WRONLY|O_CREAT|O_EXCL"); AZ mode];
         Sys "close" [AZ fd]; Sys "utime" [AS path; AZ ts; AZ ts]].
Proof.
  intros Hcs Hts Hst Hsys Hfd Hne Hcap Hcapw. unfold handle_send_file.
  set (k1 := set_sys rest (add_trace (Sys "open" [AS path; AS (str "O_WRONLY|O_CREAT|O_EXCL"); AZ mode]) k)).
  assert (Hopen : open_send path mode k = Ok fd k1).
  { assert (H1 : adb_open_mode path "O_WRONLY|O_CREAT|O_EXCL" mode k = Ok fd k1).
    { unfold adb_open_mode, sys_, bind, sys. rewrite Hsys. cbn [sr_ret].
      by rewrite (proj2 (Z.ltb_ge fd 0)) by lia. }
    unfold open_send. rewrite (bind_ok _ _ _ _ _ H1).
    assert (Hlt : (fd <? 0) = false) by (apply Z.ltb_ge; lia). rewrite Hlt.
    unfold bind, gets, ret. cbn [andb]. by rewrite Hlt. }
  rewrite (bind_ok _ _ _ _ _ Hopen), (proj2 (Z.ltb_ge fd 0)) by lia.
  rewrite (bind_ok _ _ _ _ _ (eq_refl : ret true k1 = Ok true k1)). cbn [negb].
  rewrite (bind_ok _ _ _ _ _ (eq_refl : gets (read_fuel rfd) k1 = Ok _ k1)).
  destruct (send_loop_push cs ts more (read_fuel rfd k1) rfd wfd path fd b k1)
    as (b' & k2 & Hloop & Hst2 & Ho2 & Hk2); try done.
  { unfold read_fuel. lia. }
  rewrite (bind_ok _ _ _ _ _ Hloop). cbn beta iota. rewrite (proj2 (Z.ltb_ge fd 0)) by lia.
  set (k3 := add_trace (Sys "utime" [AS path; AZ ts; AZ ts]) (add_trace (Sys "close" [AZ fd]) k2)).
  destruct (writex_exact wfd (syncmsg2 ID_OKAY 0) k3) as (k4 & Hw & Ho4 & _ & Hk4).
  { rewrite length_syncmsg2. change (wr_of wfd k3) with (wr_of wfd k2).
    rewrite (rw_wr _ _ _ _ Hk2) by done. done. }
  exists b', k4. split_and!.
  - unfold bind, adb_close, note, modify. fold k3. rewrite Hw. done.
  - rewrite (sbw_out _ _ _ Hk4) by done. exact Ho2.
  - rewrite Ho4. change (out_of wfd k3) with (out_of wfd k2).
    by rewrite (rw_out _ _ _ _ Hk2) by done.
  - unfold rd_of. rewrite (sbw_rd _ _ _ Hk4). exact Hst2.
  - rewrite (sbw_trace _ _ _ Hk4). cbn. rewrite (rw_trace _ _ _ _ Hk2). cbn. by rewrite <- !app_assoc.
Qed.

(** C26 A push: when the file can be created and takes the data, the sync service
    writes exactly the bytes of the DATA messages in order, however the host
    cut the file into messages and however the messages arrive, sets the
    time stamp of the DONE message, closes the file, answers OKAY and leaves
    the following request unread. *)
Theorem push_writes_file cs ts more rfd wfd path mode b k fd e o rest :
  Forall chunk_ok cs → 0 ≤ ts < 2 ^ 32 →
  stream (rd_of rfd k) = transfer cs ts ++ more →
  k_sys k = SysRes fd e o :: rest → 0 ≤ fd → fd ≠ wfd →
  (length (concat cs) ≤ wcap (wr_of fd k))%nat → (8 ≤ wcap (wr_of wfd k))%nat →
  ∃ b' k', handle_send_file strerror rfd wfd path mode b k = Ok (true, b') k'
    ∧ out_of fd k' = out_of fd k ++ concat cs
    ∧ out_of wfd k' = out_of wfd k ++ syncmsg2 ID_OKAY 0
    ∧ stream (rd_of rfd k') = more
    ∧ k_trace k' = k_trace k ++
        [Sys "open" [AS path; AS (str "O_WRONLY|O_CREAT|O_EXCL"); AZ mode];
         Sys "close" [AZ fd]; Sys "utime" [AS path; AZ ts; AZ ts]].
Proof. apply push_run. Qed.

(** *** Pulling *)

(** the file is read to its end without an error *)
Fixpoint clean (s : list rd_ev) : bool :=
  match s with
  | [] => true
  | RdErr e :: s' => (e =? EINTR) && clean s'
  | RdData [] :: _ => true
  | RdData _ :: s' => clean s'
  end.

Lemma read_clean s len : (0 < len)%nat → clean s = true →
  match read_script s len with
  | (inl [], _) => stream s = []
  | (inl bs, s') => stream s = bs ++ stream s' ∧ (length bs ≤ len)%nat ∧ clean s' = true
  | (inr _, _) => False
  end.
Proof.
  intros Hlen Hc. pose proof (read_script_spec s len Hlen) as Hv.
  assert (Hcl : match read_script s len with
                | (inl bs, s') => bs = [] ∨ clean s' = true | (inr _, _) => False end).
  { clear Hv. induction s as [|[bs|e] s IH]; cbn in *; [by left| |].
    - case_decide as Hd.
      + destruct bs; [by left|by right].
      + right. destruct (drop len bs) eqn:E; [done|]. destruct bs; [by rewrite drop_nil in E|done].
    - apply andb_prop in Hc as [He Hc]. rewrite He. by apply IH. }
  destruct (read_script s len) as [[[|x bs]|e] s']; [| |done].
  - by inversion Hv.
  - inversion Hv as [| |? ? Hne Hs Hle]; subst. by destruct Hcl.
Qed.

Lemma recv_loop_pull fuel s fd b k :
  clean (rd_of fd k) = true → (9 * length (stream (rd_of fd k)) ≤ wcap (wr_of s k))%nat →
  (script_size (rd_of fd k) < fuel)%nat →
  ∃ cs b' k', recv_loop fuel s fd b k = Ok (RecvEof, b') k' ∧ concat cs = stream (rd_of fd k)
    ∧ Forall chunk_ok cs ∧ out_of s k' = out_of s k ++ concat (data_frame <$> cs)
    ∧ only_rw fd s k k'
    ∧ (wcap (wr_of s k) ≤ wcap (wr_of s k') + 9 * length (stream (rd_of fd k)))%nat.
Proof.
  revert b k. induction fuel as [|fuel IH]; intros b k Hc Hcap Hf; [lia|]. cbn [recv_loop].
  set (n := Z.to_nat SYNC_DATA_MAX). assert (Hn : (0 < n)%nat) by (unfold n, SYNC_DATA_MAX; lia).
  pose proof (read_clean (rd_of fd k) n Hn Hc) as Hrd. pose proof (adb_read_size fd n k) as Hsz.
  pose proof (same_but_rd_set_rd fd) as Hsame.
  unfold adb_read in Hsz |- *. unfold bind at 1.
  destruct (read_script (rd_of fd k) n) as [[[|c cs]|e] s']; [| |done].
  - exists [], b, (set_rd fd s' k). cbn [concat fmap list_fmap]. rewrite app_nil_r, Hrd.
    split_and!; [done..|by apply only_rw_rd|]. change (wr_of s (set_rd fd s' k)) with (wr_of s k). lia.
  - destruct Hrd as (Hs & Hle & Hc'). set (bs := c :: cs) in *. set (k1 := set_rd fd s' k) in *.
    assert (Hpos : (1 ≤ length bs)%nat) by (cbn; lia).
    rewrite Hs, length_app in Hcap. rewrite Hs, length_app.
    change (wr_of s k) with (wr_of s k1) in *. change (out_of s k) with (out_of s k1).
    destruct (writex_exact s (syncmsg2 ID_DATA (Z.of_nat (length bs))) k1) as (k2 & Hw2 & Ho2 & Hcap2 & Hk2).
    { rewrite length_syncmsg2. lia. }
    rewrite length_syncmsg2 in Hcap2. rewrite (bind_ok _ _ _ _ _ Hw2).
    destruct (writex_exact s bs k2) as (k3 & Hw3 & Ho3 & Hcap3 & Hk3); [lia|].
    rewrite (bind_ok _ _ _ _ _ Hw3).
    assert (Hrd3 : rd_of fd k3 = s').
    { unfold rd_of. rewrite (sbw_rd _ _ _ Hk3), (sbw_rd _ _ _ Hk2). apply rd_of_set_rd. }
    assert (Hsz3 : (script_size s' < fuel)%nat).
    { unfold k1 in Hsz. rewrite rd_of_set_rd in Hsz. lia. }
    destruct (IH (bs ++ drop (length bs) b) k3) as (ds & b' & k' & -> & Hds & Hok & Ho & Hk & Hcap');
      rewrite ?Hrd3; [done|lia|done|].
    exists (bs :: ds), b', k'. rewrite Hrd3 in Hds, Hcap'. split_and!.
    + done.
    + cbn [concat]. by rewrite Hds.
    + apply Forall_cons_2; [|done]. unfold chunk_ok. unfold n in Hle. lia.
    + rewrite Ho, Ho3, Ho2. cbn [fmap list_fmap concat]. unfold data_frame at 2. by rewrite <- !app_assoc.
    + etrans; [apply only_rw_rd, Hsame|]. etrans; [by apply only_rw_wr|]. etrans; [by apply only_rw_wr|done].
    + lia.
Qed.

Lemma pull_run s path b k fd e o rest :
  k_sys k = SysRes fd e o :: rest → 0 ≤ fd → clean (rd_of fd k) = true →
  (9 * length (stream (rd_of fd k)) + 8 ≤ wcap (wr_of s k))%nat →
  ∃ cs b' k', do_recv strerror s path b k = Ok (true, b') k' ∧ concat cs = stream (rd_of fd k)
    ∧ Forall chunk_ok cs ∧ out_of s k' = out_of s k ++ transfer cs 0.
Proof.
  intros Hsys Hfd Hc Hcap. unfold do_recv.
  assert (Hlt : (fd <? 0) = false) by (apply Z.ltb_ge; lia).
  set (k1 := add_trace (Sys "cloexec" [AZ fd]) (set_sys rest (add_trace (Sys "open" [AS path]) k))).
  assert (Hopen : adb_open path k = Ok fd k1).
  { unfold adb_open, sys_, bind, sys. rewrite Hsys. cbn [sr_ret]. rewrite Hlt. cbn. by rewrite Hlt. }
  rewrite (bind_ok _ _ _ _ _ Hopen), Hlt.
  rewrite (bind_ok _ _ _ _ _ (eq_refl : gets (read_fuel fd) k1 = Ok _ k1)).
  destruct (recv_loop_pull (read_fuel fd k1) s fd b k1) as (cs & b' & k2 & Hrun & Hcs & Hok & Ho & Hk & Hcap2).
  { done. } { change (wr_of s k1) with (wr_of s k). change (rd_of fd k1) with (rd_of fd k). lia. }
  { unfold read_fuel. lia. }
  rewrite (bind_ok _ _ _ _ _ Hrun). cbn beta iota.
  set (k3 := add_trace (Sys "close" [AZ fd]) k2).
  destruct (writex_exact s (syncmsg2 ID_DONE 0) k3) as (k4 & Hw & Ho4 & _ & _).
  { rewrite length_syncmsg2. change (wr_of s k3) with (wr_of s k2).
    change (wr_of s k1) with (wr_of s k) in Hcap2. change (rd_of fd k1) with (rd_of fd k) in Hcap2. lia. }
  exists cs, b', k4. split_and!; [|done..|].
  - rewrite (bind_ok _ _ k2 tt k3) by done. by rewrite (bind_ok _ _ _ _ _ Hw).
  - rewrite Ho4. change (out_of s k3) with (out_of s k2). rewrite Ho.
    change (out_of s k1) with (out_of s k). unfold transfer. by rewrite <- app_assoc.
Qed.

(** C27 Pulling a file and pushing what was received gives the file back: the
    bytes do_recv sends for a file, given as they are to handle_send_file on
    any daemon that can create the target, end with the same contents in the
    target, for any size, any sizes of reads, writes and arrivals. *)
Theorem pull_push_roundtrip s path b k fd e o rest :
  k_sys k = SysRes fd e o :: rest → 0 ≤ fd → clean (rd_of fd k) = true →
  (9 * length (stream (rd_of fd k)) + 8 ≤ wcap (wr_of s k))%nat →
  ∃ b1 k1 sent, do_recv strerror s path b k = Ok (true, b1) k1 ∧ out_of s k1 = out_of s k ++ sent ∧
    ∀ rfd wfd target mode b2 h td te to trest more,
      stream (rd_of rfd h) = sent ++ more →
      k_sys h = SysRes td te to :: trest → 0 ≤ td → td ≠ wfd →
      (length (stream (rd_of fd k)) ≤ wcap (wr_of td h))%nat → (8 ≤ wcap (wr_of wfd h))%nat →
      ∃ b3 h', handle_send_file strerror rfd wfd target mode b2 h = Ok (true, b3) h'
        ∧ out_of td h' = out_of td h ++ stream (rd_of fd k) ∧ stream (rd_of rfd h') = more.
Proof.
  intros Hsys Hfd Hc Hcap.
  destruct (pull_run s path b k fd e o rest Hsys Hfd Hc Hcap) as (cs & b1 & k1 & Hrun & Hcs & Hok & Ho).
  exists b1, k1, (transfer cs 0). split_and!; [done..|].
  intros rfd wfd target mode b2 h td te to trest more Hst Hhs Htd Hne Hcap1 Hcap2.
  rewrite <- Hcs in *.
  destruct (push_run cs 0 more rfd wfd target mode b2 h td te to trest)
    as (b3 & h' & Hr & Hout & _ & Hmore & _); try done.
  exists b3, h'. done.
Qed.
(** A symbolic link whose target arrives without a NUL, as the first transfer
    of a session, makes handle_send_link use bytes of its buffer that were
    never written: the code relies on the host to send the terminator. *)
Theorem link_target_needs_nul rfd wfd path bs more k :
  chunk_ok bs → 0 ∉ bs → stream (rd_of rfd k) = data_frame bs ++ more →
  ∃ k', handle_send_link strerror rfd wfd path [] k = Fault Uninitialised k'.
Proof.
  intros Hc H0 Hst. unfold chunk_ok in Hc. unfold data_frame in Hst. rewrite <- app_assoc in Hst.
  destruct (readx_exact rfd k _ _ Hst) as (k1 & Hr1 & Hst1 & _). rewrite length_syncmsg2 in Hr1.
  unfold handle_send_link. rewrite (bind_ok _ _ _ _ _ Hr1).
  destruct (syncmsg2_words ID_DATA (Z.of_nat (length bs))) as [-> ->].
  change (negb (u32 ID_DATA =? ID_DATA)) with false. cbv iota.
  rewrite u32_id by (unfold SYNC_DATA_MAX in Hc; lia).
  rewrite (proj2 (Z.ltb_ge SYNC_DATA_MAX (Z.of_nat (length bs)))) by done. rewrite Nat2Z.id.
  destruct (readx_exact rfd k1 _ _ Hst1) as (k2 & Hr2 & _ & _).
  unfold read_buffer. rewrite bind_assoc, (bind_ok _ _ _ _ _ Hr2).
  rewrite (bind_ok _ _ _ _ _ (eq_refl : ret _ k2 = Ok _ k2)). rewrite drop_nil, app_nil_r.
  assert (Hnone : cstring bs = None).
  { clear -H0. induction bs as [|c bs IH]; [done|]. cbn. destruct (Z.eqb_spec c 0); [set_solver|].
    rewrite IH by set_solver. done. }
  exists k2. unfold bind, deref. by rewrite Hnone.
Qed.
End transfers.

(** ** Examples *)

Module DemoSync.
Definition strerror (e : Z) : list Z := str "error".
(** requests arrive on 3 in pieces, answers go to 4, the file is 7 *)
Definition push : kern :=
  mkKern 0 {[ 3 := [RdData (take 11 (transfer [str "hello "; str "world"] 1700000000));
                    RdErr EINTR;
                    RdData (drop 11 (transfer [str "hello "; str "world"] 1700000000))] ]}
    {[ 4 := [WrOk 3; WrOk 100]; 7 := [WrOk 1; WrOk 100] ]} ∅ [SysRes 7 0 []] [] [].
Definition pull : kern :=
  mkKern 0 {[ 7 := [RdData (str "hello "); RdData (str "world")] ]}
    {[ 4 := [WrOk 20; WrOk 200] ]} ∅ [SysRes 7 0 []] [] [].
Definition link : kern := mkKern 0 {[ 3 := [RdData (data_frame (str "/tmp"))] ]} ∅ ∅ [] [] [].
End DemoSync.

Lemma push_writes_file_witness : ∃ b' k',
  handle_send_file DemoSync.strerror 3 4 (str "/tmp/f") 0x1a4 [] DemoSync.push = Ok (true, b') k'
  ∧ out_of 7 k' = str "hello world" ∧ out_of 4 k' = syncmsg2 ID_OKAY 0.
Proof.
  destruct (push_writes_file DemoSync.strerror [str "hello "; str "world"] 1700000000 [] 3 4
    (str "/tmp/f") 0x1a4 [] DemoSync.push 7 0 [] []) as (b' & k' & Hr & Ho & Hw & _).
  - apply Forall_cons_2; [|apply Forall_cons_2; [|apply Forall_nil_2]]; vm_compute; congruence.
  - lia.
  - vm_compute. reflexivity.
  - vm_compute. reflexivity.
  - lia.
  - lia.
  - vm_compute. lia.
  - vm_compute. lia.
  - exists b', k'. split; [exact Hr|]. split; [exact Ho|exact Hw].
Defined.

Lemma pull_push_roundtrip_witness : ∃ b1 k1 sent,
  do_recv DemoSync.strerror 4 (str "/tmp/f") [] DemoSync.pull = Ok (true, b1) k1 ∧ out_of 4 k1 = sent.
Proof.
  destruct (pull_push_roundtrip DemoSync.strerror 4 (str "/tmp/f") [] DemoSync.pull 7 0 [] [])
    as (b1 & k1 & sent & Hr & Ho & _).
  - vm_compute. reflexivity.
  - lia.
  - vm_compute. reflexivity.
  - vm_compute. lia.
  - exists b1, k1, sent. split; [exact Hr|exact Ho].
Defined.

Lemma link_target_needs_nul_witness : ∃ k',
  handle_send_link DemoSync.strerror 3 4 (str "/data/l") [] DemoSync.link = Fault Uninitialised k'.
Proof.
  apply (link_target_needs_nul DemoSync.strerror 3 4 (str "/data/l") (str "/tmp") [] DemoSync.link).
  - vm_compute. congruence.
  - apply (bool_decide_unpack _). vm_compute. exact I.
  - vm_compute. reflexivity.
Defined.
