(* ===== verification/OneShot.v ===== *)
(** * The single-shot services: remount_service.c, android_reboot.c,
      log_service.c, framebuffer_service.c, backup_service.c

    Each runs in a thread of its own on a read and a write descriptor (backup
    hands the ends of its pipes to the main thread instead).  A fork is
    followed into the process the script chooses: answer 0 is the child.  A
    successful exec ends the run of the model.  Variables and array elements
    that the C code has not written are [None]; using one is the fault
    Uninitialised. *)

From S2P Require Import Prelude Kernel Packet Fdevent FileSync.

(** ** C library *)

Definition unix_open (path : list Z) (flags : string) : M kern Z :=
  sys_ "open" [AS path; AS (str flags)].
Definition adb_creat (path : list Z) (mode : Z) : M kern Z :=
  do fd <- sys_ "creat" [AS path; AZ mode];
  if fd <? 0 then ret (-1) else close_on_exec fd;;; ret fd.

(** pipe: both ends; None: -1 *)
Definition pipe2 : M kern (option (Z * Z)) :=
  do '(rc, sv) <- sys "pipe" [];
  ret (if rc <? 0 then None else Some (default 0 (sv !! 0%nat), default 0 (sv !! 1%nat))).

(** exec: returns only on failure *)
Definition exec (args : list (list Z)) : M kern unit :=
  do r <- sys_ "exec" (AS <$> args);
  if 0 <=? r then exit 0 else ret tt.

Definition initialised {A} (o : option A) : M kern A := deref Uninitialised (λ _, o).

(** strstr(s, pat) != NULL *)
Fixpoint strstr (s pat : list Z) : bool :=
  strncmp_eq s pat (length pat)
  || match s with [] => false | _ :: s' => strstr s' pat end.

(** scanf: %255s, %*s and %d, each after any blanks; the blanks of a format
    match any blanks as well, so that they add nothing between conversions *)
Inductive conv := ConvS | ConvSkip | ConvD.

Fixpoint word (width : nat) (s : list Z) : list Z * list Z :=
  match width, s with
  | S w, c :: s' => if isspace c then ([], s) else let '(x, r) := word w s' in (c :: x, r)
  | _, _ => ([], s)
  end.
Fixpoint word_all (s : list Z) : list Z :=
  match s with
  | c :: s' => if isspace c then s else word_all s'
  | [] => []
  end.
Definition sign (s : list Z) : list Z :=
  match s with
  | 45 :: s' | 43 :: s' => s'
  | _ => s
  end.
Fixpoint skip_digits (s : list Z) : list Z :=
  match s with
  | c :: s' => if isdigit c then skip_digits s' else s
  | [] => []
  end.
(** None: no number; the rest of the input *)
Definition number (s : list Z) : option (list Z) :=
  match sign s with
  | c :: _ as r => if isdigit c then Some (skip_digits r) else None
  | [] => None
  end.

(** the number of assignments (-1: the input ends before the first one), the
    words assigned and the rest of the input *)
Fixpoint scan (fmt : list conv) (s : list Z) (n : Z) (ws : list (list Z)) : Z * list (list Z) * list Z :=
  match fmt with
  | [] => (n, ws, skip_spaces s)
  | c :: fmt' =>
      let s := skip_spaces s in
      if bool_decide (s = []) then (if n =? 0 then -1 else n, ws, [])
      else
        match c with
        | ConvS => let '(w, r) := word 255 s in scan fmt' r (n + 1) (ws ++ [w])
        | ConvSkip => scan fmt' (word_all s) n ws
        | ConvD =>
            match number s with
            | Some r => scan fmt' r (n + 1) ws
            | None => (n, ws, sign s)
            end
        end
  end.
Definition scanf (fmt : list conv) (s : list Z) : Z * list (list Z) * list Z := scan fmt s 0 [].

(** ** remount_service.c *)

(** strtok with the delimiter newline on an array of which some elements may
    not be initialised: the token and the rest *)
Fixpoint tok_skip (buf : list (option Z)) : M kern (list (option Z)) :=
  match buf with
  | [] => fail OutOfBounds
  | x :: buf' => do c <- initialised x; if c =? 10 then tok_skip buf' else ret buf
  end.
Fixpoint tok_word (buf : list (option Z)) : M kern (list Z * list (option Z)) :=
  match buf with
  | [] => fail OutOfBounds
  | x :: buf' =>
      do c <- initialised x;
      if c =? 0 then ret ([], buf)
      else if c =? 10 then ret ([], buf')
      else do '(w, r) <- tok_word buf'; ret (c :: w, r)
  end.
Definition strtok (buf : list (option Z)) : M kern (option (list Z * list (option Z))) :=
  do buf <- tok_skip buf;
  do t <- tok_word buf;
  ret (if bool_decide (fst t = []) then None else Some t).

(** the lines of /proc/mounts; every token takes a byte of the buffer *)
Fixpoint find_line (fuel : nat) (dir : list Z) (buf : list (option Z)) : M kern (option (list Z)) :=
  match fuel with
  | O => fail OutOfFuel
  | S fuel' =>
      do t <- strtok buf;
      match t with
      | None => ret None
      | Some (token, buf) =>
          let '(res, ws, _) := scanf [ConvS; ConvS; ConvSkip; ConvSkip; ConvD; ConvD] token in
          if (res =? 4) && strcmp_eq dir (default [] (ws !! 1%nat))
          then do ok <- malloc_ok; ret (if ok then ws !! 0%nat else None)
          else find_line fuel' dir buf
      end
  end.

Definition find_mount (dir : list Z) : M kern (option (list Z)) :=
  do b1 <- malloc_ok; do b2 <- malloc_ok; do b3 <- malloc_ok;
  if negb (b1 && b2 && b3) then ret None
  else
    do fd <- unix_open (str "/proc/mounts") "O_RDONLY";
    if fd <? 0 then ret None
    else
      do r <- adb_read fd 4095;
      adb_close fd;;;
      let bs := match r with inl bs => bs | inr _ => [] end in
      let buf := fmap Some bs ++ replicate (4095 - length bs) None ++ [Some 0] in
      find_line (S (length buf)) dir buf.

(** the result and the new value of the static variable system_ro *)
Definition remount_system (system_ro : Z) : M kern (Z * Z) :=
  if system_ro =? 0 then ret (0, system_ro)
  else
    do dev <- find_mount (str "/system");
    match dev with
    | None => ret (-1, system_ro)
    | Some dev =>
        do r <- sys_ "mount" [AS dev; AS (str "/system"); AS (str "none"); AS (str "MS_REMOUNT")];
        ret (r, r)
    end.

Definition write_string (fd : Z) (s : list Z) : M kern unit := do _ <- writex fd s; ret tt.

Section messages.
Variable strerror : Z → list Z.

Definition remount_service (system_ro rfd wfd : Z) : M kern Z :=
  do '(r, system_ro) <- remount_system system_ro;
  (if r =? 0 then write_string wfd (str "remount succeeded" ++ [10])
   else
     do e <- gets k_errno;
     write_string wfd (take 199 (str "remount failed: " ++ strerror e ++ [10])));;;
  adb_close rfd;;;
  adb_close wfd;;;
  ret system_ro.
End messages.

(** ** android_reboot.c *)

(** what stdio reads from a file: everything up to the end or an error *)
Definition file_text (f : Z) : M kern (list Z) :=
  do t <- gets (λ k, stream (rd_of f k)); modify (set_rd f []);;; ret t.

(** a writable file system on a block device; every round takes a byte *)
Fixpoint found_rw_fs (fuel : nat) (s : list Z) : M kern bool :=
  match fuel with
  | O => fail OutOfFuel
  | S fuel' =>
      let '(m, ws, r) := scanf [ConvS; ConvS; ConvS; ConvS; ConvD; ConvD] s in
      if (m =? 6) && strncmp_eq (default [] (ws !! 0%nat)) (str "/dev/block") 10
         && strstr (default [] (ws !! 3%nat)) (str "rw") then ret true
      else if m =? -1 then ret false
      else found_rw_fs fuel' r
  end.

Definition remount_ro_done : M kern bool :=
  do b1 <- malloc_ok; do b2 <- malloc_ok; do b3 <- malloc_ok; do b4 <- malloc_ok;
  if negb (b1 && b2 && b3 && b4) then ret true
  else
    do f <- sys_ "fopen" [AS (str "/proc/mounts")];
    if f <? 0 then ret true
    else
      do s <- file_text f;
      do found <- found_rw_fs (S (length s)) s;
      note "fclose" [AZ f];;;
      ret (negb found).

(** while(!remount_ro_done() && (cnt < 50)), [n] rounds to go *)
Fixpoint remount_poll (n : nat) : M kern unit :=
  do d <- remount_ro_done;
  if (d : bool) then ret tt
  else match n with
       | O => ret tt
       | S n' => note "usleep" [AZ 100000];;; remount_poll n'
       end.
Definition remount_ro : M kern unit :=
  do fd <- unix_open (str "/proc/sysrq-trigger") "O_WRONLY";
  if fd <? 0 then ret tt
  else
    note "write" [AZ fd; AS (str "u")];;;
    adb_close fd;;;
    remount_poll 50.

Definition ANDROID_RB_RESTART : Z := 0xDEAD0001.
Definition ANDROID_RB_POWEROFF : Z := 0xDEAD0002.
Definition ANDROID_RB_RESTART2 : Z := 0xDEAD0003.
Definition ANDROID_RB_FLAG_NO_SYNC : Z := 1.
Definition ANDROID_RB_FLAG_NO_REMOUNT_RO : Z := 2.

Definition android_reboot (cmd flags : Z) (arg : list Z) : M kern Z :=
  when (Z.land flags ANDROID_RB_FLAG_NO_SYNC =? 0) (note "sync" []);;;
  when (Z.land flags ANDROID_RB_FLAG_NO_REMOUNT_RO =? 0) remount_ro;;;
  if cmd =? ANDROID_RB_RESTART then sys_ "reboot" [AS (str "RB_AUTOBOOT")]
  else if cmd =? ANDROID_RB_POWEROFF then sys_ "reboot" [AS (str "RB_POWER_OFF")]
  else if cmd =? ANDROID_RB_RESTART2 then sys_ "reboot" [AS (str "RESTART2"); AS arg]
  else ret (-1).

(** ** log_service.c *)

Definition LOG_FILE_DIR : list Z := str "/dev/log/".
Definition LOGGER_ENTRY_MAX_LEN : nat := Z.to_nat 5120.
Definition LOGGER_ENTRY_SIZE : nat := 20.

Definition get_log_file_path (log_name : list Z) : M kern (list Z) :=
  do ok <- malloc_ok;
  if ok then ret (LOG_FILE_DIR ++ log_name) else fail NullDeref.

(** the first [n] elements of the buffer *)
Definition known (n : nat) (buf : list (option Z)) : M kern (list Z) :=
  initialised (if decide (n ≤ length buf)%nat then mapM id (take n buf) else None).

(** the member len *)
Definition entry_len (buf : list (option Z)) : M kern nat :=
  do h <- known 2 buf;
  ret (Z.to_nat (default 0 (h !! 0%nat) + 256 * default 0 (h !! 1%nat))).

Definition write_log_entry (fd : Z) (buf : list (option Z)) : M kern unit :=
  do len <- entry_len buf;
  do bs <- known (LOGGER_ENTRY_SIZE + len) buf;
  do _ <- writex fd bs; ret tt.

(** every round takes something from the script of the log file *)
Fixpoint log_loop (fuel : nat) (logfd wfd : Z) (buf : list (option Z)) : M kern unit :=
  match fuel with
  | O => fail OutOfFuel
  | S fuel' =>
      do r <- adb_read logfd LOGGER_ENTRY_MAX_LEN;
      match r with
      | inr e => if (e =? EINTR) || (e =? EAGAIN) then log_loop fuel' logfd wfd buf else ret tt
      | inl [] => ret tt
      | inl bs =>
          let buf := fmap Some bs ++ drop (length bs) buf in
          do len <- entry_len buf;
          let i := (LOGGER_ENTRY_SIZE + len)%nat in
          if decide (length buf ≤ i)%nat then fail OutOfBounds
          else
            let buf := <[i := Some 0]> buf in
            write_log_entry wfd buf;;;
            log_loop fuel' logfd wfd buf
      end
  end.

(** the jump from the failed open skips the initialisation of buf, which is
    then freed *)
Definition log_service (rfd wfd : Z) (log_filepath : list Z) : M kern unit :=
  do logfd <- unix_open log_filepath "O_RDONLY";
  if logfd <? 0 then fail Uninitialised
  else
    do ok <- malloc_ok;
    (if ok then
       do n <- gets (read_fuel logfd);
       log_loop n logfd wfd (replicate (S LOGGER_ENTRY_MAX_LEN) None)
     else ret tt);;;
    adb_close wfd;;;
    adb_close rfd.

(** ** framebuffer_service.c *)

Definition DDMS_RAWIMAGE_VERSION : Z := 1.

(** bits per pixel; offset and length of red, blue, green and alpha *)
Definition fb_format (f : Z) : option (Z * list Z) :=
  if f =? 1 then Some (32, [0; 8; 16; 8; 8; 8; 24; 8])
  else if f =? 2 then Some (32, [0; 8; 16; 8; 8; 8; 24; 0])
  else if f =? 3 then Some (24, [0; 8; 16; 8; 8; 8; 24; 0])
  else if f =? 4 then Some (16, [11; 5; 0; 5; 5; 6; 0; 0])
  else if f =? 5 then Some (32, [16; 8; 0; 8; 8; 8; 24; 8])
  else None.
Definition fb_size (bpp w h : Z) : Z := u32 (w * h * (bpp / 8)).
Definition fbinfo (bpp w h : Z) (channels : list Z) : list Z :=
  concat (le32 <$> [DDMS_RAWIMAGE_VERSION; bpp; fb_size bpp w h; w; h] ++ channels).

(** readx, then writex of the same bytes: false to leave *)
Definition copy_block (from to : Z) (n : nat) : M kern bool :=
  do r <- readx from n;
  match r with None => ret false | Some bs => writex to bs end.

(** for(i = 0; i < fbinfo.size; i += 640); every round takes bytes *)
Fixpoint fb_loop (fuel : nat) (from to size i : Z) : M kern bool :=
  if size <=? i then ret true
  else
    match fuel with
    | O => fail OutOfFuel
    | S fuel' =>
        do ok <- copy_block from to 640;
        if ok then fb_loop fuel' from to size (u32 (i + 640)) else ret false
    end.

(** from the first readx to the label done *)
Definition fb_send (from wfd : Z) : M kern unit :=
  do rw <- readx from 4;
  match rw with None => ret tt | Some bw =>
  do rh <- readx from 4;
  match rh with None => ret tt | Some bh =>
  do rf <- readx from 4;
  match rf with None => ret tt | Some bf =>
  match fb_format (get32 bf) with
  | None => ret tt
  | Some (bpp, channels) =>
      let size := fb_size bpp (get32 bw) (get32 bh) in
      do ok <- writex wfd (fbinfo bpp (get32 bw) (get32 bh) channels);
      if negb ok then ret tt
      else
        do n <- gets (read_fuel from);
        do ok <- fb_loop n from wfd size 0;
        if negb (ok : bool) then ret tt
        else do _ <- copy_block from wfd (Z.to_nat (size mod 640)); ret tt
  end end end end.

(** the jumps before the fork skip the initialisation of pid (and of fds) *)
Definition framebuffer_service (rfd wfd : Z) : M kern unit :=
  do ok <- malloc_ok;
  if negb ok then fail Uninitialised
  else
    do fds <- pipe2;
    match fds with
    | None => fail Uninitialised
    | Some (fd0, fd1) =>
        do pid <- sys_ "fork" [];
        (if pid <? 0 then ret tt
         else if pid =? 0 then
           note "dup2" [AZ fd1; AZ 1];;;
           adb_close fd0;;;
           adb_close fd1;;;
           exec [str "screencap"];;;
           exit 1
         else
           fb_send fd0 wfd);;;
        when (0 <? pid) (note "waitpid" [AZ pid]);;;
        adb_close fd0;;;
        adb_close fd1;;;
        adb_close rfd;;;
        adb_close wfd
    end.

(** ** backup_service.c *)

Inductive BackupOperation := BACKUP | RESTORE.

(** the arguments between colons; NULL and the empty string have none *)
Fixpoint split_args (fuel : nat) (p : list Z) : list (list Z) :=
  match fuel, p with
  | S fuel', _ :: _ =>
      before p 58 :: match strchr p 58 with None => [] | Some r => split_args fuel' (tail r) end
  | _, _ => []
  end.
Definition bu_args (child_pipe : Z) (op : BackupOperation) (args : list Z) : list (list Z) :=
  str "bu" :: fmt_d child_pipe :: match op with BACKUP => str "backup" | RESTORE => str "restore" end
  :: split_args (length args) args.

Definition close_list (fds : list Z) : M kern unit := foldr (λ fd m, adb_close fd;;; m) (ret tt) fds.

(** backup_child_waiter *)
Definition backup_child_waiter (pid fd : Z) : M kern unit :=
  note "waitpid" [AZ pid];;;
  adb_close fd.

Definition backup_child (op : BackupOperation) (up0 up1 down0 down1 : Z) (argv : list (list Z)) : M kern unit :=
  close_list (match op with BACKUP => [up0; down0; down1] | RESTORE => [down1; up0; up1] end);;;
  exec (str "/system/bin/bu" :: argv);;;
  exit 127.

(** the two descriptors of the parent; None: -1 *)
Definition backup_service (op : BackupOperation) (args : list Z) : M kern (option (Z * Z)) :=
  do up <- pipe2;
  match up with None => ret None | Some (up0, up1) =>
  do down <- pipe2;
  match down with None => ret None | Some (down0, down1) =>
  do dummy <- pipe2;
  match dummy with None => ret None | Some (dummy0, dummy1) =>
  let child_pipe := match op with BACKUP => up1 | RESTORE => down0 end in
  do ok <- malloc_ok;
  if negb ok then close_list [up0; up1; down0; down1; dummy0; dummy1];;; ret None
  else
    let argv := bu_args child_pipe op args in
    do pid <- sys_ "fork" [];
    if pid <? 0 then close_list [up0; up1; down0; down1; dummy0; dummy1];;; ret None
    else
      when (pid =? 0) (backup_child op up0 up1 down0 down1 argv);;;
      let '(parent_fd, dummy_fd, closing) :=
        match op with
        | BACKUP => (up0, dummy1, [up1; down0; down1])
        | RESTORE => (dummy0, down1, [down0; up0; up1])
        end in
      close_list closing;;;
      close_on_exec parent_fd;;;
      close_on_exec dummy_fd;;;
      do ok <- malloc_ok;
      if negb ok then close_list [parent_fd; dummy_fd];;; ret None
      else
        do r <- sys_ "thread:backup_child_waiter" [AZ pid; AZ parent_fd];
        if negb (r =? 0) then close_list [parent_fd; dummy_fd];;; ret None
        else ret (Some (parent_fd, dummy_fd))
  end end end.
