(* ===== verification/Services.v ===== *)
(** * Service threads, subprocesses and the table of services (adbd/src/services.c)

    A service thread is recorded as a call that names the function, its
    descriptors and its argument; [service_bootstrap_func] is what the thread
    then runs.  The configuration is the one of the board: ADB_HOST is 0,
    HAVE_VFORKEXEC and ADBD_NO_PTY are defined; the other two variants of
    create_subprocess and of the fork in reboot_service are selected by the
    arguments [vfork] and [pty]. *)

From S2P Require Import Prelude Kernel SockUtil Packet Fdevent World Transport Sockets FileSync OneShot.

(** the functions a thread may run, with the cookie as the code passes it *)
Inductive service :=
| framebuffer_
| recover_ (count : Z)
| log_ (path : list Z)
| file_sync_
| remount_
| reboot_ (arg : list Z)
| restart_tcp_ (port : Z)
| restart_usb_
| subproc_waiter_ (pid : Z).

Record stinfo := mkSti { func : service; sti_rfd : Z; sti_wfd : Z }.

(** ** The services of this file *)

(** the bytes still to come when a read or a write fails *)
Fixpoint recover_loop (fuel : nat) (rfd fd count : Z) : M kern Z :=
  if count <=? 0 then ret count
  else
    match fuel with
    | O => fail OutOfFuel
    | S fuel' =>
        let xfer := if 4096 <? count then 4096 else count in
        do r <- readx rfd (Z.to_nat xfer);
        match r with
        | None => ret count
        | Some bs =>
            do ok <- writex fd bs;
            if ok then recover_loop fuel' rfd fd (count - xfer) else ret count
        end
    end.
Definition recover_service (rfd wfd count : Z) : M kern unit :=
  do ok <- malloc_ok;
  if negb ok then adb_close rfd;;; adb_close wfd
  else
    do fd <- adb_creat (str "/tmp/update") 0x1a4;
    if fd <? 0 then adb_close rfd;;; adb_close wfd
    else
      do n <- gets (read_fuel rfd);
      do count <- recover_loop n rfd fd (u32 count);
      do _ <- writex wfd (if count =? 0 then str "OKAY" else str "FAIL");
      adb_close fd;;;
      adb_close rfd;;;
      adb_close wfd;;;
      do fd <- adb_creat (str "/tmp/update.begin") 0x1a4;
      adb_close fd.

(** the buffer compared with "1" is never written *)
Definition restart_root_service (rfd wfd : Z) : M kern unit :=
  do uid <- sys_ "getuid" [];
  if uid =? 0 then
    do _ <- writex wfd (str "adbd is already running as root" ++ [10]);
    adb_close rfd;;;
    adb_close wfd
  else fail Uninitialised.

Definition restart_tcp_service (rfd wfd port : Z) : M kern unit :=
  if port <=? 0 then
    do _ <- writex wfd (str "invalid port" ++ [10]);
    adb_close rfd;;;
    adb_close wfd
  else
    do _ <- writex wfd (take 99 (str "restarting in TCP mode port: " ++ fmt_d port ++ [10]));
    adb_close rfd;;;
    adb_close wfd.

Definition restart_usb_service (rfd wfd : Z) : M kern unit :=
  do _ <- writex wfd (str "restarting in USB mode" ++ [10]);
  adb_close rfd;;;
  adb_close wfd.

(** getenv: None for NULL *)
Definition getenv (name : string) : M kern (option (list Z)) :=
  do '(r, v) <- sys "getenv" [AS (str name)]; ret (if r <? 0 then None else Some v).

(** a child whose exec fails leaves with vfork; after a fork it goes on *)
Definition unmount_storage (vfork : bool) : M kern unit :=
  do external <- getenv "EXTERNAL_STORAGE";
  do pid <- sys_ "fork" [];
  if pid =? 0 then
    exec (str "/system/bin/vdc" :: str "/system/bin/vdc" :: str "volume" :: str "unmount"
          :: match external with Some e => [e; str "force"] | None => [] end);;;
    (if vfork then exit 127 else ret tt)
  else when (0 <? pid) (note "waitpid" [AZ pid]).

Section messages.
Variable strerror : Z → list Z.

Definition reboot_service (vfork : bool) (rfd wfd : Z) (arg : list Z) : M kern unit :=
  note "sync" [];;;
  unmount_storage vfork;;;
  do r <- android_reboot ANDROID_RB_RESTART2 0 arg;
  (if r <? 0 then
     do e <- gets k_errno;
     write_string wfd (take 99 (str "reboot failed: " ++ strerror e ++ [10]))
   else ret tt);;;
  adb_close rfd;;;
  adb_close wfd.
End messages.

(** WIFSIGNALED, WIFEXITED and WEXITSTATUS *)
Definition WIFEXITED (status : Z) : bool := Z.land status 0x7f =? 0.
Definition WIFSIGNALED (status : Z) : bool :=
  let s := Z.land status 0x7f in negb (s =? 0) && negb (s =? 0x7f).
Definition WEXITSTATUS (status : Z) : Z := Z.shiftr (Z.land status 0xff00) 8.

(** for(;;) with one waitpid a round: with the answers of the script used up
    the call fails for ever, and the loop does not end *)
Fixpoint wait_loop (fuel : nat) (pid : Z) : M kern unit :=
  match fuel with
  | O => fail OutOfFuel
  | S fuel' =>
      do '(p, out) <- sys "waitpid" [AZ pid];
      if p =? pid then
        do status <- initialised (out !! 0%nat);
        if WIFSIGNALED status then ret tt
        else if negb (WIFEXITED status) then ret tt
        else if 0 <=? WEXITSTATUS status then ret tt
        else wait_loop fuel' pid
      else wait_loop fuel' pid
  end.
Definition subproc_waiter_service (SHELL_EXIT_NOTIFY_FD : Z) (rfd pid : Z) : M kern unit :=
  do n <- gets (λ k, length (k_sys k));
  wait_loop (S n) pid;;;
  if 0 <=? SHELL_EXIT_NOTIFY_FD then do _ <- writex SHELL_EXIT_NOTIFY_FD (le32 rfd); ret tt
  else ret tt.

(** ** Threads *)

Definition service_args (f : service) : list sysarg :=
  match f with
  | framebuffer_ => [AS (str "framebuffer_service")]
  | recover_ count => [AS (str "recover_service"); AZ count]
  | log_ path => [AS (str "log_service"); AS path]
  | file_sync_ => [AS (str "file_sync_service")]
  | remount_ => [AS (str "remount_service")]
  | reboot_ arg => [AS (str "reboot_service"); AS arg]
  | restart_tcp_ port => [AS (str "restart_tcp_service"); AZ port]
  | restart_usb_ => [AS (str "restart_usb_service")]
  | subproc_waiter_ pid => [AS (str "subproc_waiter_service"); AZ pid]
  end.
Definition thread_call (sti : stinfo) : syscall :=
  Sys "pthread_create" (AZ (sti_rfd sti) :: AZ (sti_wfd sti) :: service_args (func sti)).
Definition adb_thread_create (sti : stinfo) : M kern Z :=
  sys_ (sys_name (thread_call sti)) (sys_args (thread_call sti)).

Section thread.
Context (strerror : Z → list Z) (vfork : bool) (SHELL_EXIT_NOTIFY_FD system_ro : Z).

(** what the thread runs; the new value of the static variable system_ro *)
Definition service_bootstrap_func (sti : stinfo) : M kern Z :=
  let rfd := sti_rfd sti in
  let wfd := sti_wfd sti in
  match func sti with
  | framebuffer_ => framebuffer_service rfd wfd;;; ret system_ro
  | recover_ count => recover_service rfd wfd count;;; ret system_ro
  | log_ path => log_service rfd wfd path;;; ret system_ro
  | file_sync_ => file_sync_service strerror rfd wfd;;; ret system_ro
  | remount_ => remount_service strerror system_ro rfd wfd
  | reboot_ arg => reboot_service strerror vfork rfd wfd arg;;; ret system_ro
  | restart_tcp_ port => restart_tcp_service rfd wfd port;;; ret system_ro
  | restart_usb_ => restart_usb_service rfd wfd;;; ret system_ro
  | subproc_waiter_ pid => subproc_waiter_service SHELL_EXIT_NOTIFY_FD rfd pid;;; ret system_ro
  end.
End thread.

(** the pipes of a service and its thread ([start] with rfd and wfd): out_fds; None: -1 *)
Definition start_service (start : Z → Z → M kern Z) : M kern (option (Z * Z)) :=
  do p <- pipe2;
  match p with
  | None => ret None
  | Some (svc_to_fw0, svc_to_fw1) =>
      do q <- pipe2;
      match q with
      | None => ret None
      | Some (fw_to_svc0, fw_to_svc1) =>
          close_on_exec svc_to_fw0;;;
          close_on_exec svc_to_fw1;;;
          close_on_exec fw_to_svc0;;;
          close_on_exec fw_to_svc1;;;
          do ok <- malloc_ok;
          if negb ok then FATAL
          else
            do r <- start fw_to_svc0 svc_to_fw1;
            if negb (r =? 0) then
              close_list [svc_to_fw0; svc_to_fw1; fw_to_svc0; fw_to_svc1];;;
              ret None
            else ret (Some (svc_to_fw0, fw_to_svc1))
      end
  end.

Definition create_service_thread (f : service) : M kern (option (Z * Z)) :=
  start_service (λ rfd wfd, adb_thread_create (mkSti f rfd wfd)).

(** ** Subprocesses *)

Definition SHELL_COMMAND : list Z := str "/bin/sh".

(** with a pipe: the descriptor to read from, or -1, and *pid if it was set *)
Definition create_subprocess_pipe (vfork : bool) (argv : list (list Z)) : M kern (Z * option Z) :=
  do pipe_stdin <- pipe2;
  match pipe_stdin with
  | None => ret (-1, None)
  | Some (in0, in1) =>
      do pipe_stdout <- pipe2;
      match pipe_stdout with
      | None => close_list [in0; in1];;; ret (-1, None)
      | Some (out0, out1) =>
          do pid <- sys_ "fork" [];
          if pid <? 0 then close_list [in0; in1; out0; out1];;; ret (-1, Some pid)
          else
            when (pid =? 0) (
              adb_close in1;;;
              adb_close out0;;;
              note "dup2" [AZ in0; AZ 0];;;
              adb_close in0;;;
              note "dup2" [AZ out1; AZ 1];;;
              note "dup2" [AZ out1; AZ 2];;;
              adb_close out1;;;
              exec argv;;;
              do _ <- adb_write 2 (str "- exec failed" ++ [10]);
              exit (if vfork then 127 else -1));;;
            close_list [in0; in1; out1];;;
            ret (out0, Some pid)
      end
  end.

(** with a pseudo terminal *)
Definition create_subprocess_pty (argv : list (list Z)) : M kern (Z * option Z) :=
  do ptm <- unix_open (str "/dev/ptmx") "O_RDWR";
  if ptm <? 0 then ret (-1, None)
  else
    note "cloexec" [AZ ptm];;;
    do g <- sys_ "grantpt" [AZ ptm];
    do u <- (if g =? 0 then sys_ "unlockpt" [AZ ptm] else ret (-1));
    do devname <- (if u =? 0 then do '(r, n) <- sys "ptsname" [AZ ptm]; ret (if r <? 0 then None else Some n)
                   else ret None);
    match devname with
    | None => adb_close ptm;;; ret (-1, None)
    | Some devname =>
        do pid <- sys_ "fork" [];
        if pid <? 0 then adb_close ptm;;; ret (-1, Some pid)
        else
          when (pid =? 0) (
            note "setsid" [];;;
            do pts <- unix_open devname "O_RDWR";
            if pts <? 0 then exit (-1)
            else
              note "dup2" [AZ pts; AZ 0];;;
              note "dup2" [AZ pts; AZ 1];;;
              note "dup2" [AZ pts; AZ 2];;;
              adb_close pts;;;
              adb_close ptm;;;
              do me <- sys_ "getpid" [];
              do fd <- adb_open (take 63 (str "/proc/" ++ fmt_d me ++ str "/oom_adj"));
              (if 0 <=? fd then do _ <- adb_write fd (str "0"); adb_close fd else ret tt);;;
              exec argv;;;
              exit (-1));;;
          ret (ptm, Some pid)
    end.

Definition create_subprocess (vfork pty : bool) (argv : list (list Z)) : M kern (Z * option Z) :=
  if pty then create_subprocess_pty argv else create_subprocess_pipe vfork argv.

(** the command, None for an interactive shell *)
Definition create_subproc_thread (vfork pty : bool) (name : option (list Z)) : M kern Z :=
  do '(ret_fd, pid) <- create_subprocess vfork pty
       (SHELL_COMMAND :: SHELL_COMMAND :: match name with Some n => [str "-c"; n] | None => [str "-"] end);
  do ok <- malloc_ok;
  if negb ok then FATAL
  else
    do pid <- initialised pid;
    do r <- adb_thread_create (mkSti (subproc_waiter_ pid) ret_fd ret_fd);
    if negb (r =? 0) then adb_close ret_fd;;; ret (-1)
    else ret ret_fd.

(** ** The table of services *)

(** sscanf(s, "%d", &n): the value of n when the call does not return 0, None
    when it was not set (the text is empty); 0 when there is no number *)
Definition scan_port (s : list Z) : option Z :=
  match skip_spaces s with
  | [] => None
  | s' => match number s' with Some _ => Some (atoi s') | None => Some 0 end
  end.

(** one descriptor for both directions *)
Definition both_ways (r : Z) : option (Z * Z) := if 0 <=? r then Some (r, r) else None.
Definition connected (open : M kern Z) : M kern (option (Z * Z)) :=
  do r <- open;
  when (0 <=? r) (close_on_exec r);;;
  ret (both_ways r).

Definition prefixed (name : list Z) (p : string) : bool := strncmp_eq name (str p) (String.length p).

Definition service_to_fd_board (recovery_mode : bool) (name : list Z) : M kern (option (Z * Z)) :=
  if prefixed name "tcp:" then
    let port := atoi (drop 4 name) in
    match strchr (drop 4 name) 58 with
    | Some _ => ret None
    | None =>
        connected (do r <- socket_loopback_client port SOCK_STREAM;
                   when (0 <=? r) (disable_tcp_nagle r);;; ret r)
    end
  else if prefixed name "local:" then
    connected (socket_local_client (drop 6 name) ANDROID_SOCKET_NAMESPACE_RESERVED SOCK_STREAM)
  else if prefixed name "localreserved:" then
    connected (socket_local_client (drop 14 name) ANDROID_SOCKET_NAMESPACE_RESERVED SOCK_STREAM)
  else if prefixed name "localabstract:" then
    connected (socket_local_client (drop 14 name) ANDROID_SOCKET_NAMESPACE_ABSTRACT SOCK_STREAM)
  else if prefixed name "localfilesystem:" then
    connected (socket_local_client (drop 16 name) ANDROID_SOCKET_NAMESPACE_FILESYSTEM SOCK_STREAM)
  else if prefixed name "dev:" then connected (unix_open (drop 4 name) "O_RDWR")
  else if prefixed name "framebuffer:" then create_service_thread framebuffer_
  else if recovery_mode && prefixed name "recover:" then
    create_service_thread (recover_ (atoi (drop 8 name)))
  else if prefixed name "log:" then
    do path <- get_log_file_path (drop 4 name); create_service_thread (log_ path)
  else if prefixed name "shell:" then
    do r <- create_subproc_thread true false (match drop 6 name with [] => None | c => Some c end);
    ret (both_ways r)
  else if prefixed name "sync:" then create_service_thread file_sync_
  else if prefixed name "remount:" then create_service_thread remount_
  else if prefixed name "reboot:" then
    do ok <- malloc_ok;
    if ok then create_service_thread (reboot_ (drop 7 name)) else ret None
  else if prefixed name "backup:" then
    do ok <- malloc_ok;
    if ok then backup_service BACKUP (drop 7 name) else ret None
  else if prefixed name "restore:" then backup_service RESTORE []
  else if prefixed name "tcpip:" then
    do port <- initialised (scan_port (drop 6 name)); create_service_thread (restart_tcp_ port)
  else if prefixed name "usb:" then create_service_thread restart_usb_
  else ret None.

#[export] Instance board_services (recovery_mode : bool) : Services :=
  {| service_to_fd := service_to_fd_board recovery_mode |}.
