(* ===== verification/Host.v ===== *)
(** * The host side (code under ADB_HOST)

    The server that runs on a host: the table of emulators (transport_local.c),
    finding and releasing transports (transport.c), the requests of clients
    (adb.c, sockets.c) and the services for them (services.c).  The repository
    builds the device side; the code is verified here against the same model of
    sockets and transports.

    Host USB access (usb_linux.c and the like) is not part of the sources: the
    functions used are the class [HostUsb]. *)

From S2P Require Import Prelude Kernel SockUtil Packet DList Fdevent World Transport Listing Sockets Jdwp Adb Daemon FileSync OneShot Services.

Class HostUsb := {
  host_usb_kick : Z → M world unit;
  host_usb_close : Z → M world unit;
  host_usb_cleanup : M world unit;
}.

Definition ADB_LOCAL_TRANSPORT_MAX : nat := 16.
Definition LOCAL_CLIENT_PREFIX : list Z := str "emulator-".
Definition ADB_SERVER_VERSION : Z := 31.

Record hworld := mkHw {
  h_world : world;
  local_transports : list Z;         (* the array, 0 for NULL *)
  local_transports_lock : bool;
  h_keys : gmap Z Z;                 (* t->key of the transports, NULL where absent *)
}.
Definition up_hworld (w : world) (h : hworld) : hworld :=
  mkHw w (local_transports h) (local_transports_lock h) (h_keys h).
Definition up_locals (l : list Z) (h : hworld) : hworld := mkHw (h_world h) l (local_transports_lock h) (h_keys h).
Definition up_locals_lock (b : bool) (h : hworld) : hworld := mkHw (h_world h) (local_transports h) b (h_keys h).
Definition up_keys (f : gmap Z Z → gmap Z Z) (h : hworld) : hworld :=
  mkHw (h_world h) (local_transports h) (local_transports_lock h) (f (h_keys h)).

Definition HW {A} (m : M world A) : M hworld A := zoom h_world up_hworld m.
Definition HK {A} (m : M kern A) : M hworld A := HW (KW m).

Definition lock_locals : M hworld unit :=
  do b <- gets local_transports_lock;
  if b then fail Deadlock else modify (up_locals_lock true).
Definition unlock_locals : M hworld unit := modify (up_locals_lock false).

(** ** The table of emulators (transport_local.c) *)

Fixpoint find_port (l : list Z) (port : Z) : M hworld Z :=
  match l with
  | [] => ret 0
  | t :: l' =>
      if t =? 0 then find_port l' port
      else do tr <- HW (trans_at t); if t_adb_port tr =? port then ret t else find_port l' port
  end.
Definition find_emulator_transport_by_adb_port_locked (adb_port : Z) : M hworld Z :=
  do l <- gets local_transports; find_port l adb_port.
Definition find_emulator_transport_by_adb_port (adb_port : Z) : M hworld Z :=
  lock_locals;;;
  do r <- find_emulator_transport_by_adb_port_locked adb_port;
  unlock_locals;;;
  ret r.

(** the first NULL; None: -1 *)
Fixpoint free_slot (l : list Z) (i : nat) : option nat :=
  match l with
  | [] => None
  | t :: l' => if t =? 0 then Some i else free_slot l' (S i)
  end.
Definition get_available_local_transport_index_locked : M hworld (option nat) :=
  do l <- gets local_transports; ret (free_slot l 0).
Definition get_available_local_transport_index : M hworld (option nat) :=
  lock_locals;;;
  do r <- get_available_local_transport_index_locked;
  unlock_locals;;;
  ret r.

Definition to_adb_port (x : Z) (t : atransport) : atransport :=
  mkTrans (t_fd_read t) (t_fd_write t) (t_transport_read t) (t_transport_write t) (t_ref_count t)
    (t_sync_token t) (t_connection_state t) (t_online t) (t_type t)
    (t_usb t) (t_sfd t) (t_serial t) (t_product t) (t_model t) (t_device t) (t_devpath t) x
    (t_kicked t) (t_token t) (t_failed_auth_attempts t).

(** the value is [fail] == 0 *)
Definition host_init_socket_transport (t s adb_port : Z) (local : bool) : M hworld bool :=
  HW (init_socket_transport t s);;;
  if negb local then ret true
  else
    lock_locals;;;
    HW (trans_put t (to_adb_port adb_port));;;
    do existing <- find_emulator_transport_by_adb_port_locked adb_port;
    do index <- get_available_local_transport_index_locked;
    do ok <- (if negb (existing =? 0) then ret false
              else match index with
                   | None => ret false
                   | Some i => modify (λ h, up_locals (<[i := t]> (local_transports h)) h);;; ret true
                   end);
    unlock_locals;;;
    ret ok.

(** for(nn...) if(local_transports[nn] == t) { = NULL; break; } *)
Fixpoint clear_slot (l : list Z) (t : Z) : list Z :=
  match l with
  | [] => []
  | x :: l' => if x =? t then 0 :: l' else x :: clear_slot l' t
  end.

(** ** launch_server (adb.c)

    fork is followed into the process the script chooses; None: execl has
    replaced the process.  The path of the program (get_my_path, not in the
    sources) and the messages on stderr are left out. *)
Definition server_args (server_port : Z) : list sysarg :=
  AS <$> [str "adb"; str "-P"; take 29 (fmt_d server_port); str "fork-server"; str "server"].
(** the child after fork, up to the return of execl *)
Definition launch_child (fd0 fd1 server_port : Z) : M kern Z :=
  adb_close fd0;;;
  note "dup2" [AZ fd1; AZ 2];;;
  adb_close fd1;;;
  sys_ "execl" (server_args server_port).
(** the parent: 0 when the server has answered *)
Definition await_server (fd0 fd1 : Z) : M kern Z :=
  adb_close fd1;;;
  do r <- adb_read fd0 3;
  adb_close fd0;;;
  if bool_decide (r = inl (str "OK" ++ [10])) then note "setsid" [];;; ret 0 else ret (-1).
(** HAVE_FORKEXEC, or HAVE_VFORKEXEC when [vfork] *)
Definition launch_server (vfork : bool) (server_port : Z) : M kern (option Z) :=
  do ok <- malloc_ok;
  if negb ok then ret (Some (-1))
  else
    do '(r, fd) <- sys "pipe" [];
    if negb (r =? 0) then ret (Some (-1))
    else
      let fd0 := default 0 (fd !! 0%nat) in
      let fd1 := default 0 (fd !! 1%nat) in
      do pid <- sys_ (if vfork then "vfork" else "fork") [];
      if pid <? 0 then ret (Some (-1))
      else if pid =? 0 then
        do r <- launch_child fd0 fd1 server_port;
        if r =? 0 then ret None
        else if vfork then note "write" [AZ 2; AS (str "OOPS! execl failed" ++ [10])];;; exit 127
        else ret (Some 0)
      else do r <- await_server fd0 fd1; ret (Some r).

Section host.
Context `{HostUsb}.

(** t->kick and t->close by the kind of transport *)
Definition host_remote_kick (t : Z) : M hworld unit :=
  do tr <- HW (trans_at t);
  match t_type tr with
  | kTransportUsb => HW (host_usb_kick (t_usb tr))
  | _ =>
      HW (local_remote_kick t);;;
      lock_locals;;;
      modify (λ h, up_locals (clear_slot (local_transports h) t) h);;;
      unlock_locals
  end.
Definition host_remote_close (t : Z) : M hworld unit :=
  do tr <- HW (trans_at t);
  match t_type tr with
  | kTransportUsb =>
      HW (host_usb_close (t_usb tr));;; HW (trans_put t (λ tr, to_links 0 (t_sfd tr) tr))
  | _ => HW (local_remote_close t)
  end.

Definition host_kick_transport (t : Z) : M hworld unit :=
  if t =? 0 then ret tt
  else
    do tr <- HW (trans_at t);
    if t_kicked tr then ret tt
    else
      HW lock_transports;;;
      do tr <- HW (trans_at t);
      let kicked := t_kicked tr in
      when (negb kicked) (HW (trans_put t (to_kicked true)));;;
      HW unlock_transports;;;
      if negb kicked then host_remote_kick t else ret tt.

Definition host_transport_unref_locked (t : Z) : M hworld unit :=
  HW (trans_put t (λ tr, to_ref_count (t_ref_count tr - 1) tr));;;
  do tr <- HW (trans_at t);
  if t_ref_count tr =? 0 then
    (if negb (t_kicked tr) then HW (trans_put t (to_kicked true));;; host_remote_kick t else ret tt);;;
    host_remote_close t;;;
    HW (remove_transport t)
  else ret tt.
Definition host_transport_unref (t : Z) : M hworld unit :=
  if t =? 0 then ret tt
  else HW lock_transports;;; host_transport_unref_locked t;;; HW unlock_transports.

(** ** Connections to emulators *)

Definition host_register_socket_transport (s : Z) (serial : list Z) (port : Z) (local : bool) : M hworld unit :=
  do t <- HW alloc_transport;
  do ok <- host_init_socket_transport t s port local;
  if negb ok then
    HK (adb_close s);;;
    HW (modify (up_transports (delete t)));;;
    HW (FD (modify (upd_fdes (λ m, delete (auth_fde_of t) (delete (fde_of t) m)))))
  else
    do n <- HW (strdup serial);
    HW (trans_put t (λ tr, to_names n (t_devpath tr) tr));;;
    HW (register_transport t).

(** true: the C function returns 0 *)
Definition local_connect_arbitrary_ports (console_port adb_port : Z) : M hworld bool :=
  do host <- HK (getenv "ADBHOST");
  do fd <- match host with
           | Some host => HK (socket_network_client host adb_port SOCK_STREAM)
           | None => ret (-1)
           end;
  do fd <- (if fd <? 0 then HK (socket_loopback_client adb_port SOCK_STREAM) else ret fd);
  if 0 <=? fd then
    HK (close_on_exec fd);;;
    HK (disable_tcp_nagle fd);;;
    host_register_socket_transport fd (take 63 (LOCAL_CLIENT_PREFIX ++ fmt_d console_port)) adb_port true;;;
    ret true
  else ret false.
Definition local_connect (port : Z) : M hworld bool := local_connect_arbitrary_ports (port - 1) port.

Fixpoint connect_ports (count : nat) (port : Z) : M hworld unit :=
  match count with
  | O => ret tt
  | S count' => do _ <- local_connect port; connect_ports count' (port + 2)
  end.
Definition client_socket_thread : M hworld unit :=
  connect_ports ADB_LOCAL_TRANSPORT_MAX DEFAULT_ADB_LOCAL_TRANSPORT_PORT.

(** ** Finding and releasing transports (transport.c) *)

Fixpoint find_serial (l : list Z) (serial : list Z) : M world Z :=
  match l with
  | [] => ret 0
  | t :: l' => do tr <- trans_at t; if opt_eq serial (t_serial tr) then ret t else find_serial l' serial
  end.
Definition find_transport (serial : list Z) : M world Z :=
  lock_transports;;;
  do l <- gets transport_list;
  do t <- find_serial l serial;
  unlock_transports;;;
  ret t.

Definition unregister_transport (t : Z) : M hworld unit :=
  HW lock_transports;;;
  do _ <- HW (trans_at t);
  HW (modify (λ w, up_transport_list (filter (λ x, x ≠ t) (transport_list w)) w));;;
  HW unlock_transports;;;
  host_kick_transport t;;;
  host_transport_unref t.

Fixpoint unregister_tcp (l : list Z) : M hworld unit :=
  match l with
  | [] => ret tt
  | t :: l' =>
      do tr <- HW (trans_at t);
      (if bool_decide (t_type tr = kTransportLocal) && (t_adb_port tr =? 0) then
         HW (modify (λ w, up_transport_list (filter (λ x, x ≠ t) (transport_list w)) w));;;
         (if negb (t_kicked tr) then HW (trans_put t (to_kicked true));;; host_remote_kick t else ret tt);;;
         host_transport_unref_locked t
       else ret tt);;;
      unregister_tcp l'
  end.
Definition unregister_all_tcp_transports : M hworld unit :=
  HW lock_transports;;;
  do l <- HW (gets transport_list);
  unregister_tcp l;;;
  HW unlock_transports.

Fixpoint kick_all (l : list Z) : M hworld unit :=
  match l with
  | [] => ret tt
  | t :: l' =>
      do tr <- HW (trans_at t);
      (if negb (t_kicked tr) then HW (trans_put t (to_kicked true));;; host_remote_kick t else ret tt);;;
      kick_all l'
  end.
Definition close_usb_devices : M hworld unit :=
  HW lock_transports;;;
  do l <- HW (gets transport_list);
  kick_all l;;;
  HW unlock_transports.

(** ** Requests to connect (adb.c) *)

(** snprintf into a buffer of that size: what is left of the text *)
Definition snprintf (size : nat) (s : list Z) : list Z := take (size - 1) s.

(** hostbuf[100] after strncpy of at most 99 characters, the terminator at the
    colon if there is one: None when nothing ends the string *)
Definition hostbuf (host : list Z) (colon : option nat) : option (list Z) :=
  match colon with
  | Some o => Some (take o host)
  | None => if decide (length host < 99)%nat then Some host else None
  end.

Definition connect_port (serial_of : Z → list Z) (hostname host : list Z) (port : Z) : M hworld (list Z) :=
  let serial := serial_of port in
  do t <- HW (find_transport serial);
  if negb (t =? 0) then ret (snprintf 4096 (str "already connected to " ++ serial))
  else
    do fd <- HK (socket_network_client hostname port SOCK_STREAM);
    if fd <? 0 then ret (snprintf 4096 (str "unable to connect to " ++ host ++ str ":" ++ fmt_d port))
    else
      HK (close_on_exec fd);;;
      HK (disable_tcp_nagle fd);;;
      host_register_socket_transport fd serial port false;;;
      ret (snprintf 4096 (str "connected to " ++ serial)).

(** the reply; reading an array that was not written is a fault *)
Definition connect_device (host : list Z) : M hworld (list Z) :=
  let serial_of h port := snprintf 100 (h ++ str ":" ++ fmt_d port) in
  match strchr host 58 with
  | Some portstr =>
      let o := (length host - length portstr)%nat in
      if decide (100 ≤ o)%nat then ret (snprintf 4096 (str "bad host name " ++ host))
      else
        do hb <- deref Uninitialised (λ _, hostbuf host (Some o));
        match skip_spaces (tail portstr) with
        | [] => fail Uninitialised          (* sscanf returns EOF, not 0: port has no value *)
        | s =>
            match number s with
            | None => ret (snprintf 4096 (str "bad port number " ++ portstr))
            | Some _ => connect_port (serial_of hb) hb host (atoi s)
            end
        end
  | None =>
      do hb <- deref Uninitialised (λ _, hostbuf host None);
      connect_port (serial_of hb) hb host DEFAULT_ADB_LOCAL_TRANSPORT_PORT
  end.

(** strtol(s, NULL, 0), the value as an int *)
Fixpoint octal_digits (s : list Z) (acc : Z) : Z :=
  match s with
  | c :: s' => if (48 <=? c) && (c <=? 55) then octal_digits s' (acc * 8 + (c - 48)) else acc
  | [] => acc
  end.
Definition strtol_unsigned (s : list Z) : Z :=
  match s with
  | c0 :: c1 :: s' =>
      if (c0 =? 48) && ((c1 =? 120) || (c1 =? 88)) && starts_hex s' then hex_digits s' 0
      else if c0 =? 48 then octal_digits (c1 :: s') 0 else atoi_digits s 0
  | _ => atoi_digits s 0
  end.
Definition strtol0 (s : list Z) : Z :=
  let clip v := Z.max (- 2 ^ 63) (Z.min (2 ^ 63 - 1) v) in
  match skip_spaces s with
  | [] => 0
  | c :: s' =>
      s32 (clip (if c =? 45 then - strtol_unsigned s'
                 else if c =? 43 then strtol_unsigned s' else strtol_unsigned (c :: s')))
  end.

Definition connect_emulator (port_spec : list Z) : M hworld (list Z) :=
  match strchr port_spec 44 with
  | None => ret (snprintf 4096 (str "unable to parse '" ++ port_spec ++ str "' as <console port>,<adb port>"))
  | Some rest =>
      let console_port := strtol0 (before port_spec 44) in
      let adb_port := strtol0 (tail rest) in
      if negb ((0 <? console_port) && (0 <? adb_port)) then
        ret (snprintf 4096 (str "Invalid port numbers: Expected positive numbers, got '" ++ port_spec ++ str "'"))
      else
        do known <- find_emulator_transport_by_adb_port adb_port;
        if negb (known =? 0) then
          ret (snprintf 4096 (str "Emulator on port " ++ fmt_d adb_port ++ str " already registered."))
        else
          do slot <- get_available_local_transport_index;
          match slot with
          | None => ret (snprintf 4096 (str "Cannot accept more emulators."))
          | Some _ =>
              do ok <- local_connect_arbitrary_ports console_port adb_port;
              let ports := fmt_d console_port ++ str "," ++ fmt_d adb_port in
              ret (snprintf 4096 ((if ok then str "Connected to emulator on ports "
                                   else str "Could not connect to emulator on ports ") ++ ports))
          end
  end.

(** ** handle_host_request *)

Definition starts (service : list Z) (p : string) : bool := strncmp_eq service (str p) (String.length p).

(** snprintf(buf, 4096, "OKAY%04x%s"), writex *)
Definition reply_okay (reply_fd : Z) (text : list Z) : M hworld Z :=
  do _ <- HK (writex reply_fd (snprintf 4096 (okay_text text))); ret 0.

Definition switch_transport (service : list Z) (serial : option (list Z)) (reply_fd s : Z) : M hworld Z :=
  let '(type, serial) :=
    if starts service "transport-usb" then (kTransportUsb, serial)
    else if starts service "transport-local" then (kTransportLocal, serial)
    else if starts service "transport-any" then (kTransportAny, serial)
    else if starts service "transport:" then (kTransportAny, Some (drop 10 service))
    else (kTransportAny, serial) in
  do '(t, err) <- HW (acquire_one_transport 0 CS_ANY type serial);
  (if t =? 0 then HK (do _ <- sendfailmsg reply_fd (default [] err); ret tt)
   else
     HW (sock_put s (so_transport t));;;
     HK (do _ <- adb_write reply_fd (str "OKAY"); ret tt));;;
  ret 1.

(** get-serialno and get-devpath *)
Definition transport_text (field : atransport → option (list Z)) (ttype : transport_type)
    (serial : option (list Z)) (reply_fd : Z) : M hworld Z :=
  do '(t, _) <- HW (acquire_one_transport 0 CS_ANY ttype serial);
  do out <- (if t =? 0 then ret None else do tr <- HW (trans_at t); ret (field tr));
  reply_okay reply_fd (default (str "unknown") out).

Definition disconnect (serial : list Z) : M hworld (list Z) :=
  match serial with
  | [] => unregister_all_tcp_transports;;; ret []
  | _ =>
      let serial := match strchr serial 58 with
                    | None => snprintf 99 (serial ++ str ":5555")
                    | Some _ => serial
                    end in
      do t <- HW (find_transport serial);
      if negb (t =? 0) then unregister_transport t;;; ret []
      else ret (snprintf 4096 (str "No such device " ++ serial))
  end.

(** a second buffer of 4096 bytes *)
Definition with_buffer (m : M hworld Z) : M hworld Z :=
  do ok <- HK malloc_ok; if negb ok then ret (-1) else m.

Definition host_handle_host_request (service : list Z) (ttype : transport_type) (serial : option (list Z))
    (reply_fd s : Z) : M hworld Z :=
  do ok <- HK malloc_ok;
  if negb ok then HK (do _ <- sendfailmsg reply_fd (str "out of memory"); ret tt);;; ret (-1)
  else if strcmp_eq service (str "kill") then
    do _ <- HK (adb_write reply_fd (str "OKAY")); HW host_usb_cleanup;;; exit 0
  else if starts service "transport" then switch_transport service serial reply_fd s
  else if starts service "devices" then
    with_buffer (
      let use_long := strcmp_eq (drop 7 service) (str "-l") in
      if use_long || bool_decide (drop 7 service = []) then
        do text <- HW (list_transports 4096 use_long); reply_okay reply_fd text
      else ret 0)
  else if starts service "connect:" then
    with_buffer (
      let host := drop 8 service in
      do text <- (if starts host "emu:" then connect_emulator (drop 4 host) else connect_device host);
      reply_okay reply_fd text)
  else if starts service "disconnect:" then
    with_buffer (do text <- disconnect (drop 11 service); reply_okay reply_fd text)
  else if strcmp_eq service (str "version") then
    reply_okay reply_fd (fmt_04x ADB_SERVER_VERSION)
  else if starts service "get-serialno" then transport_text t_serial ttype serial reply_fd
  else if starts service "get-devpath" then transport_text t_devpath ttype serial reply_fd
  else if starts service "emulator:" then
    do _ <- local_connect (atoi (drop 9 service)); ret 0
  else HW (common_requests service ttype serial reply_fd).

(** ** Services of the host (services.c) *)

(** dns_lock, held around the look-up, keeps out other look-ups only *)
Definition dns_service (rfd wfd : Z) (hostname : list Z) : M kern unit :=
  do '(r, addr) <- sys "gethostbyname" [AS hostname];
  do _ <- writex wfd (if r <? 0 then [0; 0; 0; 0] else take 4 addr);
  adb_close rfd;;;
  adb_close wfd.

(** struct state_info; [n] bounds the retries, one a second *)
Definition wait_for_state (n : nat) (transport : transport_type) (serial : option (list Z)) (state rfd wfd : Z)
    : M world unit :=
  do '(t, err) <- acquire_one_transport n state transport serial;
  (if t =? 0 then do _ <- KW (sendfailmsg wfd (default [] err)); ret tt
   else do _ <- KW (writex wfd (str "OKAY")); ret tt);;;
  KW (adb_close wfd);;;
  KW (adb_close rfd).

Definition type_code (t : transport_type) : Z :=
  match t with kTransportUsb => 0 | kTransportLocal => 1 | kTransportAny => 2 | kTransportHost => 3 end.

(** the thread of wait_for_state is recorded with its arguments *)
Definition wait_thread (type : transport_type) (serial : option (list Z)) (state rfd wfd : Z) : M kern Z :=
  sys_ "pthread_create" (AZ rfd :: AZ wfd :: AS (str "wait_for_state") :: AZ (type_code type) :: AZ state
    :: match serial with Some s => [AS s] | None => [] end).

Definition host_service_to_socket (name : list Z) (serial : option (list Z)) : M world Z :=
  if strcmp_eq name (str "track-devices") then create_device_tracker
  else if starts name "wait-for-" then
    do ok <- KW malloc_ok;
    if negb ok then fail NullDeref          (* sinfo is used without a test *)
    else
      do serial <- match serial with Some s => strdup s | None => ret None end;
      let name := drop 9 name in
      let type :=
        if starts name "local" then Some kTransportLocal
        else if starts name "usb" then Some kTransportUsb
        else if starts name "any" then Some kTransportAny else None in
      match type with
      | None => ret 0
      | Some type =>
          do r <- KW (start_service (wait_thread type serial CS_DEVICE));
          match r with
          | None => ret 0
          | Some (fd0, fd1) => KW (adb_close fd1);;; create_local_socket fd0
          end
      end
  else ret 0.

Definition create_host_service_socket (name : list Z) (serial : option (list Z)) : M world Z :=
  host_service_to_socket name serial.

(** ** Smart sockets of the host (sockets.c) *)

(** service, ttype and serial of a request; None when it is for a device *)
Definition host_request (req : list Z) : option (list Z * transport_type * option (list Z)) :=
  if starts req "host-serial:" then
    let service := drop 12 req in
    match skip_host_serial service with
    | Some e => Some (tail e, kTransportAny, Some (take (length service - length e) service))
    | None => Some (service, kTransportAny, None)
    end
  else if starts req "host-usb:" then Some (drop 9 req, kTransportUsb, None)
  else if starts req "host-local:" then Some (drop 11 req, kTransportLocal, None)
  else if starts req "host:" then Some (drop 5 req, kTransportAny, None)
  else None.

Definition host_smart_connect (s p : Z) (len : nat) : M hworld Z :=
  do d <- HW (terminate_request p len);
  do req <- deref OutOfBounds (λ _, cstring (drop 4 d));
  match host_request req with
  | None => HW (smart_forward s d)
  | Some (service, ttype, serial) =>
      do so <- HW (sock_at s);
      do po <- HW (sock_at (s_peer so));
      do r <- host_handle_host_request service ttype serial (s_fd po) s;
      if r =? 0 then HW (smart_fail s)
      else if starts service "transport" then HW (pkt_put p (λ pk, with_len pk 0));;; ret 0
      else
        do s2 <- HW (create_host_service_socket service serial);
        if s2 =? 0 then
          do po <- HW (sock_at (s_peer so));
          HK (do _ <- sendfailmsg (s_fd po) (str "unknown host service"); ret tt);;;
          HW (smart_fail s)
        else
          do _ <- HK (adb_write (s_fd po) (str "OKAY"));
          HW (sock_put (s_peer so) (so_funs local_socket_ready_ local_socket_close_));;;
          HW (sock_put (s_peer so) (so_peer s2));;;
          HW (sock_put s2 (so_peer (s_peer so)));;;
          HW (sock_put s (so_peer 0));;;
          HW (call_close s);;;
          HW (call_ready s2);;;
          ret 0
  end.

Definition host_smart_socket_enqueue (s p : Z) : M hworld Z :=
  do g <- HW (smart_gather s p);
  match g with
  | inl r => ret r
  | inr (p, len) => host_smart_connect s p len
  end.
End host.
