(* ===== verification/HostProps.v ===== *)
(** * Theorems on the host side

    The table of emulators, the serial number in front of a request, and the
    replies to requests. *)

From S2P Require Import Prelude Kernel SockUtil Packet DList Fdevent World Transport Listing Sockets Jdwp ListingProps Adb Daemon FileSync OneShot Services Host Flow SocketTable Closing Teardown TransportProps.

(** ** The table of emulators *)

(** every entry is an allocated transport, and no port is there twice *)
Record locals_ok (h : hworld) : Prop := {
  lo_len : length (local_transports h) = ADB_LOCAL_TRANSPORT_MAX;
  lo_slot i t : local_transports h !! i = Some t → t ≠ 0 → is_Some (w_transports (h_world h) !! t);
  lo_port i j t u tr ur : local_transports h !! i = Some t → local_transports h !! j = Some u → t ≠ 0 → u ≠ 0 →
    w_transports (h_world h) !! t = Some tr → w_transports (h_world h) !! u = Some ur →
    t_adb_port tr = t_adb_port ur → i = j;
}.

(** the emulator of a port *)
Definition emulator_at (h : hworld) (port t : Z) : Prop :=
  t ≠ 0 ∧ t ∈ local_transports h ∧ ∃ tr, w_transports (h_world h) !! t = Some tr ∧ t_adb_port tr = port.

Lemma HW_run {A} (m : M world A) h a w : m (h_world h) = Ok a w → HW m h = Ok a (up_hworld w h).
Proof. intros E. unfold HW, zoom. by rewrite E. Qed.
Lemma up_hworld_id h : up_hworld (h_world h) h = h.
Proof. by destruct h. Qed.
Lemma HW_trans_at t tr h : w_transports (h_world h) !! t = Some tr → HW (trans_at t) h = Ok tr h.
Proof. intros E. rewrite (HW_run _ h tr (h_world h)); [by rewrite up_hworld_id|]. by apply trans_at_run. Qed.

Lemma find_port_run l port h : (∀ t, t ∈ l → t ≠ 0 → is_Some (w_transports (h_world h) !! t)) →
  ∃ r, find_port l port h = Ok r h
    ∧ (r ≠ 0 → r ∈ l ∧ ∃ tr, w_transports (h_world h) !! r = Some tr ∧ t_adb_port tr = port)
    ∧ (r = 0 → ∀ t tr, t ∈ l → t ≠ 0 → w_transports (h_world h) !! t = Some tr → t_adb_port tr ≠ port).
Proof.
  induction l as [|t l IH]; intros Hl; cbn [find_port].
  { exists 0. split_and!; [done|done|]. intros _ t tr Ht. by apply not_elem_of_nil in Ht. }
  destruct IH as (r & Hr & H1 & H2); [set_solver|].
  destruct (Z.eqb_spec t 0) as [->|Ht0].
  - exists r. split_and!; [done|..].
    + intros Hr0. destruct (H1 Hr0). split; [set_solver|done].
    + intros Hr0 u ur [->|Hu]%elem_of_cons; [done|]. by apply H2.
  - destruct (Hl t ltac:(set_solver) Ht0) as [tr Htr]. run (HW_trans_at t tr h Htr).
    destruct (Z.eqb_spec (t_adb_port tr) port) as [Hp|Hp].
    + exists t. split_and!; [done|..]; [|done]. intros _. split; [set_solver|eauto].
    + exists r. split_and!; [done|..].
      * intros Hr0. destruct (H1 Hr0). split; [set_solver|done].
      * intros Hr0 u ur [->|Hu]%elem_of_cons; [intros; congruence|]. by apply H2.
Qed.

Lemma free_slot_spec l i : match free_slot l i with
  | Some j => ∃ k, j = (i + k)%nat ∧ l !! k = Some 0
  | None => 0 ∉ l
  end.
Proof.
  revert i. induction l as [|x l IH]; intros i; cbn [free_slot]; [apply not_elem_of_nil|].
  destruct (Z.eqb_spec x 0) as [->|Hx]; [exists 0%nat; split; [lia|done]|].
  specialize (IH (S i)). destruct (free_slot l (S i)) as [j|]; [|set_solver].
  destruct IH as (k & -> & Hk). exists (S k). split; [lia|done].
Qed.

(** a transport that is new gets its port *)
Lemma put_transport_ok h t tr : locals_ok h → t ∉ local_transports h →
  locals_ok (up_hworld (up_transports <[t := tr]> (h_world h)) h).
Proof.
  intros [L1 L2 L3] Hn. split; cbn; [done|..].
  - intros i u Hu Hu0. rewrite lookup_insert_ne; [by eauto|]. intros ->. apply Hn. by eapply list_elem_of_lookup_2.
  - intros i j u v ur vr Hu Hv Hu0 Hv0. rewrite !lookup_insert_ne.
    + by apply L3.
    + intros ->. apply Hn. by eapply list_elem_of_lookup_2.
    + intros ->. apply Hn. by eapply list_elem_of_lookup_2.
Qed.

Lemma insert_local_ok h i t tr : locals_ok h → t ≠ 0 → w_transports (h_world h) !! t = Some tr →
  t ∉ local_transports h → local_transports h !! i = Some 0 →
  (∀ u ur, u ∈ local_transports h → u ≠ 0 → w_transports (h_world h) !! u = Some ur → t_adb_port ur ≠ t_adb_port tr) →
  locals_ok (up_locals (<[i := t]> (local_transports h)) h).
Proof.
  intros [L1 L2 L3] Ht0 Htr Hn Hi Hp.
  assert (Hport : ∀ j u ur, local_transports h !! j = Some u → u ≠ 0 → w_transports (h_world h) !! u = Some ur →
    t_adb_port ur = t_adb_port tr → False).
  { intros j u ur Hu Hu0 Hur. apply (Hp u ur); [by eapply list_elem_of_lookup_2|done..]. }
  split; cbn.
  - by rewrite length_insert.
  - intros j u [(-> & -> & _)|[Hne Hu]]%list_lookup_insert_Some Hu0; eauto.
  - intros j k u v ur vr [(-> & -> & _)|[Hne Hu]]%list_lookup_insert_Some
      [(-> & -> & _)|[Hne' Hv]]%list_lookup_insert_Some Hu0 Hv0 Hur Hvr E; [done|..].
    + exfalso. rewrite Htr in Hur. injection Hur as <-. by eapply (Hport k v vr).
    + exfalso. rewrite Htr in Hvr. injection Hvr as <-. by eapply (Hport j u ur).
    + by eapply L3.
Qed.

Lemma HW_trans_put t f tr h : w_transports (h_world h) !! t = Some tr →
  HW (trans_put t f) h = Ok tt (up_hworld (up_transports <[t := f tr]> (h_world h)) h).
Proof.
  intros Ht. apply HW_run. by apply trans_put_run.
Qed.

(** the state when the places are looked at: the transport has its link and its
    port, the lock is taken *)
Definition prepared (t s port : Z) (tr : atransport) (h : hworld) : hworld :=
  up_hworld (up_transports <[t := to_adb_port port (to_init CS_OFFLINE kTransportLocal (t_usb tr) s tr)]> (h_world h))
    (up_locals_lock true h).

Lemma prepare_run t s port tr existing h : local_transports_lock h = false →
  w_transports (h_world h) !! t = Some tr →
  find_port (local_transports h) port (prepared t s port tr h) = Ok existing (prepared t s port tr h) →
  host_init_socket_transport t s port true h
  = (do ok <- (if negb (existing =? 0) then ret false
               else match free_slot (local_transports h) 0 with
                    | None => ret false
                    | Some i => modify (λ h, up_locals (<[i := t]> (local_transports h)) h);;; ret true
                    end);
     unlock_locals;;; ret ok) (prepared t s port tr h).
Proof.
  intros Hlk Htr Hfind. unfold host_init_socket_transport, init_socket_transport.
  run (HW_trans_put t (λ tr, to_init CS_OFFLINE kTransportLocal (t_usb tr) s tr) tr h Htr). cbn [negb].
  set (tr1 := to_init _ _ _ _ tr). set (h1 := up_hworld _ h).
  assert (Hlock : lock_locals h1 = Ok tt (up_locals_lock true h1)).
  { unfold lock_locals. rewrite (bind_ok _ _ h1 false h1) by (unfold gets; cbn; by rewrite Hlk). done. }
  run Hlock. run (HW_trans_put t (to_adb_port port) tr1 (up_locals_lock true h1) (lookup_insert_eq _ _ _)).
  assert (E : up_hworld (up_transports <[t := to_adb_port port tr1]> (h_world (up_locals_lock true h1)))
    (up_locals_lock true h1) = prepared t s port tr h).
  { unfold prepared, h1, up_hworld, up_locals_lock; cbn. unfold up_transports; cbn. by rewrite insert_insert_eq. }
  rewrite E. unfold find_emulator_transport_by_adb_port_locked, get_available_local_transport_index_locked.
  rewrite bind_assoc. erewrite bind_ok by done. run Hfind. rewrite bind_assoc. erewrite bind_ok by done.
  by erewrite bind_ok by done.
Qed.

(** The table of emulators: a local connection is registered exactly when
    its port is not registered yet and one of the sixteen places is free; then
    it has the first of them and the port, otherwise the table is unchanged.
    Every port stays in the table at most once, and no lock is left taken. *)
Theorem emulator_registered_once h t s port tr :
  locals_ok h → local_transports_lock h = false → t ≠ 0 → t ∉ local_transports h →
  w_transports (h_world h) !! t = Some tr →
  ∃ ok h', host_init_socket_transport t s port true h = Ok ok h' ∧ locals_ok h'
    ∧ local_transports_lock h' = false
    ∧ (ok = true ↔ (∀ u, ¬ emulator_at h port u) ∧ 0 ∈ local_transports h)
    ∧ if ok then emulator_at h' port t ∧ ∃ i, local_transports h !! i = Some 0
                   ∧ local_transports h' = <[i := t]> (local_transports h)
      else local_transports h' = local_transports h.
Proof.
  intros Hok Hlk Ht0 Hn Htr. set (h3 := prepared t s port tr h).
  set (tr3 := to_adb_port port (to_init CS_OFFLINE kTransportLocal (t_usb tr) s tr)).
  assert (Htr3 : w_transports (h_world h3) !! t = Some tr3) by apply lookup_insert_eq.
  assert (Hok3 : locals_ok (up_locals_lock false h3)) by (destruct (put_transport_ok h t tr3 Hok Hn); by split).
  assert (Hothers : ∀ u ur, u ∈ local_transports h → w_transports (h_world h3) !! u = Some ur ↔ w_transports (h_world h) !! u = Some ur).
  { intros u ur Hu. cbn. rewrite lookup_insert_ne; [done|]. by intros ->. }
  destruct (find_port_run (local_transports h) port h3) as (r & Hr & Hr1 & Hr2).
  { intros u [i Hu]%list_elem_of_lookup Hu0. by apply (lo_slot _ Hok3 i). }
  rewrite (prepare_run t s port tr r h Hlk Htr Hr). fold h3.
  pose proof (free_slot_spec (local_transports h) 0) as Hfs.
  destruct (Z.eqb_spec r 0) as [Hr0|Hr0]; cbn [negb].
  2: { exists false, (up_locals_lock false h3). split_and!; [done..| |done]. split; [done|]. intros [Hno _]. exfalso.
       destruct (Hr1 Hr0) as (Hin & ur & Hur & Hp). apply (Hno r). split_and!; [done..|]. exists ur.
       split; [by apply Hothers|done]. }
  assert (Hfree : ∀ u, ¬ emulator_at h port u).
  { intros u (Hu0 & Hu & ur & Hur & Hp). apply (Hr2 Hr0 u ur Hu Hu0); [by apply Hothers|done]. }
  destruct (free_slot (local_transports h) 0) as [i|].
  2: { exists false, (up_locals_lock false h3). split_and!; [done..| |done]. split; [done|]. by intros [_ ?]. }
  destruct Hfs as (k & -> & Hk). cbn [Nat.add].
  exists true, (up_locals (<[k := t]> (local_transports h)) (up_locals_lock false h3)).
  split; [done|]. split; [|split; [done|split; [|split]]].
  - apply (insert_local_ok (up_locals_lock false h3) k t tr3); try done.
    intros u ur Hu Hu0 Hur. exact (Hr2 Hr0 u ur Hu Hu0 Hur).
  - split; [intros _; split; [done|by eapply list_elem_of_lookup_2]|done].
  - split_and!; [done| |by exists tr3].
    apply list_elem_of_lookup. exists k. apply list_lookup_insert_eq. by apply lookup_lt_Some in Hk.
  - by exists k.
Qed.

Lemma clear_slot_lookup l t i u : clear_slot l t !! i = Some u → u ≠ 0 → l !! i = Some u.
Proof.
  revert i. induction l as [|x l IH]; intros i; cbn; [done|]. destruct (Z.eqb_spec x t) as [->|Hx].
  - destruct i; cbn; [by intros [= <-]|done].
  - destruct i; cbn; [done|]. apply IH.
Qed.
Lemma clear_slot_keeps l t u : u ≠ t → u ≠ 0 → u ∈ l → u ∈ clear_slot l t.
Proof.
  intros Hut Hu0. induction l as [|x l IH]; cbn; [done|]. intros [->|Hu]%elem_of_cons.
  - rewrite (proj2 (Z.eqb_neq x t)) by done. set_solver.
  - destruct (x =? t); set_solver.
Qed.
Lemma clear_slot_gone l t : t ≠ 0 → (∀ i j, l !! i = Some t → l !! j = Some t → i = j) → t ∉ clear_slot l t.
Proof.
  intros Ht0. induction l as [|x l IH]; intros Huniq; cbn; [apply not_elem_of_nil|].
  assert (Hl : ∀ i j, l !! i = Some t → l !! j = Some t → i = j).
  { intros i j Hi Hj. specialize (Huniq (S i) (S j) Hi Hj). lia. }
  destruct (Z.eqb_spec x t) as [->|Hx].
  - intros [?|[i Hi]%list_elem_of_lookup]%elem_of_cons; [done|]. specialize (Huniq 0%nat (S i) eq_refl Hi). lia.
  - intros [?|Hin]%elem_of_cons; [done|]. by apply IH.
Qed.

(** kicking an emulator frees its place in the table, and only that *)
Theorem emulator_released `{HostUsb} h t tr :
  locals_ok h → local_transports_lock h = false → t ≠ 0 →
  w_transports (h_world h) !! t = Some tr → t_type tr = kTransportLocal →
  ∃ h', host_remote_kick t h = Ok tt h' ∧ locals_ok h' ∧ local_transports_lock h' = false
    ∧ t ∉ local_transports h'
    ∧ ∀ u, u ≠ t → u ≠ 0 → u ∈ local_transports h' ↔ u ∈ local_transports h.
Proof.
  intros [L1 L2 L3] Hlk Ht0 Htr Hty. unfold host_remote_kick. run (HW_trans_at t tr h Htr). rewrite Hty.
  set (k' := add_trace (Sys "close" [AZ (t_sfd tr)]) (add_trace (Sys "shutdown" [AZ (t_sfd tr)]) (w_kern_of (h_world h)))).
  set (w1 := up_kern k' (up_transports <[t := to_links (t_usb tr) (-1) tr]> (h_world h))).
  assert (Hk : local_remote_kick t (h_world h) = Ok tt w1).
  { unfold local_remote_kick. run (trans_at_run _ t tr Htr). by run (trans_put_run (h_world h) t (λ tr, to_links (t_usb tr) (-1) tr) tr Htr). }
  run (HW_run _ h _ _ Hk). unfold lock_locals. rewrite bind_assoc, (bind_ok _ _ _ false (up_hworld w1 h))
    by (unfold gets; cbn; by rewrite Hlk).
  eexists. split; [done|].
  assert (Hport : ∀ u ur, w_transports w1 !! u = Some ur → ∃ vr, w_transports (h_world h) !! u = Some vr ∧ t_adb_port vr = t_adb_port ur).
  { intros u ur Hu. change (w_transports w1) with (<[t := to_links (t_usb tr) (-1) tr]> (w_transports (h_world h))) in Hu.
    apply lookup_insert_Some in Hu as [[<- <-]|[_ Hu]]; eauto. }
  assert (Hsome : ∀ u, is_Some (w_transports (h_world h) !! u) → is_Some (w_transports w1 !! u)).
  { intros u Hu. apply lookup_insert_is_Some'. by right. }
  split_and!.
  - split.
    + change (length (clear_slot (local_transports h) t) = ADB_LOCAL_TRANSPORT_MAX). rewrite <- L1. clear.
      induction (local_transports h) as [|x l IH]; cbn; [done|]. destruct (x =? t); cbn; congruence.
    + intros i u Hu Hu0. apply Hsome, (L2 i u); [|done]. exact (clear_slot_lookup _ t i u Hu Hu0).
    + intros i j u v ur vr Hu Hv Hu0 Hv0 Hur Hvr E.
      destruct (Hport u ur Hur) as (ur' & Hur' & E1). destruct (Hport v vr Hvr) as (vr' & Hvr' & E2).
      apply (L3 i j u v ur' vr'); try done; [exact (clear_slot_lookup _ t i u Hu Hu0)|exact (clear_slot_lookup _ t j v Hv Hv0)|congruence].
  - done.
  - apply clear_slot_gone; [done|]. intros i j Hi Hj. by apply (L3 i j t t tr tr).
  - intros u Hut Hu0. split; [|by apply clear_slot_keeps].
    intros [i Hi]%list_elem_of_lookup. apply clear_slot_lookup in Hi; [|done]. by eapply list_elem_of_lookup_2.
Qed.

(** ** The serial number in front of a request *)

(** the names that, with a colon, mark a serial of another kind *)
Definition qualifiers : list (list Z) := [str "usb"; str "product"; str "model"; str "device"].
Lemma prefixes_qualifiers : prefixes = (λ n, n ++ [58]) <$> qualifiers.
Proof. reflexivity. Qed.

Inductive serial_form : list Z → Prop :=
| sf_plain s : 58 ∉ s → s ∉ qualifiers → serial_form s
| sf_tcp h d : 58 ∉ h → h ∉ qualifiers → d ≠ [] → Forall (λ c, isdigit c = true) d → serial_form (h ++ 58 :: d)
| sf_qualified n x : n ∈ qualifiers → 58 ∉ x → serial_form (n ++ 58 :: x).

(** a request does not start with a digit *)
Definition request_form (svc : list Z) : Prop := match svc with c :: _ => isdigit c = false | [] => True end.

Lemma colon_prefix s n r : 58 ∉ s → 58 ∉ n → (n ++ [58]) `prefix_of` (s ++ 58 :: r) ↔ s = n.
Proof.
  intros Hs Hn. split.
  - revert n Hn. induction s as [|x s IH]; intros [|y n] Hn [k Hk]; cbn in Hk.
    + done.
    + injection Hk as <- _. set_solver.
    + injection Hk as -> _. set_solver.
    + injection Hk as -> Hk. f_equal. apply IH; [set_solver|set_solver|]. exists k. by rewrite Hk, <- app_assoc.
  - intros ->. exists r. by rewrite <- app_assoc.
Qed.

Lemma colon_qualifiers n : n ∈ qualifiers → 58 ∉ n.
Proof.
  intros Hn Hc. assert (bool_decide (Exists (λ n, 58 ∈ n) qualifiers) = false) as Hf by (vm_compute; reflexivity).
  apply bool_decide_eq_false_1 in Hf. apply Hf. apply list.Exists_exists. eauto.
Qed.

Lemma skip_prefixed_no l s r : 58 ∉ s → s ∉ l → (∀ n, n ∈ l → 58 ∉ n) →
  skip_prefixed ((λ n, n ++ [58]) <$> l) (s ++ 58 :: r) = None.
Proof.
  intros Hs. induction l as [|n l IH]; intros Hn Hl; cbn [fmap list_fmap skip_prefixed]; [done|].
  destruct (strncmp_eq _ _ _) eqn:E; [|apply IH; set_solver].
  apply strncmp_eq_prefix, colon_prefix in E; [|done|set_solver]. set_solver.
Qed.
Lemma skip_prefixed_yes l n r : n ∈ l → (∀ n, n ∈ l → 58 ∉ n) →
  skip_prefixed ((λ n, n ++ [58]) <$> l) (n ++ 58 :: r) = Some (strchr r 58).
Proof.
  intros Hn Hl. induction l as [|m l IH]; [by apply not_elem_of_nil in Hn|]. cbn [fmap list_fmap skip_prefixed].
  destruct (strncmp_eq _ _ _) eqn:E.
  - apply strncmp_eq_prefix, colon_prefix in E as ->; [|set_solver..].
    replace (m ++ 58 :: r) with ((m ++ [58]) ++ r) by by rewrite <- app_assoc. by rewrite drop_app_exact.
  - apply elem_of_cons in Hn as [->|Hn]; [|apply IH; set_solver]. exfalso.
    assert (strncmp_eq (m ++ 58 :: r) (m ++ [58]) (length (m ++ [58])) = true) as E' by (apply strncmp_eq_prefix, colon_prefix; set_solver).
    congruence.
Qed.

Lemma strchr_app s c r : c ∉ s → strchr (s ++ c :: r) c = Some (c :: r).
Proof.
  induction s as [|x s IH]; intros Hn; cbn; [by rewrite Z.eqb_refl|].
  rewrite (proj2 (Z.eqb_neq x c)) by set_solver. apply IH. set_solver.
Qed.
Lemma skip_digits_app d r : Forall (λ c, isdigit c = true) d → request_form r → Sockets.skip_digits (d ++ r) = r.
Proof.
  induction 1 as [|c d Hc _ IH]; intros Hr; cbn; [|rewrite Hc; by apply IH].
  destruct r as [|c r]; [done|]. cbn in Hr |- *. by rewrite Hr.
Qed.

Lemma skip_serial ser svc : serial_form ser → request_form svc →
  skip_host_serial (ser ++ 58 :: svc) = Some (58 :: svc).
Proof.
  intros Hf Hr. unfold skip_host_serial. rewrite prefixes_qualifiers.
  destruct Hf as [s Hs Hq|h d Hh Hq Hd Hdig|n x Hn Hx].
  - rewrite (skip_prefixed_no qualifiers s svc Hs Hq colon_qualifiers), strchr_app by done. cbn [tail].
    destruct svc as [|c svc]; [done|]. cbn in Hr. by rewrite Hr.
  - rewrite <- app_assoc. cbn [app]. rewrite (skip_prefixed_no qualifiers h _ Hh Hq colon_qualifiers), strchr_app by done.
    cbn [tail]. pose proof (skip_digits_app d (58 :: svc) Hdig eq_refl) as Hsd.
    destruct d as [|c d]; [done|]. cbn [app] in *. apply list.Forall_cons in Hdig as [Hc _]. by rewrite Hc, Hsd.
  - rewrite <- app_assoc. cbn [app]. rewrite (skip_prefixed_yes qualifiers n _ Hn colon_qualifiers).
    by apply strchr_app.
Qed.

Lemma starts_app (p : string) r : starts (str p ++ r) p = true.
Proof.
  unfold starts. assert (String.length p = length (str p)) as ->.
  { unfold str. rewrite length_fmap. clear r. induction p as [|c p IH]; cbn; [done|]. by rewrite IH. }
  apply strncmp_eq_prefix. by exists r.
Qed.

(** A request for a device: the serial number and the service that a client
    joins with a colon are what the server takes apart, for plain serial numbers,
    for the address and port of a TCP device and for the qualified forms (usb:,
    product:, model:, device:), although these contain colons themselves. *)
Theorem host_serial_roundtrip ser svc : serial_form ser → request_form svc →
  host_request (str "host-serial:" ++ ser ++ [58] ++ svc) = Some (svc, kTransportAny, Some ser).
Proof.
  intros Hf Hr. unfold host_request. rewrite starts_app.
  change (drop 12 (str "host-serial:" ++ ser ++ [58] ++ svc)) with (ser ++ 58 :: svc).
  rewrite (skip_serial ser svc Hf Hr). cbn [tail]. rewrite length_app, Nat.add_sub, take_app_length. done.
Qed.

(** a device on a port, and a service that starts like one *)
Lemma host_serial_roundtrip_witness :
  host_request (str "host-serial:10.0.0.7:5555:get-state") = Some (str "get-state", kTransportAny, Some (str "10.0.0.7:5555")).
Proof.
  apply (host_serial_roundtrip (str "10.0.0.7:5555") (str "get-state")).
  - apply (sf_tcp (str "10.0.0.7") (str "5555")).
    + apply (bool_decide_eq_false_1 _). vm_compute. reflexivity.
    + apply (bool_decide_eq_false_1 _). vm_compute. reflexivity.
    + discriminate.
    + repeat constructor.
  - reflexivity.
Defined.

(** ** Flaws of connect_device *)

Lemma strchr_none s c : c ∉ s → strchr s c = None.
Proof.
  induction s as [|x s IH]; intros Hn; cbn; [done|]. rewrite (proj2 (Z.eqb_neq x c)) by set_solver.
  apply IH. set_solver.
Qed.

(** strncpy of 99 characters does not terminate the array: a host name of that
    length without a port is read past what was written. *)
Theorem long_host_unterminated `{HostUsb} host h : 58 ∉ host → (99 ≤ length host)%nat →
  connect_device host h = Fault Uninitialised h.
Proof.
  intros Hn Hl. unfold connect_device. rewrite (strchr_none host 58 Hn). unfold hostbuf, bind, deref.
  by rewrite decide_False by lia.
Qed.

(** sscanf of an empty text returns EOF, which is not 0: the port of "host:" is
    used without having a value. *)
Theorem missing_port_uninitialised `{HostUsb} host h : 58 ∉ host → (length host < 100)%nat →
  connect_device (host ++ [58]) h = Fault Uninitialised h.
Proof.
  intros Hn Hl. unfold connect_device. rewrite (strchr_app host 58 [] Hn). rewrite length_app, Nat.add_sub.
  rewrite decide_False by lia. done.
Qed.

(** ** Example *)

Module DemoHost.
Definition emulator (port : Z) : atransport :=
  mkTrans 10 12 13 11 2 1 CS_DEVICE true kTransportLocal 0 9 None None None None None port false (replicate 20 0) 0.
(** the emulator 32 on port 5555 is in the third place, the transport 64 is new *)
Definition world : hworld :=
  mkHw (up_transports (λ _, {[ 32 := emulator 5555; 64 := emulator 0 ]}) (start_world (mkKern 0 ∅ ∅ ∅ [] [] [])))
    (<[2%nat := 32]> (replicate 16 0)) false ∅.
End DemoHost.

Lemma demo_host_ok : locals_ok DemoHost.world.
Proof.
  assert (Hslot : ∀ i t, local_transports DemoHost.world !! i = Some t → t ≠ 0 → i = 2%nat ∧ t = 32).
  { intros i t Hi Ht0. change (local_transports DemoHost.world) with (<[2%nat := 32]> (replicate 16 0)) in Hi.
    apply list_lookup_insert_Some in Hi as [(<- & <- & _)|[_ [-> _]%lookup_replicate]]; done. }
  split.
  - reflexivity.
  - intros i t Hi Ht0. destruct (Hslot i t Hi Ht0) as [_ ->]. eexists. vm_compute. reflexivity.
  - intros i j t u tr ur Hi Hj Ht0 Hu0 _ _ _.
    by destruct (Hslot i t Hi Ht0) as [-> _], (Hslot j u Hj Hu0) as [-> _].
Qed.

Lemma emulator_registered_once_witness : ∃ h',
  host_init_socket_transport 64 9 5557 true DemoHost.world = Ok true h' ∧ emulator_at h' 5557 64
  ∧ host_init_socket_transport 64 9 5555 true DemoHost.world = Ok false (final (host_init_socket_transport 64 9 5555 true DemoHost.world)).
Proof.
  destruct (emulator_registered_once DemoHost.world 64 9 5557 (DemoHost.emulator 0)) as (ok & h' & Hrun & _ & _ & _ & Hres).
  - exact demo_host_ok.
  - reflexivity.
  - discriminate.
  - apply (bool_decide_eq_false_1 _). vm_compute. reflexivity.
  - vm_compute. reflexivity.
  - exists h'. assert (ok = true) as ->.
    { assert (match host_init_socket_transport 64 9 5557 true DemoHost.world with Ok b _ => b | _ => false end = true) as E
        by (vm_compute; reflexivity). by rewrite Hrun in E. }
    split; [exact Hrun|]. split; [exact (proj1 Hres)|]. vm_compute. reflexivity.
Defined.

(** ** Starting the server *)

(** The parent reports success exactly when the server wrote its three bytes in
    one piece; it closes both ends of the pipe in any case. *)
Theorem await_server_result fd0 fd1 k : fd0 ≠ fd1 → ∃ r k' rest,
  await_server fd0 fd1 k = Ok r k'
  ∧ (r = 0 ↔ fst (read_script (rd_of fd0 k) 3) = inl (str "OK" ++ [10]))
  ∧ (r = 0 ∨ r = -1)
  ∧ k_trace k' = k_trace k ++ [Sys "close" [AZ fd1]; Sys "close" [AZ fd0]] ++ rest
  ∧ rest = if decide (r = 0) then [Sys "setsid" []] else [].
Proof.
  intros Hne. unfold await_server, adb_close, note, modify, bind, adb_read, ret.
  change (rd_of fd0 (add_trace (Sys "close" [AZ fd1]) k)) with (rd_of fd0 k).
  destruct (read_script (rd_of fd0 k) 3) as [[bs|e] s'] eqn:Hr; cbn [fst].
  - case_bool_decide as Hb.
    + exists 0. do 2 eexists. split; [done|]. split; [split; [by intros _|done]|]. split; [by left|].
      split; [|done]. cbn. by rewrite <- !app_assoc.
    + exists (-1). do 2 eexists. split; [done|]. split; [split; [done|congruence]|]. split; [by right|].
      split; [|done]. cbn. by rewrite <- !app_assoc.
  - rewrite bool_decide_eq_false_2 by done. exists (-1). do 2 eexists. split; [done|].
    split; [split; done|]. split; [by right|]. split; [|done]. cbn. by rewrite <- !app_assoc.
Qed.

(** With fork, a child that cannot start the server reports success as well:
    launch_server returns 0 in a second process that goes on as the client. *)
Theorem failed_exec_reports_success port : ∃ k k',
  launch_server false port k = Ok (Some 0) k'
  ∧ Sys "setsid" [] ∉ k_trace k'.
Proof.
  exists (mkKern 0 ∅ ∅ ∅ [SysRes 0 0 [5; 6]; SysRes 0 0 []; SysRes (-1) 2 []] [] []).
  unfold launch_server, launch_child. generalize (server_args port). intros args. eexists.
  split; [lazy; reflexivity|]. cbn. rewrite !not_elem_of_cons. split_and!; try done. apply not_elem_of_nil.
Qed.
