(* ===== verification/HostMain.v ===== *)
(** * The protocol engine of the host and its start (code under ADB_HOST)

    The packets of a device as the host handles them: it connects first,
    answers the tokens of the device with the signatures of its keys, one after
    the other, and goes online when the device accepts it.  Then the threads,
    event functions and start-up of the host.

    The keys of the host (adb_auth_host.c), its USB access and its command line
    (commandline.c) are not part of the sources: they are the classes
    [HostAuth] and [HostStart]. *)

From S2P Require Import Prelude Kernel SockUtil Packet DList Fdevent Trace World Transport Listing Sockets Jdwp Adb Daemon FileSync OneShot Services Host.

Class HostAuth := {
  adb_auth_nextkey : Z → M world Z;                (* the key after this one; 0: NULL *)
  adb_auth_sign : Z → list Z → M world (list Z);   (* the signature of a token; none: result 0 *)
  adb_auth_get_userkey : M world (list Z);         (* the public key; none: result 0 *)
}.
Class HostStart := {
  usb_vendors_init : M world unit;
  host_usb_init : M world unit;
  host_auth_init : M world unit;                   (* adb_auth_init *)
  host_usb_read : Z → nat → M world (option (list Z));
  host_usb_write : Z → list Z → M world bool;
  adb_commandline : list (list Z) → M hworld Z;
}.

(** ** Services a device may open on the host (services.c) *)

Definition dns_thread (hostname : list Z) (rfd wfd : Z) : M kern Z :=
  sys_ "pthread_create" [AZ rfd; AZ wfd; AS (str "dns_service"); AS hostname].

Definition host_service_to_fd (name : list Z) : M kern (option (Z * Z)) :=
  if prefixed name "tcp:" then
    let port := atoi (drop 4 name) in
    connected
      match strchr (drop 4 name) 58 with
      | Some host => socket_network_client (tail host) port SOCK_STREAM
      | None =>
          do r <- socket_loopback_client port SOCK_STREAM;
          when (0 <=? r) (disable_tcp_nagle r);;; ret r
      end
  else if prefixed name "local:" then
    connected (socket_local_client (drop 6 name) ANDROID_SOCKET_NAMESPACE_RESERVED SOCK_STREAM)
  else if prefixed name "localreserved:" then
    connected (socket_local_client (drop 14 name) ANDROID_SOCKET_NAMESPACE_RESERVED SOCK_STREAM)
  else if prefixed name "localabstract:" then
    connected (socket_local_client (drop 14 name) ANDROID_SOCKET_NAMESPACE_ABSTRACT SOCK_STREAM)
  else if prefixed name "localfilesystem:" then
    connected (socket_local_client (drop 16 name) ANDROID_SOCKET_NAMESPACE_FILESYSTEM SOCK_STREAM)
  else if prefixed name "dns:" then
    do ok <- malloc_ok;
    if ok then start_service (dns_thread (drop 4 name)) else ret None
  else ret None.

Definition host_create_local_service_socket (name : list Z) : M world Z :=
  do r <- KW (host_service_to_fd name);
  match r with
  | None => ret 0
  | Some (fd0, fd1) => if fd0 =? fd1 then create_local_socket fd0 else create_local_socket_pair fd0 fd1
  end.

(** ** handle_packet with HOST = 1 (adb.c) *)

Definition host_connect_data : list Z := str "host::" ++ [0].
Definition host_send_connect (t : Z) : M world unit :=
  do p <- get_apacket;
  let d := host_connect_data in
  pkt_put p (λ pk, with_data (msg_set A_CNXN A_VERSION MAX_PAYLOAD (Z.of_nat (length d)) pk) d);;;
  send_packet p t.

Definition host_handle_sync (p t : Z) (pk : apacket) : M world unit :=
  if negb (arg0 (p_msg pk) =? 0) then send_packet p t;;; host_send_connect t
  else
    trans_put t (to_state CS_OFFLINE);;;
    handle_offline t;;;
    send_packet p t.

(** the kinds of device for which the trackers are told *)
Definition known_type (type : list Z) : bool :=
  existsb (λ s, strcmp_eq type (str s)) ["bootloader"; "device"; "recovery"; "sideload"]%string.
Definition host_parse_banner (banner : list Z) (t : Z) : M world unit :=
  parse_banner banner t;;;
  when (known_type (before banner 58)) update_transports.

Definition host_handle_cnxn (t : Z) (pk : apacket) : M world unit :=
  do tr <- trans_at t;
  when (negb (t_connection_state tr =? CS_OFFLINE))
    (trans_put t (to_state CS_OFFLINE);;; handle_offline t);;;
  do banner <- deref Uninitialised (λ _, cstring (p_data pk));
  host_parse_banner banner t;;;
  handle_online t.

Definition host_handle_open (p t : Z) (pk : apacket) : M world unit :=
  do tr <- trans_at t;
  if negb (t_online tr) then ret tt
  else
    let m := p_msg pk in
    do d <- deref Uninitialised (λ _,
      store_byte (Z.to_nat (if 0 <? data_length m then data_length m - 1 else 0)) 0 (p_data pk));
    pkt_put p (λ pk, with_data pk d);;;
    do name <- deref OutOfBounds (λ _, cstring d);
    do s <- host_create_local_service_socket name;
    if s =? 0 then send_close 0 (arg0 m) t
    else
      do r <- create_remote_socket (arg0 m) t;
      sock_put s (so_peer r);;;
      sock_put r (so_peer s);;;
      do so <- sock_at s;
      do ro <- sock_at r;
      send_ready (s_id so) (s_id ro) t;;;
      call_ready s.

Section engine.
Context `{HostAuth} `{HostUsb}.

(** an AUTH packet with this argument and data; the packet was allocated before
    the data was computed *)
Definition send_auth_data (p arg : Z) (d : list Z) (t : Z) : M world unit :=
  match d with
  | [] => put_apacket p
  | _ =>
      pkt_put p (λ pk, with_data (msg_set A_AUTH arg 0 (Z.of_nat (length d)) pk) d);;;
      send_packet p t
  end.
Definition send_auth_response (token : list Z) (key t : Z) : M world unit :=
  do p <- get_apacket;
  do sig <- adb_auth_sign key token;
  send_auth_data p ADB_AUTH_SIGNATURE sig t.
Definition host_send_auth_publickey (t : Z) : M world unit :=
  do p <- get_apacket;
  do key <- adb_auth_get_userkey;
  send_auth_data p ADB_AUTH_RSAPUBLICKEY key t.

(** adb_auth_verify, adb_auth_generate_token and adb_auth_confirm_key are the
    empty functions of adb_auth.h *)
Definition host_handle_auth (t : Z) (pk : apacket) : M hworld unit :=
  let m := p_msg pk in
  if arg0 m =? ADB_AUTH_TOKEN then
    do _ <- HW (trans_at t);
    do key <- gets (λ h, default 0 (h_keys h !! t));
    do key <- HW (adb_auth_nextkey key);
    modify (up_keys <[t := key]>);;;
    if negb (key =? 0) then
      do token <- HW (deref Uninitialised (λ _, payload pk (data_length m)));
      HW (send_auth_response token key t)
    else HW (host_send_auth_publickey t)
  else if arg0 m =? ADB_AUTH_SIGNATURE then
    do tr <- HW (trans_at t);
    HW (trans_put t (λ tr, to_auth (t_token tr) (u32 (t_failed_auth_attempts tr + 1)) tr));;;
    when (10 <? t_failed_auth_attempts tr) (HK (adb_sleep_ms 1000))
  else ret tt.

Definition host_call_enqueue (s p : Z) : M hworld Z :=
  do so <- HW (sock_at s);
  match s_enqueue so with
  | smart_socket_enqueue_ => host_smart_socket_enqueue s p
  | _ => HW (call_enqueue s p)
  end.

Definition host_handle_wrte (p t : Z) (pk : apacket) : M hworld bool :=
  do tr <- HW (trans_at t);
  if negb (t_online tr) then ret false
  else
    do s <- HW (find_local_socket (arg1 (p_msg pk)));
    if s =? 0 then ret false
    else
      HW (pkt_put p (λ pk, with_len pk (data_length (p_msg pk))));;;
      do r <- host_call_enqueue s p;
      (if r =? 0 then do so <- HW (sock_at s); HW (send_ready (s_id so) (arg0 (p_msg pk)) t) else ret tt);;;
      ret true.

Definition host_handle_packet (p t : Z) : M hworld unit :=
  do pk <- HW (pkt_at p);
  let c := command (p_msg pk) in
  if c =? A_SYNC then HW (host_handle_sync p t pk)
  else if c =? A_WRTE then
    do taken <- host_handle_wrte p t pk;
    if (taken : bool) then ret tt else HW (put_apacket p)
  else
    (if c =? A_CNXN then HW (host_handle_cnxn t pk)
     else if c =? A_AUTH then host_handle_auth t pk
     else if c =? A_OPEN then HW (host_handle_open p t pk)
     else if c =? A_OKAY then HW (handle_okay t pk)
     else if c =? A_CLSE then HW (handle_clse t pk)
     else ret tt);;;
    HW (put_apacket p).

(** ** Event functions of the main loop *)

Definition host_socket_readable (d s : Z) : M hworld bool :=
  do p <- HW get_apacket;
  do n <- gets (λ h, length (rd_of d (w_kern_of (h_world h))));
  do '(bs, r, is_eof) <- HW (fill_packet (2 + n) d (Z.to_nat MAX_PAYLOAD) []);
  HW (pkt_put p (λ pk, with_data pk bs));;;
  do so <- HW (sock_at s);
  do res <- (if bool_decide (bs = []) || (s_peer so =? 0) then HW (put_apacket p);;; ret (r, false)
             else
               HW (pkt_put p (λ pk, with_len pk (Z.of_nat (length bs))));;;
               do r <- host_call_enqueue (s_peer so) p;
               if r <? 0 then ret (r, true)
               else
                 when (0 <? r) (HW (FD (fdevent_del (fde_of s) FDE_READ)));;;
                 ret (r, false));
  let '(r, early) := res in
  if (early : bool) then ret true
  else
    do f <- HW (FD (fde_at (fde_of s)));
    when ((force_eof f && (r =? 0)) || is_eof) (HW (call_close s));;;
    ret false.
Definition host_local_socket_event_func (d ev s : Z) : M hworld unit :=
  if has ev FDE_WRITE then HW (socket_writable s)
  else if has ev FDE_READ then do _ <- host_socket_readable d s; ret tt
  else ret tt.

Definition host_transport_socket_events (d ev t : Z) : M hworld unit :=
  if negb (has ev FDE_READ) then ret tt
  else
    do r <- HK (read_packet d);
    match r with
    | None => ret tt
    | Some p => host_handle_packet p t
    end.

(** both branches end with update_transports *)
Definition host_transport_registration_func (d ev : Z) : M world unit :=
  if negb (has ev FDE_READ) then ret tt
  else transport_registration_func d ev;;; update_transports.

(** the other event functions belong to the device only *)
Fixpoint host_dispatch (fuel : nat) (c : fd_call) : M hworld unit :=
  match fuel with
  | O => fail OutOfFuel
  | S fuel' =>
      match c_func c with
      | fdevent_subproc_event_func_ =>
          fdevent_subproc_event_func (λ h, w_fd (h_world h)) (λ f h, up_hworld (up_fd f (h_world h)) h)
            (host_dispatch fuel') (c_fd c) (c_events c)
      | local_socket_event_func_ => host_local_socket_event_func (c_fd c) (c_events c) (c_arg c)
      | ss_listener_event_func_ => HW (ss_listener_event_func (c_fd c) (c_events c))
      | listener_event_func_ => HW (listener_event_func (c_fd c) (c_events c) (c_arg c))
      | transport_socket_events_ => host_transport_socket_events (c_fd c) (c_events c) (c_arg c)
      | transport_registration_func_ => HW (host_transport_registration_func (c_fd c) (c_events c))
      | adb_auth_event_ | adb_auth_listener_ | jdwp_process_event_ | jdwp_control_event_ => fail NullDeref
      end
  end.

Section start.
Context `{HostStart}.

(** ** The threads of a transport (transport.c, with the links of the host) *)

Definition host_usb_remote_read (h : Z) : M world (option apacket) :=
  do hd <- host_usb_read h sizeof_amessage;
  match hd with
  | None => ret None
  | Some bs =>
      let p := with_msg zero_packet (msg_of_bytes bs) in
      if negb (check_header p) then ret None
      else if negb (data_length (p_msg p) =? 0) then
        do d <- host_usb_read h (Z.to_nat (data_length (p_msg p)));
        match d with
        | None => ret None
        | Some body => KW (accept_data (with_data p body))
        end
      else KW (accept_data p)
  end.
Definition host_usb_remote_write (h : Z) (p : apacket) : M world bool :=
  do ok <- host_usb_write h (msg_bytes (p_msg p));
  if negb ok then ret false
  else if data_length (p_msg p) =? 0 then ret true
  else
    match payload p (data_length (p_msg p)) with
    | None => fail Uninitialised
    | Some body => host_usb_write h body
    end.
Definition host_read_from_remote (t : Z) : M world (option apacket) :=
  do tr <- trans_at t;
  match t_type tr with
  | kTransportUsb => host_usb_remote_read (t_usb tr)
  | _ => KW (TransportLocal.remote_read {| TransportLocal.sfd := t_sfd tr |})
  end.
Definition host_write_to_remote (pk : apacket) (t : Z) : M world bool :=
  do tr <- trans_at t;
  match t_type tr with
  | kTransportUsb => host_usb_remote_write (t_usb tr) pk
  | _ => KW (TransportLocal.remote_write {| TransportLocal.sfd := t_sfd tr |} pk)
  end.

Definition host_thread_exit (t : Z) : M hworld unit := host_kick_transport t;;; host_transport_unref t.

Definition host_output_thread_start (t : Z) : M hworld bool :=
  do p <- HW get_apacket;
  HW (trans_put t (λ tr, to_sync_token (u32 (t_sync_token tr + 1)) tr));;;
  do tr <- HW (trans_at t);
  HW (pkt_put p (sync_msg 1 (t_sync_token tr)));;;
  do ok <- HK (write_packet (t_fd_write tr) p);
  if ok then ret true else HW (put_apacket p);;; host_thread_exit t;;; ret false.
Definition host_output_thread_end (t : Z) : M hworld unit :=
  do p <- HW get_apacket;
  HW (pkt_put p (sync_msg 0 0));;;
  do tr <- HW (trans_at t);
  do ok <- HK (write_packet (t_fd_write tr) p);
  (if ok then ret tt else HW (put_apacket p));;;
  host_thread_exit t.
Definition host_output_thread_step (t : Z) : M hworld bool :=
  do p <- HW get_apacket;
  do r <- HW (host_read_from_remote t);
  match r with
  | Some pk =>
      HW (pkt_put p (λ _, pk));;;
      do tr <- HW (trans_at t);
      do ok <- HK (write_packet (t_fd_write tr) p);
      if ok then ret true else HW (put_apacket p);;; host_thread_exit t;;; ret false
  | None => HW (put_apacket p);;; host_output_thread_end t;;; ret false
  end.

Definition host_input_thread_end (t : Z) : M hworld unit :=
  HW (close_all_sockets t);;; host_thread_exit t.
Definition host_input_thread_step (t : Z) (active : bool) : M hworld (option bool) :=
  do tr <- HW (trans_at t);
  do r <- HK (read_packet (t_fd_read tr));
  match r with
  | None => host_input_thread_end t;;; ret None
  | Some p =>
      do pk <- HW (pkt_at p);
      let m := p_msg pk in
      if command m =? A_SYNC then
        if arg0 m =? 0 then HW (put_apacket p);;; host_input_thread_end t;;; ret None
        else
          do tr <- HW (trans_at t);
          HW (put_apacket p);;;
          ret (Some (if arg1 m =? t_sync_token tr then true else active))
      else
        (if active then do _ <- HW (host_write_to_remote pk t); ret tt else ret tt);;;
        HW (put_apacket p);;;
        ret (Some active)
  end.

(** ** Start-up (adb.c, transport_local.c) *)

Definition host_local_init (port : Z) : M world unit := thread_create "thread:client_socket_thread" port.

(** the parent waits for "OK" on the standard error of a server it launched *)
Definition host_adb_main_init (is_daemon : bool) (server_port : Z) : M world unit :=
  KW (note "atexit" []);;;
  KW (note "signal" [AS (str "SIGPIPE"); AS (str "SIG_IGN")]);;;
  init_transport_registration;;;
  usb_vendors_init;;;
  host_usb_init;;;
  host_local_init DEFAULT_ADB_LOCAL_TRANSPORT_PORT;;;
  host_auth_init;;;
  do r <- install_listener (build_local_name server_port) (str "*smartsocket*") 0 false;
  (if r =? 0 then ret tt else exit 1);;;
  when is_daemon (do _ <- KW (writex 2 (str "OK" ++ [10])); start_logging).
(** the first [n] rounds of the loop *)
Definition host_adb_main (is_daemon : bool) (server_port : Z) (n : nat) : M hworld unit :=
  HW (host_adb_main_init is_daemon server_port);;;
  fdevent_loop (λ h, w_fd (h_world h)) (λ f h, up_hworld (up_fd f (h_world h)) h) (host_dispatch DISPATCH_DEPTH) n.

(** [trace]: the variable ADB_TRACE; the mask is used by the tracing macros only *)
Definition host_main (trace : option (list Z)) (argv : list (list Z)) : M hworld Z :=
  do _ <- deref OutOfBounds (λ _, adb_trace_init trace 0);
  adb_commandline (tail argv).
End start.
End engine.
