(* ===== verification/Handshake.v ===== *)
(** * The handshake between host and device

    The protocol engines of both sides together: the host connects, the device
    (with authentication enabled) sends tokens, the host answers with the
    signatures of its keys, one after the other.  Which key brings the device
    online, and what happens when none does, is computed by a reference
    function; the packets the two engines exchange follow it.

    The keys of the host and the RSA code of either side are parameters: the
    host goes through a list of keys, and [sign] is what a key makes of a
    token.  Nothing relates [sign] to the verification of the device. *)

From S2P Require Import Prelude Kernel Packet DList Fdevent World Transport Sockets Adb Daemon Flow Closing TransportProps Pipeline AuthClient Host HostProps HostMain.

(** ** Packets on their way *)

(** a packet with data as send_packet completes it *)
Definition data_packet (c a0 a1 : Z) (d : list Z) : apacket :=
  mkPacket 0 0 (mkMsg c a0 a1 (Z.of_nat (length d)) (sum32 d) (Z.lxor c 0xffffffff)) d.
Lemma data_packet_payload c a0 a1 d :
  payload (data_packet c a0 a1 d) (Z.of_nat (length d)) = Some d.
Proof. apply payload_full. Qed.

(** the output thread has put a packet on the heap *)
Definition arrived (pk : apacket) (w : world) : world :=
  up_packets <[next_loc (w_fd w) := pk]> (bumped w).

(** transport [t], with the pipe [f], can send [n] packets *)
Record speaks (t f : Z) (n : nat) (w : world) : Prop := {
  sp_transport : ∃ tr, w_transports w !! t = Some tr ∧ t_transport_write tr = f;
  sp_oom : k_oom (w_kern_of w) = [];
  sp_cap : (4 * n ≤ wcap (wr_of f (w_kern_of w)))%nat;
  sp_heap : ∀ p, next_loc (w_fd w) ≤ p → w_packets w !! p = None;
}.

(** [pk], at the address [p], is the last packet sent *)
Definition emits (f : Z) (pk : apacket) (w w' : world) : Prop :=
  ∃ p, out_of f (w_kern_of w') = out_of f (w_kern_of w) ++ le32 p ∧ w_packets w' !! p = Some pk.

(** what sending a new packet does *)
Record emitted (f : Z) (pk : apacket) (w w' : world) : Prop := {
  em_packets : w_packets w' = <[next_loc (w_fd w) := pk]> (w_packets w);
  em_loc : next_loc (w_fd w') = next_loc (w_fd w) + 16;
  em_out : out_of f (w_kern_of w') = out_of f (w_kern_of w) ++ le32 (next_loc (w_fd w));
  em_cap : (wcap (wr_of f (w_kern_of w')) = wcap (wr_of f (w_kern_of w)) - 4)%nat;
  em_oom : k_oom (w_kern_of w') = k_oom (w_kern_of w);
  em_sys : k_sys (w_kern_of w') = k_sys (w_kern_of w);
  em_transports : w_transports w' = w_transports w;
  em_keys : key_list w' = key_list w;
  em_banner : adb_device_banner w' = adb_device_banner w;
}.

Lemma send_data_run w t f n c a0 a1 d : t ≠ 0 → speaks t f (S n) w →
  let p := next_loc (w_fd w) in
  ∃ w', (pkt_put p (λ pk, with_data (msg_set c a0 a1 (Z.of_nat (length d)) pk) d);;; send_packet p t)
      (allocated w) = Ok tt w' ∧ emitted f (data_packet c a0 a1 d) w w'.
Proof.
  intros H0 [(tr & Ht & Hf) Ho Hc Hh] p. subst f.
  set (g := λ pk, with_data (msg_set c a0 a1 (Z.of_nat (length d)) pk) d).
  run (pkt_put_run (allocated w) p g zero_packet (lookup_insert_eq _ _ _)).
  set (w1 := up_packets <[p := g zero_packet]> (allocated w)).
  destruct (send_packet_run w1 p (g zero_packet) d t tr) as (k' & -> & Hout & Hs & Hcap);
    [apply lookup_insert_eq|apply payload_full|done|done|change (w_kern_of w1) with (w_kern_of w); lia|].
  eexists. split; [done|]. split; try done.
  - cbn. by rewrite !insert_insert_eq.
  - exact (sbw_oom _ _ _ Hs).
  - exact (sbw_sys _ _ _ Hs).
Qed.

Lemma emitted_speaks t f n pk w w' : speaks t f (S n) w → emitted f pk w w' → speaks t f n w'.
Proof.
  intros [Ht Ho Hc Hh] []. split.
  - by rewrite em_transports0.
  - congruence.
  - lia.
  - intros q Hq. rewrite em_packets0, lookup_insert_ne by lia. apply Hh. lia.
Qed.
Lemma arrived_speaks t f n pk w : speaks t f n w → speaks t f n (arrived pk w).
Proof.
  intros [Ht Ho Hc Hh]. split; [done..|]. intros q Hq.
  change (next_loc (w_fd w) + 16 ≤ q) in Hq. cbn. rewrite lookup_insert_ne by lia. apply Hh. lia.
Qed.
Lemma freed_speaks t f n p w : speaks t f n w → speaks t f n (up_packets (delete p) w).
Proof.
  intros [Ht Ho Hc Hh]. split; [done..|]. intros q Hq. cbn.
  destruct (decide (q = p)) as [->|Hne]; [apply lookup_delete_eq|].
  rewrite lookup_delete_ne by done. by apply Hh.
Qed.
Lemma trans_speaks t f n tr w : t_transport_write tr = f → speaks t f n w →
  speaks t f n (up_transports <[t := tr]> w).
Proof.
  intros Hf [Ht Ho Hc Hh]. split; [|done..]. exists tr. split; [apply lookup_insert_eq|done].
Qed.
(** system calls, errno and the trace do not matter *)
Record same_io (k k' : kern) : Prop := {
  io_wr : k_wr k' = k_wr k; io_out : k_out k' = k_out k; io_oom : k_oom k' = k_oom k }.
Lemma io_speaks t f n w k' : same_io (w_kern_of w) k' → speaks t f n w → speaks t f n (up_kern k' w).
Proof.
  intros [Hw _ Hm] [Ht Ho Hc Hh]. split; [done| | |done].
  - change (k_oom k' = []). congruence.
  - change (w_kern_of (up_kern k' w)) with k'. unfold wr_of. by rewrite Hw.
Qed.

(** the handler has freed the packet that arrived *)
Lemma emitted_emits f pk w w1 w2 : next_loc (w_fd w1) = next_loc (w_fd w) + 16 →
  out_of f (w_kern_of w1) = out_of f (w_kern_of w) → emitted f pk w1 w2 →
  emits f pk w (up_packets (delete (next_loc (w_fd w))) w2).
Proof.
  intros Hl Ho []. exists (next_loc (w_fd w1)). split.
  - change (w_kern_of (up_packets _ w2)) with (w_kern_of w2). congruence.
  - cbn. rewrite lookup_delete_ne by lia. rewrite em_packets0. apply lookup_insert_eq.
Qed.
Lemma emitted_keeps_packet f pk w w' p q : emitted f pk w w' → w_packets w !! p = Some q →
  p < next_loc (w_fd w) → w_packets w' !! p = Some q.
Proof. intros [] Hp Hlt. rewrite em_packets0, lookup_insert_ne by lia. done. Qed.

(** ** The device *)

Definition challenge (tok : list Z) : apacket := data_packet A_AUTH ADB_AUTH_TOKEN 0 tok.
Definition response (sig : list Z) : apacket := data_packet A_AUTH ADB_AUTH_SIGNATURE 0 sig.
Definition public_key (key : list Z) : apacket := data_packet A_AUTH ADB_AUTH_RSAPUBLICKEY 0 key.
Definition host_connect : apacket := data_packet A_CNXN A_VERSION MAX_PAYLOAD host_connect_data.
Definition device_connect (banner : list Z) : apacket :=
  data_packet A_CNXN A_VERSION MAX_PAYLOAD (connect_data banner ++ [0]).

(** what an open of /dev/urandom gives *)
Definition random_file (tok : list Z) : sysres := SysRes 1 0 tok.

Section device.
Context `{Mincrypt} `{Services} (t f : Z) (trusted : list (list Z)) (banner : list Z).
Context (Ht0 : t ≠ 0) (Hbanner : Z.of_nat (length (connect_data banner)) < MAX_PAYLOAD).

Definition device_handles (pk : apacket) (d : world) (reply : apacket) (d' : world) : Prop :=
  @handle_packet _ device_auth (next_loc (w_fd d)) t (arrived pk d) = Ok tt d' ∧ emits f reply d d'.
Definition is_online (w : world) : Prop := ∃ tr, w_transports w !! t = Some tr ∧ t_online tr = true.

(** offline, with the token [tok] sent last; [toks] are the next bytes of
    /dev/urandom, and [n] more packets fit *)
Record waiting (n : nat) (tok : list Z) (toks : list (list Z)) (w : world) : Prop := {
  wa_speaks : speaks t f n w;
  wa_token : ∃ tr, w_transports w !! t = Some tr ∧ t_token tr = tok ∧ t_online tr = false;
  wa_length : Forall (λ tok, length tok = 20%nat) (tok :: toks);
  wa_random : ∃ more, k_sys (w_kern_of w) = (random_file <$> toks) ++ more;
  wa_keys : key_list w = trusted;
  wa_banner : adb_device_banner w = banner;
}.

Lemma generate_token_run tok tok' rest w : length tok = 20%nat → length tok' = 20%nat →
  k_sys (w_kern_of w) = random_file tok' :: rest →
  ∃ k', generate_token tok w = Ok (tok', true) (up_kern k' w)
    ∧ same_io (w_kern_of w) k' ∧ k_sys k' = rest.
Proof.
  intros Hl Hl' Hs. unfold generate_token, fopen, fclose, sys. rewrite bind_assoc.
  set (k1 := set_sys rest (add_trace (Sys "fopen" [AS (str "/dev/urandom")]) (w_kern_of w))).
  rewrite (bind_ok _ _ _ (1, tok') (up_kern k1 w)) by (apply KW_run; by rewrite Hs).
  cbn [Z.eqb]. run (eq_refl : ret (Some tok') (up_kern k1 w) = Ok (Some tok') _).
  run (KW_run (up_kern k1 w) (note "fclose" []) tt _ eq_refl).
  rewrite Hl, (take_ge tok') by lia. rewrite Hl', <- Hl, drop_all, app_nil_r.
  rewrite bool_decide_eq_true_2 by done.
  exists (add_trace (Sys "fclose" []) k1). by split_and!; [|split|].
Qed.

(** a new token goes out *)
Lemma send_auth_request_run n tok tok' toks w tr :
  waiting (S n) tok (tok' :: toks) w → w_transports w !! t = Some tr →
  ∃ w1 w', @send_auth_request device_auth t w = Ok tt w' ∧ emitted f (challenge tok') w1 w'
    ∧ next_loc (w_fd w1) = next_loc (w_fd w) ∧ out_of f (w_kern_of w1) = out_of f (w_kern_of w)
    ∧ w_packets w1 = w_packets w ∧ waiting n tok' toks w'.
Proof.
  intros [Hsp (tr' & Htr' & Htok & Hoff) Hlen (more & Hrnd) Hk Hb] Htr.
  rewrite Htr in Htr'. injection Htr' as <-.
  apply list.Forall_cons in Hlen as [Hl Hlen]. pose proof Hlen as [Hl' _]%list.Forall_cons.
  unfold send_auth_request. run (trans_at_run w t tr Htr). cbn [adb_auth_generate_token device_auth].
  rewrite Htok. destruct (generate_token_run tok tok' _ w Hl Hl' Hrnd) as (k1 & Hg & Hio & Hrnd1).
  run Hg. set (tr1 := to_auth tok' (t_failed_auth_attempts tr) tr).
  run (trans_put_run (up_kern k1 w) t (λ tr, to_auth tok' (t_failed_auth_attempts tr) tr) tr Htr).
  fold tr1. set (w1 := up_transports <[t := tr1]> (up_kern k1 w)). cbn [negb].
  assert (Hsp1 : speaks t f (S n) w1).
  { apply trans_speaks; [|by apply io_speaks]. destruct (sp_transport _ _ _ _ Hsp) as (? & ? & ?). cbn. congruence. }
  run (get_apacket_run w1 (sp_oom _ _ _ _ Hsp1)). fold (allocated w1).
  destruct (send_data_run w1 t f n A_AUTH ADB_AUTH_TOKEN 0 tok' Ht0 Hsp1) as (w' & Hrun & Hem).
  exists w1, w'. split_and!; [done..| |done|].
  - change (w_kern_of w1) with k1. unfold out_of. by rewrite (io_out _ _ Hio).
  - split.
    + by eapply emitted_speaks.
    + exists tr1. rewrite (em_transports _ _ _ _ Hem). split; [apply lookup_insert_eq|done].
    + done.
    + exists more. by rewrite (em_sys _ _ _ _ Hem).
    + by rewrite (em_keys _ _ _ _ Hem).
    + by rewrite (em_banner _ _ _ _ Hem).
Qed.

Lemma arrived_waiting n tok toks pk w : waiting n tok toks w → waiting n tok toks (arrived pk w).
Proof. intros [Hsp ? ? ? ? ?]. split; [by apply arrived_speaks|done..]. Qed.
Lemma freed_waiting n tok toks p w : waiting n tok toks w → waiting n tok toks (up_packets (delete p) w).
Proof. intros [Hsp ? ? ? ? ?]. split; [by apply freed_speaks|done..]. Qed.
(** a change of the transport that the handshake does not look at *)
Lemma trans_waiting n tok toks tr w : t_transport_write tr = f → t_token tr = tok → t_online tr = false →
  waiting n tok toks w → waiting n tok toks (up_transports <[t := tr]> w).
Proof.
  intros Hf Htok Hoff [Hsp ? ? ? ? ?]. split; [by apply trans_speaks| |done..].
  exists tr. split; [apply lookup_insert_eq|done].
Qed.
Lemma waiting_write n tok toks tr w : waiting n tok toks w → w_transports w !! t = Some tr →
  t_transport_write tr = f ∧ t_token tr = tok ∧ t_online tr = false.
Proof.
  intros [[(tr1 & E1 & ?) _ _ _] (tr2 & E2 & ? & ?) _ _ _ _] Ht. rewrite Ht in E1, E2.
  injection E1 as <-. by injection E2 as <-.
Qed.

(** The end of each handler: a new token is sent from a state [w] to which the
    handler has come without sending anything. *)
Lemma challenge_sent n tok tok' toks pk d w tr : waiting (S n) tok (tok' :: toks) w →
  w_transports w !! t = Some tr → w_packets w !! next_loc (w_fd d) = Some pk →
  next_loc (w_fd w) = next_loc (w_fd d) + 16 → out_of f (w_kern_of w) = out_of f (w_kern_of d) →
  ∃ d', (@send_auth_request device_auth t;;; put_apacket (next_loc (w_fd d))) w = Ok tt d'
    ∧ emits f (challenge tok') d d' ∧ waiting n tok' toks d'.
Proof.
  intros Hw Htr Hp Hld Hod.
  destruct (send_auth_request_run n tok tok' toks w tr Hw Htr) as (w1 & w2 & Hrun & Hem & Hl & Ho & Hp1 & Hw2).
  run Hrun. assert (Hpk : w_packets w2 !! next_loc (w_fd d) = Some pk).
  { eapply emitted_keeps_packet; [done|by rewrite Hp1|lia]. }
  rewrite (put_run _ pk w2 Hpk). eexists. split; [done|]. split; [|by apply freed_waiting].
  eapply emitted_emits; [by rewrite Hl|by rewrite Ho|done].
Qed.

(** the connection of a host, with authentication required *)
Lemma device_challenges n tok tok' toks d tr : waiting (S n) tok (tok' :: toks) d →
  w_transports d !! t = Some tr → t_connection_state tr = CS_OFFLINE → auth_enabled d = true →
  ∃ d', device_handles host_connect d (challenge tok') d' ∧ waiting n tok' toks d'.
Proof.
  intros Hw Htr Hst Hauth. destruct (waiting_write _ _ _ _ _ Hw Htr) as (Hf & Htok & Hoff).
  set (w0 := arrived host_connect d). set (p := next_loc (w_fd d)).
  set (tr1 := to_state CS_HOST tr). set (w1 := up_transports <[t := tr1]> w0).
  assert (Hw1 : waiting (S n) tok (tok' :: toks) w1) by (apply trans_waiting; [done..|by apply arrived_waiting]).
  destruct (challenge_sent n tok tok' toks host_connect d w1 tr1 Hw1) as (d' & Hrun & Hem & Hwait);
    [apply lookup_insert_eq..|done|done|].
  exists d'. split; [split; [|done]|done]. rewrite <- Hrun. unfold handle_packet.
  run (pkt_at_run w0 p host_connect (lookup_insert_eq _ _ _)).
  change (command (p_msg host_connect)) with A_CNXN.
  change (A_CNXN =? A_SYNC) with false. change (A_CNXN =? A_WRTE) with false.
  change (A_CNXN =? A_CNXN) with true. cbv iota.
  unfold handle_cnxn. rewrite bind_assoc. run (trans_at_run w0 t tr Htr). rewrite Hst.
  change (negb (CS_OFFLINE =? CS_OFFLINE)) with false. rewrite bind_assoc.
  rewrite (bind_ok _ _ w0 tt w0) by done. rewrite bind_assoc.
  run (eq_refl : deref Uninitialised (λ _, cstring (p_data host_connect)) w0 = Ok (str "host::") w0).
  rewrite bind_assoc. run (trans_put_run w0 t (to_state CS_HOST) tr Htr : parse_banner (str "host::") t w0 = _).
  rewrite bind_assoc. run (eq_refl : gets auth_enabled w1 = Ok (auth_enabled d) w1).
  rewrite Hauth. done.
Qed.

(** the part of handle_packet up to the verification of a signature *)
Lemma signature_arrives tok sig d tr : w_transports d !! t = Some tr → t_token tr = tok →
  key_list d = trusted → Z.of_nat (length sig) = RSANUMBYTES →
  let w0 := arrived (response sig) d in
  @handle_packet _ device_auth (next_loc (w_fd d)) t w0 =
    ((if verify_any trusted tok sig then
        adb_auth_verified t;;; trans_put t (λ tr, to_auth (t_token tr) 0 tr)
      else
        trans_put t (λ tr, to_auth (t_token tr) (u32 (t_failed_auth_attempts tr + 1)) tr);;;
        when (10 <? t_failed_auth_attempts tr) (KW (adb_sleep_ms 1000));;;
        @send_auth_request device_auth t);;;
     put_apacket (next_loc (w_fd d))) w0.
Proof.
  intros Htr Htok Hk Hlen w0. unfold handle_packet.
  run (pkt_at_run w0 (next_loc (w_fd d)) (response sig) (lookup_insert_eq _ _ _)).
  change (command (p_msg (response sig))) with A_AUTH.
  change (A_AUTH =? A_SYNC) with false. change (A_AUTH =? A_WRTE) with false.
  change (A_AUTH =? A_CNXN) with false. change (A_AUTH =? A_AUTH) with true. cbv iota.
  unfold handle_auth. change (arg0 (p_msg (response sig))) with ADB_AUTH_SIGNATURE.
  change (ADB_AUTH_SIGNATURE =? ADB_AUTH_TOKEN) with false.
  change (ADB_AUTH_SIGNATURE =? ADB_AUTH_SIGNATURE) with true. cbv iota.
  rewrite bind_assoc. run (trans_at_run w0 t tr Htr). rewrite bind_assoc.
  change (data_length (p_msg (response sig))) with (Z.of_nat (length sig)).
  rewrite (bind_ok _ _ w0 sig w0)
    by (unfold deref; by rewrite (data_packet_payload _ _ _ sig : payload (response sig) _ = _)).
  rewrite bind_assoc. cbn [adb_auth_verify device_auth]. rewrite Htok.
  rewrite (bind_ok _ _ w0 (verify_any trusted tok sig) w0).
  - by destruct (verify_any trusted tok sig).
  - unfold auth_verify. rewrite (proj2 (Z.eqb_eq _ _) Hlen). cbn [negb]. unfold bind, gets, ret.
    by rewrite <- Hk.
Qed.

Lemma device_rejects n tok tok' toks sig d : waiting (S n) tok (tok' :: toks) d →
  Z.of_nat (length sig) = RSANUMBYTES → verify_any trusted tok sig = false →
  ∃ d', device_handles (response sig) d (challenge tok') d' ∧ waiting n tok' toks d'.
Proof.
  intros Hw Hlen Hv. pose proof Hw as [_ (tr & Htr & Htok & Hoff) _ _ Hk _].
  destruct (waiting_write _ _ _ _ _ Hw Htr) as (Hf & _ & _).
  set (w0 := arrived (response sig) d).
  set (tr1 := to_auth (t_token tr) (u32 (t_failed_auth_attempts tr + 1)) tr).
  set (w1 := up_transports <[t := tr1]> w0).
  assert (Hw1 : waiting (S n) tok (tok' :: toks) w1) by (apply trans_waiting; [done..|by apply arrived_waiting]).
  assert (Hs : ∃ d', ((when (10 <? t_failed_auth_attempts tr) (KW (adb_sleep_ms 1000));;;
      @send_auth_request device_auth t);;; put_apacket (next_loc (w_fd d))) w1 = Ok tt d'
    ∧ emits f (challenge tok') d d' ∧ waiting n tok' toks d').
  { rewrite bind_assoc. unfold when.
    set (w2 := if 10 <? t_failed_auth_attempts tr
               then up_kern (add_trace (Sys "usleep" [AZ 1000000]) (w_kern_of w1)) w1 else w1).
    rewrite (bind_ok _ _ w1 tt w2) by (unfold w2; by destruct (10 <? _)).
    apply (challenge_sent n tok tok' toks (response sig) d w2 tr1);
      unfold w2; destruct (10 <? _); try done; try apply lookup_insert_eq.
    destruct Hw1. split; [by apply io_speaks|done..]. }
  destruct Hs as (d' & Hrun & Hem & Hwait). exists d'. split; [split; [|done]|done].
  rewrite (signature_arrives tok sig d tr Htr Htok Hk Hlen), Hv, bind_assoc.
  by run (trans_put_run w0 t (λ tr, to_auth (t_token tr) (u32 (t_failed_auth_attempts tr + 1)) tr) tr Htr).
Qed.

Lemma device_accepts n tok toks sig d : waiting (S n) tok toks d →
  Z.of_nat (length sig) = RSANUMBYTES → verify_any trusted tok sig = true →
  ∃ d', device_handles (response sig) d (device_connect banner) d' ∧ is_online d'.
Proof.
  intros Hw Hlen Hv. pose proof Hw as [Hsp (tr & Htr & Htok & Hoff) _ _ Hk Hb].
  destruct (waiting_write _ _ _ _ _ Hw Htr) as (Hf & _ & _).
  set (w0 := arrived (response sig) d). set (p := next_loc (w_fd d)). set (tr1 := to_online true tr).
  set (w1 := up_transports <[t := tr1]> w0).
  assert (Hsp1 : speaks t f (S n) w1) by (apply trans_speaks; [done|by apply arrived_speaks]).
  destruct (send_data_run w1 t f n A_CNXN A_VERSION MAX_PAYLOAD (connect_data banner ++ [0]) Ht0 Hsp1)
    as (w2 & Hrun & Hem).
  assert (Hc : send_connect t w1 = Ok tt w2).
  { unfold send_connect. run (get_apacket_run w1 (sp_oom _ _ _ _ Hsp1)). fold (allocated w1).
    run (eq_refl : gets adb_device_banner (allocated w1) = Ok (adb_device_banner d) (allocated w1)).
    rewrite Hb. unfold fill_connect_data. rewrite (proj2 (Z.leb_gt _ _) Hbanner).
    rewrite (bind_ok _ _ _ (connect_data banner ++ [0]) (allocated w1)) by done. exact Hrun. }
  assert (Htr2 : w_transports w2 !! t = Some tr1) by (rewrite (em_transports _ _ _ _ Hem); apply lookup_insert_eq).
  assert (Hpk : w_packets w2 !! p = Some (response sig)).
  { eapply emitted_keeps_packet; [done|apply lookup_insert_eq|cbn; lia]. }
  set (tr2 := to_auth (t_token tr1) 0 tr1). set (w3 := up_transports <[t := tr2]> w2).
  exists (up_packets (delete p) w3). split; [split|].
  - rewrite (signature_arrives tok sig d tr Htr Htok Hk Hlen), Hv. unfold adb_auth_verified.
    rewrite !bind_assoc. run (trans_put_run w0 t (to_online true) tr Htr). run Hc.
    run (trans_put_run w2 t (λ tr, to_auth (t_token tr) 0 tr) tr1 Htr2).
    exact (put_run p (response sig) w3 Hpk).
  - exact (emitted_emits f _ d w1 w2 eq_refl eq_refl Hem).
  - exists tr2. split; [apply lookup_insert_eq|done].
Qed.
End device.

(** ** The host *)

Section host_side.
Context `{HostAuth} `{HostUsb} (t f : Z) (Ht0 : t ≠ 0).
(** the private keys in their order, the signatures and the public key *)
Context (keys : list Z) (sign : Z → list Z → list Z) (pub : list Z).

Fixpoint after (key : Z) (l : list Z) : Z :=
  match l with
  | [] => 0
  | k :: l' => if k =? key then default 0 (head l') else after key l'
  end.
Definition next_key (key : Z) : Z := if key =? 0 then default 0 (head keys) else after key keys.

(** what the code for the keys does, as adb_auth.h uses it *)
Record host_keys : Prop := {
  hk_nodup : NoDup keys;
  hk_some : 0 ∉ keys;
  hk_next key w : adb_auth_nextkey key w = Ok (next_key key) w;
  hk_sign key tok w : adb_auth_sign key tok w = Ok (sign key tok) w;
  hk_length key tok : Z.of_nat (length (sign key tok)) = RSANUMBYTES;
  hk_pub w : adb_auth_get_userkey w = Ok pub w;
  hk_pub_some : pub ≠ [];
}.

Definition host_handles (pk : apacket) (h : hworld) (reply : apacket) (h' : hworld) : Prop :=
  host_handle_packet (next_loc (w_fd (h_world h))) t (up_hworld (arrived pk (h_world h)) h) = Ok tt h'
  ∧ emits f reply (h_world h) (h_world h').

(** the keys up to and including [t->key] have been tried *)
Record trying (n : nat) (rest : list Z) (h : hworld) : Prop := {
  ty_speaks : speaks t f n (h_world h);
  ty_keys : ∃ tried, keys = tried ++ rest ∧ default 0 (h_keys h !! t) = default 0 (list.last tried);
}.

Lemma after_middle key l r : key ∉ l → after key (l ++ key :: r) = default 0 (head r).
Proof.
  induction l as [|k l IH]; cbn [app after]; intros Hn; [by rewrite Z.eqb_refl|].
  apply not_elem_of_cons in Hn as [Hne Hn]. rewrite (proj2 (Z.eqb_neq k key)) by congruence. auto.
Qed.
Lemma next_key_trying n rest h : host_keys → trying n rest h →
  next_key (default 0 (h_keys h !! t)) = default 0 (head rest).
Proof.
  intros Hk [_ (tried & Hkeys & ->)]. unfold next_key.
  destruct (list.last tried) as [key|] eqn:E.
  - change (default 0 (Some key)) with key. apply last_Some in E as (l & ->). pose proof (hk_nodup Hk) as Hnd. pose proof (hk_some Hk) as Hz.
    rewrite Hkeys, <- app_assoc in *. cbn [app] in *.
    rewrite (proj2 (Z.eqb_neq key 0)) by (intros ->; apply Hz; set_solver).
    apply after_middle. apply list.NoDup_app in Hnd as (_ & Hnd & _). intros Hin.
    apply (Hnd key Hin). set_solver.
  - apply last_None in E as ->. by rewrite Hkeys.
Qed.

(** sending the data of an answer, whichever it is *)
Lemma send_auth_data_run n arg d w : speaks t f (S n) w → d ≠ [] →
  ∃ w', send_auth_data (next_loc (w_fd w)) arg d t (allocated w) = Ok tt w'
    ∧ emitted f (data_packet A_AUTH arg 0 d) w w'.
Proof.
  intros Hsp Hd. destruct (send_data_run w t f n A_AUTH arg 0 d Ht0 Hsp) as (w' & Hrun & Hem).
  exists w'. split; [|done]. unfold send_auth_data. by destruct d.
Qed.

(** the part of handle_packet up to the choice of the next key *)
Lemma challenge_arrives n rest tok h : host_keys → trying n rest h →
  let p := next_loc (w_fd (h_world h)) in
  let key := default 0 (head rest) in
  let h1 := up_keys <[t := key]> (up_hworld (arrived (challenge tok) (h_world h)) h) in
  host_handle_packet p t (up_hworld (arrived (challenge tok) (h_world h)) h) =
    ((if negb (key =? 0) then HW (send_auth_response tok key t) else HW (host_send_auth_publickey t));;;
     HW (put_apacket p)) h1.
Proof.
  intros Hk Htry p key h1. pose proof (sp_transport _ _ _ _ (ty_speaks _ _ _ Htry)) as (tr & Htr & _).
  pose proof (next_key_trying n rest h Hk Htry) as Hnext.
  set (w0 := arrived (challenge tok) (h_world h)). set (h0 := up_hworld w0 h) in *.
  unfold host_handle_packet.
  rewrite (bind_ok _ _ h0 (challenge tok) h0)
    by exact (HW_run _ h0 _ w0 (pkt_at_run w0 p _ (lookup_insert_eq _ _ _))).
  change (command (p_msg (challenge tok))) with A_AUTH.
  change (A_AUTH =? A_SYNC) with false. change (A_AUTH =? A_WRTE) with false.
  change (A_AUTH =? A_CNXN) with false. change (A_AUTH =? A_AUTH) with true. cbv iota.
  unfold host_handle_auth. change (arg0 (p_msg (challenge tok))) with ADB_AUTH_TOKEN.
  change (ADB_AUTH_TOKEN =? ADB_AUTH_TOKEN) with true. cbv iota. rewrite bind_assoc.
  rewrite (bind_ok _ _ h0 tr h0) by exact (HW_run _ h0 _ w0 (trans_at_run w0 t tr Htr)).
  rewrite bind_assoc.
  run (eq_refl : gets (λ h, default 0 (h_keys h !! t)) h0 = Ok (default 0 (h_keys h !! t)) h0).
  rewrite bind_assoc. rewrite (bind_ok _ _ h0 key h0).
  2:{ etransitivity; [apply HW_run, (hk_next Hk)|]. by rewrite Hnext. }
  rewrite bind_assoc. run (eq_refl : modify (up_keys <[t := key]>) h0 = Ok tt h1).
  destruct (negb (key =? 0)); [|done]. rewrite bind_assoc.
  change (data_length (p_msg (challenge tok))) with (Z.of_nat (length tok)).
  rewrite (bind_ok _ _ h1 tok h1); [done|]. etransitivity; [eapply HW_run|by rewrite up_hworld_id].
  unfold deref. by rewrite (data_packet_payload _ _ _ tok : payload (challenge tok) _ = _).
Qed.

(** an answer [d] was sent, and the packet that arrived freed *)
Lemma answer_sent n arg d tok key h m : speaks t f (S n) (h_world h) → d ≠ [] →
  let p := next_loc (w_fd (h_world h)) in
  let w0 := arrived (challenge tok) (h_world h) in
  let h1 := up_keys <[t := key]> (up_hworld w0 h) in
  m w0 = send_auth_data (next_loc (w_fd w0)) arg d t (allocated w0) →
  ∃ w', (HW m;;; HW (put_apacket p)) h1 = Ok tt (up_hworld w' h1)
    ∧ emits f (data_packet A_AUTH arg 0 d) (h_world h) w' ∧ speaks t f n w'.
Proof.
  intros Hsp Hd p w0 h1 Hm. assert (Hsp0 : speaks t f (S n) w0) by by apply arrived_speaks.
  destruct (send_auth_data_run n arg d w0 Hsp0 Hd) as (w' & Hrun & Hem).
  assert (Hpk : w_packets w' !! p = Some (challenge tok)).
  { eapply emitted_keeps_packet; [done|apply lookup_insert_eq|cbn; lia]. }
  exists (up_packets (delete p) w'). split_and!.
  - rewrite (bind_ok _ _ h1 tt (up_hworld w' h1)) by (apply HW_run; by rewrite <- Hrun).
    exact (HW_run _ (up_hworld w' h1) tt _ (put_run p _ w' Hpk)).
  - exact (emitted_emits f _ (h_world h) w0 w' eq_refl eq_refl Hem).
  - by eapply freed_speaks, emitted_speaks.
Qed.

Lemma host_answers n key rest tok h : host_keys → trying (S n) (key :: rest) h →
  ∃ h', host_handles (challenge tok) h (response (sign key tok)) h' ∧ trying n rest h'.
Proof.
  intros Hk Htry. pose proof Htry as [Hsp (tried & Hkeys & _)].
  assert (Hkey : key ≠ 0) by (intros ->; apply (hk_some Hk); rewrite Hkeys; set_solver).
  assert (Hsig : sign key tok ≠ []).
  { intros E. pose proof (hk_length Hk key tok) as Hl. by rewrite E in Hl. }
  destruct (answer_sent n ADB_AUTH_SIGNATURE (sign key tok) tok key h (send_auth_response tok key t) Hsp Hsig)
    as (w' & Hrun & Hem & Hsp').
  { unfold send_auth_response. rewrite (bind_ok _ _ _ _ _ (get_apacket_run (arrived (challenge tok) (h_world h)) (sp_oom _ _ _ _ Hsp))).
    by rewrite (bind_ok _ _ _ _ _ (hk_sign Hk key tok _)). }
  eexists. split; [split|].
  - rewrite (challenge_arrives (S n) (key :: rest) tok h Hk Htry).
    change (default 0 (head (key :: rest))) with key. rewrite (proj2 (Z.eqb_neq key 0)) by done. exact Hrun.
  - exact Hem.
  - split; [exact Hsp'|]. exists (tried ++ [key]). split; [by rewrite Hkeys, <- app_assoc|].
    cbn. rewrite lookup_insert_eq, last_snoc. done.
Qed.

Lemma host_gives_up n tok h : host_keys → trying (S n) [] h →
  ∃ h', host_handles (challenge tok) h (public_key pub) h'.
Proof.
  intros Hk Htry. pose proof (ty_speaks _ _ _ Htry) as Hsp.
  destruct (answer_sent n ADB_AUTH_RSAPUBLICKEY pub tok 0 h (host_send_auth_publickey t) Hsp (hk_pub_some Hk))
    as (w' & Hrun & Hem & _).
  { unfold host_send_auth_publickey. rewrite (bind_ok _ _ _ _ _ (get_apacket_run (arrived (challenge tok) (h_world h)) (sp_oom _ _ _ _ Hsp))).
    by rewrite (bind_ok _ _ _ _ _ (hk_pub Hk _)). }
  eexists. split; [rewrite (challenge_arrives (S n) [] tok h Hk Htry); exact Hrun|exact Hem].
Qed.
End host_side.

(** ** Both together *)

Section both.
Context `{Mincrypt} `{Services} `{HostAuth} `{HostUsb}.
(** transport and pipe of the host, transport and pipe of the device *)
Context (th fh td fd : Z).

(** The packet [pk], for the host, is answered, the answer handled by the device,
    and so on; what is left is a packet for the host again. *)
Inductive talk : hworld → world → apacket → hworld → world → apacket → Prop :=
| talk_done h d pk : talk h d pk h d pk
| talk_turn h d pk answer h1 reply d1 h2 d2 pk2 :
    host_handles th fh pk h answer h1 → device_handles td fd answer d reply d1 →
    talk h1 d1 reply h2 d2 pk2 → talk h d pk h2 d2 pk2.

Context (trusted : list (list Z)) (sign : Z → list Z → list Z).
(** the first key whose signature of the token of its turn is accepted *)
Fixpoint accepted (keys : list Z) (tok : list Z) (toks : list (list Z)) : option Z :=
  match keys with
  | [] => None
  | key :: keys' =>
      if verify_any trusted tok (sign key tok) then Some key
      else match toks with tok' :: toks' => accepted keys' tok' toks' | [] => None end
  end.

Context (banner : list Z) (Htd : td ≠ 0) (Hth : th ≠ 0).
Context (Hbanner : Z.of_nat (length (connect_data banner)) < MAX_PAYLOAD).
Context (keys : list Z) (pub : list Z) (Hkeys : host_keys keys sign pub).

Lemma talk_outcome rest : ∀ h d tok toks,
  (length rest ≤ length toks)%nat →
  trying th fh keys (S (length rest)) rest h →
  waiting td fd trusted banner (S (length rest)) tok toks d →
  ∃ h' d' pk, talk h d (challenge tok) h' d' pk ∧
    match accepted rest tok toks with
    | Some _ => pk = device_connect banner ∧ is_online td d'
    | None => ¬ is_online td d' ∧ ∃ h2, host_handles th fh pk h' (public_key pub) h2
    end.
Proof.
  induction rest as [|key rest IH]; intros h d tok toks Hlen Htry Hwait; cbn [accepted length] in *.
  { exists h, d, (challenge tok). split; [constructor|]. split.
    - intros (tr & Htr & Hon). destruct (wa_token _ _ _ _ _ _ _ _ Hwait) as (tr' & Htr' & _ & Hoff). congruence.
    - by eapply host_gives_up. }
  destruct (host_answers th fh Hth keys sign pub _ key rest tok h Hkeys Htry) as (h1 & Hans & Htry1).
  pose proof (hk_length _ _ _ Hkeys key tok) as Hsig.
  destruct (verify_any trusted tok (sign key tok)) eqn:Hv.
  - destruct (device_accepts td fd trusted banner Htd Hbanner _ tok toks _ d Hwait Hsig Hv) as (d1 & Hdev & Hon).
    exists h1, d1, (device_connect banner). split; [|done]. by eapply talk_turn; [..|constructor].
  - destruct toks as [|tok' toks]; [cbn in Hlen; lia|].
    destruct (device_rejects td fd trusted banner Htd _ tok tok' toks _ d Hwait Hsig Hv) as (d1 & Hdev & Hwait1).
    destruct (IH h1 d1 tok' toks) as (h2 & d2 & pk & Htalk & Hout); [cbn in Hlen; lia|done..|].
    exists h2, d2, pk. split; [by eapply talk_turn|done].
Qed.

End both.

Module DemoHandshake.
Definition keys : list Z := [5; 6].
(** a signature names its key; the device trusts the key 6 *)
Definition sign (key : Z) (tok : list Z) : list Z := key :: replicate 255 0.
Definition pub : list Z := str "QAAAA user@host".
Definition rsa : Mincrypt := {| RSA_verify := λ k sig _, bool_decide (head sig = head k) |}.
Definition auth : HostAuth := {|
  adb_auth_nextkey := λ key, ret (next_key keys key);
  adb_auth_sign := λ key tok, ret (sign key tok);
  adb_auth_get_userkey := ret pub |}.
Definition usb : HostUsb :=
  {| host_usb_kick := λ _, ret tt; host_usb_close := λ _, ret tt; host_usb_cleanup := ret tt |}.
Definition services : Services := {| service_to_fd := λ _, ret None |}.
Definition tok (b : Z) : list Z := replicate 20 b.
(** a transport that is not yet connected, its pipe is the descriptor 11 *)
Definition transport : atransport :=
  mkTrans 10 12 13 11 2 1 CS_OFFLINE false kTransportLocal 0 9 None None None None None 0 false (tok 0) 0.
Definition kernel (rnd : list sysres) : kern := mkKern 0 ∅ {[ 11 := [WrOk 100] ]} ∅ rnd [] [].
Definition host : hworld :=
  mkHw (up_transports <[16 := transport]> (start_world (kernel []))) (replicate 16 0) false ∅.
Definition device : world :=
  up_auth [[6]] (-1) (up_config true false (str "device")
    (up_transports <[16 := transport]> (start_world (kernel (random_file <$> [tok 1; tok 2; tok 3]))))).
End DemoHandshake.

Lemma demo_host_keys : @host_keys DemoHandshake.auth DemoHandshake.keys DemoHandshake.sign DemoHandshake.pub.
Proof.
  split; try done; [apply (bool_decide_eq_true_1 (NoDup DemoHandshake.keys)); reflexivity|].
  apply (bool_decide_eq_true_1 (0 ∉ DemoHandshake.keys)). reflexivity.
Qed.

