(* ===== verification/ServicesProps.v ===== *)
(** * Theorems on the services

    Every service thread ends and closes its descriptors; who owns the ends of
    the pipes of a service thread; the shell's waiter; what the frame buffer
    service sends; how a mount table is read. *)

From S2P Require Import Prelude Kernel SockUtil SockProps Packet Fdevent World Transport Sockets FileSync FileSyncProps OneShot Services.

(** ** Computations that halt

    [halts e f m]: the bounds of the loops of [m] are enough, and [m] adds
    nothing to the scripts; it may leave the process if [e] and commit a fault
    (other than OutOfFuel) if [f]. *)

Definition halts_at (e f : bool) {A} (m : M kern A) (k : kern) : Prop :=
  match m k with
  | Ok _ k' => shrinks k k'
  | Exit _ _ => e = true
  | Fault g _ => f = true ∧ g ≠ OutOfFuel
  end.
Definition halts (e f : bool) {A} (m : M kern A) : Prop := ∀ k, halts_at e f m k.

Create HintDb halts.

Section halts.
Context {e f : bool}.

Lemma ends_at_halts {A} (m : M kern A) k : ends_at m k → halts_at e true m k.
Proof. unfold ends_at, halts_at. destruct (m k); naive_solver. Qed.
Lemma total_halts {A} (m : M kern A) : ends m → (∀ k, ∃ a k', m k = Ok a k') → halts e f m.
Proof.
  intros H Ht k. specialize (H k). destruct (Ht k) as (a & k' & E). unfold ends_at, halts_at in *. by rewrite E in *.
Qed.
Lemma halts_at_bind {A B} (m : M kern A) (g : A → M kern B) k :
  halts_at e f m k → (∀ a k', m k = Ok a k' → shrinks k k' → halts_at e f (g a) k') → halts_at e f (bind m g) k.
Proof.
  unfold halts_at, bind. intros Hm Hf. destruct (m k) as [a k'|c k'|x k'] eqn:E; [|done..].
  specialize (Hf a k' eq_refl Hm). destruct (g a k') as [b k2|c k2|x k2]; [by etrans|done..].
Qed.
Lemma halts_bind {A B} (m : M kern A) (g : A → M kern B) :
  halts e f m → (∀ a, halts e f (g a)) → halts e f (bind m g).
Proof. intros Hm Hf k. apply halts_at_bind; [apply Hm|]. intros; apply Hf. Qed.
Lemma halts_here {A} (m : M kern A) k : halts e f m → halts_at e f m k.
Proof. intros H. apply H. Qed.
Lemma halts_ret {A} (a : A) : halts e f (ret a).
Proof. intros k. unfold halts_at, ret. reflexivity. Qed.
Lemma halts_gets {A} (g : kern → A) : halts e f (gets g).
Proof. intros k. unfold halts_at, gets. reflexivity. Qed.
Lemma halts_note n a : halts e f (note n a).
Proof. apply total_halts; [apply ends_note|]. by eexists _, _. Qed.
Lemma halts_close d : halts e f (adb_close d).
Proof. apply halts_note. Qed.
Lemma halts_cloexec d : halts e f (close_on_exec d).
Proof. apply halts_note. Qed.
Lemma halts_malloc : halts e f malloc_ok.
Proof. apply total_halts; [apply ends_malloc|]. intros k. unfold malloc_ok. case_match; by eexists _, _. Qed.
Lemma halts_sys n a : halts e f (sys n a).
Proof. apply total_halts; [apply ends_sys|]. intros k. destruct (sys_run n a k) as (k' & o & E & _). by eexists _, _. Qed.
Lemma halts_sys_ n a : halts e f (sys_ n a).
Proof. apply total_halts; [apply ends_sys_|]. intros k. destruct (sys__run n a k) as (k' & E & _). by eexists _, _. Qed.
Lemma halts_writex d bs : halts e f (writex d bs).
Proof.
  apply total_halts; [apply ends_writex|]. intros k. destruct (writex_spec d bs k) as (k' & _ & E & _). by eexists _, _.
Qed.
Lemma halts_readx d n : halts e f (readx d n).
Proof.
  apply total_halts; [apply ends_readx|]. intros k. destruct (readx_spec d n k) as (k' & _ & H). cbn zeta in H.
  case_decide; [destruct H as [H _]|]; rewrite H; by eexists _, _.
Qed.
Lemma halts_adb_read d n : halts e f (adb_read d n).
Proof.
  apply total_halts; [apply ends_adb_read|]. intros k. unfold adb_read. repeat case_match; by eexists _, _.
Qed.
Lemma halts_file_text d : halts e f (file_text d).
Proof.
  intros k. unfold halts_at, file_text, bind, gets, modify, ret. apply shrinks_set_rd. cbn. lia.
Qed.
End halts.
Lemma halts_fail {A} e x : x ≠ OutOfFuel → halts e true (fail x : M kern A).
Proof. by intros H k. Qed.
Lemma halts_exit {A} f c : halts true f (exit c : M kern A).
Proof. by intros k. Qed.
Lemma halts_deref {A} e x (o : kern → option A) : x ≠ OutOfFuel → halts e true (deref x o).
Proof. intros H k. unfold halts_at, deref. by destruct (o k). Qed.
#[local] Hint Resolve halts_ret halts_gets halts_note halts_close halts_cloexec halts_malloc halts_sys halts_sys_
  halts_writex halts_readx halts_adb_read halts_file_text halts_exit : halts.
#[local] Hint Extern 1 (halts _ _ (fail _)) => apply halts_fail; discriminate : halts.
#[local] Hint Extern 1 (halts _ _ (deref _ _)) => apply halts_deref; discriminate : halts.
#[local] Hint Extern 1 (halts _ _ (initialised _)) => apply halts_deref; discriminate : halts.

Ltac halts_step :=
  match goal with
  | |- halts _ _ (bind _ _) => apply halts_bind; [|intros ?]
  | |- halts _ _ (match ?x with _ => _ end) => destruct x
  | |- halts _ _ (let _ := _ in _) => cbv zeta
  | |- halts _ _ (when ?b _) => destruct b; cbn [when]
  end.
Ltac halts_tac := repeat first [solve [auto with halts] | progress cbn beta iota | halts_step].

Section services.
Context {e f : bool}.

Lemma halts_unix_open p fl : halts e f (unix_open p fl).
Proof. unfold unix_open. halts_tac. Qed.
Lemma halts_creat p m : halts e f (adb_creat p m).
Proof. unfold adb_creat. halts_tac. Qed.
Lemma halts_pipe2 : halts e f pipe2.
Proof. unfold pipe2. halts_tac. Qed.
Lemma halts_exec args : halts true f (exec args).
Proof. unfold exec. halts_tac. Qed.
Lemma halts_write_string fd s : halts e f (write_string fd s).
Proof. unfold write_string. halts_tac. Qed.
End services.
#[local] Hint Resolve halts_unix_open halts_creat halts_pipe2 halts_exec halts_write_string : halts.

Section loops.
Context {e f : bool}.

(** loops that take something from a script in every round *)
Lemma halts_read_fuel {A} (m : nat → M kern A) d :
  (∀ n k, (script_size (rd_of d k) < n)%nat → halts_at e f (m n) k) → halts e f (do n <- gets (read_fuel d); m n).
Proof. intros H k. apply halts_at_bind; [apply halts_gets|]. intros n k' [= <- <-] _. apply H. unfold read_fuel. lia. Qed.

(** a read of at least one byte takes from the script *)
Lemma readx_takes d n k bs k' : readx d (S n) k = Ok (Some bs) k' →
  (script_size (rd_of d k') < script_size (rd_of d k))%nat.
Proof. intros H. pose proof (readx_size d (S n) k) as Hs. rewrite H in Hs. lia. Qed.

Lemma recover_loop_halts fuel rfd fd count k : (script_size (rd_of rfd k) < fuel)%nat →
  halts_at e f (recover_loop fuel rfd fd count) k.
Proof.
  revert count k. induction fuel as [|fuel IH]; intros count k Hf; [lia|]. cbn [recover_loop].
  destruct (Z.leb_spec count 0); [apply halts_ret|].
  set (xfer := if 4096 <? count then 4096 else count).
  assert (Hx : ∃ n, Z.to_nat xfer = S n) by (exists (pred (Z.to_nat xfer)); unfold xfer; case_match; lia).
  destruct Hx as [n Hx]. rewrite Hx.
  apply halts_at_bind; [apply halts_readx|]. intros [bs|] k1 Hr Hs.
  2:{ apply halts_ret. }
  apply halts_at_bind; [apply halts_writex|]. intros [] k2 _ [Hs2 _].
  2:{ apply halts_ret. }
  apply IH. apply readx_takes in Hr. specialize (Hs2 rfd). lia.
Qed.

Lemma copy_block_halts from to n : halts e f (copy_block from to n).
Proof. unfold copy_block. apply halts_bind; [apply halts_readx|]. intros [?|]; halts_tac. Qed.
Lemma copy_block_takes from to n k k' : copy_block from to (S n) k = Ok true k' →
  (script_size (rd_of from k') < script_size (rd_of from k))%nat.
Proof.
  unfold copy_block, bind. destruct (readx from (S n) k) as [[bs|] k1| |] eqn:E; [|done..].
  intros Hw. apply readx_takes in E. pose proof (ends_writex to bs k1) as He. unfold ends_at in He.
  rewrite Hw in He. destruct He as [He _]. specialize (He from). lia.
Qed.
Lemma fb_loop_halts fuel from to size i k : (script_size (rd_of from k) < fuel)%nat →
  halts_at e f (fb_loop fuel from to size i) k.
Proof.
  revert i k. induction fuel as [|fuel IH]; intros i k Hf; [lia|]. cbn [fb_loop].
  destruct (size <=? i); [apply halts_ret|].
  apply halts_at_bind; [apply copy_block_halts|]. intros [] k1 Hr _.
  - apply IH. apply copy_block_takes in Hr. lia.
  - apply halts_ret.
Qed.

Lemma read_script_err s n err s' : read_script s n = (inr err, s') → (script_size s' < script_size s)%nat.
Proof.
  induction s as [|[bs|e0] s IH]; cbn; [done| |].
  - by case_decide.
  - destruct (e0 =? EINTR); [intros H%IH; lia|]. intros [= _ <-]. lia.
Qed.
Lemma log_loop_halts fuel logfd wfd buf k : (script_size (rd_of logfd k) < fuel)%nat →
  halts_at e true (log_loop fuel logfd wfd buf) k.
Proof.
  revert buf k. induction fuel as [|fuel IH]; intros buf k Hf; [lia|]. cbn [log_loop].
  apply halts_at_bind; [apply halts_adb_read|]. intros r k1 Hr _.
  pose proof (adb_read_size logfd LOGGER_ENTRY_MAX_LEN k) as Hsz. rewrite Hr in Hsz.
  destruct r as [[|b bs]|err].
  - apply halts_ret.
  - cbn in Hsz. set (buf1 := _ ++ drop _ buf).
    apply halts_at_bind; [apply halts_bind; [apply halts_deref; done|intros; halts_tac]|].
    intros len k2 _ Hs2. cbv zeta. case_decide; [done|].
    apply halts_at_bind.
    { unfold write_log_entry, entry_len, known. apply (halts_bind (A:=nat)); [halts_tac|intros; halts_tac]. }
    intros _ k3 _ Hs3. apply IH. pose proof (sh_rd _ _ (transitivity Hs2 Hs3) logfd). lia.
  - destruct ((err =? EINTR) || (err =? EAGAIN)); [|apply halts_ret].
    apply IH. unfold adb_read in Hr. destruct (read_script (rd_of logfd k) _) as [[?|e'] s'] eqn:E; [done|].
    injection Hr as <- <-. apply read_script_err in E.
    change (rd_of logfd (set_errno e' (set_rd logfd s' k))) with (rd_of logfd (set_rd logfd s' k)).
    rewrite rd_of_set_rd. lia.
Qed.

(** ** Texts *)

Lemma skip_spaces_le s : (length (skip_spaces s) ≤ length s)%nat.
Proof. induction s as [|c s IH]; cbn; [done|]. case_match; cbn; lia. Qed.
Lemma word_le w s : (length (snd (word w s)) ≤ length s)%nat.
Proof.
  revert s. induction w as [|w IH]; intros [|c s]; cbn; try lia. case_match; [done|].
  specialize (IH s). destruct (word w s). cbn in *. lia.
Qed.
Lemma word_all_le s : (length (word_all s) ≤ length s)%nat.
Proof. induction s as [|c s IH]; cbn; [done|]. case_match; cbn; lia. Qed.
Lemma sign_le s : (length (sign s) ≤ length s)%nat.
Proof. destruct s as [|c s]; [done|]. unfold sign. repeat case_match; cbn; lia. Qed.
Lemma skip_digits_le s : (length (skip_digits s) ≤ length s)%nat.
Proof. induction s as [|c s IH]; cbn; [done|]. case_match; cbn; lia. Qed.
Lemma number_le s r : number s = Some r → (length r ≤ length s)%nat.
Proof.
  unfold number. pose proof (sign_le s). destruct (sign s) as [|c l]; [done|].
  destruct (isdigit c); [|done]. intros [= <-]. pose proof (skip_digits_le l). cbn in *. lia.
Qed.
Lemma scan_le fmt s n ws : (length (snd (scan fmt s n ws)) ≤ length s)%nat.
Proof.
  revert s n ws. induction fmt as [|c fmt IH]; intros s n ws; cbn [scan].
  { apply skip_spaces_le. }
  pose proof (skip_spaces_le s). set (s1 := skip_spaces s) in *.
  case_bool_decide; [cbn; lia|]. destruct c.
  - pose proof (word_le 255 s1). destruct (word 255 s1) as [w r]. cbn in *. specialize (IH r (n + 1) (ws ++ [w])). lia.
  - pose proof (word_all_le s1). specialize (IH (word_all s1) n ws). lia.
  - destruct (number s1) as [r|] eqn:E; [apply number_le in E; specialize (IH r (n + 1) ws); lia|].
    cbn. pose proof (sign_le s1). lia.
Qed.
(** a scan that starts with a word ends the input or takes a byte *)
Lemma skip_spaces_head s c r : skip_spaces s = c :: r → isspace c = false.
Proof. induction s as [|x s IH]; cbn; [done|]. destruct (isspace x) eqn:E; [done|]. by intros [= <- _]. Qed.
Lemma word_takes w c s : isspace c = false → (length (snd (word (S w) (c :: s))) < length (c :: s))%nat.
Proof.
  intros Hc. pose proof (word_le w s). cbn [word]. rewrite Hc. destruct (word w s). cbn in *. lia.
Qed.
Lemma scan_word_takes fmt s : let '(m, _, r) := scanf (ConvS :: fmt) s in
  m = -1 ∨ (length r < length s)%nat.
Proof.
  unfold scanf. cbn [scan]. pose proof (skip_spaces_le s) as Hle. pose proof (skip_spaces_head s) as Hc.
  destruct (skip_spaces s) as [|c s1] eqn:E; [rewrite bool_decide_eq_true_2 by done; by left|].
  rewrite bool_decide_eq_false_2 by done.
  pose proof (word_takes 254 c s1 (Hc _ _ eq_refl)) as Hw. change 255%nat with (S 254).
  destruct (word (S 254) (c :: s1)) as [w r].
  pose proof (scan_le fmt r (0 + 1) ([] ++ [w])) as Hs.
  destruct (scan fmt r (0 + 1) ([] ++ [w])) as [[m ws] r']. cbn [snd] in *. right. lia.
Qed.

Lemma found_rw_fs_halts fuel s : (length s < fuel)%nat → halts e f (found_rw_fs fuel s).
Proof.
  revert s. induction fuel as [|fuel IH]; intros s Hf; [lia|]. cbn [found_rw_fs].
  pose proof (scan_word_takes [ConvS; ConvS; ConvS; ConvD; ConvD] s) as H.
  destruct (scanf _ s) as [[m ws] r]. case_match; [halts_tac|].
  destruct (Z.eqb_spec m (-1)); [halts_tac|]. apply IH. destruct H; [done|lia].
Qed.
Lemma remount_ro_done_halts : halts e f remount_ro_done.
Proof.
  unfold remount_ro_done. do 4 (halts_step; [halts_tac|]). halts_step; [halts_tac|].
  halts_step; [halts_tac|]. halts_step; [halts_tac|]. halts_step; [halts_tac|].
  halts_step; [apply found_rw_fs_halts; lia|]. halts_tac.
Qed.
Lemma remount_poll_halts n : halts e f (remount_poll n).
Proof.
  induction n as [|n IH]; cbn [remount_poll]; (apply halts_bind; [apply remount_ro_done_halts|]); intros [];
    halts_tac.
Qed.
Lemma android_reboot_halts cmd flags arg : halts e f (android_reboot cmd flags arg).
Proof. unfold android_reboot, remount_ro. halts_tac; apply remount_poll_halts. Qed.

Lemma tok_skip_le buf k buf' k' : tok_skip buf k = Ok buf' k' → (length buf' ≤ length buf)%nat.
Proof.
  revert k. induction buf as [|x buf IH]; intros k; cbn [tok_skip]; [done|]. unfold bind, initialised, deref.
  destruct x as [c|]; [|done]. case_match; [intros ?%IH; cbn; lia|]. by intros [= <- _].
Qed.
Lemma tok_word_takes buf k w r k' : tok_word buf k = Ok (w, r) k' →
  (length r ≤ length buf)%nat ∧ (w ≠ [] → (length r < length buf)%nat).
Proof.
  revert k w r k'. induction buf as [|x buf IH]; intros k w r k'; cbn [tok_word]; [done|]. unfold bind, initialised, deref.
  destruct x as [c|]; [|done]. case_match; [by intros [= <- <- _]|].
  case_match; [intros [= <- <- _]; cbn; lia|].
  destruct (tok_word buf k) as [[w' r']| |] eqn:E; [|done..]. apply IH in E. intros [= _ <- _]. cbn. lia.
Qed.
Lemma strtok_takes buf k w r k' : strtok buf k = Ok (Some (w, r)) k' → (length r < length buf)%nat.
Proof.
  unfold strtok, bind. destruct (tok_skip buf k) as [b1 k1| |] eqn:E1; [|done..]. apply tok_skip_le in E1.
  destruct (tok_word b1 k1) as [[w' r'] k2| |] eqn:E2; [|done..]. apply tok_word_takes in E2 as [_ E2].
  unfold ret. cbn [fst]. case_bool_decide; [done|]. intros [= <- <- _]. specialize (E2 ltac:(done)). lia.
Qed.
Lemma tok_skip_halts buf : halts e true (tok_skip buf).
Proof. induction buf; cbn [tok_skip]; halts_tac. Qed.
Lemma tok_word_halts buf : halts e true (tok_word buf).
Proof. induction buf; cbn [tok_word]; halts_tac. Qed.
Lemma find_line_halts fuel dir buf k : (length buf < fuel)%nat → halts_at e true (find_line fuel dir buf) k.
Proof.
  revert buf k. induction fuel as [|fuel IH]; intros buf k Hf; [lia|]. cbn [find_line].
  apply halts_at_bind.
  { apply halts_bind; [apply tok_skip_halts|]. intros b. apply halts_bind; [apply tok_word_halts|]. halts_tac. }
  intros [[w r]|] k1 Ht _; [|apply halts_ret]. apply strtok_takes in Ht.
  destruct (scanf _ w) as [[res ws] ?]. case_match; [|apply IH; lia].
  assert (Hm : halts e true (do ok <- malloc_ok; ret (if ok then ws !! 0%nat else None))) by halts_tac. apply Hm.
Qed.
Lemma find_mount_halts dir : halts e true (find_mount dir).
Proof.
  unfold find_mount. do 3 (halts_step; [halts_tac|]). halts_step; [halts_tac|]. halts_step; [halts_tac|].
  halts_step; [halts_tac|]. halts_step; [apply halts_adb_read|]. halts_step; [halts_tac|].
  cbv zeta. intros k. apply find_line_halts. lia.
Qed.
End loops.
#[local] Hint Resolve copy_block_halts found_rw_fs_halts remount_ro_done_halts android_reboot_halts
  find_mount_halts : halts.

(** ** Every service thread ends *)

Definition is_waiter (s : service) : bool := match s with subproc_waiter_ _ => true | _ => false end.
Definition may_leave (s : service) : bool := match s with framebuffer_ | reboot_ _ => true | _ => false end.
Definition may_fault (s : service) : bool :=
  match s with framebuffer_ | log_ _ | file_sync_ | remount_ => true | _ => false end.

(** both descriptors are closed one after the other, with at most three calls
    after that *)
Definition closed_both (sti : stinfo) (k : kern) : Prop :=
  ∃ tr a b tr', k_trace k = tr ++ [Sys "close" [AZ a]; Sys "close" [AZ b]] ++ tr' ∧ (length tr' ≤ 3)%nat
    ∧ ((a = sti_rfd sti ∧ b = sti_wfd sti) ∨ (a = sti_wfd sti ∧ b = sti_rfd sti)).

Definition finishes_at (sti : stinfo) {A} (m : M kern A) (k : kern) : Prop :=
  match m k with
  | Ok _ k' => closed_both sti k'
  | Exit _ _ => may_leave (func sti) = true
  | Fault x _ => may_fault (func sti) = true ∧ x ≠ OutOfFuel
  end.
Definition finishes (sti : stinfo) {A} (m : M kern A) : Prop := ∀ k, finishes_at sti m k.

Lemma finishes_at_bind sti {A B} (m : M kern A) (g : A → M kern B) k :
  halts_at (may_leave (func sti)) (may_fault (func sti)) m k → (∀ a, finishes sti (g a)) →
  finishes_at sti (bind m g) k.
Proof.
  intros Hm Hg. unfold halts_at in Hm. unfold finishes_at, bind.
  destruct (m k) as [a k'|c k'|x k']; [apply Hg|done..].
Qed.
Lemma finishes_bind sti {A B} (m : M kern A) (g : A → M kern B) :
  halts (may_leave (func sti)) (may_fault (func sti)) m → (∀ a, finishes sti (g a)) → finishes sti (bind m g).
Proof. intros Hm Hg k. apply finishes_at_bind; [apply Hm|done]. Qed.
Lemma finishes_close_rw sti {A} (a : A) : finishes sti (adb_close (sti_rfd sti);;; adb_close (sti_wfd sti);;; ret a).
Proof.
  intros k. exists (k_trace k), (sti_rfd sti), (sti_wfd sti), []. cbn.
  rewrite <- !app_assoc. split_and!; [done|lia|tauto].
Qed.
Lemma finishes_close_wr sti {A} (a : A) : finishes sti (adb_close (sti_wfd sti);;; adb_close (sti_rfd sti);;; ret a).
Proof.
  intros k. exists (k_trace k), (sti_wfd sti), (sti_rfd sti), []. cbn.
  rewrite <- !app_assoc. split_and!; [done|lia|tauto].
Qed.
Lemma finishes_assoc sti {A B C} (m : M kern A) (g : A → M kern B) (h : B → M kern C) :
  finishes sti (bind m (λ a, bind (g a) h)) → finishes sti (bind (bind m g) h).
Proof. intros H k. unfold finishes_at. rewrite bind_assoc. apply H. Qed.
Lemma finishes_exit sti {A} c : may_leave (func sti) = true → finishes sti (exit c : M kern A).
Proof. by intros H k. Qed.
Lemma finishes_fail sti {A} x : may_fault (func sti) = true → x ≠ OutOfFuel → finishes sti (fail x : M kern A).
Proof. by intros H ? k. Qed.
Lemma finishes_fail_bind sti {A B} x (g : A → M kern B) : may_fault (func sti) = true → x ≠ OutOfFuel →
  finishes sti (bind (fail x) g).
Proof. by intros H ? k. Qed.

(** one statement before the final closes; [Hf : func sti = _] is in the context *)
Ltac fin_step :=
  match goal with
  | |- finishes _ (bind (bind _ _) _) => apply finishes_assoc
  | |- finishes _ (bind (gets (read_fuel _)) _) => fail 1
  | |- finishes _ (adb_close (sti_rfd _);;; adb_close (sti_wfd _);;; ret _) => apply finishes_close_rw
  | |- finishes _ (adb_close (sti_wfd _);;; adb_close (sti_rfd _);;; ret _) => apply finishes_close_wr
  | Hf : func ?s = _ |- finishes ?s (bind (fail _) _) => apply finishes_fail_bind; [by rewrite Hf|done]
  | |- finishes _ (bind (match ?x with _ => _ end) _) => destruct x
  | |- finishes _ (match ?x with _ => _ end) => destruct x
  | Hf : func ?s = _ |- finishes ?s (bind _ _) =>
      apply finishes_bind; [rewrite Hf; cbn [may_leave may_fault]|intros ?]
  end.
Ltac fin := repeat first [solve [halts_tac] | progress cbn beta iota | fin_step].

(** a loop with its bound, then the rest *)
Lemma finishes_read_fuel sti {A} d (g : nat → M kern A) :
  (∀ n k, (script_size (rd_of d k) < n)%nat → finishes_at sti (g n) k) →
  finishes sti (do n <- gets (read_fuel d); g n).
Proof.
  intros Hg k. unfold finishes_at. rewrite (bind_ok (gets (read_fuel d)) _ k _ k) by done.
  apply Hg. unfold read_fuel. lia.
Qed.
Lemma recover_tail sti fd ok (ro : Z) : finishes sti
  (do _ <- writex (sti_wfd sti) ok;
   (adb_close fd;;; adb_close (sti_rfd sti);;; adb_close (sti_wfd sti);;;
    do fd <- adb_creat (str "/tmp/update.begin") 0x1a4; adb_close fd);;; ret ro).
Proof.
  apply finishes_bind; [apply halts_writex|]. intros _ k. set (k1 := add_trace (Sys "close" [AZ fd]) k).
  destruct (sys__run "creat" [AS (str "/tmp/update.begin"); AZ 0x1a4]
    (add_trace (Sys "close" [AZ (sti_wfd sti)]) (add_trace (Sys "close" [AZ (sti_rfd sti)]) k1))) as (k2 & E & T).
  assert (Hc : ∀ k3 c, k_trace k3 = k_trace k2 ++ c → (length c ≤ 2)%nat → closed_both sti k3).
  { intros k3 c Hk Hl. exists (k_trace k1), (sti_rfd sti), (sti_wfd sti),
      (Sys "creat" [AS (str "/tmp/update.begin"); AZ 0x1a4] :: c).
    rewrite Hk, T. cbn. rewrite <- !app_assoc. split_and!; [reflexivity|lia|tauto]. }
  unfold finishes_at, bind, adb_close, note, modify, adb_creat. fold k1. unfold bind. rewrite E.
  destruct (answer _ <? 0); cbn; eapply Hc; cbn; rewrite <- ?app_assoc; [reflexivity|cbn; lia|reflexivity|cbn; lia].
Qed.

Lemma fb_send_halts {e f} from wfd : halts e f (fb_send from wfd).
Proof.
  unfold fb_send. do 3 (halts_step; [halts_tac|]; halts_step; [|halts_tac]). halts_step; [|halts_tac].
  halts_step. cbv zeta. halts_step; [halts_tac|]. halts_step; [halts_tac|].
  intros k. apply halts_at_bind; [apply halts_gets|]. intros n k' [= <- <-] _.
  apply halts_at_bind; [apply fb_loop_halts; unfold read_fuel; lia|]. intros ok k2 _ _. apply halts_here. halts_tac.
Qed.
Lemma unmount_storage_halts {f} vfork : halts true f (unmount_storage vfork).
Proof. unfold unmount_storage, getenv. halts_tac. Qed.
Lemma remount_system_halts {e} ro : halts e true (remount_system ro).
Proof. unfold remount_system. halts_tac. Qed.
#[local] Hint Resolve fb_send_halts unmount_storage_halts remount_system_halts : halts.


(** ** The pipes of a service thread *)

Lemma close_list_run fds k : close_list fds k
  = Ok tt (foldl (λ k fd, add_trace (Sys "close" [AZ fd]) k) k fds).
Proof. revert k. induction fds as [|fd fds IH]; intros k; [done|]. apply IH. Qed.

(** [a], [b]: the ends of the pipe to the client; [c], [d]: of the pipe from it *)
Definition pipes (a b c d : Z) (r : sysres) (rest : list sysres) : list sysres :=
  SysRes 0 0 [a; b] :: SysRes 0 0 [c; d] :: r :: rest.
Definition pipe_calls (a b c d : Z) : list syscall :=
  [Sys "pipe" []; Sys "pipe" []; Sys "cloexec" [AZ a]; Sys "cloexec" [AZ b]; Sys "cloexec" [AZ c]; Sys "cloexec" [AZ d]].

(** A service thread gets the read end of one pipe and the write end of the
    other, its client the two opposite ends, and nothing is closed; if the thread
    cannot be created all four descriptors are closed.  (If the second pipe
    cannot be created, the ends of the first one stay open.) *)
Theorem service_thread_descriptors f a b c d r rest k :
  k_oom k = [] →
  (k_sys k = pipes a b c d r rest →
    if sr_ret r =? 0
    then ∃ k', create_service_thread f k = Ok (Some (a, d)) k'
      ∧ k_trace k' = k_trace k ++ pipe_calls a b c d ++ [thread_call (mkSti f c b)]
    else ∃ k', create_service_thread f k = Ok None k'
      ∧ k_trace k' = k_trace k ++ pipe_calls a b c d ++ [thread_call (mkSti f c b)]
          ++ ((λ fd, Sys "close" [AZ fd]) <$> [a; b; c; d]))
  ∧ (k_sys k = SysRes 0 0 [a; b] :: SysRes (-1) (sr_errno r) [] :: rest →
    ∃ k', create_service_thread f k = Ok None k'
      ∧ k_trace k' = k_trace k ++ [Sys "pipe" []; Sys "pipe" []]).
Proof.
  destruct k as [e rd wr out sys tr oom]. cbn [k_oom k_sys k_trace]. intros ->. split; intros ->.
  - destruct r as [v er o]. cbn [sr_ret]. destruct (Z.eqb_spec v 0) as [->|Hv].
    + eexists. split; [reflexivity|]. cbn. by rewrite <- !app_assoc.
    + unfold create_service_thread, start_service, pipe2, adb_thread_create, sys_, sys, bind. cbn.
      rewrite (proj2 (Z.eqb_neq v 0)) by done. cbn. destruct (v <? 0); cbn;
        (eexists; split; [reflexivity|cbn; by rewrite <- !app_assoc]).
  - eexists. split; [reflexivity|]. cbn. by rewrite <- !app_assoc.
Qed.

Definition kern0 : kern := mkKern 0 ∅ ∅ ∅ [] [] [].
Lemma service_thread_descriptors_witness : ∃ k',
  create_service_thread file_sync_ (set_sys (pipes 5 6 7 8 (SysRes 0 0 []) []) kern0) = Ok (Some (5, 8)) k'
  ∧ k_trace k' = pipe_calls 5 6 7 8 ++ [thread_call (mkSti file_sync_ 7 6)].
Proof.
  apply (service_thread_descriptors file_sync_ 5 6 7 8 (SysRes 0 0 []) []
    (set_sys (pipes 5 6 7 8 (SysRes 0 0 []) []) kern0)); reflexivity.
Defined.


(** ** The waiter of a shell *)

(** a call answered by the script touches no descriptor *)
Lemma sys_next n a k r rest : k_sys k = r :: rest → ∃ k', sys n a k = Ok (sr_ret r, sr_out r) k'
  ∧ k_sys k' = rest ∧ k_rd k' = k_rd k ∧ k_wr k' = k_wr k ∧ k_out k' = k_out k ∧ k_oom k' = k_oom k.
Proof. intros H. unfold sys. rewrite H. eexists. split; [reflexivity|]. by case_match. Qed.

Lemma wait_loop_skip pre rest pid : Forall (λ r, sr_ret r ≠ pid) pre → ∀ fuel k, k_sys k = pre ++ rest →
  ∃ k', k_sys k' = rest ∧ k_rd k' = k_rd k ∧ k_wr k' = k_wr k ∧ k_out k' = k_out k
    ∧ wait_loop (length pre + fuel) pid k = wait_loop fuel pid k'.
Proof.
  induction 1 as [|r pre Hr _ IH]; intros fuel k Hk; [by exists k|]. cbn [length Nat.add wait_loop].
  destruct (sys_next "waitpid" [AZ pid] k r _ Hk) as (k1 & E & S1 & R1 & W1 & O1 & _). run E.
  rewrite (proj2 (Z.eqb_neq _ _)) by done. destruct (IH fuel k1 S1) as (k' & H1 & H2 & H3 & H4 & H5).
  exists k'. split_and!; congruence.
Qed.

(** C30 The waiter of a shell ends as soon as the system reports its process,
    whatever it reports before, and then tells the main loop which descriptor the
    shell used; if the process is never reported (it was reaped by another
    waiter, or never existed) it polls for ever. *)
Theorem waiter_notifies notify_fd rfd pid k : pid ≠ -1 →
  (∀ pre er st out post, k_sys k = pre ++ SysRes pid er (st :: out) :: post → 0 ≤ notify_fd →
     Forall (λ r, sr_ret r ≠ pid) pre → (4 ≤ wcap (wr_of notify_fd k))%nat →
     ∃ k', subproc_waiter_service notify_fd rfd pid k = Ok tt k'
       ∧ out_of notify_fd k' = out_of notify_fd k ++ le32 rfd)
  ∧ (Forall (λ r, sr_ret r ≠ pid) (k_sys k) → ∀ fuel, ∃ k', wait_loop fuel pid k = Fault OutOfFuel k').
Proof.
  intros Hpid. split.
  - intros pre er st out post Hk Hn Hpre Hw. unfold subproc_waiter_service.
    rewrite (bind_ok (gets _) _ k _ k) by done. rewrite Hk, length_app. cbn [length].
    destruct (wait_loop_skip pre _ pid Hpre (S (S (length post))) k Hk) as (k1 & H1 & H2 & H3 & H4 & H5).
    replace (S (length pre + S (length post)))%nat with (length pre + S (S (length post)))%nat by lia.
    assert (Hl : ∃ k2, wait_loop (S (S (length post))) pid k1 = Ok tt k2 ∧ k_wr k2 = k_wr k1 ∧ k_out k2 = k_out k1).
    { cbn [wait_loop]. destruct (sys_next "waitpid" [AZ pid] k1 _ _ H1) as (k2 & E & _ & _ & W2 & O2 & _). run E.
      cbn [sr_ret sr_out]. rewrite Z.eqb_refl. exists k2. split; [|done].
      assert (0 <=? WEXITSTATUS st = true) as He.
      { apply Z.leb_le. unfold WEXITSTATUS. apply Z.shiftr_nonneg, Z.land_nonneg. right. lia. }
      unfold bind, initialised, deref. cbn. rewrite He. by destruct (WIFSIGNALED st), (WIFEXITED st). }
    destruct Hl as (k2 & E & Hw2 & Ho2). rewrite (bind_ok _ _ k tt k2) by congruence.
    rewrite (proj2 (Z.leb_le 0 notify_fd)) by done.
    destruct (writex_exact notify_fd (le32 rfd) k2) as (k3 & E3 & O3 & _).
    { unfold wr_of. rewrite Hw2, H3. exact Hw. }
    run E3. exists k3. split; [done|]. rewrite O3. f_equal. unfold out_of. by rewrite Ho2, H4.
  - intros Hall fuel. revert k Hall. induction fuel as [|fuel IH]; intros k Hall; [by eexists|]. cbn [wait_loop].
    destruct (k_sys k) as [|r l] eqn:E.
    + unfold bind at 1, sys. rewrite E. cbn zeta. rewrite (proj2 (Z.eqb_neq _ _)) by done. apply IH. cbn. by rewrite E.
    + inversion_clear Hall. destruct (sys_next "waitpid" [AZ pid] k r l E) as (k1 & E1 & S1 & _). run E1.
      rewrite (proj2 (Z.eqb_neq _ _)) by done. apply IH. by rewrite S1.
Qed.

Definition shell_end : kern :=
  mkKern 0 ∅ {[ 4 := [WrOk 4] ]} ∅ [SysRes (-1) EINTR []; SysRes 77 0 [0]] [] [].
Lemma waiter_notifies_witness : ∃ k',
  subproc_waiter_service 4 9 77 shell_end = Ok tt k' ∧ out_of 4 k' = out_of 4 shell_end ++ le32 9.
Proof.
  apply (proj1 (waiter_notifies 4 9 77 shell_end ltac:(lia)) [SysRes (-1) EINTR []] 0 0 [] []).
  - reflexivity.
  - lia.
  - repeat constructor; discriminate.
  - vm_compute. lia.
Defined.

(** ** The frame buffer *)

Lemma copy_block_run from to bs rest k : from ≠ to → stream (rd_of from k) = bs ++ rest →
  (length bs ≤ wcap (wr_of to k))%nat →
  ∃ k', copy_block from to (length bs) k = Ok true k' ∧ stream (rd_of from k') = rest
    ∧ out_of to k' = out_of to k ++ bs ∧ wcap (wr_of to k') = (wcap (wr_of to k) - length bs)%nat.
Proof.
  intros Hne Hs Hc. unfold copy_block. destruct (readx_exact from k bs rest Hs) as (k1 & E1 & S1 & B1). run E1.
  destruct (writex_exact to bs k1) as (k2 & E2 & O2 & W2 & B2).
  { unfold wr_of. by rewrite (sbr_wr _ _ _ B1). }
  exists k2. split_and!; [done| | |].
  - unfold rd_of. by rewrite (sbw_rd _ _ _ B2).
  - rewrite O2. unfold out_of. by rewrite (sbr_out _ _ _ B1).
  - rewrite W2. unfold wr_of. by rewrite (sbr_wr _ _ _ B1).
Qed.
Lemma copy_block_short from to n k : (length (stream (rd_of from k)) < n)%nat →
  ∃ k', copy_block from to n k = Ok false k' ∧ k_out k' = k_out k.
Proof.
  intros Hn. destruct (readx_spec from n k) as (k1 & B1 & H). cbv zeta in H. rewrite decide_False in H by lia.
  exists k1. split; [|apply B1]. unfold copy_block. by run H.
Qed.

Lemma fb_loop_run fuel from to size i rem k : from ≠ to → stream (rd_of from k) = rem →
  size = i + Z.of_nat (length rem) → 0 ≤ i → i mod 640 = 0 → size ≤ 2 ^ 32 - 640 → (length rem ≤ fuel)%nat →
  (length rem ≤ wcap (wr_of to k))%nat →
  ∃ ok k', fb_loop fuel from to size i k = Ok ok k'
    ∧ out_of to k' = out_of to k ++ take (length rem / 640 * 640) rem ∧ (ok = true → size mod 640 = 0).
Proof.
  intros Hne. revert i rem k. induction fuel as [|fuel IH]; intros i rem k Hs Hsz Hi Hm Hmax Hf Hw.
  - assert (rem = []) as -> by (destruct rem; [done|cbn in Hf; lia]). cbn in Hsz.
    exists true, k. cbn. rewrite (proj2 (Z.leb_le size i)) by lia. rewrite app_nil_r. split_and!; [done|done|].
    intros _. by replace size with i by lia.
  - cbn [fb_loop]. destruct (Z.leb_spec size i).
    { assert (rem = []) as -> by (destruct rem; [done|cbn in Hsz; lia]). cbn in Hsz.
      exists true, k. cbn. rewrite app_nil_r. split_and!; [done|done|]. intros _. by replace size with i by lia. }
    destruct (decide (length rem < 640)%nat) as [Hl|Hl].
    + destruct (copy_block_short from to 640 k) as (k1 & E1 & O1); [by rewrite Hs|]. run E1.
      exists false, k1. rewrite Nat.div_small by done. cbn. rewrite app_nil_r. unfold out_of. by rewrite O1.
    + destruct (copy_block_run from to (take 640 rem) (drop 640 rem) k) as (k1 & E1 & S1 & O1 & W1).
      { done. } { by rewrite take_drop. } { rewrite length_take. lia. }
      rewrite length_take, Nat.min_l in E1, W1 by lia. run E1.
      rewrite u32_id by lia.
      destruct (IH (i + 640) (drop 640 rem) k1) as (ok & k' & E & O & Hok); try done.
      * rewrite length_drop. lia.
      * lia.
      * rewrite Z.add_mod, Hm by lia. done.
      * rewrite length_drop. lia.
      * rewrite length_drop, W1. lia.
      * exists ok, k'. split_and!; [done| |done]. rewrite O, O1, length_drop, <- app_assoc. f_equal.
        replace (length rem / 640 * 640)%nat with (640 + (length rem - 640) / 640 * 640)%nat.
        2:{ replace (length rem) with (1 * 640 + (length rem - 640))%nat at 2 by lia.
            rewrite Nat.div_add_l by lia. lia. }
        by rewrite take_take_drop.
Qed.

Lemma fbinfo_length bpp w h f b ch : fb_format f = Some (b, ch) → length (fbinfo bpp w h ch) = 52%nat.
Proof. unfold fb_format. intros H. repeat case_match; simplify_eq; reflexivity. Qed.

Lemma read_word d k n rest : 0 ≤ n < 2 ^ 32 → stream (rd_of d k) = le32 n ++ rest →
  ∃ bs k', readx d 4 k = Ok (Some bs) k' ∧ get32 bs = n ∧ stream (rd_of d k') = rest ∧ same_but_rd d k k'.
Proof.
  intros Hn Hs. destruct (readx_exact d k (le32 n) rest Hs) as (k1 & E & S1 & B). exists (le32 n), k1.
  split_and!; [exact E| |done|done]. pose proof (get32_le32 n []) as Hg. rewrite app_nil_r in Hg.
  by rewrite Hg, u32_id.
Qed.

Lemma stream_size s : (length (stream s) ≤ script_size s)%nat.
Proof.
  induction s as [|[[|b bs]|e] s IH]; cbn; [lia..| |].
  - rewrite length_app. lia.
  - case_match; cbn; lia.
Qed.

(** the bytes of the image after the header, when the program gives the header
    and exactly the image *)
Lemma fb_send_run from wfd k w h f bpp ch img : from ≠ wfd → fb_format f = Some (bpp, ch) →
  0 ≤ w < 2 ^ 32 → 0 ≤ h < 2 ^ 32 → 0 ≤ f < 2 ^ 32 →
  stream (rd_of from k) = le32 w ++ le32 h ++ le32 f ++ img → Z.of_nat (length img) = fb_size bpp w h →
  fb_size bpp w h ≤ 2 ^ 32 - 640 → (52 + length img ≤ wcap (wr_of wfd k))%nat →
  ∃ k', fb_send from wfd k = Ok tt k'
    ∧ out_of wfd k' = out_of wfd k ++ fbinfo bpp w h ch ++ take (length img / 640 * 640) img.
Proof.
  intros Hne Hf Hw Hh Hff Hs Hsz Hmax Hcap. unfold fb_send.
  destruct (read_word from k w _ Hw Hs) as (bw & k1 & E1 & G1 & S1 & B1). run E1.
  destruct (read_word from k1 h _ Hh S1) as (bh & k2 & E2 & G2 & S2 & B2). run E2.
  destruct (read_word from k2 f _ Hff S2) as (bf & k3 & E3 & G3 & S3 & B3). run E3.
  rewrite G1, G2, G3, Hf. cbv zeta.
  pose proof (transitivity (transitivity B1 B2) B3) as B.
  assert (Hc3 : wcap (wr_of wfd k3) = wcap (wr_of wfd k)) by (unfold wr_of; by rewrite (sbr_wr _ _ _ B)).
  pose proof (fbinfo_length bpp w h f bpp ch Hf) as Hl.
  destruct (writex_exact wfd (fbinfo bpp w h ch) k3) as (k4 & E4 & O4 & W4 & B4); [lia|]. run E4. cbn [negb].
  rewrite (bind_ok (gets (read_fuel from)) _ k4 (read_fuel from k4) k4) by done.
  assert (S4 : stream (rd_of from k4) = img) by (unfold rd_of; by rewrite (sbw_rd _ _ _ B4)).
  destruct (fb_loop_run (read_fuel from k4) from wfd (fb_size bpp w h) 0 img k4) as (ok & k5 & E5 & O5 & Hok);
    try done; try lia.
  { unfold read_fuel. rewrite <- S4. pose proof (stream_size (rd_of from k4)). lia. }
  run E5. assert (O : out_of wfd k5 = out_of wfd k ++ fbinfo bpp w h ch ++ take (length img / 640 * 640) img).
  { rewrite O5, O4, <- app_assoc. f_equal. unfold out_of. by rewrite (sbr_out _ _ _ B). }
  destruct ok; cbn [negb]; [|by exists k5]. rewrite Hok by done. change (Z.to_nat 0) with (length (@nil Z)).
  destruct (copy_block_run from wfd [] (stream (rd_of from k5)) k5) as (k6 & E6 & _ & O6 & _); [done|done|cbn; lia|].
  run E6. exists k6. split; [done|]. by rewrite O6, app_nil_r.
Qed.

(** When the screen capture program gives a header and exactly the image the
    header announces, the frame buffer service ends and sends the description
    of the format followed by the whole blocks of 640 bytes of the image: the
    whole image if its size is a multiple of 640, otherwise all but its last
    bytes. *)
Theorem framebuffer_sends_blocks rfd wfd from fd1 pid rest w h f bpp ch img k :
  k_oom k = [] → k_sys k = SysRes 0 0 [from; fd1] :: SysRes pid 0 [] :: rest → 0 < pid →
  from ≠ wfd → fb_format f = Some (bpp, ch) → 0 ≤ w < 2 ^ 32 → 0 ≤ h < 2 ^ 32 → 0 ≤ f < 2 ^ 32 →
  stream (rd_of from k) = le32 w ++ le32 h ++ le32 f ++ img → Z.of_nat (length img) = fb_size bpp w h →
  fb_size bpp w h ≤ 2 ^ 32 - 640 → (52 + length img ≤ wcap (wr_of wfd k))%nat →
  ∃ k', framebuffer_service rfd wfd k = Ok tt k'
    ∧ out_of wfd k' = out_of wfd k ++ fbinfo bpp w h ch ++ take (length img / 640 * 640) img.
Proof.
  intros Hoom Hsys Hpid Hne Hf Hw Hh Hff Hs Hsz Hmax Hcap. unfold framebuffer_service.
  rewrite (bind_ok malloc_ok _ k true k) by (unfold malloc_ok; by rewrite Hoom). cbn [negb].
  destruct (sys_next "pipe" [] k _ _ Hsys) as (k1 & E1 & S1 & R1 & W1 & O1 & _).
  assert (Ep : pipe2 k = Ok (Some (from, fd1)) k1) by (unfold pipe2; by run E1). run Ep.
  destruct (sys_next "fork" [] k1 _ _ S1) as (k2 & E2 & S2 & R2 & W2 & O2 & _).
  assert (Ef : sys_ "fork" [] k1 = Ok pid k2) by (unfold sys_; by run E2). run Ef.
  rewrite (proj2 (Z.ltb_ge pid 0)), (proj2 (Z.eqb_neq pid 0)) by lia.
  destruct (fb_send_run from wfd k2 w h f bpp ch img) as (k3 & E3 & O3); try done.
  { unfold rd_of. rewrite R2, R1. exact Hs. } { unfold wr_of. rewrite W2, W1. exact Hcap. }
  run E3. rewrite (proj2 (Z.ltb_lt 0 pid)) by done. eexists. split; [reflexivity|].
  change (out_of wfd k3 = out_of wfd k ++ fbinfo bpp w h ch ++ take (length img / 640 * 640) img).
  rewrite O3. f_equal. unfold out_of. congruence.
Qed.

(** 3 x 1 pixels of 16 bits: no byte of the image is sent *)
Definition fb_kern : kern :=
  mkKern 0 {[ 7 := [RdData (le32 3 ++ le32 1 ++ le32 4 ++ [1; 2; 3; 4; 5; 6])] ]} {[ 6 := [WrOk 100] ]} ∅
    [SysRes 0 0 [7; 8]; SysRes 12 0 []] [] [].
Lemma framebuffer_sends_blocks_witness :
  ∃ k', framebuffer_service 5 6 fb_kern = Ok tt k'
    ∧ out_of 6 k' = out_of 6 fb_kern ++ fbinfo 16 3 1 [11; 5; 0; 5; 5; 6; 0; 0] ++ take 0 [1; 2; 3; 4; 5; 6].
Proof.
  apply (framebuffer_sends_blocks 5 6 7 8 12 [] 3 1 4 16 [11; 5; 0; 5; 5; 6; 0; 0] [1; 2; 3; 4; 5; 6] fb_kern);
    first [reflexivity | lia | (vm_compute; discriminate) | (vm_compute; lia)].
Defined.

(** ** Failures that the code does not handle *)

(** a log that cannot be opened: the service frees a pointer that was never set *)
Theorem log_missing_file rfd wfd path er rest k : k_sys k = SysRes (-1) er [] :: rest →
  ∃ k', log_service rfd wfd path k = Fault Uninitialised k'.
Proof.
  intros Hs. destruct (sys_next "open" [AS path; AS (str "O_RDONLY")] k _ _ Hs) as (k1 & E & _).
  exists k1. unfold log_service. assert (Eo : unix_open path "O_RDONLY" k = Ok (-1) k1) by (unfold unix_open, sys_; by run E).
  by run Eo.
Qed.

Lemma sys_trace n a k x k' : sys n a k = Ok x k' → k_trace k' = k_trace k ++ [Sys n a].
Proof. destruct (sys_run n a k) as (k1 & o & E & T). rewrite E. by intros [= _ <-]. Qed.
Lemma pipe2_next k a b rest : k_sys k = SysRes 0 0 [a; b] :: rest →
  ∃ k', pipe2 k = Ok (Some (a, b)) k' ∧ k_sys k' = rest ∧ k_oom k' = k_oom k
    ∧ k_trace k' = k_trace k ++ [Sys "pipe" []].
Proof.
  intros Hs. destruct (sys_next "pipe" [] k _ _ Hs) as (k' & E & S & _ & _ & _ & M). exists k'.
  split_and!; [|done|done|by eapply sys_trace]. unfold pipe2. by run E.
Qed.

(** a fork that fails: a waiter for any child of the daemon is started *)
Theorem failed_fork_waits name a b c d er k : k_oom k = [] →
  k_sys k = [SysRes 0 0 [a; b]; SysRes 0 0 [c; d]; SysRes (-1) er []; SysRes 0 0 []] →
  ∃ k' tr, create_subproc_thread true false name k = Ok (-1) k'
    ∧ k_trace k' = tr ++ [thread_call (mkSti (subproc_waiter_ (-1)) (-1) (-1))].
Proof.
  intros Hoom Hs. unfold create_subproc_thread. set (argv := SHELL_COMMAND :: _). unfold create_subprocess, create_subprocess_pipe.
  destruct (pipe2_next k a b _ Hs) as (k1 & E1 & S1 & M1 & _). destruct (pipe2_next k1 c d _ S1) as (k2 & E2 & S2 & M2 & _).
  destruct (sys_next "fork" [] k2 _ _ S2) as (k3 & E3 & S3 & _ & _ & _ & M3).
  assert (Ef : sys_ "fork" [] k2 = Ok (-1) k3) by (unfold sys_; by run E3).
  set (k4 := foldl (λ k fd, add_trace (Sys "close" [AZ fd]) k) k3 [a; b; c; d]).
  assert (Ep : create_subprocess_pipe true argv k = Ok (-1, Some (-1)) k4).
  { unfold create_subprocess_pipe. run E1. run E2. run Ef. change (-1 <? 0) with true. cbv iota.
    by run (close_list_run [a; b; c; d] k3). }
  run Ep. rewrite (bind_ok malloc_ok _ k4 true k4) by (unfold malloc_ok; cbn; by rewrite M3, M2, M1, Hoom). cbn [negb].
  rewrite (bind_ok (initialised (Some (-1))) _ k4 (-1) k4) by done.
  destruct (sys__run "pthread_create" (sys_args (thread_call (mkSti (subproc_waiter_ (-1)) (-1) (-1)))) k4) as (k5 & E5 & T5).
  assert (A5 : answer k4 = 0) by (unfold answer; cbn [k4 k_sys foldl add_trace]; by rewrite S3). rewrite A5 in E5.
  exists k5, (k_trace k4). split; [|exact T5]. unfold adb_thread_create. by run E5.
Qed.

(** backup: one end of the third pipe is neither returned nor closed *)
Theorem backup_keeps_dummy args u0 u1 d0 d1 m0 m1 pid k : k_oom k = [] → 0 < pid →
  k_sys k = [SysRes 0 0 [u0; u1]; SysRes 0 0 [d0; d1]; SysRes 0 0 [m0; m1]; SysRes pid 0 []; SysRes 0 0 []] →
  ∃ k' tr, backup_service BACKUP args k = Ok (Some (u0, m1)) k' ∧ k_trace k' = k_trace k ++ tr
    ∧ closes tr = [u1; d0; d1].
Proof.
  intros Hoom Hp Hs. unfold backup_service. destruct (pipe2_next k u0 u1 _ Hs) as (k1 & E1 & S1 & M1 & T1).
  destruct (pipe2_next k1 d0 d1 _ S1) as (k2 & E2 & S2 & M2 & T2).
  destruct (pipe2_next k2 m0 m1 _ S2) as (k3 & E3 & S3 & M3 & T3). run E1. run E2. run E3. cbv zeta.
  assert (Hmal : ∀ k', k_oom k' = k_oom k3 → ∀ (g : bool → M kern (option (Z * Z))), bind malloc_ok g k' = g true k').
  { intros k' H g. apply bind_ok. unfold malloc_ok. by rewrite H, M3, M2, M1, Hoom. }
  rewrite Hmal by done. cbn [negb]. destruct (sys_next "fork" [] k3 _ _ S3) as (k4 & E4 & S4 & _ & _ & _ & M4).
  assert (Ef : sys_ "fork" [] k3 = Ok pid k4) by (unfold sys_; by run E4). run Ef. apply sys_trace in E4.
  rewrite (proj2 (Z.ltb_ge pid 0)), (proj2 (Z.eqb_neq pid 0)) by lia. cbn [when].
  rewrite (bind_ok (ret tt) _ k4 tt k4) by done. run (close_list_run [u1; d0; d1] k4).
  set (k5 := foldl _ k4 _).
  rewrite (bind_ok (close_on_exec u0) _ k5 tt (add_trace (Sys "cloexec" [AZ u0]) k5)) by done.
  set (k6 := add_trace _ k5).
  rewrite (bind_ok (close_on_exec m1) _ k6 tt (add_trace (Sys "cloexec" [AZ m1]) k6)) by done.
  set (k7 := add_trace _ k6). rewrite Hmal by exact M4. cbn [negb].
  destruct (sys__run "thread:backup_child_waiter" [AZ pid; AZ u0] k7) as (k8 & E8 & T8).
  assert (A7 : answer k7 = 0) by (unfold answer; cbn [k7 k6 k5 k_sys foldl add_trace]; by rewrite S4). rewrite A7 in E8.
  run E8. eexists k8, _. split_and!; [done| |].
  - rewrite T8. cbn [k7 k6 k5 k_trace foldl add_trace]. rewrite E4, T3, T2, T1, <- !app_assoc. reflexivity.
  - reflexivity.
Qed.
