(* ===== verification/Mounts.v ===== *)
(** * The mount table as remount_service.c and android_reboot.c read it *)

From S2P Require Import Prelude Kernel SockProps Packet FileSync OneShot ServicesProps.

(** a line of /proc/mounts *)
Record mnt := mkMnt { m_dev : list Z; m_dir : list Z; m_type : list Z; m_opts : list Z; m_freq : list Z; m_pass : list Z }.

Definition is_word (w : list Z) : Prop := w ≠ [] ∧ Forall (λ c, isspace c = false ∧ c ≠ 0) w ∧ (length w ≤ 255)%nat.
Definition is_number (d : list Z) : Prop := d ≠ [] ∧ Forall (λ c, isdigit c = true) d.

Record mnt_ok (m : mnt) : Prop := {
  mo_words : is_word (m_dev m) ∧ is_word (m_dir m) ∧ is_word (m_type m) ∧ is_word (m_opts m);
  mo_numbers : is_number (m_freq m) ∧ is_number (m_pass m);
}.
Definition fields (m : mnt) : list Z :=
  m_dev m ++ 32 :: m_dir m ++ 32 :: m_type m ++ 32 :: m_opts m ++ 32 :: m_freq m ++ 32 :: m_pass m.
Definition mounts (ms : list mnt) : list Z := concat ((λ m, fields m ++ [10]) <$> ms).

(** ** Scanning a line *)

Lemma digit_range c : isdigit c = true → 48 ≤ c ≤ 57.
Proof. unfold isdigit. lia. Qed.
Lemma digit_not_space c : isdigit c = true → isspace c = false.
Proof. unfold isspace. intros H%digit_range. lia. Qed.

Lemma skip_word (w r : list Z) : is_word w → skip_spaces (w ++ r) = w ++ r.
Proof. intros (Hne & Hw & _). destruct w as [|c w]; [done|]. inversion_clear Hw. cbn. by destruct H as [-> _]. Qed.
Lemma skip_number (d r : list Z) : is_number d → skip_spaces (d ++ r) = d ++ r.
Proof.
  intros (Hne & Hd). destruct d as [|c d]; [done|]. inversion_clear Hd. cbn. by rewrite digit_not_space.
Qed.
Lemma skip_space (r : list Z) : skip_spaces (32 :: r) = skip_spaces r.
Proof. done. Qed.

(** the end of a word *)
Definition stops (r : list Z) : Prop := match r with [] => True | c :: _ => isspace c = true end.
Lemma word_exact n (w r : list Z) : Forall (λ c, isspace c = false ∧ c ≠ 0) w → stops r → (length w ≤ n)%nat →
  word n (w ++ r) = (w, r).
Proof.
  intros Hw Hr. revert n. induction Hw as [|c w [Hc _] _ IH]; intros n Hn.
  - destruct r as [|c r]; destruct n; cbn; try done. by rewrite Hr.
  - destruct n as [|n]; cbn in *; [lia|]. by rewrite Hc, IH by lia.
Qed.
Lemma word_all_exact (w r : list Z) : Forall (λ c, isspace c = false ∧ c ≠ 0) w → stops r → word_all (w ++ r) = r.
Proof.
  intros Hw Hr. induction Hw as [|c w [Hc _] _ IH]; cbn.
  - destruct r as [|c r]; [done|]. cbn. by rewrite Hr.
  - by rewrite Hc.
Qed.
Lemma skip_digits_exact (d r : list Z) : Forall (λ c, isdigit c = true) d → stops r → skip_digits (d ++ r) = r.
Proof.
  intros Hd Hr. induction Hd as [|c d Hc _ IH]; cbn.
  - destruct r as [|c r]; [done|]. cbn in *. unfold isspace, isdigit in *.
    rewrite (proj2 (andb_false_iff _ _)); [done|]. lia.
  - by rewrite Hc.
Qed.
Lemma sign_digit c (r : list Z) : isdigit c = true → sign (c :: r) = c :: r.
Proof.
  intros H%digit_range.
  assert (Hc : c ∈ seqZ 48 10) by (apply elem_of_seqZ; lia).
  repeat (apply elem_of_cons in Hc as [->|Hc]; [reflexivity|]). by apply elem_of_nil in Hc.
Qed.
Lemma number_exact (d r : list Z) : is_number d → stops r → number (d ++ r) = Some r.
Proof.
  intros (Hne & Hd) Hr. destruct d as [|c d]; [done|]. pose proof (Forall_inv Hd) as Hc. cbn beta in Hc.
  unfold number. cbn [app]. rewrite sign_digit, Hc by done.
  rewrite (skip_digits_exact d r); [done|by inversion Hd|done].
Qed.

Lemma scan_word fmt (w r : list Z) n ws : is_word w → stops r →
  scan (ConvS :: fmt) (w ++ r) n ws = scan fmt r (n + 1) (ws ++ [w]).
Proof.
  intros Hw Hr. cbn [scan]. rewrite skip_word by done. destruct Hw as (Hne & Hf & Hl).
  rewrite bool_decide_eq_false_2 by (destruct w; [done|discriminate]). by rewrite word_exact.
Qed.
Lemma scan_skip fmt (w r : list Z) n ws : is_word w → stops r →
  scan (ConvSkip :: fmt) (w ++ r) n ws = scan fmt r n ws.
Proof.
  intros Hw Hr. cbn [scan]. rewrite skip_word by done. destruct Hw as (Hne & Hf & Hl).
  rewrite bool_decide_eq_false_2 by (destruct w; [done|discriminate]). by rewrite word_all_exact.
Qed.
Lemma scan_number fmt (d r : list Z) n ws : is_number d → stops r →
  scan (ConvD :: fmt) (d ++ r) n ws = scan fmt r (n + 1) ws.
Proof.
  intros Hd Hr. cbn [scan]. rewrite skip_number by done.
  rewrite bool_decide_eq_false_2 by (destruct Hd; destruct d; [done|discriminate]). by rewrite number_exact.
Qed.
Lemma scan_blank c fmt (r : list Z) n ws : scan (c :: fmt) (32 :: r) n ws = scan (c :: fmt) r n ws.
Proof. done. Qed.

Lemma scan_two m r : mnt_ok m → stops r →
  scanf [ConvS; ConvS; ConvSkip; ConvSkip; ConvD; ConvD] (fields m ++ r) = (4, [m_dev m; m_dir m], skip_spaces r).
Proof.
  intros [(H1 & H2 & H3 & H4) (H5 & H6)] Hr. unfold scanf, fields. rewrite <- app_assoc. rewrite scan_word by done. cbn [app].
  rewrite scan_blank, <- app_assoc, scan_word by done. cbn [app].
  rewrite scan_blank, <- app_assoc, scan_skip by done. cbn [app].
  rewrite scan_blank, <- app_assoc, scan_skip by done. cbn [app].
  rewrite scan_blank, <- app_assoc, scan_number by done. cbn [app].
  by rewrite scan_blank, scan_number by done.
Qed.
Lemma scan_four m r : mnt_ok m → stops r →
  scanf [ConvS; ConvS; ConvS; ConvS; ConvD; ConvD] (fields m ++ r)
  = (6, [m_dev m; m_dir m; m_type m; m_opts m], skip_spaces r).
Proof.
  intros [(H1 & H2 & H3 & H4) (H5 & H6)] Hr. unfold scanf, fields. rewrite <- app_assoc. rewrite scan_word by done. cbn [app].
  rewrite scan_blank, <- app_assoc, scan_word by done. cbn [app].
  rewrite scan_blank, <- app_assoc, scan_word by done. cbn [app].
  rewrite scan_blank, <- app_assoc, scan_word by done. cbn [app].
  rewrite scan_blank, <- app_assoc, scan_number by done. cbn [app].
  by rewrite scan_blank, scan_number by done.
Qed.

(** ** Finding a directory (find_mount) *)

Lemma fields_plain m : mnt_ok m → Forall (λ c, c ≠ 10 ∧ c ≠ 0) (fields m).
Proof.
  intros [(H1 & H2 & H3 & H4) (H5 & H6)].
  assert (Hw : ∀ w, is_word w → Forall (λ c, c ≠ 10 ∧ c ≠ 0) w).
  { intros w (_ & Hf & _). eapply Forall_impl; [|exact Hf]. cbn. intros c [Hs H0]. split; [|done]. by intros ->. }
  assert (Hn : ∀ w, is_number w → Forall (λ c, c ≠ 10 ∧ c ≠ 0) w).
  { intros w (_ & Hd). eapply Forall_impl; [|exact Hd]. cbn. intros c Hc%digit_range. lia. }
  unfold fields. repeat (apply Forall_app; split; [by auto|]; try (constructor; [lia|])). by auto.
Qed.
Lemma fields_head m : mnt_ok m → ∃ c l, fields m = c :: l ∧ isspace c = false.
Proof.
  intros [((Hne & Hf & _) & _) _]. unfold fields. destruct (m_dev m) as [|c l]; [done|]. inversion_clear Hf.
  eexists c, _. split; [reflexivity|]. apply H.
Qed.

Lemma tok_word_exact (w : list Z) tail k : Forall (λ c, c ≠ 10 ∧ c ≠ 0) w →
  tok_word ((Some <$> w) ++ Some 10 :: tail) k = Ok (w, tail) k.
Proof.
  induction 1 as [|c w [H1 H2] _ IH]; [done|]. cbn [fmap list_fmap app tok_word]. unfold bind, initialised, deref.
  rewrite !(proj2 (Z.eqb_neq _ _)) by done. by rewrite IH.
Qed.
Lemma strtok_line m tail k : mnt_ok m →
  strtok ((Some <$> fields m) ++ Some 10 :: tail) k = Ok (Some (fields m, tail)) k.
Proof.
  intros Hm. destruct (fields_head m Hm) as (c & l & Hf & Hc). unfold strtok.
  assert (Hs : tok_skip ((Some <$> fields m) ++ Some 10 :: tail) k = Ok ((Some <$> fields m) ++ Some 10 :: tail) k).
  { rewrite Hf. cbn [fmap list_fmap app tok_skip]. unfold bind, initialised, deref.
    rewrite (proj2 (Z.eqb_neq c 10)); [done|]. by intros ->. }
  run Hs. run (tok_word_exact (fields m) tail k (fields_plain m Hm)). cbn [fst].
  rewrite bool_decide_eq_false_2; [done|]. by rewrite Hf.
Qed.

Definition at_dir (dir : list Z) (m : mnt) : bool := strcmp_eq dir (m_dir m).

Lemma find_line_table fuel dir ms tail k : Forall mnt_ok ms → k_oom k = [] → (length ms < fuel)%nat →
  find_line fuel dir ((Some <$> mounts ms) ++ tail) k
  = match List.find (at_dir dir) ms with
    | Some m => Ok (Some (m_dev m)) k
    | None => find_line (fuel - length ms) dir tail k
    end.
Proof.
  intros Hms Hoom. revert fuel. induction Hms as [|m ms Hm _ IH]; intros fuel Hf.
  { cbn. by rewrite Nat.sub_0_r. }
  destruct fuel as [|fuel]; [cbn in Hf; lia|]. cbn [length] in Hf.
  unfold mounts. cbn [fmap list_fmap concat]. fold (mounts ms). rewrite fmap_app, fmap_app, <- !app_assoc.
  cbn [find_line]. change (Some <$> [10]) with [Some 10]. cbn [app]. run (strtok_line m ((Some <$> mounts ms) ++ tail) k Hm).
  pose proof (scan_two m [] Hm I) as Hs. rewrite app_nil_r in Hs. rewrite Hs.
  change ((4 =? 4) && strcmp_eq dir (default [] ([m_dev m; m_dir m] !! 1%nat))) with (at_dir dir m).
  cbn [List.find].
  destruct (at_dir dir m).
  - by rewrite (bind_ok malloc_ok _ k true k) by (unfold malloc_ok; by rewrite Hoom).
  - rewrite IH by lia. cbn [length Nat.sub]. done.
Qed.

Lemma mounts_length ms : Forall mnt_ok ms → (length ms ≤ length (mounts ms))%nat.
Proof.
  induction 1 as [|m ms Hm _ IH]; [done|]. unfold mounts. cbn [fmap list_fmap concat]. fold (mounts ms).
  rewrite !length_app. cbn. lia.
Qed.

(** Finding a mounted directory: when the table fits into the buffer and
    arrives in one read, the device returned is the one of the first line for
    the directory; when the directory is not in the table and the table does not
    fill the buffer, the search runs into the part of the buffer that was never
    written. *)
Theorem find_mount_first dir ms fd rest more k :
  k_oom k = [] → k_sys k = SysRes fd 0 [] :: rest → 0 ≤ fd → rd_of fd k = RdData (mounts ms) :: more →
  Forall mnt_ok ms → (length (mounts ms) < 4095)%nat →
  match List.find (at_dir dir) ms with
  | Some m => ∃ k', find_mount dir k = Ok (Some (m_dev m)) k'
  | None => ∃ k', find_mount dir k = Fault Uninitialised k'
  end.
Proof.
  intros Hoom Hsys Hfd Hrd Hms Hlen. unfold find_mount.
  assert (Hmal : ∀ (f : bool → M kern (option (list Z))), bind malloc_ok f k = f true k)
    by (intros f; apply bind_ok; unfold malloc_ok; by rewrite Hoom).
  rewrite !Hmal. cbn [negb andb].
  destruct (sys_next "open" [AS (str "/proc/mounts"); AS (str "O_RDONLY")] k _ _ Hsys) as (k1 & E1 & _ & R1 & _ & _ & M1).
  assert (Eo : unix_open (str "/proc/mounts") "O_RDONLY" k = Ok fd k1) by (unfold unix_open, sys_; by run E1). run Eo.
  rewrite (proj2 (Z.ltb_ge fd 0)) by done.
  assert (Er : adb_read fd 4095 k1 = Ok (inl (mounts ms)) (set_rd fd more k1)).
  { unfold adb_read. unfold rd_of in Hrd |- *. rewrite R1, Hrd. cbn [read_script]. by rewrite decide_True by lia. }
  run Er. set (k2 := set_rd fd more k1).
  rewrite (bind_ok (adb_close fd) _ k2 tt (add_trace (Sys "close" [AZ fd]) k2)) by done. cbv zeta.
  set (k3 := add_trace _ k2). set (tail := replicate _ None ++ [Some 0]).
  pose proof (mounts_length ms Hms). rewrite find_line_table; [|done|cbn; congruence|].
  - destruct (List.find (at_dir dir) ms) as [m|]; [by eexists|].
    rewrite length_app, length_fmap.
    destruct (S (length (mounts ms) + length tail) - length ms)%nat as [|n] eqn:En; [lia|]. exists k3.
    unfold tail. destruct (4095 - length (mounts ms))%nat as [|j] eqn:Ej; [lia|]. reflexivity.
  - rewrite length_app, length_fmap. lia.
Qed.

(** ** Writable file systems (remount_ro_done) *)

Definition writable (m : mnt) : bool :=
  strncmp_eq (m_dev m) (str "/dev/block") 10 && strstr (m_opts m) (str "rw").

Lemma mounts_start ms : Forall mnt_ok ms → skip_spaces (10 :: mounts ms) = mounts ms.
Proof.
  intros H. cbn. destruct H as [|m ms Hm _]; [done|]. unfold mounts. cbn [fmap list_fmap concat].
  destruct (fields_head m Hm) as (c & l & -> & Hc). cbn. by rewrite Hc.
Qed.
Lemma found_rw_fs_table fuel ms k : Forall mnt_ok ms → (length ms < fuel)%nat →
  found_rw_fs fuel (mounts ms) k = Ok (existsb writable ms) k.
Proof.
  intros Hms. revert fuel. induction Hms as [|m ms Hm Hms IH]; intros [|fuel] Hf; cbn [length] in Hf; try lia.
  { reflexivity. }
  cbn [found_rw_fs]. unfold mounts. cbn [fmap list_fmap concat]. fold (mounts ms). rewrite <- app_assoc.
  rewrite scan_four by done. cbn [app]. rewrite mounts_start by done.
  change ((6 =? 6) && strncmp_eq (default [] ([m_dev m; m_dir m; m_type m; m_opts m] !! 0%nat)) (str "/dev/block") 10
    && strstr (default [] ([m_dev m; m_dir m; m_type m; m_opts m] !! 3%nat)) (str "rw")) with (writable m).
  cbn [existsb]. destruct (writable m); [done|]. change (6 =? -1) with false. cbn [orb]. apply IH. lia.
Qed.

(** Waiting for the read-only remount: however the mount table arrives, the
    wait is over exactly when the table has no line of a block device whose
    options contain "rw". *)
Theorem remount_ro_done_table ms f rest k :
  k_oom k = [] → k_sys k = SysRes f 0 [] :: rest → 0 ≤ f → stream (rd_of f k) = mounts ms → Forall mnt_ok ms →
  ∃ k', remount_ro_done k = Ok (negb (existsb writable ms)) k'.
Proof.
  intros Hoom Hsys Hf Hrd Hms. unfold remount_ro_done.
  assert (Hmal : ∀ (g : bool → M kern bool), bind malloc_ok g k = g true k)
    by (intros g; apply bind_ok; unfold malloc_ok; by rewrite Hoom).
  rewrite !Hmal. cbn [negb andb].
  destruct (sys_next "fopen" [AS (str "/proc/mounts")] k _ _ Hsys) as (k1 & E1 & _ & R1 & _).
  assert (Eo : sys_ "fopen" [AS (str "/proc/mounts")] k = Ok f k1) by (unfold sys_; by run E1). run Eo.
  rewrite (proj2 (Z.ltb_ge f 0)) by done.
  assert (Et : file_text f k1 = Ok (mounts ms) (set_rd f [] k1)).
  { unfold file_text, bind, gets, modify, ret. unfold rd_of in Hrd |- *. by rewrite R1, Hrd. }
  run Et. pose proof (mounts_length ms Hms).
  run (found_rw_fs_table (S (length (mounts ms))) ms (set_rd f [] k1) Hms ltac:(lia)).
  eexists. reflexivity.
Qed.

(** ** Examples *)

Definition ex_root : mnt := mkMnt (str "/dev/root") (str "/") (str "romfs") (str "ro") (str "0") (str "0").
Definition ex_system : mnt :=
  mkMnt (str "/dev/block/mtd0") (str "/system") (str "ext2") (str "rw,noatime") (str "0") (str "0").
Lemma is_word_check w : bool_decide (w ≠ []) && forallb (λ c, negb (isspace c) && negb (c =? 0)) w
  && (length w <=? 255)%nat = true → is_word w.
Proof.
  rewrite !andb_true_iff, bool_decide_eq_true, forallb_forall, Nat.leb_le. intros [[H1 H2] H3].
  split; [done|split; [|done]]. apply List.Forall_forall. intros c Hc%H2.
  rewrite andb_true_iff, !negb_true_iff, Z.eqb_neq in Hc. done.
Qed.
Lemma is_number_zero : is_number (str "0").
Proof. split; [done|repeat constructor]. Qed.
Lemma ex_mounts_ok : Forall mnt_ok [ex_root; ex_system].
Proof.
  repeat constructor; try (apply is_word_check; vm_compute; reflexivity); try apply is_number_zero; discriminate.
Qed.

Definition ex_kern : kern :=
  mkKern 0 {[ 3 := [RdData (mounts [ex_root; ex_system])] ]} ∅ ∅ [SysRes 3 0 []] [] [].
Lemma find_mount_first_witness : ∃ k', find_mount (str "/system") ex_kern = Ok (Some (str "/dev/block/mtd0")) k'.
Proof.
  apply (find_mount_first (str "/system") [ex_root; ex_system] 3 [] [] ex_kern).
  - reflexivity.
  - reflexivity.
  - lia.
  - reflexivity.
  - apply ex_mounts_ok.
  - apply Nat.ltb_lt. vm_compute. reflexivity.
Defined.
Lemma remount_ro_done_table_witness : ∃ k', remount_ro_done ex_kern = Ok false k'.
Proof.
  apply (remount_ro_done_table [ex_root; ex_system] 3 [] ex_kern).
  - reflexivity.
  - reflexivity.
  - lia.
  - vm_compute. reflexivity.
  - apply ex_mounts_ok.
Defined.
