(* ===== verification/Zip.v ===== *)
(** * Zip archives (adbd/src/centraldir.c, adbd/src/zipfile.c)

    An archive is an array of bytes in memory.  A pointer into it is an offset;
    reading a byte outside of the array is a fault.  NULL is None.  The
    decompressor of zlib is a parameter. *)

From S2P Require Import Prelude Kernel Packet.

Definition CD_SIGNATURE : Z := 0x06054b50.
Definition EOCD_LEN : Z := 22.
Definition MAX_COMMENT_LEN : Z := 65535.
Definition MAX_EOCD_SEARCH : Z := MAX_COMMENT_LEN + EOCD_LEN.
Definition ENTRY_SIGNATURE : Z := 0x02014b50.
Definition ENTRY_LEN : Z := 46.
Definition LFH_SIZE : Z := 30.

Record Zipentry := mkEntry {
  fileNameLength : Z;
  fileName : option Z;
  compressionMethod : Z;
  uncompressedSize : Z;
  compressedSize : Z;
  e_data : Z;
}.

(** the list of entries starts with the one read last *)
Record Zipfile := mkZip {
  z_buf : list Z;
  disknum : Z;
  diskWithCentralDir : Z;
  entryCount : Z;
  totalEntryCount : Z;
  centralDirSize : Z;
  centralDirOffest : Z;
  commentLen : Z;
  z_comment : option Z;
  entries : list Zipentry;
}.
Definition bufsize (file : Zipfile) : Z := Z.of_nat (length (z_buf file)).

(** ** centraldir.c *)

Definition byte_at (buf : list Z) (p : Z) : M kern Z :=
  deref OutOfBounds (λ _, if 0 <=? p then buf !! Z.to_nat p else None).

Definition read_le_int (buf : list Z) (p : Z) : M kern Z :=
  do b0 <- byte_at buf p;
  do b1 <- byte_at buf (p + 1);
  do b2 <- byte_at buf (p + 2);
  do b3 <- byte_at buf (p + 3);
  ret (u32 (Z.lor (Z.lor (Z.lor b0 (Z.shiftl b1 8)) (Z.shiftl b2 16)) (Z.shiftl b3 24))).
Definition read_le_short (buf : list Z) (p : Z) : M kern Z :=
  do b0 <- byte_at buf p;
  do b1 <- byte_at buf (p + 1);
  ret (Z.lor b0 (Z.shiftl b1 8)).

(** None: the C function returns -1 *)
Definition read_central_dir_values (file : Zipfile) (eocd len : Z) : M kern (option Zipfile) :=
  let buf := z_buf file in
  if len <? EOCD_LEN then ret None
  else
    do dn <- read_le_short buf (eocd + 0x04);
    do dc <- read_le_short buf (eocd + 0x06);
    do ec <- read_le_short buf (eocd + 0x08);
    do tc <- read_le_short buf (eocd + 0x0a);
    do sz <- read_le_int buf (eocd + 0x0c);
    do off <- read_le_int buf (eocd + 0x10);
    do cl <- read_le_short buf (eocd + 0x14);
    if 0 <? cl then
      if len <? EOCD_LEN + cl then ret None
      else ret (Some (mkZip buf dn dc ec tc sz off cl (Some (eocd + EOCD_LEN)) (entries file)))
    else ret (Some (mkZip buf dn dc ec tc sz off cl (z_comment file) (entries file))).

(** the entry and the new value of *buf; *len is only read *)
Definition read_central_directory_entry (file : Zipfile) (p len : Z) : M kern (option (Zipentry * Z)) :=
  let buf := z_buf file in
  if len <? ENTRY_LEN then ret None
  else
    do sig <- read_le_int buf p;
    if negb (sig =? ENTRY_SIGNATURE) then ret None
    else
      do _ <- read_le_short buf (p + 0x04);
      do _ <- read_le_short buf (p + 0x06);
      do _ <- read_le_short buf (p + 0x08);
      do method <- read_le_short buf (p + 0x0a);
      do _ <- read_le_short buf (p + 0x0c);
      do _ <- read_le_short buf (p + 0x0e);
      do _ <- read_le_int buf (p + 0x10);
      do csize <- read_le_int buf (p + 0x14);
      do usize <- read_le_int buf (p + 0x18);
      do nlen <- read_le_short buf (p + 0x1c);
      do xlen <- read_le_short buf (p + 0x1e);
      do clen <- read_le_short buf (p + 0x20);
      do _ <- read_le_short buf (p + 0x22);
      do _ <- read_le_short buf (p + 0x24);
      do _ <- read_le_int buf (p + 0x26);
      do local <- read_le_int buf (p + 0x2a);
      let name := if negb (nlen =? 0) then Some (p + ENTRY_LEN) else None in
      let next := p + ENTRY_LEN + nlen + xlen + clen in
      do lxlen <- read_le_short buf (local + 0x1c);
      ret (Some (mkEntry nlen name method usize csize (u32 (local + LFH_SIZE + nlen + lxlen)), next)).

(** p-- while p >= start: the position of the signature; every step takes one
    byte, so the size of the buffer is enough *)
Fixpoint find_eocd (fuel : nat) (buf : list Z) (start p : Z) : M kern (option Z) :=
  if p <? start then ret None
  else
    match fuel with
    | O => fail OutOfFuel
    | S fuel' =>
        do b <- byte_at buf p;
        do found <- (if b =? 0x50 then do v <- read_le_int buf p; ret (v =? CD_SIGNATURE) else ret false);
        if (found : bool) then ret (Some p) else find_eocd fuel' buf start (p - 1)
    end.

(** for(i = 0; i < file->totalEntryCount; i++), [n] entries to go *)
Fixpoint read_entries (n : nat) (file : Zipfile) (p len : Z) : M kern (option Zipfile) :=
  match n with
  | O => ret (Some file)
  | S n' =>
      do ok <- malloc_ok;
      if negb ok then fail NullDeref
      else
        do r <- read_central_directory_entry file p len;
        match r with
        | None => ret None
        | Some (e, p') =>
            read_entries n' (mkZip (z_buf file) (disknum file) (diskWithCentralDir file) (entryCount file)
              (totalEntryCount file) (centralDirSize file) (centralDirOffest file) (commentLen file)
              (z_comment file) (e :: entries file)) p' len
        end
  end.

Definition read_central_dir (file : Zipfile) : M kern (option Zipfile) :=
  let buf := z_buf file in
  let n := bufsize file in
  if n <? EOCD_LEN then ret None
  else
    let start := if MAX_EOCD_SEARCH <? n then n - MAX_EOCD_SEARCH else 0 in
    do r <- find_eocd (length buf) buf start (n - 4);
    match r with
    | None => ret None
    | Some eocd =>
        do r <- read_central_dir_values file eocd (n - eocd);
        match r with
        | None => ret None
        | Some file =>
            if negb (disknum file =? 0) || negb (diskWithCentralDir file =? 0)
               || negb (entryCount file =? totalEntryCount file) then ret None
            else
              read_entries (Z.to_nat (totalEntryCount file)) file (centralDirOffest file)
                (s32 (n - centralDirOffest file))
        end
    end.

(** ** zipfile.c *)

Definition init_zipfile (data : list Z) : M kern (option Zipfile) :=
  do ok <- malloc_ok;
  if negb ok then ret None
  else read_central_dir (mkZip data 0 0 0 0 0 0 0 None []).

(** [n] bytes from the offset [p] *)
Definition bytes_at (buf : list Z) (p : Z) (n : nat) : M kern (list Z) :=
  deref OutOfBounds (λ _, if decide (0 ≤ p ∧ (Z.to_nat p + n ≤ length buf)%nat)
                          then Some (take n (drop (Z.to_nat p) buf)) else None).

(** 0 == memcmp(a, b, n), byte by byte up to the first difference *)
Fixpoint memcmp_eq (a : list Z) (buf : list Z) (p : Z) (n : nat) {struct n} : M kern bool :=
  match n with
  | O => ret true
  | S n' =>
      match a with
      | [] => fail OutOfBounds
      | x :: a' => do y <- byte_at buf p; if x =? y then memcmp_eq a' buf (p + 1) n' else ret false
      end
  end.

Fixpoint find_entry (buf : list Z) (l : list Zipentry) (name : list Z) : M kern (option Zipentry) :=
  match l with
  | [] => ret None
  | e :: l' =>
      do eq <- memcmp_eq (name ++ [0]) buf (default 0 (fileName e)) (Z.to_nat (fileNameLength e));
      if (eq : bool) then ret (Some e) else find_entry buf l' name
  end.
Definition lookup_zipentry (f : Zipfile) (entryName : list Z) : M kern (option Zipentry) :=
  find_entry (z_buf f) (entries f) entryName.

Definition get_zipentry_size (entry : Zipentry) : Z := uncompressedSize entry.

Definition get_zipentry_name (f : Zipfile) (e : Zipentry) : M kern (list Z) :=
  do ok <- malloc_ok;
  if negb ok then fail NullDeref
  else
    do s <- bytes_at (z_buf f) (default 0 (fileName e)) (Z.to_nat (fileNameLength e));
    ret (s ++ [0]).

(** the text printed; following the list past its end is a fault *)
Fixpoint dump_entries (f : Zipfile) (n : nat) (l : list Zipentry) : M kern (list Z) :=
  match n, l with
  | O, _ => ret []
  | S _, [] => fail NullDeref
  | S n', e :: l' =>
      do name <- bytes_at (z_buf f) (default 0 (fileName e)) (Z.to_nat (fileNameLength e));
      do rest <- dump_entries f n' l';
      ret (str "  file " ++ [34] ++ name ++ [34; 10] ++ rest)
  end.
Definition dump_zipfile (f : Zipfile) : M kern (list Z) :=
  do text <- dump_entries f (Z.to_nat (entryCount f)) (entries f);
  ret (str "entryCount=" ++ fmt_d (entryCount f) ++ [10] ++ text).

Definition STORED : Z := 0.
Definition DEFLATED : Z := 8.

(** the entry after [e]; the cookie is the rest of the list *)
Definition iterate_zipfile (f : Zipfile) (cookie : option (list Zipentry)) : option Zipentry * option (list Zipentry) :=
  let l := match cookie with None => entries f | Some l => tail l end in
  (head l, match l with [] => None | _ => Some l end).

Section inflate.
(** inflateInit2 with -MAX_WBITS, inflate with Z_FINISH and inflateEnd: the
    output for the input, None unless Z_STREAM_END *)
Variable inflate : list Z → nat → option (list Z).

Definition uninflate (unlen : nat) (input : list Z) : M kern (option (list Z)) :=
  ret (inflate input unlen).

(** [size]: the size of the array behind buf; the bytes written, None for the
    result -1 *)
Definition decompress_zipentry (f : Zipfile) (e : Zipentry) (size : nat) (bufsize : Z)
  : M kern (option (list Z)) :=
  if compressionMethod e =? STORED then
    do bs <- bytes_at (z_buf f) (e_data e) (Z.to_nat (uncompressedSize e));
    if decide (length bs ≤ size)%nat then ret (Some bs) else fail OutOfBounds
  else if compressionMethod e =? DEFLATED then
    do bs <- bytes_at (z_buf f) (e_data e) (Z.to_nat (compressedSize e));
    uninflate (Z.to_nat bufsize) bs
  else ret None.
End inflate.
