(* ===== verification/ZipProps.v ===== *)
(** * Properties of the zip reader *)

From S2P Require Import Prelude Kernel Packet Base64 Zip.

(** ** Little-endian words *)

Definition le16 (n : Z) : list Z := [u8 n; u8 (Z.shiftr n 8)].

Lemma lor_shift a b n : 0 ≤ n → 0 ≤ a < 2 ^ n → Z.lor a (Z.shiftl b n) = a + b * 2 ^ n.
Proof. intros Hn Ha. rewrite Z.shiftl_mul_pow2, Z.lor_comm, lor_add by done. lia. Qed.
Lemma lor_short b0 b1 : is_byte b0 → Z.lor b0 (Z.shiftl b1 8) = b0 + b1 * 2 ^ 8.
Proof. unfold is_byte. intros. apply lor_shift; lia. Qed.
Lemma lor_int b0 b1 b2 b3 : is_byte b0 → is_byte b1 → is_byte b2 →
  Z.lor (Z.lor (Z.lor b0 (Z.shiftl b1 8)) (Z.shiftl b2 16)) (Z.shiftl b3 24) = get32 [b0; b1; b2; b3].
Proof.
  unfold is_byte. intros. rewrite (lor_shift b0 b1 8) by lia.
  rewrite (lor_shift _ b2 16) by lia. rewrite (lor_shift _ b3 24) by lia. done.
Qed.

(** ** Reading *)

Lemma byte_at_in buf p b k : (0 ≤ p) → buf !! Z.to_nat p = Some b → byte_at buf p k = Ok b k.
Proof. intros Hp Hb. unfold byte_at, deref. rewrite (proj2 (Z.leb_le 0 p)) by done. by rewrite Hb. Qed.

(** reading in a part of the buffer *)
Lemma byte_at_part pre blk post c k : 0 ≤ c < Z.of_nat (length blk) →
  byte_at (pre ++ blk ++ post) (Z.of_nat (length pre) + c) k = byte_at blk c k.
Proof.
  intros Hc. unfold byte_at, deref. rewrite !(proj2 (Z.leb_le 0 _)) by lia.
  rewrite lookup_app_r by lia. rewrite lookup_app_l by lia. by replace (Z.to_nat (Z.of_nat (length pre) + c) - length pre)%nat with (Z.to_nat c) by lia.
Qed.
Lemma short_at_part pre blk post c k : 0 ≤ c → c + 2 ≤ Z.of_nat (length blk) →
  read_le_short (pre ++ blk ++ post) (Z.of_nat (length pre) + c) k = read_le_short blk c k.
Proof.
  intros H0 Hc. unfold read_le_short. rewrite <- !Z.add_assoc. unfold bind.
  rewrite byte_at_part by lia. destruct (byte_at blk c k); [|done..]. by rewrite byte_at_part by lia.
Qed.
Lemma int_at_part pre blk post c k : 0 ≤ c → c + 4 ≤ Z.of_nat (length blk) →
  read_le_int (pre ++ blk ++ post) (Z.of_nat (length pre) + c) k = read_le_int blk c k.
Proof.
  intros H0 Hc. unfold read_le_int. rewrite <- !Z.add_assoc. unfold bind.
  rewrite byte_at_part by lia. destruct (byte_at blk c k) as [? k1| |]; [|done..].
  rewrite byte_at_part by lia. destruct (byte_at blk (c + 1) k1) as [? k2| |]; [|done..].
  rewrite byte_at_part by lia. destruct (byte_at blk (c + 2) k2) as [? k3| |]; [|done..].
  by rewrite byte_at_part by lia.
Qed.

Lemma u8_byte n : is_byte (u8 n).
Proof. apply u8_range. Qed.
Lemma short_bytes n : Z.lor (u8 n) (Z.shiftl (u8 (Z.shiftr n 8)) 8) = u16 n.
Proof.
  rewrite lor_short by apply u8_byte. unfold u8, u16. rewrite Z.shiftr_div_pow2 by lia.
  change (2 ^ 8) with 256. change (2 ^ 16) with (256 * 256). Z.to_euclidean_division_equations. lia.
Qed.
Lemma int_bytes n : u32 (Z.lor (Z.lor (Z.lor (u8 n) (Z.shiftl (u8 (Z.shiftr n 8)) 8))
  (Z.shiftl (u8 (Z.shiftr n 16)) 16)) (Z.shiftl (u8 (Z.shiftr n 24)) 24)) = u32 n.
Proof.
  rewrite lor_int by apply u8_byte. pose proof (get32_le32 n []) as H. rewrite app_nil_r in H.
  unfold le32 in H. rewrite H. apply u32_idem.
Qed.

(** ** The format

    What an archiver writes.  The fields that the reader skips are arbitrary
    bytes: [i_head] (versions and flags), [i_stamp] (time, date, checksum),
    [i_attr] (disk and attributes), [i_local] (the local header up to the length
    of its extra field). *)

Record item := mkItem {
  i_name : list Z; i_method : Z; i_usize : Z; i_body : list Z;
  i_extra : list Z; i_lextra : list Z; i_comment : list Z;
  i_head : list Z; i_stamp : list Z; i_attr : list Z; i_local : list Z;
}.

Definition len (l : list Z) : Z := Z.of_nat (length l).

Record item_ok (it : item) : Prop := {
  io_bytes : Forall is_byte (i_name it ++ i_body it ++ i_extra it ++ i_lextra it ++ i_comment it
    ++ i_head it ++ i_stamp it ++ i_attr it ++ i_local it);
  io_method : 0 ≤ i_method it < 2 ^ 16;
  io_usize : 0 ≤ i_usize it < 2 ^ 32;
  io_small : len (i_name it) < 2 ^ 16 ∧ len (i_extra it) < 2 ^ 16 ∧ len (i_lextra it) < 2 ^ 16
    ∧ len (i_comment it) < 2 ^ 16;
  io_fixed : length (i_head it) = 6%nat ∧ length (i_stamp it) = 8%nat ∧ length (i_attr it) = 8%nat
    ∧ length (i_local it) = 28%nat;
}.

Definition local_header (it : item) : list Z := i_local it ++ le16 (len (i_lextra it)).
Definition local (it : item) : list Z := local_header it ++ i_name it ++ i_lextra it ++ i_body it.
Definition central_fixed (it : item) (off : Z) : list Z :=
  le32 ENTRY_SIGNATURE ++ i_head it ++ le16 (i_method it) ++ i_stamp it ++ le32 (len (i_body it))
  ++ le32 (i_usize it) ++ le16 (len (i_name it)) ++ le16 (len (i_extra it)) ++ le16 (len (i_comment it))
  ++ i_attr it ++ le32 off.
Definition central (it : item) (off : Z) : list Z :=
  central_fixed it off ++ i_name it ++ i_extra it ++ i_comment it.
Fixpoint centrals (items : list item) (off : Z) : list Z :=
  match items with
  | [] => []
  | it :: items' => central it off ++ centrals items' (off + len (local it))
  end.
Definition eocd (n size off : Z) (comment : list Z) : list Z :=
  (le32 CD_SIGNATURE ++ le16 0 ++ le16 0 ++ le16 n ++ le16 n ++ le32 size ++ le32 off
   ++ le16 (len comment)) ++ comment.
Definition locals (items : list item) : list Z := concat (local <$> items).
Definition archive (items : list item) (comment : list Z) : list Z :=
  locals items ++ centrals items 0
  ++ eocd (Z.of_nat (length items)) (len (centrals items 0)) (len (locals items)) comment.

Ltac explicit l H n :=
  let rec go n := lazymatch n with O => (destruct l; [|discriminate H]) | S ?m =>
    (destruct l as [|? l]; [discriminate H|]; injection H as H; go m) end in go n.

Lemma central_fixed_length it off : item_ok it → length (central_fixed it off) = 46%nat.
Proof.
  intros Hi. destruct (io_fixed it Hi) as (H1 & H2 & H3 & _). unfold central_fixed.
  rewrite !length_app, H1, H2, H3. done.
Qed.

(** the reads of the fixed part of an entry *)
Lemma central_reads it off k : item_ok it →
  let blk := central_fixed it off in
  read_le_int blk 0 k = Ok ENTRY_SIGNATURE k
  ∧ read_le_short blk 0x0a k = Ok (u16 (i_method it)) k
  ∧ read_le_int blk 0x14 k = Ok (u32 (len (i_body it))) k
  ∧ read_le_int blk 0x18 k = Ok (u32 (i_usize it)) k
  ∧ read_le_short blk 0x1c k = Ok (u16 (len (i_name it))) k
  ∧ read_le_short blk 0x1e k = Ok (u16 (len (i_extra it))) k
  ∧ read_le_short blk 0x20 k = Ok (u16 (len (i_comment it))) k
  ∧ read_le_int blk 0x2a k = Ok (u32 off) k.
Proof.
  intros Hi blk. destruct (io_fixed it Hi) as (H1 & H2 & H3 & _).
  unfold blk, central_fixed. clear blk Hi.
  destruct it as [nm me us bo ex lx co hd st at_ lo]. cbn [i_head i_stamp i_attr i_method i_usize i_body i_name i_extra i_comment] in *.
  explicit hd H1 6%nat. explicit st H2 8%nat. explicit at_ H3 8%nat.
  unfold read_le_int, read_le_short, byte_at, deref, bind, ret, le16, le32, app.
  cbn [Z.add Pos.add Pos.succ Z.leb Z.compare Z.to_nat Pos.to_nat Pos.iter_op Nat.add lookup list_lookup].
  split_and!; f_equal; rewrite ?int_bytes, ?short_bytes; reflexivity.
Qed.

(** fields that are read and not used *)
Lemma byte_at_ok blk c k : 0 ≤ c < len blk → ∃ b, byte_at blk c k = Ok b k.
Proof.
  intros Hc. unfold byte_at, deref, len in *. rewrite (proj2 (Z.leb_le 0 c)) by lia.
  destruct (lookup_lt_is_Some_2 blk (Z.to_nat c) ltac:(lia)) as [b ->]. eauto.
Qed.
Lemma short_at_ok blk c k : 0 ≤ c → c + 2 ≤ len blk → ∃ v, read_le_short blk c k = Ok v k.
Proof.
  intros H0 Hc. unfold read_le_short. destruct (byte_at_ok blk c k) as [b0 E0]; [lia|]. run E0.
  destruct (byte_at_ok blk (c + 1) k) as [b1 E1]; [lia|]. run E1. eexists. reflexivity.
Qed.
Lemma int_at_ok blk c k : 0 ≤ c → c + 4 ≤ len blk → ∃ v, read_le_int blk c k = Ok v k.
Proof.
  intros H0 Hc. unfold read_le_int. destruct (byte_at_ok blk c k) as [b0 E0]; [lia|]. run E0.
  destruct (byte_at_ok blk (c + 1) k) as [b1 E1]; [lia|]. run E1.
  destruct (byte_at_ok blk (c + 2) k) as [b2 E2]; [lia|]. run E2.
  destruct (byte_at_ok blk (c + 3) k) as [b3 E3]; [lia|]. run E3. eexists. reflexivity.
Qed.

Definition entry_at (it : item) (p off : Z) : Zipentry :=
  mkEntry (len (i_name it)) (if negb (len (i_name it) =? 0) then Some (p + ENTRY_LEN) else None)
    (i_method it) (i_usize it) (len (i_body it)) (off + LFH_SIZE + len (i_name it) + len (i_lextra it)).

Lemma local_extra it k : item_ok it → read_le_short (local_header it) 0x1c k = Ok (u16 (len (i_lextra it))) k.
Proof.
  intros Hi. destruct (io_fixed it Hi) as (_ & _ & _ & H4). unfold local_header.
  pose proof (short_at_part (i_local it) (le16 (len (i_lextra it))) [] 0 k) as H.
  rewrite H4, app_nil_r in H. change (Z.of_nat 28 + 0) with 0x1c in H. rewrite H by (cbn; lia).
  rewrite <- (short_bytes (len (i_lextra it))). reflexivity.
Qed.

(** a field that is read and not used *)
Ltac skip_short H c := let E := fresh in destruct (H c) as [? E]; [lia|lia|]; run E; clear E.

(** one entry of the central directory, anywhere in the archive *)
Lemma read_entry_run file it pre post lpre lpost n k :
  item_ok it → ENTRY_LEN ≤ n → len (z_buf file) < 2 ^ 32 →
  z_buf file = pre ++ central it (len lpre) ++ post →
  z_buf file = lpre ++ local it ++ lpost →
  read_central_directory_entry file (len pre) n k
  = Ok (Some (entry_at it (len pre) (len lpre), len pre + len (central it (len lpre)))) k.
Proof.
  intros Hi Hn Hsz Hc Hl. unfold read_central_directory_entry.
  rewrite (proj2 (Z.ltb_ge n ENTRY_LEN)) by done.
  pose proof (central_fixed_length it (len lpre) Hi) as Hfl. set (off := len lpre) in *.
  destruct (central_reads it off k Hi) as (R0 & Rm & Rc & Ru & Rn & Rx & Rk & Ro).
  set (blk := central_fixed it off) in *. set (rest := i_name it ++ i_extra it ++ i_comment it).
  assert (HB : z_buf file = pre ++ blk ++ (rest ++ post)).
  { rewrite Hc. unfold central. fold blk rest. by rewrite <- app_assoc. }
  assert (Hs : ∀ c, 0 ≤ c → c + 2 ≤ 46 → read_le_short (z_buf file) (len pre + c) k = read_le_short blk c k).
  { intros c H0 H1. rewrite HB. apply short_at_part; lia. }
  assert (Hd : ∀ c, 0 ≤ c → c + 4 ≤ 46 → read_le_int (z_buf file) (len pre + c) k = read_le_int blk c k).
  { intros c H0 H1. rewrite HB. apply int_at_part; lia. }
  assert (Hs' : ∀ c, 0 ≤ c → c + 2 ≤ 46 → ∃ v, read_le_short (z_buf file) (len pre + c) k = Ok v k).
  { intros c H0 H1. rewrite Hs by done. apply short_at_ok; unfold len; lia. }
  assert (Hd' : ∀ c, 0 ≤ c → c + 4 ≤ 46 → ∃ v, read_le_int (z_buf file) (len pre + c) k = Ok v k).
  { intros c H0 H1. rewrite Hd by done. apply int_at_ok; unfold len; lia. }
  assert (E0 : read_le_int (z_buf file) (len pre) k = Ok ENTRY_SIGNATURE k).
  { rewrite <- (Z.add_0_r (len pre)), Hd by lia. exact R0. }
  run E0. change (negb (ENTRY_SIGNATURE =? ENTRY_SIGNATURE)) with false. cbv iota.
  skip_short Hs' 0x04. skip_short Hs' 0x06. skip_short Hs' 0x08.
  rewrite <- (Hs 0x0a) in Rm by lia. run Rm.
  skip_short Hs' 0x0c. skip_short Hs' 0x0e. skip_short Hd' 0x10.
  rewrite <- (Hd 0x14) in Rc by lia. run Rc. rewrite <- (Hd 0x18) in Ru by lia. run Ru.
  rewrite <- (Hs 0x1c) in Rn by lia. run Rn. rewrite <- (Hs 0x1e) in Rx by lia. run Rx.
  rewrite <- (Hs 0x20) in Rk by lia. run Rk. skip_short Hs' 0x22. skip_short Hs' 0x24. skip_short Hd' 0x26.
  rewrite <- (Hd 0x2a) in Ro by lia. run Ro. clear Hs Hd Hs' Hd'.
  destruct (io_small it Hi) as (Sn & Sx & Sl & Sc).
  assert (Hlen : ∀ l, 0 ≤ len l) by (unfold len; lia).
  assert (Hbody : len lpre + 30 + len (i_name it) + len (i_lextra it) + len (i_body it) ≤ len (z_buf file)).
  { destruct (io_fixed it Hi) as (_ & _ & _ & H4). rewrite Hl. unfold local, local_header, len.
    rewrite !length_app, H4. cbn [length le16]. lia. }
  pose proof (Hlen lpre). pose proof (Hlen (i_name it)). pose proof (Hlen (i_lextra it)).
  pose proof (Hlen (i_body it)). pose proof (Hlen (i_extra it)). pose proof (Hlen (i_comment it)).
  rewrite (u32_id off) by (unfold off; lia).
  assert (El : read_le_short (z_buf file) (off + 0x1c) k = Ok (u16 (len (i_lextra it))) k).
  { rewrite <- (local_extra it k Hi). rewrite Hl. unfold local. rewrite <- !app_assoc.
    apply short_at_part; [lia|]. unfold local_header. rewrite length_app.
    destruct (io_fixed it Hi) as (_ & _ & _ & ->). cbn. lia. }
  run El. rewrite !u16_id by (try apply (io_method it Hi); lia).
  rewrite !u32_id by (try apply (io_usize it Hi); unfold off, LFH_SIZE; lia).
  unfold ret, entry_at. do 3 f_equal. unfold central, len. fold blk. rewrite !length_app, Hfl.
  unfold ENTRY_LEN. lia.
Qed.

(** all of them: the entries, the last one first *)
Fixpoint entries_at (items : list item) (p off : Z) : list Zipentry :=
  match items with
  | [] => []
  | it :: items' =>
      entry_at it p off :: entries_at items' (p + len (central it off)) (off + len (local it))
  end.

Definition with_entries (file : Zipfile) (l : list Zipentry) : Zipfile :=
  mkZip (z_buf file) (disknum file) (diskWithCentralDir file) (entryCount file) (totalEntryCount file)
    (centralDirSize file) (centralDirOffest file) (commentLen file) (z_comment file) l.

Lemma len_app l1 l2 : len (l1 ++ l2) = len l1 + len l2.
Proof. unfold len. rewrite length_app. lia. Qed.

Lemma read_entries_run items file pre post lpre lpost n k :
  Forall item_ok items → ENTRY_LEN ≤ n → len (z_buf file) < 2 ^ 32 → k_oom k = [] →
  z_buf file = pre ++ centrals items (len lpre) ++ post →
  z_buf file = lpre ++ locals items ++ lpost →
  read_entries (length items) file (len pre) n k
  = Ok (Some (with_entries file (rev (entries_at items (len pre) (len lpre)) ++ entries file))) k.
Proof.
  intros Hok Hn Hsz Hoom. revert file pre lpre Hsz.
  induction Hok as [|it items Hit _ IH]; intros file pre lpre Hsz Hc Hl.
  { cbn. by destruct file. }
  cbn [length read_entries]. rewrite (bind_ok malloc_ok _ k true k) by (unfold malloc_ok; by rewrite Hoom).
  cbn [centrals] in Hc. unfold locals in Hl. cbn [fmap list_fmap concat] in Hl. fold (locals items) in Hl.
  rewrite <- app_assoc in Hc, Hl. cbn [negb].
  run (read_entry_run file it pre _ lpre _ n k Hit Hn Hsz Hc Hl).
  set (file1 := mkZip _ _ _ _ _ _ _ _ _ _).
  pose proof (IH file1 (pre ++ central it (len lpre)) (lpre ++ local it)) as IH'.
  rewrite !len_app in IH'. rewrite IH'.
  - cbn [entries_at rev]. rewrite <- app_assoc. reflexivity.
  - exact Hsz.
  - cbn. rewrite Hc. by rewrite <- app_assoc.
  - cbn. rewrite Hl. by rewrite <- app_assoc.
Qed.

(** ** The end of the central directory *)

Definition signature_at (l : list Z) (j : nat) : Prop := take 4 (drop j l) = le32 CD_SIGNATURE.
#[export] Instance signature_at_dec l j : Decision (signature_at l j).
Proof. unfold signature_at. apply _. Defined.

Lemma lookup_four (buf : list Z) j : (j + 4 ≤ length buf)%nat → ∃ b0 b1 b2 b3,
  take 4 (drop j buf) = [b0; b1; b2; b3] ∧ buf !! j = Some b0 ∧ buf !! S j = Some b1
  ∧ buf !! S (S j) = Some b2 ∧ buf !! S (S (S j)) = Some b3.
Proof.
  intros Hj. assert (Hd : (4 ≤ length (drop j buf))%nat) by (rewrite length_drop; lia).
  pose proof (λ i, lookup_drop buf j i) as Hlk.
  destruct (drop j buf) as [|b0 [|b1 [|b2 [|b3 l]]]]; cbn in Hd; try lia.
  exists b0, b1, b2, b3. split; [done|].
  rewrite <- (Nat.add_0_r j) at 1. rewrite <- Hlk.
  replace (S j) with (j + 1)%nat by lia. rewrite <- Hlk.
  replace (S (j + 1)) with (j + 2)%nat by lia. rewrite <- Hlk.
  replace (S (j + 2)) with (j + 3)%nat by lia. rewrite <- Hlk. done.
Qed.

Lemma read_int_four buf j b0 b1 b2 b3 k : Forall is_byte buf → (j + 4 ≤ length buf)%nat →
  take 4 (drop j buf) = [b0; b1; b2; b3] →
  byte_at buf (Z.of_nat j) k = Ok b0 k ∧ read_le_int buf (Z.of_nat j) k = Ok (get32 [b0; b1; b2; b3]) k.
Proof.
  intros Hb Hj Ht. destruct (lookup_four buf j Hj) as (c0 & c1 & c2 & c3 & Ht' & L0 & L1 & L2 & L3).
  rewrite Ht in Ht'. simplify_eq.
  assert (Hbyte : ∀ i b, buf !! i = Some b → is_byte b) by (intros i b; by apply Forall_lookup_1).
  pose proof (Hbyte _ _ L0). pose proof (Hbyte _ _ L1). pose proof (Hbyte _ _ L2). pose proof (Hbyte _ _ L3).
  assert (E : ∀ i b, buf !! i = Some b → byte_at buf (Z.of_nat i) k = Ok b k).
  { intros i b Hi. apply byte_at_in; [lia|]. by rewrite Nat2Z.id. }
  split; [by apply E|]. unfold read_le_int. run (E _ _ L0).
  replace (Z.of_nat j + 1) with (Z.of_nat (S j)) by lia. run (E _ _ L1).
  replace (Z.of_nat j + 2) with (Z.of_nat (S (S j))) by lia. run (E _ _ L2).
  replace (Z.of_nat j + 3) with (Z.of_nat (S (S (S j)))) by lia. run (E _ _ L3).
  unfold ret. f_equal. rewrite lor_int by done. apply u32_id.
  unfold is_byte in *. cbn. lia.
Qed.

Lemma signature_value b0 b1 b2 b3 : is_byte b0 → is_byte b1 → is_byte b2 → is_byte b3 →
  get32 [b0; b1; b2; b3] = CD_SIGNATURE ↔ [b0; b1; b2; b3] = le32 CD_SIGNATURE.
Proof.
  unfold is_byte. intros. change (le32 CD_SIGNATURE) with [0x50; 0x4b; 5; 6]. unfold CD_SIGNATURE. cbn [get32].
  split; [|intros [= -> -> -> ->]; reflexivity].
  intros E. assert (b3 = 6) by lia. assert (b2 = 5) by lia. assert (b1 = 0x4b) by lia. repeat f_equal; lia.
Qed.

Lemma find_eocd_run buf e j fuel k : Forall is_byte buf → signature_at buf e → (e ≤ j)%nat →
  (j + 4 ≤ length buf)%nat → (∀ i, (e < i ≤ j)%nat → ¬ signature_at buf i) →
  (j - e < fuel)%nat → ∀ start, start ≤ Z.of_nat e →
  find_eocd fuel buf start (Z.of_nat j) k = Ok (Some (Z.of_nat e)) k.
Proof.
  intros Hb He Hej Hj Hno Hf start Hs. revert j Hej Hj Hno Hf.
  induction fuel as [|fuel IH]; intros j Hej Hj Hno Hf; [lia|]. cbn [find_eocd].
  rewrite (proj2 (Z.ltb_ge (Z.of_nat j) start)) by lia.
  destruct (lookup_four buf j Hj) as (b0 & b1 & b2 & b3 & Ht & L0 & L1 & L2 & L3).
  destruct (read_int_four buf j b0 b1 b2 b3 k Hb Hj Ht) as [R0 R4]. run R0.
  assert (Hbyte : ∀ i b, buf !! i = Some b → is_byte b) by (intros i b; by apply Forall_lookup_1).
  pose proof (signature_value b0 b1 b2 b3 (Hbyte _ _ L0) (Hbyte _ _ L1) (Hbyte _ _ L2) (Hbyte _ _ L3)) as Hsv.
  assert (Hfound : (if b0 =? 0x50 then do v <- read_le_int buf (Z.of_nat j); ret (v =? CD_SIGNATURE) else ret false) k
    = Ok (bool_decide (signature_at buf j)) k).
  { assert (Hsig : signature_at buf j ↔ [b0; b1; b2; b3] = le32 CD_SIGNATURE) by (unfold signature_at; by rewrite Ht).
    destruct (Z.eqb_spec b0 0x50) as [->|Hne].
    - run R4. unfold ret. f_equal. destruct (Z.eqb_spec (get32 [0x50; b1; b2; b3]) CD_SIGNATURE) as [Hv|Hv].
      + rewrite bool_decide_eq_true_2; [done|]. by apply Hsig, Hsv.
      + rewrite bool_decide_eq_false_2; [done|]. by intros ?%Hsig%Hsv.
    - rewrite bool_decide_eq_false_2; [done|]. intros Hs'%Hsig.
      change (le32 CD_SIGNATURE) with [0x50; 0x4b; 5; 6] in Hs'. congruence. }
  run Hfound. destruct (decide (j = e)) as [->|Hne].
  - by rewrite bool_decide_eq_true_2.
  - rewrite bool_decide_eq_false_2 by (apply Hno; lia).
    replace (Z.of_nat j - 1) with (Z.of_nat (j - 1)) by lia. apply IH; try lia. intros i Hi. apply Hno. lia.
Qed.

Definition eocd_fixed (n size off clen : Z) : list Z :=
  le32 CD_SIGNATURE ++ le16 0 ++ le16 0 ++ le16 n ++ le16 n ++ le32 size ++ le32 off ++ le16 clen.

Lemma eocd_reads n size off clen k :
  let blk := eocd_fixed n size off clen in
  read_le_short blk 0x04 k = Ok 0 k ∧ read_le_short blk 0x06 k = Ok 0 k
  ∧ read_le_short blk 0x08 k = Ok (u16 n) k ∧ read_le_short blk 0x0a k = Ok (u16 n) k
  ∧ read_le_int blk 0x0c k = Ok (u32 size) k ∧ read_le_int blk 0x10 k = Ok (u32 off) k
  ∧ read_le_short blk 0x14 k = Ok (u16 clen) k.
Proof.
  unfold eocd_fixed, read_le_int, read_le_short, byte_at, deref, bind, ret, le16, le32, app.
  cbn [Z.add Pos.add Pos.succ Z.leb Z.compare Z.to_nat Pos.to_nat Pos.iter_op Nat.add lookup list_lookup].
  split_and!; f_equal; rewrite ?int_bytes, ?short_bytes; reflexivity.
Qed.

(** the values of the end of the central directory *)
Definition with_values (file : Zipfile) (n size off clen : Z) (comment : option Z) : Zipfile :=
  mkZip (z_buf file) 0 0 n n size off clen comment (entries file).

Lemma read_values_run file pre n size off comment k :
  z_buf file = pre ++ eocd n size off comment → 0 ≤ n < 2 ^ 16 → 0 ≤ size < 2 ^ 32 → 0 ≤ off < 2 ^ 32 →
  len comment < 2 ^ 16 →
  ∃ c, read_central_dir_values file (len pre) (len (eocd n size off comment)) k
       = Ok (Some (with_values file n size off (len comment) c)) k.
Proof.
  intros HB Hn Hsize Hoff Hc. unfold read_central_dir_values.
  assert (Hl : len (eocd n size off comment) = 22 + len comment) by (unfold eocd; rewrite len_app; reflexivity).
  assert (H0 : 0 ≤ len comment) by (unfold len; lia).
  rewrite Hl. rewrite (proj2 (Z.ltb_ge _ EOCD_LEN)) by (unfold EOCD_LEN; lia).
  destruct (eocd_reads n size off (len comment) k) as (R1 & R2 & R3 & R4 & R5 & R6 & R7).
  unfold eocd in HB. fold (eocd_fixed n size off (len comment)) in HB. set (blk := eocd_fixed _ _ _ _) in *.
  assert (Hs : ∀ c, 0 ≤ c → c + 2 ≤ 22 → read_le_short (z_buf file) (len pre + c) k = read_le_short blk c k).
  { intros c ??. rewrite HB. apply short_at_part; [done|]. exact H1. }
  assert (Hd : ∀ c, 0 ≤ c → c + 4 ≤ 22 → read_le_int (z_buf file) (len pre + c) k = read_le_int blk c k).
  { intros c ??. rewrite HB. apply int_at_part; [done|]. exact H1. }
  rewrite <- Hs in R1, R2, R3, R4, R7 by lia. rewrite <- Hd in R5, R6 by lia.
  run R1. run R2. run R3. run R4. run R5. run R6. run R7.
  rewrite !u16_id, !u32_id by lia. rewrite (proj2 (Z.ltb_ge _ (EOCD_LEN + _))) by (unfold EOCD_LEN; lia).
  destruct (0 <? len comment); eexists; reflexivity.
Qed.

(** ** Every byte of an archive is a byte *)

Lemma le16_bytes n : Forall is_byte (le16 n).
Proof. repeat constructor; apply u8_byte. Qed.
Lemma le32_byte n : Forall is_byte (le32 n).
Proof. repeat constructor; apply u8_byte. Qed.
#[local] Hint Resolve le16_bytes le32_byte : core.

Lemma item_bytes it : item_ok it → Forall is_byte (local it) ∧ ∀ off, Forall is_byte (central it off).
Proof.
  intros Hi. pose proof (io_bytes it Hi) as H. rewrite !Forall_app in H. destruct_and!.
  unfold local, local_header, central, central_fixed. split; [|intros off]; rewrite !Forall_app; auto 15.
Qed.
Lemma centrals_bytes items off : Forall item_ok items → Forall is_byte (centrals items off).
Proof.
  intros H. revert off. induction H as [|it items Hi _ IH]; intros off; cbn; [done|].
  apply Forall_app. split; [by apply item_bytes|apply IH].
Qed.
Lemma locals_bytes items : Forall item_ok items → Forall is_byte (locals items).
Proof. induction 1 as [|it items Hi _ IH]; cbn; [done|]. apply Forall_app. split; [by apply item_bytes|done]. Qed.
Lemma archive_bytes items comment : Forall item_ok items → Forall is_byte comment →
  Forall is_byte (archive items comment).
Proof.
  intros. unfold archive, eocd. rewrite !Forall_app. auto 12 using centrals_bytes, locals_bytes.
Qed.

(** ** Reading an archive *)

Section archive.
Context (items : list item) (comment : list Z).
Abbreviation arc := (archive items comment).
Abbreviation dir := (len (locals items ++ centrals items 0)).

Lemma archive_split : arc = (locals items ++ centrals items 0)
  ++ eocd (Z.of_nat (length items)) (len (centrals items 0)) (len (locals items)) comment.
Proof. unfold archive. by rewrite app_assoc. Qed.

Lemma eocd_length n size off : len (eocd n size off comment) = 22 + len comment.
Proof. unfold eocd. rewrite len_app. reflexivity. Qed.

Lemma archive_length : len arc = dir + 22 + len comment.
Proof. rewrite archive_split, len_app, eocd_length. lia. Qed.

Lemma archive_signature : signature_at arc (Z.to_nat dir).
Proof.
  unfold signature_at. rewrite archive_split. unfold len. rewrite Nat2Z.id, drop_app_length.
  unfold eocd. rewrite <- !app_assoc. rewrite take_app_le by done. reflexivity.
Qed.

(** the end record is the last place with its signature *)
Definition no_later_signature : Prop :=
  ∀ j, (Z.to_nat dir < j)%nat → (j + 4 ≤ length arc)%nat → ¬ signature_at arc j.

#[global] Instance signature_list_dec l (js : list nat) : Decision (Forall (λ j, ¬ signature_at l j) js).
Proof. apply _. Defined.
Lemma no_later_check :
  Forall (λ j, ¬ signature_at arc j) (seq (S (Z.to_nat dir)) (length arc - Z.to_nat dir)) → no_later_signature.
Proof. intros H j H1 H2. rewrite Forall_forall in H. apply H, in_seq. lia. Qed.

(** an archive of the format *)
Record archive_ok : Prop := {
  ao_items : Forall item_ok items;
  ao_comment : Forall is_byte comment ∧ len comment < 2 ^ 16;
  ao_count : Z.of_nat (length items) < 2 ^ 16;
  ao_size : len arc < 2 ^ 31;
  ao_end : no_later_signature;
}.

Lemma find_eocd_archive k : Forall item_ok items → Forall is_byte comment → len comment < 2 ^ 16 →
  no_later_signature →
  find_eocd (length arc) arc (if MAX_EOCD_SEARCH <? len arc then len arc - MAX_EOCD_SEARCH else 0)
    (len arc - 4) k = Ok (Some dir) k.
Proof.
  intros Hi Hb Hc Hno. pose proof archive_length as Hl. unfold len in Hl |- *.
  replace (Z.of_nat (length arc) - 4) with (Z.of_nat (length arc - 4)) by lia.
  apply find_eocd_run; try lia.
  - by apply archive_bytes.
  - pose proof archive_signature as Hs. unfold len in Hs. by rewrite Nat2Z.id in Hs.
  - intros i Hij. apply Hno; [unfold len; rewrite Nat2Z.id|]; lia.
  - unfold len in Hc. unfold MAX_EOCD_SEARCH, MAX_COMMENT_LEN, EOCD_LEN. case_match; lia.
Qed.

Lemma centrals_nonempty : Forall item_ok items → items ≠ [] → ENTRY_LEN ≤ len (centrals items 0).
Proof.
  intros Hi Hne. destruct items as [|it l]; [done|]. inversion_clear Hi. cbn [centrals].
  unfold central, len. rewrite !length_app, central_fixed_length by done. unfold ENTRY_LEN. lia.
Qed.

Lemma init_zipfile_run k : archive_ok → k_oom k = [] →
  ∃ file, init_zipfile arc k = Ok (Some file) k ∧ z_buf file = arc
    ∧ entries file = rev (entries_at items (len (locals items)) 0).
Proof.
  intros [Hi [Hb Hc] Hn Hsz Hno] Hoom. unfold init_zipfile.
  rewrite (bind_ok malloc_ok _ k true k) by (unfold malloc_ok; by rewrite Hoom). cbn [negb].
  set (f0 := mkZip arc 0 0 0 0 0 0 0 None []). unfold read_central_dir.
  change (z_buf f0) with arc. change (bufsize f0) with (len arc). pose proof archive_length as Hl.
  assert (Hpos : ∀ l, 0 ≤ len l) by (unfold len; lia). pose proof (Hpos comment).
  rewrite len_app in Hl. pose proof (Hpos (locals items)). pose proof (Hpos (centrals items 0)).
  rewrite (proj2 (Z.ltb_ge _ EOCD_LEN)) by (unfold EOCD_LEN; lia). cbv zeta.
  run (find_eocd_archive k Hi Hb Hc Hno).
  destruct (read_values_run f0 (locals items ++ centrals items 0) (Z.of_nat (length items))
    (len (centrals items 0)) (len (locals items)) comment k archive_split) as [c Ev]; [lia..|].
  rewrite eocd_length in Ev. rewrite len_app in Ev |- *.
  replace (len arc - (len (locals items) + len (centrals items 0))) with (22 + len comment) by lia.
  run Ev. unfold with_values. cbn [disknum diskWithCentralDir entryCount totalEntryCount centralDirOffest].
  rewrite !Z.eqb_refl. cbn [negb orb]. rewrite Nat2Z.id. set (file := mkZip _ _ _ _ _ _ _ _ _ _).
  assert (Hrun : read_entries (length items) file (len (locals items)) (s32 (len arc - len (locals items))) k
    = Ok (Some (with_entries file (rev (entries_at items (len (locals items)) 0)))) k).
  { destruct (decide (items = [])) as [->|Hne]; [reflexivity|].
    pose proof (centrals_nonempty Hi Hne).
    rewrite (read_entries_run items file (locals items)
      (eocd (Z.of_nat (length items)) (len (centrals items 0)) (len (locals items)) comment) []
      (centrals items 0 ++ eocd (Z.of_nat (length items)) (len (centrals items 0)) (len (locals items)) comment));
      try done; [by rewrite app_nil_r| |cbn; lia].
    unfold s32, ENTRY_LEN in *. rewrite Z.mod_small by lia. lia. }
  rewrite Hrun. by eexists.
Qed.
End archive.

(** ** What a client of the archive sees *)

Lemma to_nat_len (l : list Z) : Z.to_nat (len l) = length l.
Proof. apply Nat2Z.id. Qed.

Lemma bytes_at_part (pre l post : list Z) k :
  bytes_at (pre ++ l ++ post) (len pre) (length l) k = Ok l k.
Proof.
  unfold bytes_at, deref, len. rewrite decide_True by (rewrite !length_app; lia).
  by rewrite Nat2Z.id, drop_app_length, take_app_length.
Qed.

(** the entry shows the name, the size and the contents of the item *)
Definition shows (file : Zipfile) (k : kern) (e : Zipentry) (it : item) : Prop :=
  get_zipentry_name file e k = Ok (i_name it ++ [0]) k
  ∧ get_zipentry_size e = i_usize it
  ∧ ∀ inflate size bufsize,
      (i_method it = STORED → i_usize it = len (i_body it) → (length (i_body it) ≤ size)%nat →
        decompress_zipentry inflate file e size bufsize k = Ok (Some (i_body it)) k)
      ∧ (i_method it = DEFLATED →
        decompress_zipentry inflate file e size bufsize k = Ok (inflate (i_body it) (Z.to_nat bufsize)) k)
      ∧ (i_method it ≠ STORED → i_method it ≠ DEFLATED →
        decompress_zipentry inflate file e size bufsize k = Ok None k).

Lemma entry_name file it pre post p off k : item_ok it → k_oom k = [] →
  p = len pre → z_buf file = pre ++ central it off ++ post →
  get_zipentry_name file (entry_at it p off) k = Ok (i_name it ++ [0]) k.
Proof.
  intros Hi Hoom -> HB. unfold get_zipentry_name.
  rewrite (bind_ok malloc_ok _ k true k) by (unfold malloc_ok; by rewrite Hoom). cbn [negb entry_at fileName fileNameLength].
  rewrite to_nat_len.
  destruct (Z.eqb_spec (len (i_name it)) 0) as [H0|H0]; cbn [negb default].
  - assert (i_name it = []) as -> by (destruct (i_name it); [done|discriminate H0]). reflexivity.
  - assert (Eb : bytes_at (z_buf file) (len pre + ENTRY_LEN) (length (i_name it)) k = Ok (i_name it) k).
    { rewrite HB. unfold central. rewrite <- !app_assoc, (app_assoc pre).
      replace (len pre + ENTRY_LEN) with (len (pre ++ central_fixed it off));
        [apply bytes_at_part|].
      rewrite len_app. unfold len at 2. by rewrite central_fixed_length. }
    by run Eb.
Qed.

Lemma entry_body file it lpre lpost p k : item_ok it → z_buf file = lpre ++ local it ++ lpost →
  bytes_at (z_buf file) (e_data (entry_at it p (len lpre))) (length (i_body it)) k = Ok (i_body it) k.
Proof.
  intros Hi HB. rewrite HB. unfold local. rewrite <- !app_assoc.
  rewrite (app_assoc lpre), (app_assoc (lpre ++ _)), (app_assoc ((lpre ++ _) ++ _)).
  cbn [entry_at e_data]. replace (len lpre + _ + _ + _) with (len (((lpre ++ local_header it) ++ i_name it) ++ i_lextra it));
    [apply bytes_at_part|].
  rewrite !len_app. unfold local_header. rewrite len_app. unfold len at 2.
  destruct (io_fixed it Hi) as (_ & _ & _ & ->). reflexivity.
Qed.

Lemma entry_shows file it pre post lpre lpost k : item_ok it → k_oom k = [] →
  z_buf file = pre ++ central it (len lpre) ++ post → z_buf file = lpre ++ local it ++ lpost →
  shows file k (entry_at it (len pre) (len lpre)) it.
Proof.
  intros Hi Hoom Hc Hl. pose proof (entry_body file it lpre lpost (len pre) k Hi Hl) as Eb.
  split; [by eapply entry_name|]. split; [done|]. intros inflate size bufsize.
  unfold decompress_zipentry. cbn [entry_at compressionMethod compressedSize uncompressedSize] in *.
  split_and!.
  - intros -> Hu Hs. rewrite Hu. rewrite to_nat_len. cbn [Z.eqb STORED].
    run Eb. by rewrite decide_True.
  - intros ->. rewrite to_nat_len. change (DEFLATED =? STORED) with false.
    rewrite Z.eqb_refl. run Eb. reflexivity.
  - intros H0 H8. by rewrite !(proj2 (Z.eqb_neq _ _)).
Qed.

Lemma entries_show items file pre post lpre lpost k : Forall item_ok items → k_oom k = [] →
  z_buf file = pre ++ centrals items (len lpre) ++ post → z_buf file = lpre ++ locals items ++ lpost →
  Forall2 (shows file k) (entries_at items (len pre) (len lpre)) items.
Proof.
  intros Hi Hoom. revert pre lpre. induction Hi as [|it items Hit _ IH]; intros pre lpre Hc Hl; [constructor|].
  cbn [centrals] in Hc. unfold locals in Hl. cbn [fmap list_fmap concat] in Hl. fold (locals items) in Hl.
  rewrite <- app_assoc in Hc, Hl. cbn [entries_at]. constructor; [by eapply entry_shows|].
  rewrite <- !len_app. apply IH.
  - by rewrite len_app, <- app_assoc.
  - by rewrite <- app_assoc.
Qed.

Lemma init_shows items comment k : archive_ok items comment → k_oom k = [] →
  ∃ file, init_zipfile (archive items comment) k = Ok (Some file) k
    ∧ Forall2 (shows file k) (entries file) (rev items).
Proof.
  intros Ha Hoom.
  destruct (init_zipfile_run items comment k Ha Hoom) as (file & E & HB & He).
  exists file. split; [exact E|]. rewrite He, !rev_alt. apply (Forall2_reverse (shows file k)).
  apply (entries_show items file (locals items)
    (eocd (Z.of_nat (length items)) (len (centrals items 0)) (len (locals items)) comment) []
    (centrals items 0 ++ eocd (Z.of_nat (length items)) (len (centrals items 0)) (len (locals items)) comment) k);
    try done. apply Ha.
Qed.

(** C37 Reading back an archive: for every archive laid out as the format
    says (stored or compressed items, extra fields, comments), the parser
    accepts it, reads only inside of it, and the list of entries is exactly the
    list of the items, in reverse order, each with its name, its size and its
    contents. *)
Theorem zip_roundtrip items comment k : archive_ok items comment → k_oom k = [] →
  ∃ file, init_zipfile (archive items comment) k = Ok (Some file) k
    ∧ Forall2 (shows file k) (entries file) (rev items).
Proof. apply init_shows. Qed.

(** ** Looking a name up *)

Lemma memcmp_prefix (nm a : list Z) buf p k : 0 ∉ nm → 0 ∉ a →
  bytes_at buf p (length nm) k = Ok nm k →
  memcmp_eq (a ++ [0]) buf p (length nm) k = Ok (bool_decide (nm `prefix_of` a)) k.
Proof.
  intros Hnm. revert a p. induction nm as [|x nm IH]; intros a p Ha Hb.
  { rewrite bool_decide_eq_true_2 by apply prefix_nil. reflexivity. }
  cbn [length memcmp_eq] in *. apply not_elem_of_cons in Hnm as [Hx Hnm].
  unfold bytes_at, deref in Hb. case_decide as Hin; [|done]. destruct Hin as [Hp Hlen].
  assert (Hd : take (S (length nm)) (drop (Z.to_nat p) buf) = x :: nm) by congruence.
  destruct (drop (Z.to_nat p) buf) as [|y r] eqn:Hdr; [discriminate Hd|]. cbn in Hd. injection Hd as -> Hr.
  assert (Hy : byte_at buf p k = Ok x k).
  { apply byte_at_in; [done|]. rewrite <- (Nat.add_0_r (Z.to_nat p)), <- lookup_drop, Hdr. done. }
  assert (Hb' : bytes_at buf (p + 1) (length nm) k = Ok nm k).
  { unfold bytes_at, deref. rewrite decide_True by lia. f_equal.
    replace (Z.to_nat (p + 1)) with (Z.to_nat p + 1)%nat by lia.
    rewrite <- drop_drop, Hdr. exact Hr. }
  destruct a as [|z a]; cbn [app]; run Hy.
  - rewrite (proj2 (Z.eqb_neq 0 x)) by done. by rewrite bool_decide_eq_false_2 by apply prefix_nil_not.
  - apply not_elem_of_cons in Ha as [Hz Ha]. destruct (Z.eqb_spec z x) as [->|Hne].
    + rewrite IH by done. f_equal. apply bool_decide_ext. split; [apply prefix_cons|apply prefix_cons_inv_2].
    + rewrite bool_decide_eq_false_2; [done|]. intros ?%prefix_cons_inv_1. done.
Qed.

Lemma shown_name_bytes file k e it : k_oom k = [] → shows file k e it →
  length (i_name it) = Z.to_nat (fileNameLength e)
  ∧ bytes_at (z_buf file) (default 0 (fileName e)) (Z.to_nat (fileNameLength e)) k = Ok (i_name it) k.
Proof.
  intros Hoom [Hn _]. unfold get_zipentry_name in Hn.
  rewrite (bind_ok malloc_ok _ k true k) in Hn by (unfold malloc_ok; by rewrite Hoom). cbn [negb] in Hn.
  unfold bind, bytes_at, deref in Hn |- *. case_decide as Hin; [|discriminate Hn].
  unfold ret in Hn. assert (Ht : take (Z.to_nat (fileNameLength e)) (drop (Z.to_nat (default 0 (fileName e))) (z_buf file)) = i_name it).
  { apply (app_inj_2 _ _ [0] [0]); [done|]. congruence. }
  rewrite Ht. split; [|done]. rewrite <- Ht, length_take, length_drop. lia.
Qed.

Definition named (name : list Z) (it : item) : bool := bool_decide (i_name it `prefix_of` name).

Lemma find_entry_shows file k l its name : k_oom k = [] → 0 ∉ name →
  Forall (λ it, 0 ∉ i_name it) its → Forall2 (shows file k) l its →
  ∃ r, find_entry (z_buf file) l name k = Ok r k
    ∧ match List.find (named name) its with
      | None => r = None
      | Some it => ∃ e, r = Some e ∧ shows file k e it
      end.
Proof.
  intros Hoom Hn Hnul Hall. induction Hall as [|e it l its Hs _ IH]; [by eexists|].
  inversion_clear Hnul. cbn [find_entry List.find].
  destruct (shown_name_bytes file k e it Hoom Hs) as [Hlen Hb]. rewrite <- Hlen in Hb |- *.
  run (memcmp_prefix (i_name it) name (z_buf file) _ k ltac:(done) Hn Hb).
  unfold named at 1. case_bool_decide; [|by apply IH]. eexists. eauto.
Qed.

(** Looking a name up in an archive always ends and stays inside of the
    archive; it finds the last item of the archive whose name is a prefix of the
    requested name, and nothing when there is no such item. *)
Theorem lookup_zipentry_finds_prefix items comment name k :
  archive_ok items comment → Forall (λ it, 0 ∉ i_name it) items → 0 ∉ name → k_oom k = [] →
  ∃ file r, init_zipfile (archive items comment) k = Ok (Some file) k
    ∧ lookup_zipentry file name k = Ok r k
    ∧ match List.find (named name) (rev items) with
      | None => r = None
      | Some it => ∃ e, r = Some e ∧ shows file k e it
      end.
Proof.
  intros Ha Hnul Hn Hoom. destruct (init_shows items comment k Ha Hoom) as (file & E & Hs).
  assert (Hnul' : Forall (λ it, 0 ∉ i_name it) (rev items)) by by apply Forall_rev.
  destruct (find_entry_shows file k _ _ name Hoom Hn Hnul' Hs) as (r & Er & Hr). by exists file, r.
Qed.

(** ** Examples *)

Definition kern0 : kern := mkKern 0 ∅ ∅ ∅ [] [] [].
Definition ex_item (name body : list Z) : item :=
  mkItem name STORED (len body) body [1; 2] [0] [7] (replicate 6 0) (replicate 8 0) (replicate 8 0) (replicate 28 0).
Definition ex_items : list item := [ex_item [97; 98] [1; 2; 3]; ex_item [97; 98; 99; 100] [4; 5]].

Lemma ex_item_ok name body : Forall is_byte name → Forall is_byte body → len name < 2 ^ 16 →
  len body < 2 ^ 32 → item_ok (ex_item name body).
Proof.
  intros Hn Hb Hl Hl'. assert (0 ≤ len body) by (unfold len; lia).
  split; cbn [ex_item i_name i_method i_usize i_body i_extra i_lextra i_comment i_head i_stamp i_attr i_local].
  - rewrite !Forall_app. split_and!; try done; apply (bool_decide_eq_true_1 _); reflexivity.
  - done.
  - lia.
  - done.
  - done.
Qed.
Lemma ex_archive_ok : archive_ok ex_items [33].
Proof.
  split.
  - constructor; [|constructor; [|constructor]];
      (apply ex_item_ok; [apply (bool_decide_eq_true_1 _); reflexivity..|done|done]).
  - split; [apply (bool_decide_eq_true_1 _); reflexivity|done].
  - done.
  - vm_compute. done.
  - apply no_later_check, (bool_decide_eq_true_1 _). vm_compute. reflexivity.
Qed.

Lemma zip_roundtrip_witness :
  ∃ file, init_zipfile (archive ex_items [33]) kern0 = Ok (Some file) kern0
    ∧ Forall2 (shows file kern0) (entries file) (rev ex_items).
Proof. apply zip_roundtrip; [apply ex_archive_ok|reflexivity]. Defined.

(** the archive has the names "ab" and "abcd"; the request "abc" finds "ab" *)
Lemma lookup_zipentry_finds_prefix_witness :
  ∃ file r, init_zipfile (archive ex_items [33]) kern0 = Ok (Some file) kern0
    ∧ lookup_zipentry file [97; 98; 99] kern0 = Ok r kern0
    ∧ ∃ e, r = Some e ∧ shows file kern0 e (ex_item [97; 98] [1; 2; 3]).
Proof.
  apply (lookup_zipentry_finds_prefix ex_items [33] [97; 98; 99] kern0).
  - apply ex_archive_ok.
  - apply (bool_decide_eq_true_1 _). vm_compute. reflexivity.
  - apply (bool_decide_eq_true_1 _). vm_compute. reflexivity.
  - reflexivity.
Defined.

(** a directory of two entries, the first one with a name of 65535 bytes that
    the archive does not have *)
Definition cut_archive : list Z :=
  take 46 (central_fixed (ex_item [97] []) 0 ) ++ eocd 2 46 0 [].
Definition cut_name : list Z := <[28%nat := 255]> (<[29%nat := 255]> cut_archive).

(** The length that guards the reads of an entry is the one of the whole
    directory for every entry, never the one that is left: a well-formed first
    entry with an oversized name makes the reader of the second one read outside
    of the archive. *)
Theorem central_dir_overread :
  Forall is_byte cut_name ∧ ∀ k, k_oom k = [] → init_zipfile cut_name k = Fault OutOfBounds k.
Proof.
  split; [apply (bool_decide_eq_true_1 _); reflexivity|].
  intros [e rd wr cf sy tr oom] Hoom. cbn in Hoom. subst oom. vm_compute. reflexivity.
Qed.
Lemma central_dir_overread_witness : init_zipfile cut_name kern0 = Fault OutOfBounds kern0.
Proof. apply central_dir_overread. reflexivity. Defined.
