(* ===== verification/ZipHeap.v ===== *)
(** * The memory of the zip reader (adbd/src/centraldir.c, adbd/src/zipfile.c)

    The parser of Zip.v as it runs on the heap: the file object and the entries
    are allocated objects, the entries linked through [next].  The theorems
    relate it to the parser on sequences and to release_zipfile. *)

From S2P Require Import Prelude Kernel Packet Zip ZipProps.

Record zworld := mkZw {
  zw_kern : kern;
  zw_entries : gmap Z (Zipentry * Z);    (* an entry and its next, 0 for NULL *)
  zw_files : gmap Z (Zipfile * Z);       (* a file and its entries, 0 for NULL *)
  zw_next : Z;                           (* addresses from here on are not in use *)
}.
Definition zk (k : kern) (w : zworld) : zworld := mkZw k (zw_entries w) (zw_files w) (zw_next w).
Definition ze (f : gmap Z (Zipentry * Z) → gmap Z (Zipentry * Z)) (w : zworld) : zworld :=
  mkZw (zw_kern w) (f (zw_entries w)) (zw_files w) (zw_next w).
Definition zf (f : gmap Z (Zipfile * Z) → gmap Z (Zipfile * Z)) (w : zworld) : zworld :=
  mkZw (zw_kern w) (zw_entries w) (f (zw_files w)) (zw_next w).
Definition ZK {A} (m : M kern A) : M zworld A := zoom zw_kern zk m.

(** malloc: None for NULL *)
Definition zmalloc : M zworld (option Z) :=
  do ok <- ZK malloc_ok;
  if negb ok then ret None
  else
    do a <- gets zw_next;
    modify (λ w, mkZw (zw_kern w) (zw_entries w) (zw_files w) (a + 16));;;
    ret (Some a).

Definition file_at (f : Z) : M zworld (Zipfile * Z) := deref UseAfterFree (λ w, zw_files w !! f).
Definition empty_entry : Zipentry := mkEntry 0 None 0 0 0 0.

(** ** centraldir.c *)

(** the loop of read_central_dir; false: bail *)
Fixpoint heap_read_entries (n : nat) (f p len : Z) : M zworld bool :=
  match n with
  | O => ret true
  | S n' =>
      do entry <- zmalloc;
      match entry with
      | None => fail NullDeref                     (* memset *)
      | Some entry =>
          modify (ze <[entry := (empty_entry, 0)]>);;;
          do '(file, _) <- file_at f;
          do r <- ZK (read_central_directory_entry file p len);
          match r with
          | None => modify (ze (delete entry));;; ret false
          | Some (e, p') =>
              do '(file, entries) <- file_at f;
              modify (ze <[entry := (e, entries)]>);;;
              modify (zf <[f := (file, entry)]>);;;
              heap_read_entries n' f p' len
          end
      end
  end.

Definition heap_read_central_dir (f : Z) : M zworld bool :=
  do '(file, entries) <- file_at f;
  let buf := z_buf file in
  let n := bufsize file in
  if n <? EOCD_LEN then ret false
  else
    let start := if MAX_EOCD_SEARCH <? n then n - MAX_EOCD_SEARCH else 0 in
    do r <- ZK (find_eocd (length buf) buf start (n - 4));
    match r with
    | None => ret false
    | Some eocd =>
        do r <- ZK (read_central_dir_values file eocd (n - eocd));
        match r with
        | None => ret false
        | Some file =>
            modify (zf <[f := (file, entries)]>);;;
            if negb (disknum file =? 0) || negb (diskWithCentralDir file =? 0)
               || negb (entryCount file =? totalEntryCount file) then ret false
            else
              heap_read_entries (Z.to_nat (totalEntryCount file)) f (centralDirOffest file)
                (s32 (n - centralDirOffest file))
        end
    end.

(** ** zipfile.c; 0 for NULL *)

Definition heap_init_zipfile (data : list Z) : M zworld Z :=
  do file <- zmalloc;
  match file with
  | None => ret 0
  | Some f =>
      modify (zf <[f := (mkZip data 0 0 0 0 0 0 0 None [], 0)]>);;;
      do ok <- heap_read_central_dir f;
      if (ok : bool) then ret f else modify (zf (delete f));;; ret 0
  end.

(** while(entry): every round frees an entry, so their number is enough *)
Fixpoint free_entries (fuel : nat) (entry : Z) : M zworld unit :=
  if entry =? 0 then ret tt
  else
    match fuel with
    | O => fail OutOfFuel
    | S fuel' =>
        do '(_, next) <- deref UseAfterFree (λ w, zw_entries w !! entry);
        modify (ze (delete entry));;;
        free_entries fuel' next
    end.
Definition release_zipfile (f : Z) : M zworld unit :=
  do '(_, entries) <- file_at f;
  do n <- gets (λ w, size (zw_entries w));
  free_entries n entries;;;
  modify (zf (delete f)).

(** ** The linked entries *)

Definition head_of (l : list (Z * Zipentry)) : Z := match l with [] => 0 | (a, _) :: _ => a end.
(** the entries [l], at their addresses, each linked to the next *)
Fixpoint links (l : list (Z * Zipentry)) : gmap Z (Zipentry * Z) :=
  match l with
  | [] => ∅
  | (a, e) :: l' => <[a := (e, head_of l')]> (links l')
  end.

Lemma links_lookup l a : a ∉ l.*1 → links l !! a = None.
Proof.
  induction l as [|[b e] l IH]; [done|]. cbn [fmap list_fmap fst]. intros [Hne Hn]%not_elem_of_cons.
  cbn [links]. rewrite lookup_insert_ne by done. auto.
Qed.

(** the objects [l] and nothing else have been added to [E] *)
Record owns (E : gmap Z (Zipentry * Z)) (l : list (Z * Zipentry)) (w : zworld) : Prop := {
  ow_entries : zw_entries w = links l ∪ E;
  ow_nodup : NoDup l.*1;
  ow_live a : a ∈ l.*1 → 0 < a < zw_next w ∧ E !! a = None;
  ow_fresh a : zw_next w ≤ a → E !! a = None;
  ow_next : 0 < zw_next w;
}.

Lemma owns_lookup E l w a : owns E l w → E !! a = None → a ∉ l.*1 → zw_entries w !! a = None.
Proof. intros Ho HE Hl. rewrite (ow_entries _ _ _ Ho). apply lookup_union_None. by rewrite links_lookup. Qed.

Lemma links_size E l w : owns E l w → (length l ≤ size (zw_entries w))%nat.
Proof.
  intros [-> Hnd Hlive _ _]. assert (Hd : links l ##ₘ E).
  { apply map_disjoint_spec. intros a x y Hx Hy. destruct (decide (a ∈ l.*1)) as [Hin|Hn].
    - destruct (Hlive a Hin) as [_ HE]. congruence.
    - rewrite links_lookup in Hx by done. done. }
  rewrite map_size_disj_union by done. enough (size (links l) = length l) by lia.
  clear Hlive Hd. induction l as [|[a e] l IH]; [done|].
  cbn [fmap list_fmap fst] in Hnd. apply list.NoDup_cons in Hnd as [Hn Hnd]. cbn [links length].
  rewrite map_size_insert_None by by apply links_lookup. by rewrite IH.
Qed.

(** the loop of release_zipfile *)
Lemma free_entries_run E l : ∀ n w, owns E l w → (length l ≤ n)%nat →
  ∃ w', free_entries n (head_of l) w = Ok tt w' ∧ zw_entries w' = E ∧ zw_files w' = zw_files w
    ∧ zw_kern w' = zw_kern w.
Proof.
  induction l as [|[a e] l IH]; intros n w Ho Hn.
  { exists w. split_and!; [by destruct n| |done|done].
    rewrite (ow_entries _ _ _ Ho). apply (map_empty_union E). }
  destruct n as [|n]; [cbn in Hn; lia|]. destruct Ho as [He Hnd Hlive Hfr H0].
  cbn [fmap list_fmap fst] in Hnd, Hlive. apply list.NoDup_cons in Hnd as [Hna Hnd].
  destruct (Hlive a) as [Ha HE]; [apply list_elem_of_here|]. cbn [head_of free_entries].
  rewrite (proj2 (Z.eqb_neq a 0)) by lia.
  rewrite (bind_ok _ _ w (e, head_of l) w).
  2:{ unfold deref. rewrite He. cbn [links]. by rewrite (lookup_union_Some_l _ _ _ (e, head_of l)) by apply lookup_insert_eq. }
  destruct (IH n (ze (delete a) w)) as (w' & Hrun & HE' & Hf & Hk).
  - split; [|done| |done|done].
    + cbn. rewrite He. cbn [links]. rewrite delete_union, delete_insert_id by by apply links_lookup.
      by rewrite delete_id.
    + intros b Hb. apply Hlive. by apply list_elem_of_further.
  - cbn in Hn. lia.
  - exists w'. split_and!; [|done..]. exact Hrun.
Qed.

(** ** The parser on the heap refines the one on sequences *)

Definition without_entries (file : Zipfile) : Zipfile :=
  mkZip (z_buf file) (disknum file) (diskWithCentralDir file) (entryCount file) (totalEntryCount file)
    (centralDirSize file) (centralDirOffest file) (commentLen file) (z_comment file) [].

Lemma zmalloc_run w k : malloc_ok (zw_kern w) = Ok true k →
  zmalloc w = Ok (Some (zw_next w)) (mkZw k (zw_entries w) (zw_files w) (zw_next w + 16)).
Proof. intros Hm. unfold zmalloc, ZK, bind, zoom. by rewrite Hm. Qed.
Lemma malloc_ok_total k : ∃ b k', malloc_ok k = Ok b k'.
Proof. unfold malloc_ok. destruct (k_oom k); eauto. Qed.

(** an entry is added in front *)
Lemma owns_push E l w e k :
  owns E l w → let a := zw_next w in
  owns E ((a, e) :: l) (mkZw k (<[a := (e, head_of l)]> (zw_entries w)) (zw_files w) (a + 16)).
Proof.
  intros [He Hnd Hlive Hfr H0] a. split; cbn [zw_entries zw_next fmap list_fmap fst].
  - rewrite He. cbn [links]. by rewrite insert_union_l.
  - apply list.NoDup_cons. split; [|done]. intros Hin. destruct (Hlive a Hin). subst a. lia.
  - intros b [->|Hb]%elem_of_cons.
    + split; [subst a; lia|]. apply Hfr. subst a. lia.
    + destruct (Hlive b Hb). split; [|done]. subst a. lia.
  - intros b Hb. apply Hfr. subst a. lia.
  - subst a. lia.
Qed.

(** how an outcome of the loop shows on the heap *)
Definition loop_result (E : gmap Z (Zipentry * Z)) (f : Z) (r : res kern (option Zipfile)) (w : zworld)
    (r' : res zworld bool) : Prop :=
  match r with
  | Ok (Some file) k => ∃ w' l, r' = Ok true w' ∧ zw_kern w' = k ∧ owns E l w' ∧ l.*2 = entries file
      ∧ zw_files w' = <[f := (without_entries file, head_of l)]> (zw_files w)
  | Ok None k => ∃ w' l x, r' = Ok false w' ∧ zw_kern w' = k ∧ owns E l w'
      ∧ zw_files w' = <[f := x]> (zw_files w)
  | Exit c k => ∃ w', r' = Exit c w' ∧ zw_kern w' = k
  | Fault x k => ∃ w', r' = Fault x w' ∧ zw_kern w' = k
  end.

Lemma loop_result_files E f r w w2 y r' : zw_files w2 = <[f := y]> (zw_files w) →
  loop_result E f r w2 r' → loop_result E f r w r'.
Proof.
  intros Hw. unfold loop_result. destruct r as [[file|] k|c k|x k]; [| |done..].
  - intros (w' & l & ? & ? & ? & ? & Hf). exists w', l. rewrite Hw, insert_insert_eq in Hf. done.
  - intros (w' & l & z & ? & ? & ? & Hf). exists w', l, z. rewrite Hw, insert_insert_eq in Hf. done.
Qed.

(** a step of the parser is the same on both sides *)
Lemma lockstep E f {A} (m : M kern A) (g : A → M kern (option Zipfile)) (h : A → M zworld bool) w w0 :
  (∀ a k, m (zw_kern w) = Ok a k → loop_result E f (g a k) w0 (h a (zk k w))) →
  loop_result E f ((do x <- m; g x) (zw_kern w)) w0 ((do x <- ZK m; h x) w).
Proof.
  intros Hstep. unfold bind, ZK, zoom. destruct (m (zw_kern w)) as [a k|c k|x k]; [auto|by eexists..].
Qed.
Lemma zk_id w : zk (zw_kern w) w = w.
Proof. by destruct w. Qed.

Lemma heap_read_entries_refines E f n : ∀ file p len l w,
  owns E l w → l.*2 = entries file → zw_files w !! f = Some (without_entries file, head_of l) →
  loop_result E f (read_entries n file p len (zw_kern w)) w (heap_read_entries n f p len w).
Proof.
  induction n as [|n IH]; intros file p len l w Ho Hl Hf; cbn [read_entries heap_read_entries].
  { exists w, l. split_and!; [done..|]. by rewrite insert_id. }
  destruct (malloc_ok_total (zw_kern w)) as (b & k1 & Hm). rewrite (bind_ok _ _ _ _ _ Hm).
  destruct b; cbn [negb].
  2:{ assert (Hz : zmalloc w = Ok None (zk k1 w)) by (unfold zmalloc, ZK, bind, zoom; by rewrite Hm).
      rewrite (bind_ok _ _ _ _ _ Hz). by eexists. }
  rewrite (bind_ok _ _ _ _ _ (zmalloc_run w k1 Hm)). set (a := zw_next w).
  set (w1 := mkZw k1 (<[a := (empty_entry, 0)]> (zw_entries w)) (zw_files w) (a + 16)).
  rewrite (bind_ok _ _ _ tt w1) by done.
  rewrite (bind_ok _ _ w1 (without_entries file, head_of l) w1) by (unfold file_at, deref; cbn; by rewrite Hf).
  change (read_central_directory_entry (without_entries file)) with (read_central_directory_entry file).
  apply (lockstep E f (read_central_directory_entry file p len) _ _ w1 w). intros [[e p']|] k2 _.
  - rewrite (bind_ok _ _ (zk k2 w1) (without_entries file, head_of l) (zk k2 w1))
      by (unfold file_at, deref; cbn; by rewrite Hf).
    set (w2 := mkZw k2 (<[a := (e, head_of l)]> (zw_entries w)) (<[f := (without_entries file, a)]> (zw_files w)) (a + 16)).
    rewrite (bind_ok _ _ _ tt (ze <[a := (e, head_of l)]> (zk k2 w1))) by done.
    rewrite (bind_ok _ _ _ tt w2) by (unfold modify, ze, zf; cbn; by rewrite insert_insert_eq).
    set (file' := mkZip _ _ _ _ _ _ _ _ _ (e :: entries file)).
    assert (Ho2 : owns E ((a, e) :: l) w2) by (destruct (owns_push E l w e k2 Ho); by split).
    apply (loop_result_files E f _ w w2 (without_entries file, a)); [done|].
    apply (IH file' p' len ((a, e) :: l) w2 Ho2); [cbn; by rewrite Hl|apply lookup_insert_eq].
  - cbn [loop_result]. eexists _, l, (without_entries file, head_of l). split_and!; [done..| |by rewrite insert_id].
    destruct Ho as [He Hnd Hlive Hfr H0]. split; cbn [zw_entries zw_next ze zk w1]; try done.
    + rewrite delete_insert_id; [done|]. apply (owns_lookup E l w); [by split| |].
      * apply Hfr. subst a. lia.
      * intros Hin. destruct (Hlive a Hin). subst a. lia.
    + intros b Hb. destruct (Hlive b Hb). split; [|done]. subst a. lia.
    + intros b Hb. apply Hfr. subst a. lia.
    + subst a. lia.
Qed.

Lemma values_entries file eocd len k file' k' :
  read_central_dir_values file eocd len k = Ok (Some file') k' → entries file' = entries file.
Proof.
  unfold read_central_dir_values, bind. repeat (case_match; try done); intros [= <- _]; done.
Qed.
Lemma without_entries_id file : entries file = [] → without_entries file = file.
Proof. destruct file. cbn. by intros ->. Qed.

Lemma heap_read_central_dir_refines E f file w : owns E [] w → entries file = [] →
  zw_files w !! f = Some (file, 0) →
  loop_result E f (read_central_dir file (zw_kern w)) w (heap_read_central_dir f w).
Proof.
  intros Ho Hnil Hf. unfold read_central_dir, heap_read_central_dir.
  rewrite (bind_ok _ _ w (file, 0) w) by (unfold file_at, deref; by rewrite Hf).
  assert (Hfail : ∀ k, loop_result E f (Ok None k) w (Ok false (zk k w))).
  { intros k. exists (zk k w), [], (file, 0). split_and!; [done..| |by rewrite insert_id].
    destruct Ho; by split. }
  destruct (bufsize file <? EOCD_LEN); [pose proof (Hfail (zw_kern w)) as Hn; by rewrite zk_id in Hn|].
  set (start := if _ : bool then _ else _).
  apply lockstep. intros [eocd|] k1 _; [|exact (Hfail k1)].
  apply (lockstep E f (read_central_dir_values file eocd (bufsize file - eocd)) _ _ (zk k1 w) w).
  intros [file'|] k2 E2; [|exact (Hfail k2)].
  pose proof (values_entries _ _ _ _ _ _ E2) as Hnil'. rewrite Hnil in Hnil'.
  set (w1 := zf <[f := (file', 0)]> (zk k2 w)).
  rewrite (bind_ok _ _ _ tt w1) by done. assert (Ho1 : owns E [] w1) by (destruct Ho; by split).
  destruct (_ || _).
  - exists w1, [], (file', 0). by split_and!.
  - apply (loop_result_files E f _ w w1 (file', 0)); [done|].
    apply (heap_read_entries_refines E f _ file' _ _ [] w1 Ho1); [by rewrite Hnil'|].
    rewrite without_entries_id by done. apply lookup_insert_eq.
Qed.

(** no object lies where the next ones will *)
Record zheap_ok (w : zworld) : Prop := {
  zo_entries a : zw_next w ≤ a → zw_entries w !! a = None;
  zo_files a : zw_next w ≤ a → zw_files w !! a = None;
  zo_next : 0 < zw_next w;
}.

(** the archive [f] of the heap holds [file] *)
Definition holds (w : zworld) (f : Z) (E : gmap Z (Zipentry * Z)) (file : Zipfile) : Prop :=
  ∃ l, owns E l w ∧ l.*2 = entries file ∧ zw_files w !! f = Some (without_entries file, head_of l).

Lemma release_run E f file w : holds w f E file →
  ∃ w', release_zipfile f w = Ok tt w' ∧ zw_entries w' = E ∧ zw_files w' = delete f (zw_files w).
Proof.
  intros (l & Ho & _ & Hf). unfold release_zipfile.
  rewrite (bind_ok _ _ w _ w) by (unfold file_at, deref; by rewrite Hf). cbv beta iota.
  rewrite (bind_ok _ _ w (size (zw_entries w)) w) by done.
  destruct (free_entries_run E l (size (zw_entries w)) w Ho (links_size E l w Ho)) as (w' & Hrun & HE & Hfs & _).
  rewrite (bind_ok _ _ _ _ _ Hrun). eexists. split; [done|]. cbn. by rewrite Hfs.
Qed.

(** The memory of an archive.  On the heap init_zipfile does what the parser
    on sequences does.  When it succeeds the archive on the heap holds the
    entries the parser returns, in the same order, and release_zipfile frees
    the file and exactly these entries, each once.  When the archive is refused
    the file is freed. *)
Theorem zip_memory data w : zheap_ok w →
  match init_zipfile data (zw_kern w) with
  | Ok (Some file) k => ∃ f w1 w2, heap_init_zipfile data w = Ok f w1 ∧ f ≠ 0 ∧ zw_kern w1 = k
      ∧ holds w1 f (zw_entries w) file ∧ release_zipfile f w1 = Ok tt w2
      ∧ zw_entries w2 = zw_entries w ∧ zw_files w2 = zw_files w
  | Ok None k => ∃ w1 l, heap_init_zipfile data w = Ok 0 w1 ∧ zw_kern w1 = k
      ∧ owns (zw_entries w) l w1 ∧ zw_files w1 = zw_files w
  | Exit c k => ∃ w1, heap_init_zipfile data w = Exit c w1 ∧ zw_kern w1 = k
  | Fault x k => ∃ w1, heap_init_zipfile data w = Fault x w1 ∧ zw_kern w1 = k
  end.
Proof.
  intros [He Hfi H0]. unfold init_zipfile, heap_init_zipfile.
  destruct (malloc_ok_total (zw_kern w)) as (b & k1 & Hm). rewrite (bind_ok _ _ _ _ _ Hm).
  destruct b; cbn [negb].
  2:{ assert (Hz : zmalloc w = Ok None (zk k1 w)) by (unfold zmalloc, ZK, bind, zoom; by rewrite Hm).
      rewrite (bind_ok _ _ _ _ _ Hz). exists (zk k1 w), []. split_and!; [done..| |done].
      split; [symmetry; apply map_empty_union|apply NoDup_nil_2|by intros a ?%elem_of_nil|exact He|done]. }
  rewrite (bind_ok _ _ _ _ _ (zmalloc_run w k1 Hm)). set (f := zw_next w).
  set (file0 := mkZip data 0 0 0 0 0 0 0 None []).
  set (w1 := mkZw k1 (zw_entries w) (<[f := (file0, 0)]> (zw_files w)) (f + 16)).
  rewrite (bind_ok _ _ _ tt w1) by done.
  assert (Ho : owns (zw_entries w) [] w1).
  { split; [symmetry; apply map_empty_union|apply NoDup_nil_2|by intros a ?%elem_of_nil| |subst f; cbn; lia].
    intros a Ha. apply He. subst f. cbn in Ha. lia. }
  assert (Hdel : delete f (zw_files w1) = zw_files w) by (apply delete_insert_id, Hfi; subst f; lia).
  pose proof (heap_read_central_dir_refines _ f file0 w1 Ho eq_refl (lookup_insert_eq _ _ _)) as Hr.
  change (zw_kern w1) with k1 in Hr. unfold loop_result in Hr.
  destruct (read_central_dir file0 k1) as [[file|] k2|c k2|x k2].
  - destruct Hr as (w2 & l & Hrun & Hk & Ho2 & Hl & Hf2). run Hrun.
    assert (Hh : holds w2 f (zw_entries w) file).
    { exists l. split_and!; [done..|]. rewrite Hf2. apply lookup_insert_eq. }
    destruct (release_run _ f file w2 Hh) as (w3 & Hrel & HE & Hfs).
    exists f, w2, w3. split_and!; [done|subst f; lia|done..|].
    by rewrite Hfs, Hf2, delete_insert_eq, Hdel.
  - destruct Hr as (w2 & l & y & Hrun & Hk & Ho2 & Hf2). run Hrun.
    exists (zf (delete f) w2), l. split_and!; [done..| |cbn; by rewrite Hf2, delete_insert_eq].
    destruct Ho2. by split.
  - destruct Hr as (w2 & Hrun & Hk). exists w2. unfold bind. by rewrite Hrun.
  - destruct Hr as (w2 & Hrun & Hk). exists w2. unfold bind. by rewrite Hrun.
Qed.

(** ** Examples *)

Definition zworld0 : zworld := mkZw kern0 ∅ ∅ 16.
Lemma zworld0_ok : zheap_ok zworld0.
Proof. split; [intros; apply lookup_empty..|done]. Qed.

Lemma zip_memory_witness : ∃ f w1 w2, heap_init_zipfile (archive ex_items [33]) zworld0 = Ok f w1 ∧ f ≠ 0
  ∧ size (zw_entries w1) = 2%nat ∧ release_zipfile f w1 = Ok tt w2 ∧ zw_entries w2 = ∅.
Proof.
  pose proof (zip_memory (archive ex_items [33]) zworld0 zworld0_ok) as Hz.
  destruct (init_zipfile (archive ex_items [33]) (zw_kern zworld0)) as [[file|] k|c k|x k] eqn:Ei;
    vm_compute in Ei; try discriminate.
  destruct Hz as (f & w1 & w2 & Hrun & Hf & _ & _ & Hrel & He & _).
  exists f, w1, w2. split; [exact Hrun|]. split; [exact Hf|]. split; [|split; [exact Hrel|exact He]].
  assert (Hs : size (zw_entries (final (heap_init_zipfile (archive ex_items [33]) zworld0))) = 2%nat)
    by (vm_compute; reflexivity).
  rewrite Hrun in Hs. exact Hs.
Defined.

(** A refused archive leaves memory behind: init_zipfile frees the file, but not
    the entries that were read before the one that failed.  Here the directory
    announces two entries and has one. *)
Theorem refused_archive_leaks :
  ∃ w1, heap_init_zipfile cut_archive zworld0 = Ok 0 w1 ∧ zw_files w1 = ∅ ∧ size (zw_entries w1) = 1%nat.
Proof. eexists. split; [vm_compute; reflexivity|]. split; vm_compute; reflexivity. Qed.
