(* ===== verification/Utils.v ===== *)
(** * Utilities: utils.c, load_file.c, abort_socket.c

    Appending to a bounded buffer, reading a whole file, and sockets whose
    blocking calls can be interrupted from another thread. *)

From S2P Require Import Prelude Kernel.

(** ** utils.c

    The state is the array; a pointer into it is an index. *)

Definition store (i v : Z) : M (list Z) unit := λ m,
  if decide (0 ≤ i < Z.of_nat (length m)) then Ok tt (<[Z.to_nat i := v]> m) else Fault OutOfBounds m.
Fixpoint copy_in (i : Z) (bs : list Z) : M (list Z) unit :=
  match bs with
  | [] => ret tt
  | b :: bs' => store i b;;; copy_in (i + 1) bs'
  end.

Definition buff_addc (buff buffEnd c : Z) : M (list Z) Z :=
  let avail := s32 (buffEnd - buff) in
  if avail <=? 0 then ret buff
  else if avail =? 1 then store buff 0;;; ret (buff + 1)
  else store buff (u8 c);;; store (buff + 1) 0;;; ret (buff + 1).

(** memcpy of [len] bytes of [data] *)
Definition buff_addb (buff buffEnd : Z) (data : list Z) (len : Z) : M (list Z) Z :=
  let avail := s32 (buffEnd - buff) in
  if (avail <=? 0) || (len <=? 0) then ret buff
  else
    let len := if avail <? len then avail else len in
    if decide (length data < Z.to_nat len)%nat then fail OutOfBounds
    else
      copy_in buff (take (Z.to_nat len) data);;;
      let buff := buff + len in
      (if buffEnd <=? buff then store (buff - 1) 0 else store buff 0);;;
      ret buff.

Definition buff_adds (buff buffEnd : Z) (s : list Z) : M (list Z) Z :=
  buff_addb buff buffEnd s (s32 (Z.of_nat (length s))).

(** vsnprintf: the text without truncation, None when it returns -1 *)
Definition buff_add (buff buffEnd : Z) (text : option (list Z)) : M (list Z) Z :=
  let avail := s32 (buffEnd - buff) in
  if avail <=? 0 then ret buff
  else
    match text with
    | None => ret tt
    | Some t => copy_in buff (take (Z.to_nat avail - 1) t ++ [0])
    end;;;
    let nn := match text with None => -1 | Some t => s32 (Z.of_nat (length t)) end in
    let nn := if nn <? 0 then avail else if avail <? nn then avail else nn in
    let buff := buff + nn in
    (if buffEnd <=? buff then store (buff - 1) 0 else store buff 0);;;
    ret buff.

(** ** load_file.c *)

(** the data with its final zero; None for NULL *)
Definition load_file (fn : list Z) : M kern (option (list Z)) :=
  do fd <- sys_ "open" [AS fn];
  if fd <? 0 then ret None
  else
    do sz <- sys_ "lseek" [AZ fd; AZ 0; AS (str "SEEK_END")];
    if sz <? 0 then adb_close fd;;; ret None
    else
      do r <- sys_ "lseek" [AZ fd; AZ 0; AS (str "SEEK_SET")];
      if negb (r =? 0) then adb_close fd;;; ret None
      else
        do ok <- malloc_ok;
        if negb ok then adb_close fd;;; ret None
        else
          do '(r, data) <- sys "read" [AZ fd; AZ sz];
          if negb (r =? sz) then adb_close fd;;; ret None
          else adb_close fd;;; ret (Some (take (Z.to_nat sz) data ++ [0])).

(** ** abort_socket.c *)

Record asocket := mkASock { as_fd : Z; abort_fd0 : Z; abort_fd1 : Z }.

Definition ETIMEDOUT : Z := 110.
Definition ECONNABORTED : Z := 103.
Definition ECANCELED : Z := 125.
Definition EINPROGRESS : Z := 115.
Definition POLLIN : Z := 1.
Definition POLLOUT : Z := 4.
Definition O_NONBLOCK : Z := 0x800.

(** do { ret = call } while(ret < 0 && errno == EINTR): every round takes an
    answer of the script, and without answers the call fails with ENOSYS *)
Fixpoint retry (fuel : nat) (name : string) (args : list sysarg) : M kern (Z * list Z) :=
  match fuel with
  | O => fail OutOfFuel
  | S fuel' =>
      do '(r, out) <- sys name args;
      do e <- gets k_errno;
      if (r <? 0) && (e =? EINTR) then retry fuel' name args else ret (r, out)
  end.
Definition retried (name : string) (args : list sysarg) : M kern (Z * list Z) :=
  do n <- gets (λ k, length (k_sys k)); retry (S n) name args.

Definition set_nonblocking (fd : Z) : M kern bool :=
  do flags <- sys_ "fcntl:F_GETFL" [AZ fd];
  if flags =? -1 then ret false
  else do r <- sys_ "fcntl:F_SETFL" [AZ fd; AZ (Z.lor flags O_NONBLOCK)]; ret (r =? 0).

Definition asocket_init (fd : Z) : M kern (option asocket) :=
  do ok <- set_nonblocking fd;
  if negb ok then ret None
  else
    do '(r, p) <- sys "pipe" [];
    if negb (r =? 0) then ret None
    else
      let a0 := default 0 (p !! 0%nat) in
      let a1 := default 0 (p !! 1%nat) in
      do ok <- set_nonblocking a1;
      if negb ok then ret None
      else
        do ok <- malloc_ok;
        ret (if ok then Some (mkASock fd a0 a1) else None).

(** connect(), then getsockopt(SO_ERROR) once the socket is writable *)
Definition asocket_connect (s : asocket) (addr : list Z) (timeout : Z) : M kern Z :=
  do '(r, _) <- retried "connect" [AZ (as_fd s); AS addr];
  do e <- gets k_errno;
  if negb (r =? 0) && (e =? EINPROGRESS) then
    do '(pr, re) <- retried "poll" [AZ (as_fd s); AZ POLLOUT; AZ (abort_fd0 s); AZ POLLIN; AZ timeout];
    if pr <? 0 then ret (-1)
    else if pr =? 0 then modify (set_errno ETIMEDOUT);;; ret (-1)
    else if negb (default 0 (re !! 1%nat) =? 0) then modify (set_errno ECANCELED);;; ret (-1)
    else if negb (default 0 (re !! 0%nat) =? 0) then
      if negb (Z.land (default 0 (re !! 0%nat)) POLLOUT =? 0) then
        do '(g, v) <- sys "getsockopt:SO_ERROR" [AZ (as_fd s)];
        if negb (g =? 0) then ret (-1)
        else
          let err := default 0 (v !! 0%nat) in
          when (negb (err =? 0)) (modify (set_errno err));;;
          ret err
      else modify (set_errno ECONNABORTED);;; ret (-1)
    else ret pr
  else ret r.

(** revents 0 with a positive result of poll cannot be: the result of poll is
    returned then *)
Definition asocket_io (s : asocket) (ev timeout : Z) (io : M kern Z) : M kern Z :=
  do '(pr, re) <- retried "poll" [AZ (as_fd s); AZ ev; AZ (abort_fd0 s); AZ POLLIN; AZ timeout];
  if pr <? 0 then ret (-1)
  else if pr =? 0 then modify (set_errno ETIMEDOUT);;; ret (-1)
  else if negb (default 0 (re !! 1%nat) =? 0) then modify (set_errno ECANCELED);;; ret (-1)
  else if negb (default 0 (re !! 0%nat) =? 0) then
    if negb (Z.land (default 0 (re !! 0%nat)) ev =? 0) then io
    else modify (set_errno ECONNABORTED);;; ret (-1)
  else ret pr.
Definition asocket_accept (s : asocket) (timeout : Z) : M kern Z :=
  asocket_io s POLLIN timeout (do '(r, _) <- retried "accept" [AZ (as_fd s)]; ret r).
Definition asocket_read (s : asocket) (count timeout : Z) : M kern Z :=
  asocket_io s POLLIN timeout (do '(r, _) <- retried "read" [AZ (as_fd s); AZ count]; ret r).
Definition asocket_write (s : asocket) (buf : list Z) (timeout : Z) : M kern Z :=
  asocket_io s POLLOUT timeout (do '(r, _) <- retried "write" [AZ (as_fd s); AS buf]; ret r).

Definition asocket_abort (s : asocket) : M kern unit :=
  note "shutdown" [AZ (as_fd s)];;;
  do _ <- retried "write" [AZ (abort_fd1 s); AS [0]]; ret tt.

Definition asocket_destroy (s : asocket) : M kern unit :=
  asocket_abort s;;;
  adb_close (abort_fd1 s);;;
  adb_close (abort_fd0 s);;;
  adb_close (as_fd s).

(** ** Appending *)

(** the text [t] appended at [i] to a buffer that ends before [e]: the new end
    and the new array *)
Definition appended (i e : nat) (t m : list Z) : Z * list Z :=
  let avail := (e - i)%nat in
  let n := Nat.min (length t) (avail - 1) in
  (Z.of_nat (i + Nat.min (length t) avail), take i m ++ (take n t ++ [0]) ++ drop (i + n + 1) m).

Lemma store_run (i : nat) v m : (i < length m)%nat → store (Z.of_nat i) v m = Ok tt (<[i := v]> m).
Proof. intros H. unfold store. rewrite decide_True by lia. by rewrite Nat2Z.id. Qed.
Lemma store_split v (l1 l2 : list Z) x i : i = length l1 →
  store (Z.of_nat i) v (l1 ++ x :: l2) = Ok tt (l1 ++ v :: l2).
Proof.
  intros ->. rewrite store_run by (rewrite length_app; cbn; lia). f_equal.
  by rewrite insert_app_r_alt, Nat.sub_diag by lia.
Qed.
Lemma copy_in_run bs (l1 l2 : list Z) i : i = length l1 → (length bs ≤ length l2)%nat →
  copy_in (Z.of_nat i) bs (l1 ++ l2) = Ok tt (l1 ++ bs ++ drop (length bs) l2).
Proof.
  revert l1 l2 i. induction bs as [|b bs IH]; intros l1 l2 i Hi Hl; [done|].
  destruct l2 as [|x l2]; [cbn in Hl; lia|]. cbn [copy_in length drop] in *.
  run (store_split b l1 l2 x i Hi). replace (Z.of_nat i + 1) with (Z.of_nat (S i)) by lia.
  pose proof (IH (l1 ++ [b]) l2 (S i)) as H. rewrite <- !app_assoc in H. cbn [app] in H. apply H; [|lia].
  rewrite length_app. cbn. lia.
Qed.

(** the final zero, behind the text or over its last byte *)
Lemma terminate_run (l1 t l2 : list Z) i e : i = length l1 → t ≠ [] →
  (i + length t ≤ e)%nat → (e ≤ i + length t + length l2)%nat →
  (if Z.of_nat e <=? Z.of_nat (i + length t) then store (Z.of_nat (i + length t) - 1) 0
   else store (Z.of_nat (i + length t)) 0) (l1 ++ t ++ l2)
  = Ok tt (if decide (e = i + length t)%nat then l1 ++ (take (length t - 1) t ++ [0]) ++ l2
           else l1 ++ (t ++ [0]) ++ drop 1 l2).
Proof.
  intros Hi Ht H1 H2. destruct (Z.leb_spec (Z.of_nat e) (Z.of_nat (i + length t))) as [He|He].
  - rewrite decide_True by lia. destruct t as [|x t] using rev_ind; [done|]. clear IHt. rewrite length_app in *. cbn [length] in *.
    replace (Z.of_nat (i + (length t + 1)) - 1) with (Z.of_nat (i + length t)) by lia.
    rewrite Nat.add_sub, take_app_length. rewrite <- !app_assoc, !(app_assoc l1). apply store_split.
    rewrite length_app. lia.
  - rewrite decide_False by lia. destruct l2 as [|y l2]; [cbn in H2; lia|]. cbn [drop].
    rewrite <- !app_assoc, !(app_assoc l1). apply store_split. rewrite length_app. lia.
Qed.

Lemma s32_small x : - 2 ^ 31 ≤ x < 2 ^ 31 → s32 x = x.
Proof. intros H. unfold s32. rewrite Z.mod_small by lia. lia. Qed.

Section append.
Context (i e : nat) (t m : list Z).
Hypothesis Hie : (i < e)%nat.
Hypothesis Hem : (e ≤ length m)%nat.
Hypothesis Hm : Z.of_nat (length m) < 2 ^ 31.
Hypothesis Ht : Z.of_nat (length t) < 2 ^ 31.

(** copying at most what fits, then the zero *)
Lemma copy_terminate : t ≠ [] → ∀ n, n = Nat.min (length t) (e - i) →
  (copy_in (Z.of_nat i) (take n t);;;
   (if Z.of_nat e <=? Z.of_nat (i + n) then store (Z.of_nat (i + n) - 1) 0 else store (Z.of_nat (i + n)) 0)) m
  = Ok tt (snd (appended i e t m)).
Proof.
  intros Hne n Hn. assert (Hln : length (take n t) = n) by (rewrite length_take; lia).
  assert (Hpos : (0 < length t)%nat) by (destruct (length t) eqn:E; [by apply length_zero_iff_nil in E|lia]).
  assert (Hsplit : m = take i m ++ drop i m) by by rewrite take_drop.
  assert (Hc : copy_in (Z.of_nat i) (take n t) m = Ok tt (take i m ++ take n t ++ drop n (drop i m))).
  { rewrite Hsplit at 1. rewrite copy_in_run; [by rewrite Hln|rewrite length_take; lia|rewrite Hln, length_drop; lia]. }
  run Hc. pose proof (terminate_run (take i m) (take n t) (drop n (drop i m)) i e) as HT. rewrite Hln in HT.
  rewrite HT; [|rewrite length_take; lia|intros E; rewrite E in Hln; cbn in Hln; lia|lia
    |rewrite !length_drop; lia].
  unfold appended. cbn [snd]. rewrite !drop_drop. case_decide as He; f_equal; f_equal.
  - rewrite take_take, Nat.min_l by lia. replace (Nat.min (length t) (e - i - 1)) with (n - 1)%nat by lia.
    f_equal. f_equal. lia.
  - replace (Nat.min (length t) (e - i - 1)) with n by lia. do 2 f_equal.
Qed.

Lemma addb_run data : t ≠ [] →
  buff_addb (Z.of_nat i) (Z.of_nat e) (t ++ data) (Z.of_nat (length t)) m
  = Ok (fst (appended i e t m)) (snd (appended i e t m)).
Proof.
  intros Hne. unfold buff_addb. rewrite s32_small by lia.
  assert (0 < length t)%nat by (destruct (length t) eqn:E; [by apply length_zero_iff_nil in E|lia]).
  rewrite (proj2 (Z.leb_gt _ 0)), (proj2 (Z.leb_gt (Z.of_nat (length t)) 0)) by lia. cbn [orb].
  set (n := Nat.min (length t) (e - i)).
  replace (if _ <? _ then _ else _) with (Z.of_nat n) by (unfold n; case_match; lia).
  rewrite Nat2Z.id, decide_False by (rewrite length_app; unfold n; lia). rewrite take_app_le by (unfold n; lia).
  rewrite <- Nat2Z.inj_add. pose proof (copy_terminate Hne n eq_refl) as Hc.
  unfold bind in Hc |- *. destruct (copy_in _ _ m) as [[] m1| |]; [|done..]. by rewrite Hc.
Qed.

Lemma add_run : buff_add (Z.of_nat i) (Z.of_nat e) (Some t) m
  = Ok (fst (appended i e t m)) (snd (appended i e t m)).
Proof.
  unfold buff_add. rewrite !s32_small by lia. rewrite (proj2 (Z.leb_gt _ 0)) by lia. cbv zeta.
  set (n := Nat.min (length t) (e - i)). set (k := Nat.min (length t) (e - i - 1)).
  replace (if _ <? 0 then _ else _) with (Z.of_nat n)
    by (rewrite (proj2 (Z.ltb_ge _ 0)) by lia; unfold n; case_match; lia).
  rewrite <- Nat2Z.inj_add. replace (Z.to_nat (Z.of_nat e - Z.of_nat i) - 1)%nat with (e - i - 1)%nat by lia.
  replace (take (e - i - 1) t) with (take k t) by (unfold k; destruct (decide (length t ≤ e - i - 1)%nat);
    [rewrite Nat.min_l, !take_ge by lia|rewrite Nat.min_r by lia]; done).
  assert (Hlk : length (take k t) = k) by (rewrite length_take; unfold k; lia).
  assert (Hc : copy_in (Z.of_nat i) (take k t ++ [0]) m = Ok tt (take i m ++ (take k t ++ [0]) ++ drop (i + k + 1) m)).
  { rewrite <- (take_drop i m) at 1. rewrite copy_in_run.
    - rewrite length_app, Hlk, drop_drop. cbn [length]. do 4 f_equal. lia.
    - rewrite length_take. lia.
    - rewrite length_app, Hlk, length_drop. cbn [length]. unfold k. lia. }
  run Hc. unfold appended. fold n k. cbn [fst snd]. set (m1 := take i m ++ _).
  assert (Hs : (if Z.of_nat e <=? Z.of_nat (i + n) then store (Z.of_nat (i + n) - 1) 0 else store (Z.of_nat (i + n)) 0) m1
    = Ok tt m1).
  { replace (if _ <=? _ then _ else _) with (store (Z.of_nat (i + k)) 0).
    - unfold m1. rewrite <- !app_assoc, (app_assoc (take i m)). apply store_split. rewrite length_app, length_take, Hlk. lia.
    - destruct (Z.leb_spec (Z.of_nat e) (Z.of_nat (i + n))); f_equal; unfold n, k in *; lia. }
  by run Hs.
Qed.
End append.

(** Appending to a bounded buffer: however a text is appended (as a character,
    a string, bytes or by a format), it is cut to the room that is left with its
    final zero, the bytes before and behind it stay, and the cursor stops at the
    end of the buffer; a full buffer is left alone. *)
Theorem buff_append (i e : nat) (t m : list Z) :
  (i < e)%nat → (e ≤ length m)%nat → Z.of_nat (length m) < 2 ^ 31 → Z.of_nat (length t) < 2 ^ 31 →
  let r := Ok (fst (appended i e t m)) (snd (appended i e t m)) in
  (t ≠ [] → buff_adds (Z.of_nat i) (Z.of_nat e) t m = r
    ∧ ∀ data, buff_addb (Z.of_nat i) (Z.of_nat e) (t ++ data) (Z.of_nat (length t)) m = r)
  ∧ (∀ c, t = [u8 c] → buff_addc (Z.of_nat i) (Z.of_nat e) c m = r)
  ∧ buff_add (Z.of_nat i) (Z.of_nat e) (Some t) m = r
  ∧ (∀ c text data len, buff_addc (Z.of_nat e) (Z.of_nat e) c m = Ok (Z.of_nat e) m
      ∧ buff_add (Z.of_nat e) (Z.of_nat e) text m = Ok (Z.of_nat e) m
      ∧ buff_addb (Z.of_nat e) (Z.of_nat e) data len m = Ok (Z.of_nat e) m).
Proof.
  intros Hie Hem Hm Ht r. split_and!.
  - intros Hne. split; [|intros data; by apply addb_run]. unfold buff_adds. rewrite s32_small by lia.
    pose proof (addb_run i e t m Hie Hem Hm Ht [] Hne) as H. by rewrite app_nil_r in H.
  - intros c ->. pose proof (addb_run i e [u8 c] m Hie Hem Hm Ht [] ltac:(done)) as H.
    unfold buff_addc. unfold r. rewrite <- H. unfold buff_addb. rewrite s32_small by lia.
    rewrite !(proj2 (Z.leb_gt _ 0)) by (cbn; lia). cbn [orb length app]. change (Z.of_nat 1) with 1.
    rewrite (proj2 (Z.ltb_ge _ 1)) by lia. change (Z.to_nat 1) with 1%nat.
    rewrite decide_False by (cbn; lia). cbn [take copy_in].
    assert (Hs : (store (Z.of_nat i) (u8 c);;; ret tt) m = Ok tt (<[i := u8 c]> m)) by (by run (store_run i (u8 c) m ltac:(lia))).
    rewrite (bind_ok _ _ _ _ _ Hs). destruct (Z.eqb_spec (Z.of_nat e - Z.of_nat i) 1) as [H1|H1].
    + rewrite (proj2 (Z.leb_le _ (Z.of_nat i + 1))) by lia. rewrite Z.add_simpl_r.
      run (store_run i 0 m ltac:(lia)). run (store_run i 0 (<[i := u8 c]> m) ltac:(rewrite length_insert; lia)).
      by rewrite list_insert_insert_eq.
    + rewrite (proj2 (Z.leb_gt _ (Z.of_nat i + 1))) by lia. by run (store_run i (u8 c) m ltac:(lia)).
  - by apply add_run.
  - intros c text data len. unfold buff_addc, buff_add, buff_addb. rewrite Z.sub_diag. by change (s32 0) with 0.
Qed.

Lemma buff_append_witness :
  buff_adds 1 4 [7; 8; 9; 10] [1; 2; 3; 4; 5; 6]
  = Ok (fst (appended 1 4 [7; 8; 9; 10] [1; 2; 3; 4; 5; 6])) (snd (appended 1 4 [7; 8; 9; 10] [1; 2; 3; 4; 5; 6])).
Proof.
  apply (proj1 (buff_append 1 4 [7; 8; 9; 10] [1; 2; 3; 4; 5; 6] ltac:(lia) ltac:(cbn; lia) ltac:(cbn; lia) ltac:(cbn; lia))).
  discriminate.
Defined.

(** ** Interrupted calls *)

Definition interrupted (r : sysres) : Prop := sr_ret r < 0 ∧ sr_errno r = EINTR.

Lemma retry_run name args pre r post : Forall interrupted pre → 0 ≤ sr_ret r → ∀ fuel k,
  k_sys k = pre ++ r :: post → (length pre < fuel)%nat →
  ∃ k', retry fuel name args k = Ok (sr_ret r, sr_out r) k' ∧ k_sys k' = post.
Proof.
  intros Hpre Hr. induction Hpre as [|x pre [Hx1 Hx2] _ IH]; intros [|fuel] k Hk Hf; cbn [length] in Hf; try lia; cbn [retry app] in *.
  - assert (E : ∃ k1, sys name args k = Ok (sr_ret r, sr_out r) k1 ∧ k_sys k1 = post).
    { unfold sys. rewrite Hk. eexists. split; [reflexivity|]. by case_match. }
    destruct E as (k1 & E & S1). exists k1. split; [|done]. run E.
    rewrite (bind_ok (gets k_errno) _ k1 _ k1) by done. by rewrite (proj2 (Z.ltb_ge _ 0)).
  - assert (E : ∃ k1, sys name args k = Ok (sr_ret x, sr_out x) k1 ∧ k_sys k1 = pre ++ r :: post ∧ k_errno k1 = EINTR).
    { unfold sys. rewrite Hk. eexists. split; [reflexivity|]. by rewrite (proj2 (Z.ltb_lt _ 0)). }
    destruct E as (k1 & E & S1 & He). run E. rewrite (bind_ok (gets k_errno) _ k1 _ k1) by done.
    rewrite (proj2 (Z.ltb_lt _ 0)), He by done. apply IH; [done|lia].
Qed.

(** A call on a socket that was aborted: however often the wait is interrupted,
    the call fails with ECANCELED and does not touch the socket. *)
Theorem asocket_cancelled s ev timeout io pre pr er rv0 rv1 post k :
  k_sys k = pre ++ SysRes pr er [rv0; rv1] :: post → Forall interrupted pre → 0 < pr → rv1 ≠ 0 →
  ∃ k', asocket_io s ev timeout io k = Ok (-1) k' ∧ k_errno k' = ECANCELED ∧ k_sys k' = post.
Proof.
  intros Hk Hpre Hpr Hrv. unfold asocket_io, retried.
  set (args := [AZ (as_fd s); _; _; _; _]).
  destruct (retry_run "poll" args pre (SysRes pr er [rv0; rv1]) post Hpre ltac:(cbn; lia) (S (length (k_sys k))) k Hk)
    as (k1 & E & S1).
  { rewrite Hk, length_app. cbn. lia. }
  assert (Er : (do n <- gets (λ k, length (k_sys k)); retry (S n) "poll" args) k = Ok (pr, [rv0; rv1]) k1) by exact E.
  run Er. rewrite (proj2 (Z.ltb_ge pr 0)), (proj2 (Z.eqb_neq pr 0)) by lia.
  change (default 0 ([rv0; rv1] !! 1%nat)) with rv1. rewrite (proj2 (Z.eqb_neq rv1 0)) by done. by eexists.
Qed.
