(* ===== verification/FsConfig.v ===== *)
(** * Users, groups and file modes (adbd/include/android_filesystem_config.h)

    The user and group numbers of the platform, their names, and the rules
    fs_config uses to find the owner and the mode of a path.  The daemon drops
    its privileges to AID_SHELL; fs_config is a static inline function of the
    header.

    Theorems: fs_config stays inside of its table and applies the first rule
    that matches; numbers and names correspond one to one; four rules can never
    apply because an earlier one covers them. *)

From S2P Require Import Prelude Kernel.

Definition AID_ROOT : Z := 0.
Definition AID_SYSTEM : Z := 1000.
Definition AID_RADIO : Z := 1001.
Definition AID_BLUETOOTH : Z := 1002.
Definition AID_GRAPHICS : Z := 1003.
Definition AID_INPUT : Z := 1004.
Definition AID_AUDIO : Z := 1005.
Definition AID_CAMERA : Z := 1006.
Definition AID_LOG : Z := 1007.
Definition AID_COMPASS : Z := 1008.
Definition AID_MOUNT : Z := 1009.
Definition AID_WIFI : Z := 1010.
Definition AID_ADB : Z := 1011.
Definition AID_INSTALL : Z := 1012.
Definition AID_MEDIA : Z := 1013.
Definition AID_DHCP : Z := 1014.
Definition AID_SDCARD_RW : Z := 1015.
Definition AID_VPN : Z := 1016.
Definition AID_KEYSTORE : Z := 1017.
Definition AID_USB : Z := 1018.
Definition AID_DRM : Z := 1019.
Definition AID_MDNSR : Z := 1020.
Definition AID_GPS : Z := 1021.
Definition AID_UNUSED1 : Z := 1022.
Definition AID_MEDIA_RW : Z := 1023.
Definition AID_MTP : Z := 1024.
Definition AID_UNUSED2 : Z := 1025.
Definition AID_DRMRPC : Z := 1026.
Definition AID_NFC : Z := 1027.
Definition AID_SDCARD_R : Z := 1028.
Definition AID_SHELL : Z := 32011.
Definition AID_CACHE : Z := 2001.
Definition AID_DIAG : Z := 2002.
Definition AID_NET_BT_ADMIN : Z := 3001.
Definition AID_NET_BT : Z := 3002.
Definition AID_INET : Z := 3003.
Definition AID_NET_RAW : Z := 3004.
Definition AID_NET_ADMIN : Z := 3005.
Definition AID_NET_BW_STATS : Z := 3006.
Definition AID_NET_BW_ACCT : Z := 3007.
Definition AID_NET_BT_STACK : Z := 3008.
Definition AID_QCOM_ONCRPC : Z := 3009.
Definition AID_QCOM_DIAG : Z := 3010.
Definition AID_MOT_OSH : Z := 5000.
Definition AID_MOT_ACCY : Z := 9000.
Definition AID_MOT_PWRIC : Z := 9001.
Definition AID_MOT_USB : Z := 9002.
Definition AID_MOT_DRM : Z := 9003.
Definition AID_MOT_TCMD : Z := 9004.
Definition AID_MOT_SEC_RTC : Z := 9005.
Definition AID_MOT_TOMBSTONE : Z := 9006.
Definition AID_MOT_TPAPI : Z := 9007.
Definition AID_MOT_SECCLKD : Z := 9008.
Definition AID_MOT_WHISPER : Z := 9009.
Definition AID_MOT_CAIF : Z := 9010.
Definition AID_MOT_DLNA : Z := 9011.
Definition AID_MISC : Z := 9998.
Definition AID_NOBODY : Z := 9999.
Definition AID_APP : Z := 10000.
Definition AID_ISOLATED_START : Z := 99000.
Definition AID_ISOLATED_END : Z := 99999.
Definition AID_USER : Z := 100000.
Definition AID_SHARED_GID_START : Z := 50000.
Definition AID_SHARED_GID_END : Z := 59999.

Record android_id_info := mkId { id_name : list Z; aid : Z }.

(** the entries under MOTOROLA_UIDS *)
Definition motorola_ids : list android_id_info := [
  mkId (str "mot_osh") AID_MOT_OSH;
  mkId (str "mot_accy") AID_MOT_ACCY;
  mkId (str "mot_pwric") AID_MOT_PWRIC;
  mkId (str "mot_usb") AID_MOT_USB;
  mkId (str "mot_drm") AID_MOT_DRM;
  mkId (str "mot_tcmd") AID_MOT_TCMD;
  mkId (str "mot_sec_rtc") AID_MOT_SEC_RTC;
  mkId (str "mot_tombstone") AID_MOT_TOMBSTONE;
  mkId (str "mot_tpapi") AID_MOT_TPAPI;
  mkId (str "mot_secclkd") AID_MOT_SECCLKD;
  mkId (str "mot_whisper") AID_MOT_WHISPER;
  mkId (str "mot_caif") AID_MOT_CAIF;
  mkId (str "mot_dlna") AID_MOT_DLNA].

Definition android_ids (MOTOROLA_UIDS : bool) : list android_id_info := [
  mkId (str "root") AID_ROOT;
  mkId (str "system") AID_SYSTEM;
  mkId (str "radio") AID_RADIO;
  mkId (str "bluetooth") AID_BLUETOOTH;
  mkId (str "graphics") AID_GRAPHICS;
  mkId (str "input") AID_INPUT;
  mkId (str "audio") AID_AUDIO;
  mkId (str "camera") AID_CAMERA;
  mkId (str "log") AID_LOG;
  mkId (str "compass") AID_COMPASS;
  mkId (str "mount") AID_MOUNT;
  mkId (str "wifi") AID_WIFI;
  mkId (str "dhcp") AID_DHCP;
  mkId (str "adb") AID_ADB;
  mkId (str "install") AID_INSTALL;
  mkId (str "media") AID_MEDIA;
  mkId (str "drm") AID_DRM;
  mkId (str "mdnsr") AID_MDNSR;
  mkId (str "nfc") AID_NFC;
  mkId (str "drmrpc") AID_DRMRPC;
  mkId (str "shell") AID_SHELL;
  mkId (str "cache") AID_CACHE;
  mkId (str "diag") AID_DIAG;
  mkId (str "net_bt_admin") AID_NET_BT_ADMIN;
  mkId (str "net_bt") AID_NET_BT;
  mkId (str "net_bt_stack") AID_NET_BT_STACK;
  mkId (str "sdcard_r") AID_SDCARD_R;
  mkId (str "sdcard_rw") AID_SDCARD_RW;
  mkId (str "media_rw") AID_MEDIA_RW;
  mkId (str "vpn") AID_VPN;
  mkId (str "keystore") AID_KEYSTORE;
  mkId (str "usb") AID_USB;
  mkId (str "mtp") AID_MTP;
  mkId (str "gps") AID_GPS;
  mkId (str "inet") AID_INET;
  mkId (str "net_raw") AID_NET_RAW;
  mkId (str "net_admin") AID_NET_ADMIN;
  mkId (str "net_bw_stats") AID_NET_BW_STATS;
  mkId (str "net_bw_acct") AID_NET_BW_ACCT;
  mkId (str "qcom_oncrpc") AID_QCOM_ONCRPC;
  mkId (str "qcom_diag") AID_QCOM_DIAG]
  ++ (if MOTOROLA_UIDS then motorola_ids else [])
  ++ [mkId (str "misc") AID_MISC; mkId (str "nobody") AID_NOBODY].

(** the digits of an octal constant *)
Definition octal (a b c d : Z) : Z := ((a * 8 + b) * 8 + c) * 8 + d.

(** a prefix of NULL ends a table *)
Record fs_path_config := mkRule { mode : Z; uid : Z; gid : Z; prefix : option (list Z) }.

Definition android_dirs : list fs_path_config := [
  mkRule (octal 0 7 7 0) AID_SYSTEM AID_CACHE (Some (str "cache"));
  mkRule (octal 0 7 7 1) AID_SYSTEM AID_SYSTEM (Some (str "data/app"));
  mkRule (octal 0 7 7 1) AID_SYSTEM AID_SYSTEM (Some (str "data/app-private"));
  mkRule (octal 0 7 7 1) AID_SYSTEM AID_SYSTEM (Some (str "data/dalvik-cache"));
  mkRule (octal 0 7 7 1) AID_SYSTEM AID_SYSTEM (Some (str "data/data"));
  mkRule (octal 0 7 7 1) AID_SHELL AID_SHELL (Some (str "data/local/tmp"));
  mkRule (octal 0 7 7 1) AID_SHELL AID_SHELL (Some (str "data/local"));
  mkRule (octal 1 7 7 1) AID_SYSTEM AID_MISC (Some (str "data/misc"));
  mkRule (octal 0 7 7 0) AID_DHCP AID_DHCP (Some (str "data/misc/dhcp"));
  mkRule (octal 0 7 7 5) AID_MEDIA_RW AID_MEDIA_RW (Some (str "data/media"));
  mkRule (octal 0 7 7 5) AID_MEDIA_RW AID_MEDIA_RW (Some (str "data/media/Music"));
  mkRule (octal 0 7 7 1) AID_SYSTEM AID_SYSTEM (Some (str "data"));
  mkRule (octal 0 7 5 0) AID_ROOT AID_SHELL (Some (str "sbin"));
  mkRule (octal 0 7 5 5) AID_ROOT AID_ROOT (Some (str "system/addon.d"));
  mkRule (octal 0 7 5 5) AID_ROOT AID_SHELL (Some (str "system/bin"));
  mkRule (octal 0 7 5 5) AID_ROOT AID_SHELL (Some (str "system/vendor"));
  mkRule (octal 0 7 5 5) AID_ROOT AID_SHELL (Some (str "system/xbin"));
  mkRule (octal 0 7 5 5) AID_ROOT AID_ROOT (Some (str "system/etc/ppp"));
  mkRule (octal 0 7 7 7) AID_ROOT AID_ROOT (Some (str "sdcard"));
  mkRule (octal 0 7 5 5) AID_ROOT AID_ROOT None].

Definition android_files : list fs_path_config := [
  mkRule (octal 0 4 4 0) AID_ROOT AID_SHELL (Some (str "system/etc/init.goldfish.rc"));
  mkRule (octal 0 5 5 0) AID_ROOT AID_SHELL (Some (str "system/etc/init.goldfish.sh"));
  mkRule (octal 0 4 4 0) AID_ROOT AID_SHELL (Some (str "system/etc/init.trout.rc"));
  mkRule (octal 0 5 5 0) AID_ROOT AID_SHELL (Some (str "system/etc/init.ril"));
  mkRule (octal 0 5 5 0) AID_ROOT AID_SHELL (Some (str "system/etc/init.testmenu"));
  mkRule (octal 0 5 5 0) AID_DHCP AID_SHELL (Some (str "system/etc/dhcpcd/dhcpcd-run-hooks"));
  mkRule (octal 0 4 4 0) AID_BLUETOOTH AID_BLUETOOTH (Some (str "system/etc/dbus.conf"));
  mkRule (octal 0 4 4 4) AID_RADIO AID_AUDIO (Some (str "system/etc/AudioPara4.csv"));
  mkRule (octal 0 5 5 5) AID_ROOT AID_ROOT (Some (str "system/etc/ppp/*"));
  mkRule (octal 0 5 5 5) AID_ROOT AID_ROOT (Some (str "system/etc/rc.*"));
  mkRule (octal 0 7 5 5) AID_ROOT AID_ROOT (Some (str "system/addon.d/*"));
  mkRule (octal 0 6 4 4) AID_SYSTEM AID_SYSTEM (Some (str "data/app/*"));
  mkRule (octal 0 6 4 4) AID_MEDIA_RW AID_MEDIA_RW (Some (str "data/media/*"));
  mkRule (octal 0 6 4 4) AID_SYSTEM AID_SYSTEM (Some (str "data/app-private/*"));
  mkRule (octal 0 6 4 4) AID_APP AID_APP (Some (str "data/data/*"));
  mkRule (octal 2 7 5 5) AID_ROOT AID_NET_RAW (Some (str "system/bin/ping"));
  mkRule (octal 2 7 5 0) AID_ROOT AID_INET (Some (str "system/bin/netcfg"));
  mkRule (octal 6 7 5 5) AID_ROOT AID_ROOT (Some (str "system/xbin/su"));
  mkRule (octal 6 7 5 5) AID_ROOT AID_ROOT (Some (str "system/xbin/librank"));
  mkRule (octal 6 7 5 5) AID_ROOT AID_ROOT (Some (str "system/xbin/procrank"));
  mkRule (octal 6 7 5 5) AID_ROOT AID_ROOT (Some (str "system/xbin/procmem"));
  mkRule (octal 6 7 5 5) AID_ROOT AID_ROOT (Some (str "system/xbin/tcpdump"));
  mkRule (octal 4 7 7 0) AID_ROOT AID_RADIO (Some (str "system/bin/pppd-ril"));
  mkRule (octal 6 7 5 0) AID_ROOT AID_SHELL (Some (str "system/bin/run-as"));
  mkRule (octal 6 7 5 0) AID_ROOT AID_SYSTEM (Some (str "system/bin/rebootcmd"));
  mkRule (octal 0 7 5 5) AID_ROOT AID_SHELL (Some (str "system/bin/*"));
  mkRule (octal 0 7 5 5) AID_ROOT AID_ROOT (Some (str "system/lib/valgrind/*"));
  mkRule (octal 0 7 5 5) AID_ROOT AID_SHELL (Some (str "system/xbin/*"));
  mkRule (octal 0 7 5 5) AID_ROOT AID_SHELL (Some (str "system/vendor/bin/*"));
  mkRule (octal 0 7 5 0) AID_ROOT AID_SHELL (Some (str "sbin/*"));
  mkRule (octal 0 7 5 5) AID_ROOT AID_ROOT (Some (str "bin/*"));
  mkRule (octal 0 7 5 0) AID_ROOT AID_SHELL (Some (str "init*"));
  mkRule (octal 0 7 5 0) AID_ROOT AID_SHELL (Some (str "charger*"));
  mkRule (octal 0 7 5 0) AID_ROOT AID_SHELL (Some (str "sbin/fs_mgr"));
  mkRule (octal 0 6 4 0) AID_ROOT AID_SHELL (Some (str "fstab.*"));
  mkRule (octal 0 7 5 5) AID_ROOT AID_SHELL (Some (str "system/etc/init.d/*"));
  mkRule (octal 0 6 4 4) AID_ROOT AID_ROOT None].

(** does the rule end the loop?  None: prefix[-1] is read *)
Definition rule_matches (dir : bool) (prefix path : list Z) : option bool :=
  let len := length prefix in
  let plen := length path in
  if dir then Some (if decide (plen < len)%nat then false else strncmp_eq prefix path len)
  else
    match list.last prefix with
    | None => None
    | Some c =>
        Some (if c =? 42 then strncmp_eq prefix path (len - 1)
              else if decide (plen = len) then strncmp_eq prefix path len else false)
    end.

(** for(; pc->prefix; pc++); None: outside of the table *)
Fixpoint find_rule (dir : bool) (path : list Z) (pc : list fs_path_config) : option fs_path_config :=
  match pc with
  | [] => None
  | r :: pc' =>
      match prefix r with
      | None => Some r
      | Some pre =>
          match rule_matches dir pre path with
          | None => None
          | Some true => Some r
          | Some false => find_rule dir path pc'
          end
      end
  end.

(** the new uid, gid and mode *)
Definition fs_config (path : list Z) (dir : bool) (mode0 : Z) : option (Z * Z * Z) :=
  r ← find_rule dir path (if dir then android_dirs else android_files);
  Some (uid r, gid r, Z.lor (Z.land mode0 (Z.lnot (octal 7 7 7 7))) (mode r)).

(** ** What the rules mean *)

(** A directory rule covers the paths that start with its prefix, a file rule
    the path itself, or the paths that start with what is before its asterisk. *)
Inductive covers (path : list Z) : bool → option (list Z) → Prop :=
| covers_dir pre : pre `prefix_of` path → covers path true (Some pre)
| covers_file pre : list.last pre ≠ Some 42 → path = pre → covers path false (Some pre)
| covers_star pre : pre `prefix_of` path → covers path false (Some (pre ++ [42]))
| covers_rest dir : covers path dir None.

(** a table: the rules have prefixes, the last one has none *)
Definition well_formed (t : list fs_path_config) : Prop :=
  ∃ rules rest, t = rules ++ [rest] ∧ prefix rest = None
    ∧ Forall (λ r, ∃ c pre, prefix r = Some (c :: pre)) rules.

Lemma strncmp_eq_sym a b n : strncmp_eq a b n = strncmp_eq b a n.
Proof.
  revert a b. induction n as [|n IH]; intros [|x a] [|y b]; simpl; try done.
  by rewrite Z.eqb_sym, IH.
Qed.
Lemma strncmp_eq_app a c b : strncmp_eq (a ++ [c]) b (length a) = strncmp_eq a b (length a).
Proof. revert b. induction a as [|x a IH]; intros [|y b]; simpl; try done. by rewrite IH. Qed.

Lemma covers_file_inv path pre : covers path false (Some pre) →
  (list.last pre ≠ Some 42 ∧ path = pre) ∨ ∃ q, pre = q ++ [42] ∧ q `prefix_of` path.
Proof. inversion 1; subst; eauto. Qed.

Lemma rule_matches_spec dir pre path : pre ≠ [] →
  ∃ b, rule_matches dir pre path = Some b ∧ (b = true ↔ covers path dir (Some pre)).
Proof.
  intros Hne. unfold rule_matches. destruct dir; [|destruct (list.last pre) as [c|] eqn:Hl];
    [| |by apply list.last_None in Hl]; eexists; (split; [done|]).
  - split.
    + case_decide; [done|]. rewrite strncmp_eq_sym, strncmp_eq_prefix. intros Hp. by constructor.
    + intros H. inversion H as [? Hp| | |]; subst. pose proof (prefix_length _ _ Hp).
      rewrite decide_False by lia. by rewrite strncmp_eq_sym, strncmp_eq_prefix.
  - apply list.last_Some in Hl as [l ->]. rewrite length_app. cbn [length].
    destruct (Z.eqb_spec c 42) as [->|Hc].
    + replace (length l + 1 - 1)%nat with (length l) by lia.
      rewrite strncmp_eq_app, strncmp_eq_sym, strncmp_eq_prefix. split; [by constructor|].
      intros [[Hs _]|(q & Heq & Hp)]%covers_file_inv.
      * by rewrite list.last_snoc in Hs.
      * by apply app_inj_tail in Heq as [-> _].
    + replace (length l + 1)%nat with (length (l ++ [c])) by (by rewrite length_app). split.
      * case_decide as Hd; [|done]. rewrite strncmp_eq_sym, strncmp_eq_prefix. intros [k ->]. apply covers_file.
        { rewrite list.last_snoc. congruence. }
        rewrite !length_app in Hd. cbn in Hd. destruct k; [by rewrite app_nil_r|cbn in Hd; lia].
      * intros [[Hs ->]|(q & Heq & Hp)]%covers_file_inv.
        { rewrite decide_True by done. by rewrite strncmp_eq_prefix. }
        apply app_inj_tail in Heq as [_ ?]. congruence.
Qed.

Lemma find_rule_first dir path t : well_formed t →
  ∃ i r, find_rule dir path t = Some r ∧ t !! i = Some r ∧ covers path dir (prefix r)
    ∧ ∀ j r', (j < i)%nat → t !! j = Some r' → ¬ covers path dir (prefix r').
Proof.
  intros (rules & rest & -> & Hr & Hf). induction rules as [|r rules IH]; cbn [app find_rule].
  - rewrite Hr. exists 0%nat, rest. split_and!; try done; [rewrite Hr; constructor|lia].
  - apply list.Forall_cons in Hf as [(c & pre & Hpre) Hf]. rewrite Hpre.
    destruct (rule_matches_spec dir (c :: pre) path) as (b & -> & Hb); [done|].
    destruct b.
    + exists 0%nat, r. split_and!; try done; [rewrite Hpre; by apply Hb|lia].
    + destruct (IH Hf) as (i & q & Hq & Hi & Hc & Hj). exists (S i), q. split_and!; try done.
      intros [|j] r' Hlt Hl; cbn in Hl.
      * injection Hl as <-. rewrite Hpre. intros H. by apply Hb in H.
      * apply (Hj j r'); [lia|done].
Qed.

Lemma split_last_rule t r : list.last t = Some r → prefix r = None →
  Forall (λ r, ∃ c pre, prefix r = Some (c :: pre)) (take (pred (length t)) t) → well_formed t.
Proof.
  intros [l ->]%list.last_Some Hr Hl. exists l, r. split_and!; [done..|].
  rewrite length_app, take_app_length' in Hl; [done|cbn; lia].
Qed.
Lemma dirs_well_formed : well_formed android_dirs.
Proof. eapply split_last_rule; [done..|]. cbn. repeat constructor; cbn; eauto. Qed.
Lemma files_well_formed : well_formed android_files.
Proof. eapply split_last_rule; [done..|]. cbn. repeat constructor; cbn; eauto. Qed.

(** For every path fs_config returns, without leaving its table, the owner
    of the first rule that covers the path, and a mode with the permission bits
    of that rule and the other bits of the caller. *)
Theorem fs_config_first_rule path (dir : bool) mode0 :
  let t := if dir then android_dirs else android_files in
  ∃ i r m, fs_config path dir mode0 = Some (uid r, gid r, m)
    ∧ t !! i = Some r ∧ covers path dir (prefix r)
    ∧ (∀ j r', (j < i)%nat → t !! j = Some r' → ¬ covers path dir (prefix r'))
    ∧ Z.land m (octal 7 7 7 7) = mode r
    ∧ Z.land m (Z.lnot (octal 7 7 7 7)) = Z.land mode0 (Z.lnot (octal 7 7 7 7)).
Proof.
  intros t. assert (Ht : well_formed t).
  { unfold t. destruct dir; [apply dirs_well_formed|apply files_well_formed]. }
  assert (Hm : ∀ r, r ∈ t → Z.land (mode r) (octal 7 7 7 7) = mode r).
  { assert (Hall : forallb (λ r, Z.land (mode r) (octal 7 7 7 7) =? mode r) t = true)
      by (unfold t; destruct dir; vm_compute; reflexivity).
    intros r Hr. apply Z.eqb_eq. rewrite forallb_forall in Hall. apply Hall. by apply list_elem_of_In. }
  destruct (find_rule_first dir path t Ht) as (i & r & Hf & Hi & Hc & Hj).
  exists i, r. eexists. unfold fs_config. fold t. rewrite Hf. split_and!; try done.
  all: specialize (Hm r (list_elem_of_lookup_2 _ _ _ Hi)); apply Z.bits_inj'; intros n Hn;
    apply (f_equal (λ x, Z.testbit x n)) in Hm; rewrite Z.land_spec in Hm;
    rewrite !Z.land_spec, Z.lor_spec, Z.land_spec, !Z.lnot_spec by done;
    destruct (Z.testbit (octal 7 7 7 7) n), (Z.testbit mode0 n), (Z.testbit (mode r) n); done.
Qed.

(** the index of a rule is determined by the path; a rule is dead if an
    earlier one covers whatever it covers *)
Lemma rule_dead dir (t : list fs_path_config) i j r r' : t !! i = Some r → t !! j = Some r' → (j < i)%nat →
  (∀ path, covers path dir (prefix r) → covers path dir (prefix r')) →
  ¬ ∃ path, covers path dir (prefix r)
    ∧ ∀ k r'', (k < i)%nat → t !! k = Some r'' → ¬ covers path dir (prefix r'').
Proof. intros Hi Hj Hlt Hsub (path & Hc & Hk). apply (Hk j r' Hlt Hj), Hsub, Hc. Qed.
Lemma str_app a b : str (a +:+ b) = str a ++ str b.
Proof. unfold str. rewrite <- fmap_app. f_equal. induction a as [|c a IH]; [done|]. change (String c a +:+ b) with (String c (a +:+ b)). cbn. by rewrite IH. Qed.
Lemma covers_longer path a b : covers path true (Some (a ++ b)) → covers path true (Some a).
Proof. inversion 1; subst. constructor. by eapply prefix_app_l. Qed.
Lemma covers_star_file path a b : list.last (a ++ b) ≠ Some 42 →
  covers path false (Some (a ++ b)) → covers path false (Some (a ++ [42])).
Proof.
  intros Hl [[_ ->]|(q & Heq & _)]%covers_file_inv.
  - apply covers_star. by exists b.
  - destruct Hl. rewrite Heq. apply list.last_snoc.
Qed.

Definition dead_rule (dir : bool) (t : list fs_path_config) (pre : string) : Prop :=
  ∃ i r, t !! i = Some r ∧ prefix r = Some (str pre)
    ∧ ¬ ∃ path, covers path dir (prefix r)
        ∧ ∀ k r'', (k < i)%nat → t !! k = Some r'' → ¬ covers path dir (prefix r'').

(** Rules that never apply, against the comment that the most specific path
    comes first: data/app covers data/app-private, data/misc covers
    data/misc/dhcp, data/media covers data/media/Music, and sbin/* covers
    sbin/fs_mgr.  Of these only data/misc/dhcp would give another result. *)
Theorem shadowed_rules :
  dead_rule true android_dirs "data/app-private" ∧ dead_rule true android_dirs "data/misc/dhcp"
  ∧ dead_rule true android_dirs "data/media/Music" ∧ dead_rule false android_files "sbin/fs_mgr".
Proof.
  assert (Hd : ∀ i j a b r r', android_dirs !! i = Some r → prefix r = Some (str (a +:+ b)) →
    android_dirs !! j = Some r' → prefix r' = Some (str a) → (j < i)%nat → dead_rule true android_dirs (a +:+ b)).
  { intros i j a b r r' Hi Hp Hj Hp' Hlt. exists i, r. split_and!; try done.
    apply (rule_dead _ _ _ j r r'); try done. intros path. rewrite Hp, Hp', str_app. apply covers_longer. }
  split_and!.
  - eapply (Hd 2%nat 1%nat "data/app" "-private"); [reflexivity..|lia].
  - eapply (Hd 8%nat 7%nat "data/misc" "/dhcp"); [reflexivity..|lia].
  - eapply (Hd 10%nat 9%nat "data/media" "/Music"); [reflexivity..|lia].
  - exists 33%nat. eexists. split_and!; [done..|].
    eapply (rule_dead _ _ _ 29%nat); [reflexivity..|lia|]. intros path.
    apply (covers_star_file path (str "sbin/") (str "fs_mgr")). by vm_compute.
Qed.

(** Names and numbers correspond one to one, in both configurations. *)
Theorem android_ids_distinct m :
  NoDup (id_name <$> android_ids m) ∧ NoDup (aid <$> android_ids m).
Proof. destruct m; split; refine (bool_decide_unpack _ _); vm_compute; reflexivity. Qed.

(** The files with a set-uid bit, and the two that are set-gid only. *)
Theorem setuid_files :
  omap prefix (filter (λ r, Z.testbit (mode r) 11 = true) android_files)
  = str <$> ["system/xbin/su"; "system/xbin/librank"; "system/xbin/procrank"; "system/xbin/procmem";
             "system/xbin/tcpdump"; "system/bin/pppd-ril"; "system/bin/run-as"; "system/bin/rebootcmd"]%string
  ∧ omap prefix (filter (λ r, Z.testbit (mode r) 10 = true ∧ Z.testbit (mode r) 11 = false) android_files)
  = str <$> ["system/bin/ping"; "system/bin/netcfg"]%string.
Proof. split; vm_compute; reflexivity. Qed.

Lemma dhcp_directory : fs_config (str "data/misc/dhcp") true 0 = Some (AID_SYSTEM, AID_MISC, octal 1 7 7 1).
Proof. reflexivity. Qed.
